(* ===== verification/_CoqProject ===== *)
-Q . S2P
Prelude.v
Host.v
Shared.v
Binary64.v
Json.v
Css.v
Particles.v
Konami.v
Scroll.v
Widgets.v
PastStreams.v
Observe.v
Stagger.v
Pointer.v
Decor.v
Effects.v
Page.v
