(* ===== verification/Prelude.v ===== *)
(** * A verification development for the portfolio page script

  The repository is one browser script, [src/script.js], that attaches
  independent event handlers to a static page.  The handlers share no
  JavaScript state with each other; they meet only in the host: the DOM
  elements they restyle, the timer queue ([setTimeout]), the animation
  frame queue ([requestAnimationFrame]), [Math.random] and [localStorage].
  The development models the handlers as executable Rocq functions over
  explicit state, the host services they call as small explicit state
  machines, and proves what makes each handler correct, or shows where
  it is not.

  FILES (in dependency order)

  - [Prelude] (this file): JavaScript values: numbers as exact rationals
    [Q] with the IEEE special values ([jsnum]; [js_div], [js_add],
    [js_ge], [js_floor], [Math_PI]), [slice(-n)] ([js_slice_last]),
    [join] ([js_join]), string truthiness, [classList] ([ClassList]);
    the [page] hint databases, the tactics [qbool], [qcase], [zcase] and
    the list and arithmetic lemmas the components share.
  - [Host]: [Math.random] as the class [Random] with a linear
    congruential instance; the timer queue ([Timers]: [setTimeout],
    [clearTimeout], [earliest], [advance_to]) with a virtual clock.
    Every component defunctionalises its callbacks into an inductive
    [task] and gives its [run_task]; [advance_to run_task fuel t] fires
    the due timers in order of due time, ties in scheduling order.
  - [Binary64]: JavaScript numbers where the result depends on their
    rounding: [Digits] (decimal digits of an integer), [round] (nearest
    binary64 value, ties to even, subnormals and overflow), [add],
    [sub], [mul], [div], and [Number::toString] ([toString]: the
    shortest decimal that rounds back, in the plain, fractional or
    exponential form); [Decimal.value] reads such a text back.
    [Binary64Props] proves the relative error of a rounding is at most
    [2^-53] on the normal range ([round_pos_normal]), that rounding
    respects the equality of rationals ([round_Proper]) and is
    idempotent ([round_pos_idem]); [ToStringProps] proves
    [Number(String(x)) === x] for every normal double
    ([toString_roundtrip]) and the shape of the text's first character.
  - [Json]: the host's [JSON.stringify] and [JSON.parse] over JSON
    values ([json]) whose numbers are doubles and whose strings are the
    UTF-8 bytes of their code units: the parser reads the ECMA-404
    number grammar (fractions and exponents) and rounds with
    [Binary64.round], and decodes every [\u] escape, surrogate pairs
    included; it is a recursive descent with fuel.  The round trip
    [JSON_roundtrip] holds for well-formed values (numbers zero or
    normal doubles below [2^1023]).
  - [Particles] (script.js 376-461), Module [Canvas]: [Particle] with
    [reset], [update], [draw], the canvas context's fill and shadow state,
    and [animateParticles] as one frame over a [world].  [CanvasProps]
    states the particle invariant [Inv] and proves every operation keeps
    it; [CanvasClaims] C1-C4: the invariant holds in every frame, the
    distance guard of [update] is dead code, every particle is reset
    within 160 updates, and the glow of each particle is painted on the
    next one.
  - [Konami] (script.js 346-371): [keydown] with the 10-key buffer and the
    5000 ms clear timer, on the [Host] timer queue.  C5-C8: the buffer
    is the last 10 keys; the join test is list equality for comma-free
    keys; keys that carry commas (one key per comma-joined group of the
    pattern) start the effect although the buffer is not the pattern;
    and a second trigger within 5000 ms does not extend the effect: the
    first trigger's timer, which no later [keydown] clears, ends it at
    [t1 + 5000].
  - [Shared]: the components on one timer queue.  Each component is
    written against a [lift] of its tasks into the page's task type
    ([keydown_at], [type_step_at], [submit_at], [window_load_at], ...),
    its stand-alone definition being the instance at the identity.
    [related] relates a component's own queue to the shared one (the
    shared entries it owns, a renaming of timer ids, fresh ids kept in
    step), and the [Simulation] section proves that firing the shared
    queue runs a component's timers as its own queue would, whatever
    the other components schedule or clear in between.
  - [Css] (script.js 206-223): the progress bar's inline declaration
    block: the [cssText] setter ([parse_cssText]) and the [style.width]
    setter, which drops a value the CSS parser rejects ([set_width]).
  - [Scroll] (script.js 1-32, 84-105, 203-223, 322-337), Module [Nav]: a
    [page] record of the menu, navbar, links, sections, progress bar,
    [ticking] flag and pending frame; the four scroll listeners run in
    registration order ([scroll_event]); [step] and [reachable] define
    the page's runs.  C9-C14: the throttle invariant, highlighting on
    every scroll, the band a section selects, the substring collision
    of [href*=id] (a link after one whose [href] contains every id its
    own contains is never selected), the progress bar's width (the binary64 text of
    [scrolled] with [%], written only when CSS accepts it), the menu
    kept in sync.
  - [Widgets] (script.js 463-488, 572-589): Modules [Notify] (the submit
    listener, [localStorage] as a [gmap string string]) and [Fallback]
    (the embed fallback timer); C15-C18.
  - [PastStreams] (script.js 490-570), Module [Streams]: the panel's
    [click] toggle, [loadPastStreams] and [saveStreamRecording] over the
    same [localStorage] map.  C23-C29: saved records come back newest
    first (through the JSON round trip), opening re-renders while the
    grid has at most one child, the placeholder is shown once, the panel
    goes stale after two cards, the error paths of bad stored data, and
    the notify form and this widget do not touch each other's key.
    [Date.now()] is an argument in ECMA-262's time range
    ([time_value_ok]); the final [console.log] is not modelled.
    C40: the stored list keeps its type (a JSON array of JSON-safe
    values) under every operation that touches [localStorage], and a
    save on a typed store never throws.
  - [Observe] (script.js 37-58, 228-240): the element store [Dom] (a
    [gmap nat element]; an element found by two selectors is one entry)
    and the two [IntersectionObserver]s, [Reveal] and [Lazy], with the
    browser's batches of entries (duplicates included).  C30-C32:
    reveal refines "shown iff ever reported intersecting"; lazy loading
    refines "loaded iff ever seen" in every run the browser can produce,
    the loaded [src] being the [data-src] when the first batch reporting
    the image held one entry for it and ["undefined"] when it held two;
    a batch that reports one image twice sets its [src] to
    ["undefined"].
  - [Stagger] (script.js 63-66): the [animationDelay] of each project
    card on the same element store, [index * 0.1] as a binary64 product
    printed by [Binary64.toString].  C39: each card gets the delay of its
    own index, within a relative [2^-52] of [index / 10], and the text
    reads back as the double it prints.
  - [Pointer] (script.js 71-82, 152-201, 245-250): parallax, cursor
    glow, card tilt and social hover on the same element store.
    C33-C36: the parallax offset within 10px (and the IEEE values of a
    zero-width window), the glow centred on the pointer only when the
    window was wide at load, the tilt bounded by the card's size, and a
    card's style as the composition of its four writers.
  - [Decor] (script.js 139-150, 273-320): [createStars] and the floating
    particles over the one [Math.random] stream.  C37: the star loop is
    the [", "]-join of the drawn stars; C38: the particles' bounds.
  - [Effects] (script.js 107-134, 255-268): Modules [Typing] (typeWriter
    and the load handler) and [Counter] ([animateCounter], its increment
    and sums computed with [Binary64.div] and [Binary64.add]); C19:
    typing terminates with the whole text; C20-C22: the counter stops
    after [N] periods, [N] within one of [ceil(duration/16)], for
    [target] in [[2^-900, 2^900]] and [duration] in [[1, 2^24]] ms, and
    never stops for a negative target with duration under 16 ms or for
    [0 / 0].
  - [Page] (script.js 342-344, 364-374 and the load listeners 126, 342,
    573): the whole page: the console banner, the [@keyframes rainbow]
    style and the appended elements, the [window] load listeners in
    registration order (typing start, [preload] removal, fallback
    timer), the key, form and player events, all on ONE timer queue.
    C10: a session of the page, run on the shared queue, leaves the
    Konami buffer, the notify form, the embed and the subtitle exactly
    as each component's own session would (a refinement proved with
    [Shared]'s simulation).

  Each theorem with hypotheses has a witness lemma in the [...Witnesses]
  module of its file that applies it to a concrete page.

  Fuel and bounds.  [advance_to] takes fuel; a component whose callbacks
  schedule no timers gets one firing per pending timer plus one ([tick]
  in [Konami] and [Widgets]), which is enough since every firing removes
  a timer.  The typing chain schedules one timer per character, and C19
  gives it [length + 2] firings: the start timer, one per character and
  the final call that stops.  [JSON_parse] gives the parser twice the
  text's length: every call either consumes a character or is followed
  by one that does, and [JSON_roundtrip] shows the length of a value's
  text is enough for it.  The particle bound 160 comes from the
  slowest fade, 0.005 per update from at most 0.8 opacity.

  Numbers.  JavaScript numbers are IEEE doubles.  Where a double is only
  compared or bounded, the model computes with exact rationals and keeps
  the special values only where the code can produce them (division by
  zero in the progress bar and the counter); constants that are doubles
  in the source ([Math.PI]) get their exact double value, and the
  margins of the bounds (for instance 278 < 300 for the particle
  distance) are far wider than any rounding error.  The counter is
  binary64: its [N]-th sum carries a relative error of at most
  [2 N 2^-53] ([CounterProps.fsum_bounds]), which with [N <= 2^20] moves
  the stopping period by at most one from [ceil(duration/16)] (for
  [(100, 2000)] it is 126, not 125, as in a browser).  Where the page prints a computed double
  (the card stagger, the progress bar's width), rounding decides the
  text, and [Binary64] models every operation of the expression: C13
  states the width is the printed double [toString(scrolled) + "%"]
  (accepted by CSS since [ToStringProps.toString_parses] reads every
  finite non-negative double's text back) and that the NaN of a page no
  taller than the window leaves the width as it was; C39 holds for every index below [2^53] (above, an index
  is no longer an exact double).  [Binary64.toString] searches the digit
  counts 1 to 16 and takes the nearest 17-digit decimal at the end:
  [ToStringProps.level17_denotes] proves 17 digits always suffice for a
  normal double, so the fuel of [search] is enough.

  JSON numbers are doubles: [JSON.parse] rounds the decimal it reads
  ([Json.fraction_numbers] reads [1.5], [-2.5E+2], [0.1] and [1e400]),
  and the round trip of a number rests on [ToStringProps.toString_roundtrip].

  Page fuel.  C10 gives the shared queue [S F] firings per tick, one
  more than the Konami and form ticks; the hypothesis [settles] (a
  boolean the witness evaluates) says the fuel drains the queue at
  every event, and [Shared.advance_merge_settled] shows extra fuel
  changes nothing once it does.

  Not modelled: the layout the browser computes
  ([getBoundingClientRect], [offsetTop] and the intersection ratios are
  inputs of the model); the CSS text other than the progress bar's
  declarations is kept as constant strings ([Page.rainbowStyle_text]),
  not parsed; the console is the list of logged strings.
*)

From Stdlib Require Import QArith Qround Lqa List String Lia ZArith Bool.
Import ListNotations.

Declare Scope js_scope.
Delimit Scope js_scope with js.

Create HintDb page.
Create Rewrite HintDb page.
#[export] Hint Constants Transparent : page.

(** ** JavaScript numbers *)

(** A double of the source is a rational here; the special values are
    kept for the operations that produce them. *)
Inductive jsnum : Type :=
| JFin (q : Q)
| JPosInf
| JNegInf
| JNaN.

Definition Qltb (a b : Q) : bool := negb (Qle_bool b a).

(** [a / b] on two finite doubles (the zero of [b] is +0). *)
Definition js_div (a b : Q) : jsnum :=
  if Qeq_bool b 0 then
    if Qeq_bool a 0 then JNaN
    else if Qltb 0 a then JPosInf else JNegInf
  else JFin (a / b).

(** [x * k] for a finite constant [k]. *)
Definition js_mul (x : jsnum) (k : Q) : jsnum :=
  match x with
  | JFin q => JFin (q * k)
  | JPosInf => if Qeq_bool k 0 then JNaN else if Qltb 0 k then JPosInf else JNegInf
  | JNegInf => if Qeq_bool k 0 then JNaN else if Qltb 0 k then JNegInf else JPosInf
  | JNaN => JNaN
  end.

Definition is_nan (x : jsnum) : bool :=
  match x with JNaN => true | _ => false end.

(** [x + y]; infinities of opposite signs give NaN. *)
Definition js_add (x y : jsnum) : jsnum :=
  match x, y with
  | JFin a, JFin b => JFin (a + b)
  | JNaN, _ | _, JNaN => JNaN
  | JPosInf, JNegInf | JNegInf, JPosInf => JNaN
  | JPosInf, _ | _, JPosInf => JPosInf
  | JNegInf, _ | _, JNegInf => JNegInf
  end.

(** [x >= q] for a finite [q]: false on NaN. *)
Definition js_ge (x : jsnum) (q : Q) : bool :=
  match x with
  | JFin a => Qle_bool q a
  | JPosInf => true
  | JNegInf | JNaN => false
  end.

(** [Math.floor(x)]; the special values are their own floor. *)
Definition js_floor (x : jsnum) : jsnum :=
  match x with
  | JFin a => JFin (inject_Z (Qfloor a))
  | o => o
  end.

(** [Math.PI], the double nearest to pi, as the exact rational it is. *)
Definition Math_PI : Q := 884279719003555 # 281474976710656.

Notation "a /. b" := (js_div a b) (at level 40, left associativity) : js_scope.

(** ** Strings and arrays *)

(** JavaScript truthiness of a string: only the empty string is falsy. *)
Definition js_truthy_string (s : string) : bool :=
  negb (String.eqb s EmptyString).

(** [arr.slice(-n)]: the start index [length - n], clamped at 0. *)
Definition js_slice_last {A} (n : nat) (l : list A) : list A :=
  skipn (List.length l - n) l.

(** [arr[i]] for an integer index: [undefined] (here [None]) outside. *)
Definition js_index {A} (l : list A) (i : Z) : option A :=
  if (i <? 0)%Z then None else nth_error l (Z.to_nat i).

(** Apply [f] to the element at index [j]; nothing happens out of range
    (the code only updates elements it found). *)
Fixpoint list_update {A} (j : nat) (f : A -> A) (l : list A) : list A :=
  match l, j with
  | [], _ => []
  | x :: rest, O => f x :: rest
  | x :: rest, S j' => x :: list_update j' f rest
  end.

(** [arr.join(sep)]. *)
Fixpoint js_join (sep : string) (l : list string) : string :=
  match l with
  | [] => EmptyString
  | [x] => x
  | x :: rest => (x ++ sep ++ js_join sep rest)%string
  end.

(** ** [element.classList] *)

Module ClassList.

Definition contains (c : string) (l : list string) : bool :=
    existsb (String.eqb c) l.

Definition add (c : string) (l : list string) : list string :=
    if contains c l then l else l ++ [c].

Definition remove (c : string) (l : list string) : list string :=
    filter (fun x => negb (String.eqb c x)) l.

Definition toggle (c : string) (l : list string) : list string :=
    if contains c l then remove c l else add c l.

End ClassList.

(** ** Shared lemmas *)

Section ListLemmas.
Local Open Scope nat_scope.

Lemma js_slice_last_rev {A} (n : nat) (l : list A) :
  js_slice_last n l = rev (firstn n (rev l)).
Proof.
  unfold js_slice_last. revert n. induction l as [|x l IH]; intros n; [now destruct n|].
  simpl rev. destruct (Nat.le_gt_cases (List.length (x :: l)) n) as [Hle|Hgt].
  - replace (List.length (x :: l) - n) with 0 by lia. simpl skipn.
    rewrite firstn_all2 by (rewrite length_app, length_rev; simpl in *; lia).
    now rewrite rev_app_distr, rev_involutive.
  - simpl List.length in *. replace (S (List.length l) - n) with (S (List.length l - n)) by lia.
    simpl skipn. rewrite IH, firstn_app, length_rev.
    replace (n - List.length l) with 0 by lia. now rewrite app_nil_r.
Qed.

Lemma js_slice_last_length {A} (n : nat) (l : list A) :
  List.length (js_slice_last n l) = Nat.min n (List.length l).
Proof. unfold js_slice_last. rewrite length_skipn. lia. Qed.

(** Trimming before appending does not change the window: the rolling
    buffer equals the window of the whole history. *)
Lemma js_slice_last_app {A} (n : nat) (l m : list A) :
  js_slice_last n (js_slice_last n l ++ m) = js_slice_last n (l ++ m).
Proof.
  rewrite !js_slice_last_rev, !rev_app_distr, !firstn_app, !rev_involutive.
  rewrite firstn_firstn, Nat.min_l by lia. reflexivity.
Qed.

Lemma js_slice_last_all {A} (n : nat) (l : list A) :
  List.length l <= n -> js_slice_last n l = l.
Proof. intros H. unfold js_slice_last. now replace (List.length l - n) with 0 by lia. Qed.

Lemma Forall_js_slice_last {A} (P : A -> Prop) (n : nat) (l : list A) :
  Forall P l -> Forall P (js_slice_last n l).
Proof.
  unfold js_slice_last. generalize (List.length l - n). intros k. revert l.
  induction k as [|k IH]; intros l Hl; [exact Hl|]. destruct Hl; simpl; [constructor | auto].
Qed.

End ListLemmas.

(** ** Strings *)

Lemma str_app_assoc (a b c : string) : ((a ++ b) ++ c = a ++ (b ++ c))%string.
Proof. induction a as [|x a IH]; simpl; [reflexivity | now rewrite IH]. Qed.

Lemma str_app_nil_r (a : string) : (a ++ EmptyString)%string = a.
Proof. induction a as [|x a IH]; simpl; [reflexivity | now rewrite IH]. Qed.

Lemma str_length_app (a b : string) :
  String.length (a ++ b) = (String.length a + String.length b)%nat.
Proof. induction a as [|x a IH]; simpl; [reflexivity | now rewrite IH]. Qed.

#[export] Hint Rewrite str_app_assoc str_length_app : page.

Lemma Qltb_iff (a b : Q) : Qltb a b = true <-> a < b.
Proof.
  unfold Qltb. rewrite negb_true_iff. split; intros H.
  - apply Qnot_le_lt. intros Hle. apply Qle_bool_iff in Hle. congruence.
  - destruct (Qle_bool b a) eqn:E; [apply Qle_bool_iff in E; exfalso; lra | reflexivity].
Qed.

Lemma Qltb_false (a b : Q) : Qltb a b = false <-> b <= a.
Proof.
  unfold Qltb. rewrite negb_false_iff. apply Qle_bool_iff.
Qed.

Lemma Qle_bool_false (a b : Q) : Qle_bool a b = false <-> b < a.
Proof.
  split; intros H.
  - apply Qnot_le_lt. intros Hle. apply Qle_bool_iff in Hle. congruence.
  - destruct (Qle_bool a b) eqn:E; [apply Qle_bool_iff in E; exfalso; lra | reflexivity].
Qed.

Lemma Qeq_bool_false (a b : Q) : Qeq_bool a b = false <-> ~ a == b.
Proof.
  split; intros H.
  - intros Heq. apply Qeq_bool_iff in Heq. congruence.
  - destruct (Qeq_bool a b) eqn:E; [apply Qeq_bool_iff in E; contradiction | reflexivity].
Qed.

(** Turn the boolean comparisons of the model into propositions. *)
Ltac qbool :=
  repeat match goal with
  | H : Qle_bool _ _ = true |- _ => apply Qle_bool_iff in H
  | H : Qle_bool _ _ = false |- _ => apply Qle_bool_false in H
  | H : Qltb _ _ = true |- _ => apply Qltb_iff in H
  | H : Qltb _ _ = false |- _ => apply Qltb_false in H
  | H : Qeq_bool _ _ = true |- _ => apply Qeq_bool_iff in H
  | H : Qeq_bool _ _ = false |- _ => apply Qeq_bool_false in H
  end.

(** Case on a boolean comparison of the goal and reflect it. *)
Ltac qcase :=
  match goal with
  | |- context [if ?b then _ else _] =>
      let E := fresh "E" in destruct b eqn:E; qbool
  end.

(** Case on the integer comparisons of the goal, closing impossible
    branches with [lia]. *)
Ltac zcase :=
  repeat match goal with
  | |- context [(?a <=? ?b)%Z] => destruct (Z.leb_spec a b); try lia
  | |- context [(?a <? ?b)%Z] => destruct (Z.ltb_spec a b); try lia
  end.

Lemma contains_add (c : string) (l : list string) :
  ClassList.contains c (ClassList.add c l) = true.
Proof.
  unfold ClassList.add. destruct (ClassList.contains c l) eqn:E; [exact E|].
  unfold ClassList.contains. rewrite existsb_app. simpl. now rewrite String.eqb_refl, orb_true_r.
Qed.

Lemma contains_remove (c : string) (l : list string) :
  ClassList.contains c (ClassList.remove c l) = false.
Proof.
  unfold ClassList.contains, ClassList.remove. induction l as [|x l IH]; [reflexivity|].
  simpl. destruct (String.eqb c x) eqn:E; simpl; [exact IH|]. now rewrite E.
Qed.

Lemma contains_add_other (c d : string) (l : list string) :
  c <> d -> ClassList.contains d (ClassList.add c l) = ClassList.contains d l.
Proof.
  intros Hne. unfold ClassList.add. destruct (ClassList.contains c l); [reflexivity|].
  unfold ClassList.contains. rewrite existsb_app. simpl.
  destruct (String.eqb_spec d c); [congruence|]. now rewrite !orb_false_r.
Qed.

Lemma contains_remove_other (c d : string) (l : list string) :
  c <> d -> ClassList.contains d (ClassList.remove c l) = ClassList.contains d l.
Proof.
  intros Hne. unfold ClassList.contains, ClassList.remove. induction l as [|x l IH]; [reflexivity|].
  simpl. destruct (String.eqb_spec c x) as [<-|]; simpl.
  - destruct (String.eqb_spec d c); [congruence|]. exact IH.
  - now rewrite IH.
Qed.

Lemma contains_toggle (c : string) (l : list string) :
  ClassList.contains c (ClassList.toggle c l) = negb (ClassList.contains c l).
Proof.
  unfold ClassList.toggle. destruct (ClassList.contains c l).
  - apply contains_remove.
  - apply contains_add.
Qed.

(** [Math.floor(r * n)] for [0 <= r < 1] is an index in [0, n). *)
Lemma inject_Z_of_nat_S (n : nat) :
  inject_Z (Z.of_nat (S n)) == inject_Z (Z.of_nat n) + 1.
Proof. rewrite Nat2Z.inj_succ. unfold Z.succ. rewrite inject_Z_plus. reflexivity. Qed.

Lemma inject_Z_of_nat_nonneg (n : nat) : 0 <= inject_Z (Z.of_nat n).
Proof. change 0 with (inject_Z 0). rewrite <- Zle_Qle. lia. Qed.

Lemma floor_scaled_range (r : Q) (n : Z) :
  0 <= r -> r < 1 -> (0 < n)%Z -> (0 <= Qfloor (r * inject_Z n) < n)%Z.
Proof.
  intros H0 H1 Hn. pose proof (Qfloor_le (r * inject_Z n)) as Hle.
  pose proof (Qlt_floor (r * inject_Z n)) as Hlt.
  assert (Hn' : inject_Z 0 < inject_Z n) by (rewrite <- Zlt_Qlt; exact Hn).
  change (inject_Z 0) with 0 in Hn'.
  assert (r * inject_Z n < inject_Z n).
  { set (m := inject_Z n) in *. clearbody m.
    setoid_replace m with (1 * m) at 2 by ring.
    apply Qmult_lt_compat_r; assumption. }
  assert (0 <= r * inject_Z n) by (apply Qmult_le_0_compat; lra).
  split.
  - assert (Hz : inject_Z 0 < inject_Z (Qfloor (r * inject_Z n) + 1)) by (change (inject_Z 0) with 0; lra).
    rewrite <- Zlt_Qlt in Hz. lia.
  - assert (Hz : inject_Z (Qfloor (r * inject_Z n)) < inject_Z n) by lra.
    rewrite <- Zlt_Qlt in Hz. exact Hz.
Qed.

(** An array read at [Math.floor(Math.random() * arr.length)] is defined. *)
Lemma js_index_random {A} (l : list A) (r : Q) :
  l <> [] -> 0 <= r -> r < 1 ->
  exists x, js_index l (Qfloor (r * inject_Z (Z.of_nat (List.length l)))) = Some x /\ In x l.
Proof.
  intros Hl H0 H1. destruct l as [|a l']; [congruence|].
  pose proof (floor_scaled_range r (Z.of_nat (List.length (a :: l'))) H0 H1) as [Hlo Hhi];
    [simpl; lia|].
  unfold js_index. destruct (Z.ltb_spec (Qfloor (r * inject_Z (Z.of_nat (List.length (a :: l'))))) 0);
    [lia|].
  destruct (nth_error (a :: l') _) as [x|] eqn:E.
  - exists x. split; [reflexivity|]. eapply nth_error_In; exact E.
  - apply nth_error_None in E. lia.
Qed.

#[export] Hint Rewrite contains_add contains_remove contains_toggle : page.
#[export] Hint Rewrite @js_slice_last_app : page.
#[export] Hint Resolve Qltb_iff Qle_bool_iff : page.
