(* ===== verification/Host.v ===== *)
(** * Host services the page script calls

  The script owns no scheduler and no randomness of its own: it calls
  [Math.random], [setTimeout]/[clearTimeout] and [requestAnimationFrame].
  This file models each as an explicit state:
  - [Random]: a type class for a generator state with the law that every
    draw lies in [0, 1), the contract of [Math.random]; [lcg] is an
    executable instance used by the witnesses.
  - [Timers]: a virtual clock and the queue of pending timeouts; timers
    fire in order of due time, ties in order of scheduling (HTML's timer
    ordering); a negative delay counts as 0.
  - [Frames]: the list of callbacks requested for the next animation
    frame; a frame runs the callbacks queued before it started.
  The page components give the tasks (the callbacks) as data and say how
  each task runs; the runners here are generic in that semantics. *)

From Stdlib Require Import QArith Qround Lqa List String Lia ZArith Bool.
From S2P Require Import Prelude.
Import ListNotations.

(** ** [Math.random] *)

Class Random (R : Type) := {
  random : R -> Q * R;
  random_range : forall r, 0 <= fst (random r) /\ fst (random r) < 1
}.

(** A linear congruential generator over 31-bit integers. *)
Definition lcg_modulus : Z := 2 ^ 31.

Definition lcg_next (s : Z) : Z := (1103515245 * s + 12345) mod lcg_modulus.

Lemma lcg_next_range (s : Z) : (0 <= lcg_next s < lcg_modulus)%Z.
Proof. unfold lcg_next. apply Z.mod_pos_bound. reflexivity. Qed.

Record lcg := Lcg { lcg_seed : Z }.

#[export] Program Instance Random_lcg : Random lcg := {
  random r := let s := lcg_next (lcg_seed r) in (Qmake s (Z.to_pos lcg_modulus), Lcg s)
}.
Next Obligation.
  destruct r as [s]. simpl. pose proof (lcg_next_range s) as [H0 H1].
  unfold Qle, Qlt; simpl. unfold lcg_modulus in *. simpl in *. lia.
Qed.

Section Draws.
Context {R : Type} `{Random R}.

Lemma random_lt1 (r : R) : fst (random r) < 1.
Proof. apply random_range. Qed.

Lemma random_ge0 (r : R) : 0 <= fst (random r).
Proof. apply random_range. Qed.

End Draws.

#[export] Hint Resolve random_lt1 random_ge0 : page.

(** Name every draw of the goal, with its range. *)
Ltac draws :=
  repeat match goal with
  | |- context [random ?g] =>
      let r := fresh "r" in let g' := fresh "g" in
      let Hr := fresh "Hr" in let E := fresh "E" in
      pose proof (random_range g) as Hr;
      destruct (random g) as [r g'] eqn:E; simpl fst in Hr
  end.

(** ** [setTimeout] and [clearTimeout] *)

Section Timers.
Context {T : Type}.

Record timer := Timer { t_id : nat; t_due : Z; t_task : T }.

Record timers := Timers { now : Z; next_id : nat; queue : list timer }.

Definition no_timers (t0 : Z) : timers := Timers t0 1 [].

(** [setTimeout(task, delay)] returns the new timer's id. *)
Definition setTimeout (task : T) (delay : Z) (c : timers) : nat * timers :=
  (next_id c,
   Timers (now c) (S (next_id c))
          (queue c ++ [Timer (next_id c) (now c + Z.max 0 delay) task])).

Definition clearTimeout (id : nat) (c : timers) : timers :=
  Timers (now c) (next_id c) (filter (fun tm => negb (Nat.eqb (t_id tm) id)) (queue c)).

(** The first timer of least due time (the queue is in scheduling order). *)
Fixpoint earliest (q : list timer) : option timer :=
  match q with
  | [] => None
  | tm :: rest =>
      match earliest rest with
      | Some tm' => if (t_due tm' <? t_due tm)%Z then Some tm' else Some tm
      | None => Some tm
      end
  end.

Section Run.
Context {St : Type}.
(** How the page runs a task: it may change the page and schedule timers. *)
Variable run_task : T -> St * timers -> St * timers.

(** Let the clock reach [t], running every timer due at or before [t]. *)
Fixpoint advance_to (fuel : nat) (t : Z) (st : St * timers) : St * timers :=
  match fuel with
  | O => st
  | S fuel' =>
      let '(s, c) := st in
      match earliest (queue c) with
      | Some tm =>
          if (t_due tm <=? t)%Z then
            let c' := Timers (t_due tm) (next_id c)
                        (filter (fun x => negb (Nat.eqb (t_id x) (t_id tm))) (queue c)) in
            advance_to fuel' t (run_task (t_task tm) (s, c'))
          else (s, Timers (Z.max (now c) t) (next_id c) (queue c))
      | None => (s, Timers (Z.max (now c) t) (next_id c) (queue c))
      end
  end.

Lemma advance_fire (fuel : nat) (t : Z) (s : St) (c : timers) (tm : timer) :
  earliest (queue c) = Some tm -> (t_due tm <= t)%Z ->
  advance_to (S fuel) t (s, c) =
  advance_to fuel t (run_task (t_task tm)
    (s, Timers (t_due tm) (next_id c)
          (filter (fun x => negb (Nat.eqb (t_id x) (t_id tm))) (queue c)))).
Proof. intros He Hd. simpl. rewrite He. destruct (Z.leb_spec (t_due tm) t); [reflexivity | lia]. Qed.

End Run.

Lemma earliest_in (q : list timer) (tm : timer) :
  earliest q = Some tm -> In tm q.
Proof.
  induction q as [|x q IH]; simpl; [discriminate|].
  destruct (earliest q) as [tm'|] eqn:E.
  - destruct (t_due tm' <? t_due x)%Z; intros [= <-]; auto.
  - intros [= <-]; auto.
Qed.

Lemma earliest_min (q : list timer) (tm : timer) :
  earliest q = Some tm -> forall x, In x q -> (t_due tm <= t_due x)%Z.
Proof.
  revert tm. induction q as [|y q IH]; simpl; [discriminate|].
  intros tm. destruct (earliest q) as [tm'|] eqn:E.
  - specialize (IH tm' eq_refl).
    destruct (Z.ltb_spec (t_due tm') (t_due y)); intros [= <-] x [<-|Hx]; try lia; auto.
    specialize (IH x Hx). lia.
  - intros [= <-] x [<-|Hx]; [lia|]. destruct q; [contradiction|]. simpl in E.
    destruct (earliest q); [destruct (_ <? _)%Z|]; discriminate.
Qed.

Lemma earliest_none (q : list timer) : earliest q = None -> q = [].
Proof.
  destruct q as [|x q]; [reflexivity|]. simpl.
  destruct (earliest q); [destruct (_ <? _)%Z|]; discriminate.
Qed.

End Timers.

Arguments timers : clear implicits.
Arguments timer : clear implicits.

(** ** [requestAnimationFrame] *)

Section Frames.
Context {St T : Type}.
(** Running a frame callback may request more frames. *)
Variable run_frame_cb : T -> St * list T -> St * list T.

(** One rendered frame: the callbacks queued so far run in order; the
    ones they request wait for the next frame. *)
Definition run_frame (st : St * list T) : St * list T :=
  fold_left (fun acc cb => run_frame_cb cb acc) (snd st) (fst st, []).

End Frames.
