(* ===== verification/Shared.v ===== *)
(** * Components on the page's one timer queue

  The browser keeps one timer queue for the whole page: [setTimeout]
  takes its ids from one counter, and the timers of every component fire
  in one order (least due time first, ties in scheduling order).  Each
  component is modelled on a queue of its own callbacks ([Host]); this
  file relates such a queue [c] to the page's queue [C].
  [related lift mine rho c C] says:
  - the component's timers in [C] (the callbacks [mine] recognises) are
    those of [c], in the same order, with callbacks injected by [lift]
    and ids renamed by [rho];
  - [rho] is injective on the ids [c] has issued and maps them below
    [C]'s counter;
  - no other timer of [C] carries one of those ids, and every id of [C]
    is below its counter.
  Section [Project] shows that [setTimeout], [clearTimeout] of an issued
  id and the firing of the page's earliest timer preserve the relation,
  and that the steps of other components do when they leave this
  component's timers alone.  Section [Simulation] lifts this to
  [advance_to]: when the page's queue settles, the component's own model
  settles in the same state.  [Page] uses it for every component that
  sets timers. *)

From Stdlib Require Import List Lia ZArith Bool.
From S2P Require Import Prelude Host.
Import ListNotations.

(** ** The earliest timer of a part of the queue *)

Section Earliest.
Context {T : Type}.

Lemma earliest_filter (P : timer T -> bool) (q : list (timer T)) (tm : timer T) :
  earliest q = Some tm -> P tm = true -> earliest (filter P q) = Some tm.
Proof.
  revert tm. induction q as [|x q IH]; intros tm; [discriminate|].
  cbn [earliest filter]. destruct (earliest q) as [y|] eqn:Ey.
  - destruct (Z.ltb_spec (t_due y) (t_due x)) as [Hlt|Hge]; intros [= <-] Hp.
    + destruct (P x); [|exact (IH y eq_refl Hp)].
      cbn [earliest]. rewrite (IH y eq_refl Hp). now rewrite (proj2 (Z.ltb_lt _ _) Hlt).
    + rewrite Hp. cbn [earliest].
      destruct (earliest (filter P q)) as [z|] eqn:Ez; [|reflexivity].
      pose proof (earliest_in _ _ Ez) as Hz. apply filter_In in Hz as [Hz _].
      pose proof (earliest_min q y Ey z Hz).
      destruct (Z.ltb_spec (t_due z) (t_due x)); [lia | reflexivity].
  - apply earliest_none in Ey. subst q. intros [= <-] Hp. cbn. now rewrite Hp.
Qed.

Lemma earliest_map {U : Type} (f : timer T -> timer U) (q : list (timer T)) :
  (forall tm, t_due (f tm) = t_due tm) -> earliest (map f q) = option_map f (earliest q).
Proof.
  intros Hf. induction q as [|x q IH]; [reflexivity|]. cbn [map earliest]. rewrite IH.
  destruct (earliest q) as [y|]; cbn [option_map]; [rewrite !Hf; destruct (_ <? _)%Z|]; reflexivity.
Qed.

Lemma filter_map_swap {U : Type} (f : timer T -> timer U) (P : timer U -> bool) (q : list (timer T)) :
  filter P (map f q) = map f (filter (fun tm => P (f tm)) q).
Proof. induction q as [|x q IH]; cbn; [reflexivity|]. destruct (P (f x)); cbn; now rewrite IH. Qed.

End Earliest.

Lemma filter_comm {A : Type} (P Q : A -> bool) (l : list A) :
  filter P (filter Q l) = filter Q (filter P l).
Proof.
  induction l as [|x l IH]; cbn; [reflexivity|].
  destruct (Q x) eqn:Eq, (P x) eqn:Ep; cbn; rewrite ?Eq, ?Ep, IH; reflexivity.
Qed.

Lemma filter_true_In {A : Type} (P : A -> bool) (l : list A) :
  (forall x, In x l -> P x = true) -> filter P l = l.
Proof.
  induction l as [|x l IH]; intros H; cbn; [reflexivity|].
  rewrite (H x (or_introl eq_refl)), IH; [reflexivity|]. intros y Hy. apply H. now right.
Qed.

(** ** One component's timers in the page's queue *)

Section Project.
Context {T U : Type} (lift : T -> U) (mine : U -> bool).
Hypothesis mine_lift : forall t, mine (lift t) = true.

Definition mine_tm (tm : timer U) : bool := mine (t_task tm).

Definition rename (rho : nat -> nat) (tm : timer T) : timer U :=
  Timer (rho (t_id tm)) (t_due tm) (lift (t_task tm)).

Record related (rho : nat -> nat) (c : timers T) (C : timers U) : Prop := {
  rel_queue : map (rename rho) (queue c) = filter mine_tm (queue C);
  rel_fresh : forall tm, In tm (queue c) -> (t_id tm < next_id c)%nat;
  rel_inj : forall a b, (a < next_id c)%nat -> (b < next_id c)%nat -> rho a = rho b -> a = b;
  rel_below : forall a, (a < next_id c)%nat -> (rho a < next_id C)%nat;
  rel_others : forall tm a, In tm (queue C) -> mine_tm tm = false -> (a < next_id c)%nat -> t_id tm <> rho a;
  rel_ids : forall tm, In tm (queue C) -> (t_id tm < next_id C)%nat
}.

(** [rho] with the new id [a] of the component sent to the page's [b]. *)
Definition extend (rho : nat -> nat) (a b : nat) : nat -> nat :=
  fun x => if Nat.eqb x a then b else rho x.

Lemma extend_below (rho : nat -> nat) (a b x : nat) : (x < a)%nat -> extend rho a b x = rho x.
Proof. intros H. unfold extend. destruct (Nat.eqb_spec x a); [lia | reflexivity]. Qed.

(** [related] reads only the queues and the counters. *)
Lemma related_ext (rho : nat -> nat) (c c' : timers T) (C C' : timers U) :
  related rho c C -> queue c' = queue c -> next_id c' = next_id c ->
  queue C' = queue C -> next_id C' = next_id C -> related rho c' C'.
Proof.
  intros [H1 H2 H3 H4 H5 H6] E1 E2 E3 E4.
  split; rewrite ?E1, ?E2, ?E3, ?E4; assumption.
Qed.

Lemma related_setTimeout (rho : nat -> nat) (c : timers T) (C : timers U) (t : T) (d : Z) :
  related rho c C -> now c = now C ->
  related (extend rho (next_id c) (next_id C)) (snd (setTimeout t d c)) (snd (setTimeout (lift t) d C)) /\
  fst (setTimeout (lift t) d C) = extend rho (next_id c) (next_id C) (fst (setTimeout t d c)).
Proof.
  intros [H1 H2 H3 H4 H5 H6] Hnow. unfold setTimeout. cbn [fst snd queue next_id now].
  split; [|unfold extend; cbn; now rewrite Nat.eqb_refl]. split; cbn [queue next_id].
  - rewrite map_app, filter_app. cbn [map filter]. unfold mine_tm at 2. cbn [t_task].
    rewrite mine_lift, <- H1. f_equal.
    + apply map_ext_in. intros tm Hin. unfold rename. rewrite extend_below by (apply H2, Hin). reflexivity.
    + unfold rename, extend. cbn [t_id t_due t_task]. rewrite Nat.eqb_refl, Hnow. reflexivity.
  - intros tm Hin. apply in_app_or in Hin as [Hin|[<-|[]]]; cbn; [specialize (H2 tm Hin)|]; lia.
  - intros a b Ha Hb. unfold extend.
    destruct (Nat.eqb_spec a (next_id c)), (Nat.eqb_spec b (next_id c)); intros E; try lia;
      [specialize (H4 b ltac:(lia)) | specialize (H4 a ltac:(lia)) | apply H3]; lia.
  - intros a Ha. unfold extend. destruct (Nat.eqb_spec a (next_id c)); [lia|]. specialize (H4 a ltac:(lia)). lia.
  - intros tm a Hin Hm Ha. apply in_app_or in Hin as [Hin|[<-|[]]].
    + unfold extend. destruct (Nat.eqb_spec a (next_id c)); [specialize (H6 tm Hin); lia|].
      apply H5; [exact Hin | exact Hm | lia].
    + unfold mine_tm in Hm. cbn in Hm. now rewrite mine_lift in Hm.
  - intros tm Hin. apply in_app_or in Hin as [Hin|[<-|[]]]; cbn; [specialize (H6 tm Hin)|]; lia.
Qed.

(** Removing an id the component has issued. *)
Lemma related_clearTimeout (rho : nat -> nat) (c : timers T) (C : timers U) (id : nat) :
  related rho c C -> (id < next_id c)%nat -> related rho (clearTimeout id c) (clearTimeout (rho id) C).
Proof.
  intros [H1 H2 H3 H4 H5 H6] Hid. unfold clearTimeout. split; cbn [queue next_id].
  - rewrite filter_comm, <- H1, filter_map_swap. f_equal. apply filter_ext_in. intros tm Hin.
    unfold rename. cbn [t_id].
    destruct (Nat.eqb_spec (t_id tm) id) as [->|Hne]; [now rewrite Nat.eqb_refl|].
    destruct (Nat.eqb_spec (rho (t_id tm)) (rho id)) as [E|]; [|reflexivity].
    exfalso. apply Hne, H3; [apply H2, Hin | exact Hid | exact E].
  - intros tm Hin. apply filter_In in Hin as [Hin _]. now apply H2.
  - exact H3.
  - exact H4.
  - intros tm a Hin. apply filter_In in Hin as [Hin _]. now apply H5.
  - intros tm Hin. apply filter_In in Hin as [Hin _]. now apply H6.
Qed.

(** A timer of another component scheduled on the page's queue. *)
Lemma related_set_other (rho : nat -> nat) (c : timers T) (C : timers U) (u : U) (d : Z) :
  related rho c C -> mine u = false -> related rho c (snd (setTimeout u d C)).
Proof.
  intros [H1 H2 H3 H4 H5 H6] Hu. unfold setTimeout. split; cbn [queue next_id snd].
  - rewrite filter_app. cbn. unfold mine_tm at 2. cbn. now rewrite Hu, app_nil_r.
  - exact H2.
  - exact H3.
  - intros a Ha. specialize (H4 a Ha). lia.
  - intros tm a Hin Hm Ha. apply in_app_or in Hin as [Hin|[<-|[]]]; [now apply H5|].
    cbn. specialize (H4 a Ha). lia.
  - intros tm Hin. apply in_app_or in Hin as [Hin|[<-|[]]]; cbn; [specialize (H6 tm Hin)|]; lia.
Qed.

(** Another component's [clearTimeout] of an id none of this component's
    timers has. *)
Lemma related_clear_other (rho : nat -> nat) (c : timers T) (C : timers U) (id : nat) :
  related rho c C -> (forall tm, In tm (queue C) -> mine_tm tm = true -> t_id tm <> id) ->
  related rho c (clearTimeout id C).
Proof.
  intros [H1 H2 H3 H4 H5 H6] Hno. unfold clearTimeout. split; cbn [queue next_id].
  - rewrite filter_comm, <- H1. symmetry. apply filter_true_In. intros tm Hin.
    rewrite H1 in Hin. apply filter_In in Hin as [Hin Hm].
    apply negb_true_iff, Nat.eqb_neq. exact (Hno tm Hin Hm).
  - exact H2.
  - exact H3.
  - exact H4.
  - intros tm a Hin. apply filter_In in Hin as [Hin _]. now apply H5.
  - intros tm Hin. apply filter_In in Hin as [Hin _]. now apply H6.
Qed.

(** The component's ids in the page's queue are the renamed ones. *)
Lemma related_mine_ids (rho : nat -> nat) (c : timers T) (C : timers U) (tm : timer U) :
  related rho c C -> In tm (queue C) -> mine_tm tm = true ->
  exists a, (a < next_id c)%nat /\ t_id tm = rho a.
Proof.
  intros [H1 H2 _ _ _ _] Hin Hm. assert (Hf : In tm (filter mine_tm (queue C))) by (apply filter_In; auto).
  rewrite <- H1 in Hf. apply in_map_iff in Hf as (x & <- & Hx). exists (t_id x). split; [now apply H2 | reflexivity].
Qed.

(** The page's earliest timer, when it is the component's, is the
    component's earliest one renamed. *)
Lemma related_earliest (rho : nat -> nat) (c : timers T) (C : timers U) (E : timer U) :
  related rho c C -> earliest (queue C) = Some E -> mine_tm E = true ->
  exists tm, earliest (queue c) = Some tm /\ E = rename rho tm.
Proof.
  intros Hr HE Hm. pose proof (earliest_filter mine_tm _ _ HE Hm) as Hf.
  rewrite <- (rel_queue _ _ _ Hr), earliest_map in Hf by reflexivity.
  destruct (earliest (queue c)) as [tm|]; [|discriminate]. injection Hf as <-. now exists tm.
Qed.

Lemma related_empty (t t' : Z) : related (fun x => x) (no_timers t) (no_timers t').
Proof.
  split; cbn; try (intros; contradiction); [reflexivity | | intros; lia].
  intros a b Ha Hb _. lia.
Qed.

End Project.

Arguments related {T U} lift mine rho c C.
Arguments rename {T U} lift rho tm.
Arguments mine_tm {U} mine tm.

(** ** Letting the clock run *)

Section Settled.
Context {St T : Type} (run_task : T -> St * timers T -> St * timers T).

(** The clock has reached [t] and no timer is due at or before it. *)
Definition settled (t : Z) (c : timers T) : Prop :=
  (t <= now c)%Z /\ forall tm, In tm (queue c) -> (t < t_due tm)%Z.

Lemma advance_settled (f : nat) (t : Z) (st : St * timers T) :
  settled t (snd st) -> advance_to run_task f t st = st.
Proof.
  destruct st as [s [n id q]]. intros [Hn Hq]. destruct f as [|f]; [reflexivity|]. cbn [advance_to].
  cbn [queue now next_id snd] in *. rewrite Z.max_l by lia.
  destruct (earliest q) as [tm|] eqn:E; [|reflexivity].
  pose proof (Hq tm (earliest_in _ _ E)). destruct (Z.leb_spec (t_due tm) t); [lia | reflexivity].
Qed.

(** Fuel beyond the point where the queue settles changes nothing. *)
Lemma advance_fuel_extra (f k : nat) (t : Z) (st : St * timers T) :
  settled t (snd (advance_to run_task f t st)) ->
  advance_to run_task (f + k) t st = advance_to run_task f t st.
Proof.
  revert st. induction f as [|f IH]; intros [s c] H; [now apply advance_settled|].
  cbn [Nat.add advance_to] in *. destruct (earliest (queue c)) as [tm|]; [|reflexivity].
  destruct (t_due tm <=? t)%Z; [now apply IH | reflexivity].
Qed.

Lemma advance_fuel_unique (f1 f2 : nat) (t : Z) (st : St * timers T) :
  settled t (snd (advance_to run_task f1 t st)) -> settled t (snd (advance_to run_task f2 t st)) ->
  advance_to run_task f1 t st = advance_to run_task f2 t st.
Proof.
  intros H1 H2. rewrite <- (advance_fuel_extra f1 f2 t st H1), <- (advance_fuel_extra f2 f1 t st H2).
  now rewrite Nat.add_comm.
Qed.

Lemma advance_S (f : nat) (t : Z) (s : St) (c : timers T) :
  advance_to run_task (S f) t (s, c) =
  match earliest (queue c) with
  | Some tm =>
      if (t_due tm <=? t)%Z then
        advance_to run_task f t (run_task (t_task tm) (s, Timers (t_due tm) (next_id c)
          (filter (fun x => negb (Nat.eqb (t_id x) (t_id tm))) (queue c))))
      else (s, Timers (Z.max (now c) t) (next_id c) (queue c))
  | None => (s, Timers (Z.max (now c) t) (next_id c) (queue c))
  end.
Proof. reflexivity. Qed.

(** Letting the clock reach [t'] and then [t >= t'] is letting it reach [t]. *)
Lemma advance_merge (f : nat) (t' t : Z) (st : St * timers T) :
  (t' <= t)%Z -> exists k, forall g,
  advance_to run_task (S g) t (advance_to run_task f t' st) = advance_to run_task (k + S g) t st.
Proof.
  intros Ht. revert st. induction f as [|f IH]; intros [s c]; [now exists 0%nat|].
  rewrite (advance_S f t' s c). destruct (earliest (queue c)) as [tm|] eqn:E.
  - destruct (Z.leb_spec (t_due tm) t').
    + destruct (IH (run_task (t_task tm) (s, Timers (t_due tm) (next_id c)
                  (filter (fun x => negb (Nat.eqb (t_id x) (t_id tm))) (queue c))))) as [k Hk].
      exists (S k). intros g. rewrite Hk. cbn [Nat.add]. rewrite advance_S, E.
      destruct (Z.leb_spec (t_due tm) t); [reflexivity | lia].
    + exists 0%nat. intros g. cbn [Nat.add]. rewrite !advance_S. cbn [queue next_id now]. rewrite E.
      destruct (t_due tm <=? t)%Z; [reflexivity|]. f_equal. f_equal. lia.
  - exists 0%nat. intros g. cbn [Nat.add]. rewrite !advance_S. cbn [queue next_id now]. rewrite E.
    f_equal. f_equal. lia.
Qed.

(** So two runs that settle at [t], one stopping at [t'] on the way,
    end in the same state. *)
Lemma advance_merge_settled (f g h : nat) (t' t : Z) (st : St * timers T) :
  (t' <= t)%Z ->
  settled t (snd (advance_to run_task g t (advance_to run_task f t' st))) ->
  settled t (snd (advance_to run_task h t st)) ->
  advance_to run_task g t (advance_to run_task f t' st) = advance_to run_task h t st.
Proof.
  intros Ht H1 H2. destruct (advance_merge f t' t st Ht) as [k Hk].
  rewrite <- (advance_fuel_extra g 1 t _ H1), Nat.add_1_r, Hk in H1 |- *.
  now apply advance_fuel_unique.
Qed.

Lemma filter_remove_length {A : Type} (P : A -> bool) (l : list A) (x : A) :
  In x l -> P x = false -> (List.length (filter P l) < List.length l)%nat.
Proof.
  intros Hin Hx. induction l as [|y l IH]; [contradiction|]. cbn.
  assert (Hle : forall l', (List.length (filter P l') <= List.length l')%nat)
    by (induction l' as [|z l' IHl]; cbn; [lia | destruct (P z); cbn; lia]).
  destruct Hin as [<-|Hin]; [rewrite Hx; specialize (Hle l); lia|].
  specialize (IH Hin). destruct (P y); cbn; lia.
Qed.

(** A component whose callbacks set no timer settles with one firing
    per pending timer. *)
Lemma advance_settles_nosched (t : Z) (st : St * timers T) :
  (forall x s c, queue (snd (run_task x (s, c))) = queue c) ->
  settled t (snd (advance_to run_task (S (List.length (queue (snd st)))) t st)).
Proof.
  intros Hrun. remember (List.length (queue (snd st))) as n eqn:Hn. revert st Hn.
  induction n as [n IH] using lt_wf_ind. intros [s c] Hn. cbn [snd] in Hn. cbn [advance_to].
  destruct (earliest (queue c)) as [tm|] eqn:E.
  - destruct (Z.leb_spec (t_due tm) t) as [Hle|Hgt].
    + pose proof (earliest_in _ _ E) as Hin.
      set (c0 := Timers (t_due tm) (next_id c) (filter (fun x => negb (Nat.eqb (t_id x) (t_id tm))) (queue c))).
      pose proof (Hrun (t_task tm) s c0) as Q.
      destruct (run_task (t_task tm) (s, c0)) as [s1 c1] eqn:E1. cbn [snd] in Q.
      assert (Hlt : (List.length (queue c1) < n)%nat).
      { rewrite Q. subst n. apply (filter_remove_length _ _ tm Hin). cbn. now rewrite Nat.eqb_refl. }
      specialize (IH _ Hlt (s1, c1) eq_refl).
      replace n with (S (List.length (queue c1)) + (n - S (List.length (queue c1))))%nat by lia.
      rewrite advance_fuel_extra by exact IH. exact IH.
    + split; cbn; [lia|]. intros x Hx. pose proof (earliest_min _ _ E x Hx). lia.
  - apply earliest_none in E. split; cbn; [lia | rewrite E; intros x []].
Qed.

(** The clock never passes the time it is let run to. *)
Lemma advance_now_le (f : nat) (t : Z) (st : St * timers T) :
  (forall x s c, now (snd (run_task x (s, c))) = now c) ->
  (now (snd st) <= t)%Z -> (now (snd (advance_to run_task f t st)) <= t)%Z.
Proof.
  intros Hrun. revert st. induction f as [|f IH]; intros [s c] Hn; [exact Hn|]. cbn [snd] in Hn.
  rewrite advance_S. destruct (earliest (queue c)) as [tm|]; cbn; [|lia].
  destruct (Z.leb_spec (t_due tm) t); cbn; [|lia].
  apply IH. destruct (run_task _ _) as [s1 c1] eqn:E. cbn.
  specialize (Hrun (t_task tm) s (Timers (t_due tm) (next_id c)
                (filter (fun x => negb (Nat.eqb (t_id x) (t_id tm))) (queue c)))).
  rewrite E in Hrun. cbn in Hrun. lia.
Qed.

(** [settled], decided. *)
Definition settled_b (t : Z) (c : timers T) : bool :=
  (t <=? now c)%Z && forallb (fun tm => (t <? t_due tm)%Z) (queue c).

Lemma settled_b_true (t : Z) (c : timers T) : settled_b t c = true -> settled t c.
Proof.
  unfold settled_b. intros H. apply andb_true_iff in H as [H1 H2]. split; [now apply Z.leb_le|].
  intros tm Hin. rewrite forallb_forall in H2. now apply Z.ltb_lt, H2.
Qed.

(** An empty queue of a component, and of the page at the same time. *)
Lemma settled_empty (t : Z) : settled t (no_timers t).
Proof. split; cbn; [lia | intros _ []]. Qed.

End Settled.

(** ** A component inside the page *)

Section Simulation.
Context {T U Sc P : Type} (lift : T -> U) (mine : U -> bool).

(** The component's callbacks on its own queue, the page's on its queue. *)
Variable run1 : T -> Sc * timers T -> Sc * timers T.
Variable runP : U -> P * timers U -> P * timers U.

(** How the component's state sits in the page's, for a renaming of ids;
    it may read the component's counter, nothing else of its queue. *)
Variable sim : (nat -> nat) -> Sc * timers T -> P -> Prop.
Hypothesis sim_next : forall rho s c c' p, next_id c' = next_id c -> sim rho (s, c) p -> sim rho (s, c') p.

Definition agree (rho : nat -> nat) (st : Sc * timers T) (pst : P * timers U) : Prop :=
  sim rho st (fst pst) /\ related lift mine rho (snd st) (snd pst).

(** A callback of the component runs alike on both queues, with the
    clock at the same time. *)
Hypothesis run_mine : forall t rho st pst, agree rho st pst -> now (snd st) = now (snd pst) ->
  exists rho', agree rho' (run1 t st) (runP (lift t) pst).
(** A callback of another component leaves this one alone. *)
Hypothesis run_other : forall u rho st pst, mine u = false -> agree rho st pst -> agree rho st (runP u pst).

Lemma agree_fire_mine (rho : nat -> nat) (s : Sc) (c : timers T) (p : P) (C : timers U) (tm : timer T) :
  agree rho (s, c) (p, C) -> In tm (queue c) ->
  agree rho (s, Timers (t_due tm) (next_id c) (filter (fun x => negb (Nat.eqb (t_id x) (t_id tm))) (queue c)))
            (p, Timers (t_due tm) (next_id C)
                  (filter (fun x => negb (Nat.eqb (t_id x) (t_id (rename lift rho tm)))) (queue C))).
Proof.
  intros [Hs Hr] Hin. split; [apply (sim_next rho s c); [reflexivity | exact Hs]|]. cbn [snd] in *.
  apply (related_ext lift mine rho (clearTimeout (t_id tm) c) _ (clearTimeout (rho (t_id tm)) C));
    try reflexivity.
  apply related_clearTimeout; [exact Hr | exact (rel_fresh _ _ _ _ _ Hr tm Hin)].
Qed.

Lemma agree_fire_other (rho : nat -> nat) (st : Sc * timers T) (p : P) (C : timers U) (E : timer U) :
  agree rho st (p, C) -> In E (queue C) -> mine_tm mine E = false ->
  agree rho st (p, Timers (t_due E) (next_id C) (filter (fun x => negb (Nat.eqb (t_id x) (t_id E))) (queue C))).
Proof.
  intros [Hs Hr] Hin Hm. split; [exact Hs|]. cbn [snd] in *.
  apply (related_ext lift mine rho (snd st) _ (clearTimeout (t_id E) C)); try reflexivity.
  apply related_clear_other; [exact Hr|]. intros x Hx Hxm Heq.
  destruct (related_mine_ids lift mine rho _ _ x Hr Hx Hxm) as (a & Ha & Hxa).
  exact (rel_others _ _ _ _ _ Hr E a Hin Hm Ha (eq_trans (eq_sym Heq) Hxa)).
Qed.

(** The component's timers are due no earlier than the page's earliest. *)
Lemma agree_due (rho : nat -> nat) (st : Sc * timers T) (pst : P * timers U) (tm : timer T) :
  agree rho st pst -> In tm (queue (snd st)) -> In (rename lift rho tm) (queue (snd pst)).
Proof.
  intros [_ Hr] Hin. assert (H : In (rename lift rho tm) (filter (mine_tm mine) (queue (snd pst))))
    by (rewrite <- (rel_queue _ _ _ _ _ Hr); now apply in_map).
  now apply filter_In in H as [H _].
Qed.

(** When nothing is due on the page's queue, nothing is due on the
    component's: one more step settles it too. *)
Lemma agree_stop (rho : nat -> nat) (t : Z) (st : Sc * timers T) (pst : P * timers U) :
  agree rho st pst -> (forall E, In E (queue (snd pst)) -> (t < t_due E)%Z) ->
  agree rho (advance_to run1 1 t st) pst /\ settled t (snd (advance_to run1 1 t st)).
Proof.
  destruct st as [s c]. intros Ha Hq. cbn [advance_to].
  assert (Hc : forall tm, In tm (queue c) -> (t < t_due tm)%Z)
    by (intros tm Hin; exact (Hq _ (agree_due rho (s, c) pst tm Ha Hin))).
  destruct (earliest (queue c)) as [tm|] eqn:E;
    [destruct (Z.leb_spec (t_due tm) t); [specialize (Hc tm (earliest_in _ _ E)); lia|]|];
    (split; [|split; cbn; [lia | exact Hc]]);
    destruct Ha as [Hs Hr]; (split; [apply (sim_next rho s c); [reflexivity | exact Hs]|]);
    apply (related_ext lift mine rho c _ (snd pst) _ Hr); reflexivity.
Qed.

(** When the page's timers settle at [t], the component's do, one more
    step of fuel than the page's being enough, in the state the page holds
    of it. *)
Theorem advance_sim (F : nat) (t : Z) :
  forall rho st pst, agree rho st pst -> settled t (snd (advance_to runP F t pst)) ->
  exists rho', agree rho' (advance_to run1 (S F) t st) (advance_to runP F t pst) /\
               settled t (snd (advance_to run1 (S F) t st)).
Proof.
  induction F as [|F IH]; intros rho st [p C] Ha HF.
  - exists rho. exact (agree_stop rho t st (p, C) Ha (proj2 HF)).
  - assert (Hstop : (forall E, In E (queue C) -> (t < t_due E)%Z) ->
              exists rho', agree rho' (advance_to run1 (S (S F)) t st)
                (p, Timers (Z.max (now C) t) (next_id C) (queue C)) /\ settled t (snd (advance_to run1 (S (S F)) t st))).
    { intros Hq. exists rho. destruct (agree_stop rho t st (p, C) Ha Hq) as [[Hs Hr] H2].
      replace (S (S F)) with (1 + S F)%nat by lia. rewrite advance_fuel_extra by exact H2.
      split; [split; [exact Hs|] | exact H2]. apply (related_ext lift mine rho _ _ C _ Hr); reflexivity. }
    rewrite advance_S in HF |- *. destruct (earliest (queue C)) as [E|] eqn:EE.
    2: { apply earliest_none in EE. apply Hstop. rewrite EE. intros ? []. }
    destruct (Z.leb_spec (t_due E) t) as [Hle|Hgt].
    2: { apply Hstop. intros x Hx. pose proof (earliest_min _ _ EE x Hx). lia. }
    destruct (mine_tm mine E) eqn:Hm.
    + destruct st as [s c]. destruct (related_earliest lift mine rho c C E (proj2 Ha) EE Hm) as (tm & Etm & ->).
      pose proof (agree_fire_mine rho s c p C tm Ha (earliest_in _ _ Etm)) as Hf.
      destruct (run_mine (t_task tm) rho _ _ Hf eq_refl) as [rho' Hr'].
      destruct (IH rho' _ _ Hr' HF) as (rho'' & H1 & H2).
      exists rho''. rewrite advance_S, Etm. cbn [rename t_due t_task] in *.
      destruct (Z.leb_spec (t_due tm) t); [auto | lia].
    + pose proof (agree_fire_other rho st p C E Ha (earliest_in _ _ EE) Hm) as Hf.
      destruct (IH rho st _ (run_other (t_task E) rho st _ Hm Hf) HF) as (rho' & H1 & H2).
      exists rho'. replace (S (S F)) with (S F + 1)%nat by lia. rewrite advance_fuel_extra by exact H2. auto.
Qed.

(** The component alone, its clock let run to [t], sits in the page. *)
Definition inv (rho : nat -> nat) (t : Z) (st : Sc * timers T) (pst : P * timers U) : Prop :=
  exists f, agree rho (advance_to run1 f t st) pst /\ settled t (snd (advance_to run1 f t st)).

(** A tick of the page keeps the component in place: the page's clock
    reaching [t2] is the component's own clock reaching [t2]. *)
Lemma inv_tick (rho : nat -> nat) (t1 t2 : Z) (F : nat) (st : Sc * timers T) (pst : P * timers U) :
  inv rho t1 st pst -> (t1 <= t2)%Z -> settled t2 (snd (advance_to runP F t2 pst)) ->
  exists rho', inv rho' t2 st (advance_to runP F t2 pst).
Proof.
  intros (f & Ha & _) Ht HF. destruct (advance_sim F t2 rho _ _ Ha HF) as (rho' & H1 & H2).
  destruct (advance_merge run1 f t1 t2 st Ht) as [k Hk].
  exists rho', (k + S F)%nat. rewrite <- Hk. auto.
Qed.

(** Any run of the component alone that settles at [t] is the one the
    page holds. *)
Lemma inv_agree (rho : nat -> nat) (t : Z) (g : nat) (st : Sc * timers T) (pst : P * timers U) :
  inv rho t st pst -> settled t (snd (advance_to run1 g t st)) -> agree rho (advance_to run1 g t st) pst.
Proof. intros (f & Ha & Hs) Hg. now rewrite (advance_fuel_unique run1 g f t st Hg Hs). Qed.

End Simulation.
