(* ===== verification/Binary64.v ===== *)
(** * JavaScript numbers as IEEE binary64 values, and [Number::toString]

  The rest of the development computes with exact rationals; this file
  gives the places where the page's output depends on the rounding of a
  double their exact semantics.  Module [Digits] prints an integer in
  decimal.  Module [Binary64] holds the rounding of a rational to the
  nearest binary64 value (ties to even, with the subnormal range and the
  overflow to [Infinity]), the sum, difference, product and quotient of
  two doubles, and [Number::toString] (ECMA-262, 6.1.6.1.20) in
  radix 10: the shortest decimal [s * 10^p] that rounds back to the
  value, the closest such [s] when there are two, printed in the plain,
  fractional or exponential form by the exponent.  Module [Decimal] reads
  such a string back as the exact rational it denotes.  Signed zeros are
  not distinguished ([-0] prints as ["0"] in JavaScript too).  Module
  [Binary64Props] brackets [log2_floor], bounds [round_half_even] by one
  half, and proves that on the normal range a rounding moves a value by
  at most [2^-53] of it ([round_pos_normal]), that rounding depends on
  the value only ([round_Proper], a [Proper (Qeq ==> eq)] instance), and
  that a value within [5 * 10^-17] of a normal double, relatively, rounds
  to it ([round_near]), that rounding a double gives it back
  ([round_pos_idem]), and that a normal double divided by [1 - 2^-53]
  rounds above itself ([round_above]).  Module [ToStringProps] proves
  the round trip [toString_roundtrip]: the text of a normal double reads
  back, through [Decimal.value] and [round], as the same double; and its
  text starts with a non-zero digit or with ["0."]
  ([toString_pos_head]). *)

From Stdlib Require Import QArith Qpower Qround Lqa List String Ascii ZArith NArith Lia Bool Setoid Morphisms.
From S2P Require Import Prelude.
Import ListNotations.
Local Open Scope string_scope.
Local Open Scope Z_scope.

(** ** Decimal digits

  [Number::toString] of a non-negative integer below [10^21] is its
  decimal digits; the page prints such integers (the star coordinates,
  the digits of [Binary64.toString]), and [JSON.parse] reads digits. *)

Module Digits.

Definition is_digit (c : ascii) : bool :=
  Nat.leb 48 (nat_of_ascii c) && Nat.leb (nat_of_ascii c) 57.

Definition digit_value (c : ascii) : N := N.of_nat (nat_of_ascii c - 48).

Definition digit_char (d : N) : ascii := ascii_of_N (48 + d).

(** The decimal digits of [n], in front of [acc]; [fuel] bounds their
    number. *)
Fixpoint dec_digits (fuel : nat) (n : N) (acc : string) : string :=
  match fuel with
  | O => acc
  | S f =>
      let acc' := String (digit_char (n mod 10)) acc in
      if (n <? 10)%N then acc' else dec_digits f (n / 10) acc'
  end.

Definition N_to_dec (n : N) : string := dec_digits (S (N.to_nat (N.size n))) n EmptyString.

(** [Number::toString] on an integer (below 10^21 in magnitude). *)
Definition Z_to_dec (z : Z) : string :=
  match z with
  | Zneg p => String "-" (N_to_dec (Npos p))
  | _ => N_to_dec (Z.to_N z)
  end.

End Digits.

Module DigitsProps.
Import Digits.

Lemma digit_char_spec (d : N) :
  (d < 10)%N -> is_digit (digit_char d) = true /\ digit_value (digit_char d) = d.
Proof.
  intros Hd.
  assert (d = 0 \/ d = 1 \/ d = 2 \/ d = 3 \/ d = 4 \/ d = 5 \/ d = 6 \/ d = 7 \/ d = 8 \/ d = 9)%N
    as Hc by lia.
  repeat destruct Hc as [->|Hc]; [..| subst]; split; reflexivity.
Qed.

Lemma dec_digits_app (f : nat) (n : N) (acc : string) :
  dec_digits f n acc = (dec_digits f n EmptyString ++ acc)%string.
Proof.
  revert n acc. induction f as [|f IH]; intros n acc; [reflexivity|]. simpl.
  destruct (n <? 10)%N; [reflexivity|].
  rewrite IH, (IH _ (String _ EmptyString)), str_app_assoc. reflexivity.
Qed.

Lemma dec_digits_lead (f : nat) (n : N) (acc : string) :
  (0 < n)%N -> (n < 10 ^ N.of_nat f)%N ->
  exists d rest, dec_digits f n acc = String d rest /\ is_digit d = true /\ d <> "0"%char.
Proof.
  revert n acc. induction f as [|f IH]; intros n acc Hp Hn; [simpl in Hn; lia|].
  assert (Hm : (n mod 10 < 10)%N) by (apply N.mod_lt; lia).
  destruct (digit_char_spec _ Hm) as [Hdig Hval].
  simpl. destruct (N.ltb_spec n 10).
  - eexists _, _. split; [reflexivity|]. split; [exact Hdig|].
    intros Heq. rewrite Heq in Hval. rewrite N.mod_small in Hval by lia. change (digit_value "0") with 0%N in Hval. lia.
  - apply IH.
    + apply N.div_str_pos. lia.
    + apply N.Div0.div_lt_upper_bound. rewrite Nat2N.inj_succ, N.pow_succ_r' in Hn. lia.
Qed.

Lemma N_to_dec_fuel (n : N) : (n < 10 ^ N.of_nat (S (N.to_nat (N.size n))))%N.
Proof.
  pose proof (N.size_gt n) as H2.
  assert (Hle : (2 ^ N.size n <= 10 ^ N.size n)%N) by (apply N.pow_le_mono_l; lia).
  rewrite Nat2N.inj_succ, N2Nat.id, N.pow_succ_r'.
  assert (0 < 10 ^ N.size n)%N by (apply N.neq_0_lt_0, N.pow_nonzero; lia). lia.
Qed.

Lemma dec_digits_head (f : nat) (n : N) (acc : string) :
  exists d rest, dec_digits (S f) n acc = String d rest /\ is_digit d = true.
Proof.
  revert n acc. induction f as [|f IH]; intros n acc;
    assert (Hm : (n mod 10 < 10)%N) by (apply N.mod_lt; lia);
    destruct (digit_char_spec _ Hm) as [Hdig _]; cbn [dec_digits];
    destruct (n <? 10)%N; eauto.
Qed.

End DigitsProps.

Module Binary64.

(** [2^e] and [10^e] for any integer [e]. *)
Definition pow2 (e : Z) : Q :=
  if 0 <=? e then inject_Z (2 ^ e) else 1 # Z.to_pos (2 ^ (- e)).

Definition pow10 (e : Z) : Q :=
  if 0 <=? e then inject_Z (10 ^ e) else 1 # Z.to_pos (10 ^ (- e)).

(** [floor(log2 x)] for [x > 0]: with [n] in [[2^a, 2^(a+1))] and [d]
    in [[2^b, 2^(b+1))], [x = n/d] is in [(2^(a-b-1), 2^(a-b+1))]. *)
Definition log2_floor (x : Q) : Z :=
  let k := Z.log2 (Qnum x) - Z.log2 (Zpos (Qden x)) in
  if Qle_bool (pow2 k) x then k else k - 1.

(** The number of decimal digits of [z >= 1]. *)
Fixpoint digits10_fuel (fuel : nat) (z : Z) : Z :=
  match fuel with
  | O => 0
  | S f => if z <? 10 then 1 else 1 + digits10_fuel f (z / 10)
  end.

Definition digits10 (z : Z) : Z := digits10_fuel (S (Z.to_nat (Z.log2 z))) z.

(** [floor(log10 x)] for [x > 0], by the same bracketing as [log2_floor]. *)
Definition log10_floor (x : Q) : Z :=
  let k := digits10 (Qnum x) - digits10 (Zpos (Qden x)) in
  if Qle_bool (pow10 k) x then k else k - 1.

(** [a / b] rounded to the nearest integer, ties to even, for [a >= 0]. *)
Definition round_half_even (a : Z) (b : positive) : Z :=
  let q := a / Zpos b in
  let r := a mod Zpos b in
  match Z.compare (2 * r) (Zpos b) with
  | Lt => q
  | Gt => q + 1
  | Eq => if Z.even q then q else q + 1
  end.

(** The rounding of [x > 0]: the quantum [2^e] keeps 53 significant bits,
    and is at least [2^-1074] (subnormals); a result of [2^1024] or more
    overflows. *)
Definition round_pos (x : Q) : jsnum :=
  let e := Z.max (log2_floor x - 52) (-1074) in
  let y := Qred (x * pow2 (- e))%Q in
  let m := round_half_even (Qnum y) (Qden y) in
  let v := (inject_Z m * pow2 e)%Q in
  if Qle_bool (pow2 1024) v then JPosInf else JFin v.

Definition neg (x : jsnum) : jsnum :=
  match x with
  | JFin q => JFin (- q)%Q
  | JPosInf => JNegInf
  | JNegInf => JPosInf
  | JNaN => JNaN
  end.

(** The double nearest to a rational (the value of a numeric literal,
    or of an exact result). *)
Definition round (x : Q) : jsnum :=
  match Qcompare x 0 with
  | Eq => JFin 0
  | Gt => round_pos x
  | Lt => neg (round_pos (- x)%Q)
  end.

(** [x * y] on two doubles: the exact product, rounded. *)
Definition mul (x y : jsnum) : jsnum :=
  match x, y with
  | JFin a, JFin b => round (a * b)%Q
  | JNaN, _ | _, JNaN => JNaN
  | JFin a, inf | inf, JFin a =>
      if Qeq_bool a 0 then JNaN else if Qltb 0 a then inf else neg inf
  | JPosInf, JPosInf | JNegInf, JNegInf => JPosInf
  | _, _ => JNegInf
  end.

(** [x + y] and [x - y]: the exact sum, rounded; infinities of opposite
    signs give NaN. *)
Definition add (x y : jsnum) : jsnum :=
  match x, y with
  | JFin a, JFin b => round (a + b)%Q
  | JNaN, _ | _, JNaN => JNaN
  | JPosInf, JNegInf | JNegInf, JPosInf => JNaN
  | JPosInf, _ | _, JPosInf => JPosInf
  | JNegInf, _ | _, JNegInf => JNegInf
  end.

Definition sub (x y : jsnum) : jsnum := add x (neg y).

(** [x / y]; a zero divisor is [+0]. *)
Definition div (x y : jsnum) : jsnum :=
  match x, y with
  | JNaN, _ | _, JNaN => JNaN
  | JFin a, JFin b =>
      if Qeq_bool b 0 then (if Qeq_bool a 0 then JNaN else if Qltb 0 a then JPosInf else JNegInf)
      else round (a / b)%Q
  | JFin _, _ => JFin 0
  | inf, JFin b => if Qltb b 0 then neg inf else inf
  | _, _ => JNaN
  end.

Definition jsnum_eqb (x y : jsnum) : bool :=
  match x, y with
  | JFin a, JFin b => Qeq_bool a b
  | JPosInf, JPosInf | JNegInf, JNegInf => true
  | _, _ => false
  end.

(** ** [Number::toString] *)

(** Whether [s * 10^p] rounds to [x]. *)
Definition denotes (x : Q) (s p : Z) : bool :=
  jsnum_eqb (round (inject_Z s * pow10 p)%Q) (JFin x).

(** Of the two [k]-digit neighbours [fl] and [fl + 1] of [x] at the
    quantum [10^p], those that round to [x]; the closer one when both
    do, the even one when they are equally close. *)
Definition pick (x : Q) (p fl : Z) : option Z :=
  let lo := fl in
  let hi := fl + 1 in
  match denotes x lo p, denotes x hi p with
  | false, false => None
  | true, false => Some lo
  | false, true => Some hi
  | true, true =>
      let dlo := (x - inject_Z lo * pow10 p)%Q in
      let dhi := (inject_Z hi * pow10 p - x)%Q in
      if Qltb dlo dhi then Some lo
      else if Qltb dhi dlo then Some hi
      else if Z.even lo then Some lo else Some hi
  end.

(** Digit counts [k = 1, 2, ...]: the first [k] at which a [k]-digit
    decimal rounds to [x]; at 17 digits (where one always does) the
    nearest decimal. *)
Fixpoint search (fuel : nat) (k e10 : Z) (x : Q) : Z * Z :=
  let p := e10 - k + 1 in
  let t := (x / pow10 p)%Q in
  match fuel with
  | O => (round_half_even (Qnum (Qred t)) (Qden (Qred t)), p)
  | S f =>
      match pick x p (Qfloor t) with
      | Some s => (s, p)
      | None => search f (k + 1) e10 x
      end
  end.

(** [s * 10^p] with the trailing zeros of [s] moved into [p]. *)
Fixpoint strip_zeros (fuel : nat) (s p : Z) : Z * Z :=
  match fuel with
  | O => (s, p)
  | S f => if (s mod 10 =? 0) && (0 <? s) then strip_zeros f (s / 10) (p + 1) else (s, p)
  end.

Fixpoint zeros (n : nat) : string :=
  match n with O => EmptyString | S k => String "0" (zeros k) end.

(** Steps 6 to 10 of [Number::toString]: the digits [ds] of [s] ([k] of
    them) and the position [n] of the decimal point ([s * 10^(n-k)]). *)
Definition format (ds : string) (n : Z) : string :=
  let k := Z.of_nat (String.length ds) in
  let exp := ((if Z.leb 0 (n - 1) then "+" else "-") ++ Digits.Z_to_dec (Z.abs (n - 1)))%string in
  if (k <=? n) && (n <=? 21) then (ds ++ zeros (Z.to_nat (n - k)))%string
  else if (0 <? n) && (n <=? 21) then
    (substring 0 (Z.to_nat n) ds ++ "." ++ substring (Z.to_nat n) (Z.to_nat (k - n)) ds)%string
  else if (-6 <? n) && (n <=? 0) then ("0." ++ zeros (Z.to_nat (- n)) ++ ds)%string
  else if k =? 1 then (ds ++ "e" ++ exp)%string
  else (substring 0 1 ds ++ "." ++ substring 1 (Z.to_nat (k - 1)) ds ++ "e" ++ exp)%string.

(** The shortest digits of [x > 0] and their exponent. *)
Definition shortest (x : Q) : Z * Z :=
  let '(s, p) := search 16 1 (log10_floor x) x in
  strip_zeros 17 s p.

Definition toString_pos (x : Q) : string :=
  let '(s, p) := shortest x in
  let ds := Digits.Z_to_dec s in
  format ds (p + Z.of_nat (String.length ds)).

(** [Number::toString(x)], radix 10. *)
Definition toString (x : jsnum) : string :=
  match x with
  | JNaN => "NaN"
  | JPosInf => "Infinity"
  | JNegInf => "-Infinity"
  | JFin q =>
      match Qcompare q 0 with
      | Eq => "0"
      | Gt => toString_pos q
      | Lt => ("-" ++ toString_pos (- q)%Q)%string
      end
  end.

(** A normal binary64 value: [m * 2^e] with a 53-bit significand. *)
Definition is_normal (x : Q) : Prop :=
  exists m e, 2 ^ 52 <= m < 2 ^ 53 /\ -1074 <= e <= 971 /\ (x == inject_Z m * pow2 e)%Q.

End Binary64.

Module Decimal.

(** The value of a decimal numeral [d+ ( . d+ )? ( e [+-] d+ )?], the
    forms [Binary64.toString] prints for a finite non-negative value. *)
Fixpoint digits (s : string) (acc : Z) (n : nat) : Z * nat * string :=
  match s with
  | String c r =>
      if Digits.is_digit c then digits r (acc * 10 + Z.of_N (Digits.digit_value c)) (S n) else (acc, n, s)
  | EmptyString => (acc, n, EmptyString)
  end.

Definition exponent (s : string) : option Z :=
  match s with
  | EmptyString => Some 0
  | String "e" (String sg r) =>
      let '(e, n, rest) := digits r 0 0 in
      if (Nat.ltb 0 n && String.eqb rest EmptyString)%bool then
        if Ascii.eqb sg "+" then Some e else if Ascii.eqb sg "-" then Some (- e) else None
      else None
  | _ => None
  end.

Definition value (s : string) : option Q :=
  let '(i, n, r) := digits s 0 0 in
  if Nat.eqb n 0 then None
  else
    match r with
    | String "." r' =>
        let '(f, m, r'') := digits r' 0 0 in
        if Nat.eqb m 0 then None
        else option_map (fun e => (inject_Z (i * 10 ^ Z.of_nat m + f) * Binary64.pow10 (e - Z.of_nat m))%Q) (exponent r'')
    | _ => option_map (fun e => (inject_Z i * Binary64.pow10 e)%Q) (exponent r)
    end.

Fixpoint all_digits (s : string) : bool :=
  match s with
  | EmptyString => true
  | String c r => Digits.is_digit c && all_digits r
  end.

(** The value of a string of digits. *)
Fixpoint dval (s : string) : Z :=
  match s with
  | EmptyString => 0
  | String c r => Z.of_N (Digits.digit_value c) * 10 ^ Z.of_nat (String.length r) + dval r
  end.

End Decimal.

(** ** Properties of the rounding *)

Module Binary64Props.
Import Binary64.
Open Scope Q_scope.

Lemma pow2_Qpower (e : Z) : pow2 e == 2 ^ e.
Proof.
  unfold pow2. destruct (Z.leb_spec 0 e).
  - now rewrite Zpower_Qpower.
  - rewrite <- (Z.opp_involutive e) at 2. rewrite Qpower_opp.
    assert (Hq : inject_Z (2 ^ (- e)) == 2 ^ (- e)) by (apply Zpower_Qpower; lia). rewrite <- Hq.
    assert (H0 : (0 < 2 ^ (- e))%Z) by (apply Z.pow_pos_nonneg; lia).
    destruct (2 ^ (- e))%Z eqn:E; try lia. reflexivity.
Qed.

Lemma pow2_add (a b : Z) : pow2 (a + b) == pow2 a * pow2 b.
Proof. rewrite !pow2_Qpower. apply Qpower_plus. discriminate. Qed.

Lemma pow2_pos (e : Z) : 0 < pow2 e.
Proof. rewrite pow2_Qpower. apply Qpower_0_lt. reflexivity. Qed.

Lemma pow2_le_mono (a b : Z) : (a <= b)%Z -> pow2 a <= pow2 b.
Proof.
  intros H. replace b with (a + (b - a))%Z by lia. rewrite pow2_add.
  pose proof (pow2_pos a). assert (1 <= pow2 (b - a)).
  { unfold pow2. replace (0 <=? b - a)%Z with true by (symmetry; apply Z.leb_le; lia).
    change 1 with (inject_Z 1). rewrite <- Zle_Qle. pose proof (Z.pow_pos_nonneg 2 (b - a)). lia. }
  nra.
Qed.

Lemma qmake_eq (y : Q) : y == inject_Z (Qnum y) / inject_Z (Zpos (Qden y)).
Proof. destruct y as [n d]. apply Qmake_Qdiv. Qed.

Lemma round_half_even_spec (a : Z) (b : positive) :
  (- Zpos b <= 2 * (round_half_even a b * Zpos b - a) <= Zpos b)%Z.
Proof.
  unfold round_half_even. pose proof (Z.div_mod a (Zpos b) ltac:(lia)).
  pose proof (Z.mod_pos_bound a (Zpos b) ltac:(lia)).
  destruct (Z.compare_spec (2 * (a mod Zpos b)) (Zpos b)); [destruct (Z.even (a / Zpos b))|..]; nia.
Qed.

Lemma round_half_even_Q (y : Q) :
  - (1 # 2) <= inject_Z (round_half_even (Qnum y) (Qden y)) - y <= 1 # 2.
Proof.
  pose proof (round_half_even_spec (Qnum y) (Qden y)) as H.
  set (m := round_half_even (Qnum y) (Qden y)) in *. destruct y as [n d]. cbn [Qnum Qden] in *.
  unfold Qle, Qminus, Qplus, Qopp, inject_Z. cbn [Qnum Qden]. split; nia.
Qed.

Lemma pow2_of_Z (a : Z) : (0 <= a)%Z -> pow2 a == inject_Z (2 ^ a).
Proof. intros H. unfold pow2. now replace (0 <=? a)%Z with true by (symmetry; apply Z.leb_le; lia). Qed.

Lemma log2_floor_spec (x : Q) : 0 < x -> pow2 (log2_floor x) <= x < pow2 (log2_floor x + 1).
Proof.
  intros Hx. pose proof (qmake_eq x) as Ex.
  assert (Hn : (0 < Qnum x)%Z) by (clear Ex; destruct x as [n d]; unfold Qlt in Hx; cbn in *; lia).
  set (n := Qnum x) in *. set (d := Zpos (Qden x)) in *.
  pose proof (Z.log2_spec n Hn) as [Hn1 Hn2]. pose proof (Z.log2_spec d eq_refl) as [Hd1 Hd2].
  set (a := Z.log2 n) in *. set (b := Z.log2 d) in *.
  assert (Ha : (0 <= a)%Z) by apply Z.log2_nonneg. assert (Hb : (0 <= b)%Z) by apply Z.log2_nonneg.
  assert (HN1 : pow2 a <= inject_Z n) by (rewrite pow2_of_Z by lia; now rewrite <- Zle_Qle).
  assert (HN2 : inject_Z n < pow2 (a + 1)) by (rewrite pow2_of_Z by lia; rewrite <- Zlt_Qlt; now rewrite Z.add_1_r).
  assert (HD1 : pow2 b <= inject_Z d) by (rewrite pow2_of_Z by lia; now rewrite <- Zle_Qle).
  assert (HD2 : inject_Z d < pow2 (b + 1)) by (rewrite pow2_of_Z by lia; rewrite <- Zlt_Qlt; now rewrite Z.add_1_r).
  assert (Hd : 0 < inject_Z d) by (change 0 with (inject_Z 0); rewrite <- Zlt_Qlt; reflexivity).
  assert (Hxd : x * inject_Z d == inject_Z n) by (rewrite Ex; field; apply Qnot_eq_sym, Qlt_not_eq, Hd).
  assert (Lo : pow2 (a - b - 1) < x).
  { pose proof (pow2_add (a - b - 1) (b + 1)) as E. replace (a - b - 1 + (b + 1))%Z with a in E by lia.
    pose proof (pow2_pos (a - b - 1)). pose proof (pow2_pos (b + 1)). nra. }
  assert (Hi : x < pow2 (a - b + 1)).
  { pose proof (pow2_add (a - b + 1) b) as E. replace (a - b + 1 + b)%Z with (a + 1)%Z in E by lia.
    pose proof (pow2_pos (a - b + 1)). pose proof (pow2_pos b). nra. }
  unfold log2_floor. fold n d a b. destruct (Qle_bool (pow2 (a - b)) x) eqn:E.
  - apply Qle_bool_iff in E. split; [exact E | exact Hi].
  - assert (x < pow2 (a - b)) by (apply Qnot_le_lt; intros H; apply Qle_bool_iff in H; congruence).
    replace (a - b - 1 + 1)%Z with (a - b)%Z by lia. split; [lra | assumption].
Qed.

Lemma pow2_lt_mono_inv (a b : Z) : pow2 a < pow2 b -> (a < b)%Z.
Proof. intros H. destruct (Z.lt_ge_cases a b) as [|Hba]; [assumption|]. pose proof (pow2_le_mono b a Hba). lra. Qed.

Lemma round_pos_normal (x : Q) :
  pow2 (-1022) <= x -> x < pow2 1023 ->
  exists v, round_pos x = JFin v /\ is_normal v /\ - (x * pow2 (-53)) <= v - x <= x * pow2 (-53).
Proof.
  intros Hlo Hhi. assert (Hx : 0 < x) by (pose proof (pow2_pos (-1022)); lra).
  pose proof (log2_floor_spec x Hx) as [HL1 HL2].
  set (L := log2_floor x) in *.
  assert (L1 : (-1022 <= L)%Z) by (apply Z.lt_succ_r; rewrite <- Z.add_1_r; apply pow2_lt_mono_inv; lra).
  assert (L2 : (L < 1023)%Z) by (apply pow2_lt_mono_inv; lra).
  unfold round_pos. fold L. rewrite Z.max_l by lia.
  set (e := (L - 52)%Z).
  set (y := Qred (x * pow2 (- e))).
  pose proof (round_half_even_Q y) as Hm. set (m := round_half_even (Qnum y) (Qden y)) in *.
  assert (Hy : y == x * pow2 (- e)) by apply Qred_correct.
  assert (Hee : pow2 (- e) * pow2 e == 1) by (rewrite <- pow2_add; now replace (- e + e)%Z with 0%Z by lia).
  assert (Hx' : x == y * pow2 e) by (rewrite Hy, <- Qmult_assoc, Hee; ring).
  assert (Hv : inject_Z m * pow2 e - x == (inject_Z m - y) * pow2 e) by (rewrite Hx' at 1; ring).
  assert (HP : pow2 e == pow2 L * (2 * pow2 (-53))).
  { unfold e. rewrite (pow2_add L (-52)). apply Qmult_comp; [reflexivity | vm_compute; reflexivity]. }
  pose proof (pow2_pos e) as Pe. pose proof (pow2_pos (-53)) as Pu.
  assert (Hu : pow2 (-53) < 1) by (vm_compute; reflexivity).
  assert (HLx : pow2 L * pow2 (-53) <= x * pow2 (-53)) by (apply Qmult_le_compat_r; lra).
  set (D := inject_Z m - y) in *.
  assert (B1 : 0 <= ((1 # 2) - D) * pow2 e) by (apply Qmult_le_0_compat; lra).
  assert (B2 : 0 <= (D + (1 # 2)) * pow2 e) by (apply Qmult_le_0_compat; lra).
  assert (Hb : - (x * pow2 (-53)) <= inject_Z m * pow2 e - x <= x * pow2 (-53)) by (rewrite Hv; split; nra).
  assert (H1024 : pow2 1024 == 2 * pow2 1023) by (vm_compute; reflexivity).
  assert (Hno : Qle_bool (pow2 1024) (inject_Z m * pow2 e) = false).
  { apply not_true_iff_false. rewrite Qle_bool_iff. nra. }
  assert (HP' : pow2 e == pow2 L * (1 # 4503599627370496)) by (rewrite HP; apply Qmult_comp; [reflexivity | vm_compute; reflexivity]).
  assert (HL2' : pow2 (L + 1) == pow2 L * 2) by (rewrite pow2_add; reflexivity).
  pose proof (pow2_pos L) as PL.
  assert (Ylo : 4503599627370496 <= y) by (rewrite Hx', HP' in HL1; nra).
  assert (Yhi : y < 9007199254740992) by (rewrite Hx', HP', HL2' in HL2; nra).
  assert (Hm52 : (2 ^ 52 <= m <= 2 ^ 53)%Z).
  { assert (A : inject_Z (2 ^ 52 - 1) < inject_Z m) by (unfold D in Hm; change (inject_Z (2 ^ 52 - 1)) with 4503599627370495; lra).
    assert (B : inject_Z m < inject_Z (2 ^ 53 + 1)) by (unfold D in Hm; change (inject_Z (2 ^ 53 + 1)) with 9007199254740993; lra).
    rewrite <- Zlt_Qlt in A, B. lia. }
  rewrite Hno. eexists. split; [reflexivity|]. split; [|exact Hb].
  destruct (Z.eq_dec m (2 ^ 53)) as [E|E].
  - exists (2 ^ 52)%Z, (e + 1)%Z. split; [lia | split; [lia|]].
    rewrite E, pow2_add. change (inject_Z (2 ^ 53)) with (inject_Z (2 ^ 52) * 2). change (pow2 1) with 2. ring.
  - exists m, e. split; [lia | split; [lia | reflexivity]].
Qed.

(** A positive rational is rounded by [round_pos]. *)
Lemma round_gt0 (x : Q) : 0 < x -> round x = round_pos x.
Proof. intros H. unfold round. now rewrite (proj1 (Qgt_alt x 0) H). Qed.


Lemma pow10_Qpower (e : Z) : pow10 e == 10 ^ e.
Proof.
  unfold pow10. destruct (Z.leb_spec 0 e).
  - now rewrite Zpower_Qpower.
  - rewrite <- (Z.opp_involutive e) at 2. rewrite Qpower_opp.
    assert (Hq : inject_Z (10 ^ (- e)) == 10 ^ (- e)) by (apply Zpower_Qpower; lia). rewrite <- Hq.
    assert (H0 : (0 < 10 ^ (- e))%Z) by (apply Z.pow_pos_nonneg; lia).
    destruct (10 ^ (- e))%Z eqn:E; try lia. reflexivity.
Qed.

Lemma pow10_add (a b : Z) : pow10 (a + b) == pow10 a * pow10 b.
Proof. rewrite !pow10_Qpower. apply Qpower_plus. discriminate. Qed.

Lemma pow10_pos (e : Z) : 0 < pow10 e.
Proof. rewrite pow10_Qpower. apply Qpower_0_lt. reflexivity. Qed.

Lemma pow10_of_Z (a : Z) : (0 <= a)%Z -> pow10 a == inject_Z (10 ^ a).
Proof. intros H. unfold pow10. now replace (0 <=? a)%Z with true by (symmetry; apply Z.leb_le; lia). Qed.

Lemma pow10_le_mono (a b : Z) : (a <= b)%Z -> pow10 a <= pow10 b.
Proof.
  intros H. replace b with (a + (b - a))%Z by lia. rewrite pow10_add.
  pose proof (pow10_pos a). assert (1 <= pow10 (b - a)).
  { rewrite pow10_of_Z by lia. change 1 with (inject_Z 1). rewrite <- Zle_Qle.
    pose proof (Z.pow_pos_nonneg 10 (b - a)). lia. }
  nra.
Qed.

Lemma pow10_lt_mono_inv (a b : Z) : pow10 a < pow10 b -> (a < b)%Z.
Proof. intros H. destruct (Z.lt_ge_cases a b) as [|Hba]; [assumption|]. pose proof (pow10_le_mono b a Hba). lra. Qed.

Lemma digits10_fuel_spec (f : nat) (z : Z) :
  (1 <= z < 2 ^ Z.of_nat f)%Z ->
  (10 ^ (digits10_fuel f z - 1) <= z < 10 ^ digits10_fuel f z)%Z /\ (1 <= digits10_fuel f z)%Z.
Proof.
  revert z. induction f as [|f IH]; intros z Hz; [cbn in Hz; lia|].
  cbn [digits10_fuel]. destruct (Z.ltb_spec z 10); [cbn; lia|].
  rewrite Nat2Z.inj_succ, Z.pow_succ_r in Hz by lia.
  destruct (IH (z / 10)%Z) as [[H1 H2] H3].
  { split; [apply Z.div_le_lower_bound; lia | apply Z.div_lt_upper_bound; lia]. }
  set (d := digits10_fuel f (z / 10)) in *.
  replace (1 + d - 1)%Z with d by lia. rewrite Z.pow_add_r by lia.
  pose proof (Z.div_mod z 10 ltac:(lia)). pose proof (Z.mod_pos_bound z 10 ltac:(lia)).
  assert (E : (10 ^ d = 10 ^ (d - 1) * 10)%Z) by (replace d with (Z.succ (d - 1)) at 1 by lia; rewrite Z.pow_succ_r by lia; lia).
  split; [split; nia | lia].
Qed.

Lemma digits10_spec (z : Z) :
  (1 <= z)%Z -> (10 ^ (digits10 z - 1) <= z < 10 ^ digits10 z)%Z /\ (1 <= digits10 z)%Z.
Proof.
  intros Hz. apply digits10_fuel_spec. rewrite Nat2Z.inj_succ, Z2Nat.id by apply Z.log2_nonneg.
  split; [lia|]. apply Z.log2_spec; lia.
Qed.

Section Bracket.
Variable pw : Z -> Q.
Hypothesis pw_add : forall a b, pw (a + b) == pw a * pw b.
Hypothesis pw_pos : forall e, 0 < pw e.

(** With [n] in [[b^a, b^(a+1))] and [d] in [[b^c, b^(c+1))], [n/d] is
    in [(b^(a-c-1), b^(a-c+1))]. *)
Lemma bracket_between (x n d : Q) (a c : Z) :
  x * d == n -> 0 < d -> pw a <= n < pw (a + 1) -> pw c <= d < pw (c + 1) ->
  pw (a - c - 1) < x < pw (a - c + 1).
Proof.
  intros Hx Hd [Hn1 Hn2] [Hd1 Hd2]. split.
  - pose proof (pw_add (a - c - 1) (c + 1)) as E. replace (a - c - 1 + (c + 1))%Z with a in E by lia.
    pose proof (pw_pos (a - c - 1)). pose proof (pw_pos (c + 1)). nra.
  - pose proof (pw_add (a - c + 1) c) as E. replace (a - c + 1 + c)%Z with (a + 1)%Z in E by lia.
    pose proof (pw_pos (a - c + 1)). pose proof (pw_pos c). nra.
Qed.

(** The floor chosen by one comparison with [b^k]. *)
Lemma bracket_floor (x : Q) (k : Z) :
  pw (k - 1) < x < pw (k + 1) ->
  pw (if Qle_bool (pw k) x then k else (k - 1)%Z) <= x < pw ((if Qle_bool (pw k) x then k else (k - 1)%Z) + 1).
Proof.
  intros [H1 H2]. destruct (Qle_bool (pw k) x) eqn:E.
  - apply Qle_bool_iff in E. lra.
  - apply Qle_bool_false in E. replace (k - 1 + 1)%Z with k by lia. lra.
Qed.

Hypothesis pw_le_mono : forall a b, (a <= b)%Z -> pw a <= pw b.

(** The bracketing exponent is unique. *)
Lemma bracket_unique (x : Q) (L L' : Z) :
  pw L <= x < pw (L + 1) -> pw L' <= x < pw (L' + 1) -> L = L'.
Proof.
  intros [H1 H2] [H3 H4]. destruct (Z.lt_trichotomy L L') as [Hl|[Hl|Hl]]; [|exact Hl|].
  - pose proof (pw_le_mono (L + 1) L' ltac:(lia)). lra.
  - pose proof (pw_le_mono (L' + 1) L ltac:(lia)). lra.
Qed.

End Bracket.

Lemma Q_of_den (x : Q) : x * inject_Z (Zpos (Qden x)) == inject_Z (Qnum x) /\ 0 < inject_Z (Zpos (Qden x)).
Proof.
  assert (Hd : 0 < inject_Z (Zpos (Qden x))) by (change 0 with (inject_Z 0); rewrite <- Zlt_Qlt; reflexivity).
  split; [|exact Hd]. rewrite (qmake_eq x) at 1. field. apply Qnot_eq_sym, Qlt_not_eq, Hd.
Qed.

Lemma Qnum_pos (x : Q) : 0 < x -> (0 < Qnum x)%Z.
Proof. destruct x as [n d]. unfold Qlt. cbn. lia. Qed.

Lemma log10_floor_spec (x : Q) : 0 < x -> pow10 (log10_floor x) <= x < pow10 (log10_floor x + 1).
Proof.
  intros Hx. destruct (Q_of_den x) as [Hxd Hd].
  pose proof (digits10_spec (Qnum x) ltac:(pose proof (Qnum_pos x Hx); lia)) as [Hn Hn1].
  pose proof (digits10_spec (Zpos (Qden x)) ltac:(lia)) as [Hdd Hdd1].
  set (a := (digits10 (Qnum x) - 1)%Z) in *. set (c := (digits10 (Zpos (Qden x)) - 1)%Z) in *.
  assert (Hb : pow10 (a - c - 1) < x < pow10 (a - c + 1)).
  { assert (Ha : (0 <= a)%Z) by lia. assert (Hc : (0 <= c)%Z) by lia.
    apply (bracket_between pow10 pow10_add pow10_pos x _ _ a c Hxd Hd).
    - replace (a + 1)%Z with (digits10 (Qnum x)) by (unfold a; lia).
      split; rewrite pow10_of_Z by lia; [rewrite <- Zle_Qle | rewrite <- Zlt_Qlt]; lia.
    - replace (c + 1)%Z with (digits10 (Zpos (Qden x))) by (unfold c; lia).
      split; rewrite pow10_of_Z by lia; [rewrite <- Zle_Qle | rewrite <- Zlt_Qlt]; lia. }
  unfold log10_floor. replace (digits10 (Qnum x) - digits10 (Zpos (Qden x)))%Z with (a - c)%Z by lia.
  apply (bracket_floor pow10). replace (a - c + 1)%Z with (a - c + 1)%Z by lia. exact Hb.
Qed.

Lemma log2_floor_unique (x : Q) (L : Z) : pow2 L <= x < pow2 (L + 1) -> log2_floor x = L.
Proof.
  intros H. assert (Hx : 0 < x) by (pose proof (pow2_pos L); lra).
  exact (bracket_unique pow2 pow2_le_mono x _ _ (log2_floor_spec x Hx) H).
Qed.

Lemma round_pos_Qeq (x y : Q) : x == y -> 0 < x -> round_pos x = round_pos y.
Proof.
  intros Hxy Hx. unfold round_pos.
  assert (HL : log2_floor y = log2_floor x) by (apply log2_floor_unique; rewrite <- Hxy; apply log2_floor_spec, Hx).
  rewrite HL. set (e := Z.max (log2_floor x - 52) (-1074)).
  assert (Hr : Qred (x * pow2 (- e)) = Qred (y * pow2 (- e))) by (apply Qred_complete; now rewrite Hxy).
  now rewrite Hr.
Qed.

(** Rounding depends on the value only: equal rationals round to the
    same double. *)
#[export] Instance round_Proper : Proper (Qeq ==> eq) round.
Proof.
  intros x y Hxy. unfold round.
  assert (Hc : (x ?= 0) = (y ?= 0)) by (apply Qcompare_comp; [exact Hxy | reflexivity]).
  rewrite <- Hc. destruct (x ?= 0) eqn:E; [reflexivity| |].
  - apply Qlt_alt in E. f_equal. apply round_pos_Qeq; [now rewrite Hxy | lra].
  - apply Qgt_alt in E. apply round_pos_Qeq; [exact Hxy | exact E].
Qed.

Lemma rhe_unique (y : Q) (M : Z) :
  - (1 # 2) < inject_Z M - y < 1 # 2 -> round_half_even (Qnum y) (Qden y) = M.
Proof.
  intros [H1 H2]. pose proof (round_half_even_Q y) as [H3 H4].
  set (m := round_half_even (Qnum y) (Qden y)) in *.
  assert (A : inject_Z m < inject_Z (M + 1)) by (rewrite inject_Z_plus; change (inject_Z 1) with 1; lra).
  assert (B : inject_Z M < inject_Z (m + 1)) by (rewrite inject_Z_plus; change (inject_Z 1) with 1; lra).
  rewrite <- Zlt_Qlt in A, B. lia.
Qed.

(** [round_pos] on a value whose quantum is [2^e] and whose scaled value
    is within one half of the integer [M]. *)
Lemma round_pos_at (D : Q) (e M : Z) :
  0 < D -> Z.max (log2_floor D - 52) (-1074) = e ->
  - (1 # 2) < inject_Z M - D * pow2 (- e) < 1 # 2 -> inject_Z M * pow2 e < pow2 1024 ->
  round_pos D = JFin (inject_Z M * pow2 e).
Proof.
  intros HD He Hy Hv. unfold round_pos. rewrite He.
  rewrite (rhe_unique (Qred (D * pow2 (- e))) M) by (rewrite Qred_correct; exact Hy).
  replace (Qle_bool (pow2 1024) (inject_Z M * pow2 e)) with false by (symmetry; apply Qle_bool_false; exact Hv).
  reflexivity.
Qed.

Lemma scaled_close (x D F mQ : Q) :
  x * F == mQ -> 0 < F -> 0 <= x ->
  - (x * (1 # 20000000000000000)) <= D - x <= x * (1 # 20000000000000000) ->
  - (mQ * (1 # 20000000000000000)) <= D * F - mQ <= mQ * (1 # 20000000000000000).
Proof. intros H HF Hx [H1 H2]. split; nra. Qed.

(** A value within [5 * 10^-17] of a normal double, relatively, rounds
    to it: the half-ulp of [m * 2^e] is at least [2^(e-2)] below and
    [2^(e-1)] above, and [5 * 10^-17 * 2^53 < 1/2]. *)
Lemma round_near (x D : Q) (m e : Z) :
  (2 ^ 52 <= m < 2 ^ 53)%Z -> (-1074 <= e <= 971)%Z -> x == inject_Z m * pow2 e ->
  - (x * (1 # 20000000000000000)) <= D - x <= x * (1 # 20000000000000000) ->
  exists v, round_pos D = JFin v /\ v == x.
Proof.
  intros Hm He Hx Hd.
  set (E := pow2 e) in *. set (F := pow2 (- e)).
  assert (HEF : E * F == 1) by (unfold E, F; rewrite <- pow2_add; now replace (e + - e)%Z with 0%Z by lia).
  pose proof (pow2_pos e) as HE. pose proof (pow2_pos (- e)) as HF. fold E F in HE, HF.
  assert (HmQ : 4503599627370496 <= inject_Z m <= 9007199254740991).
  { split; [change 4503599627370496 with (inject_Z (2 ^ 52)) | change 9007199254740991 with (inject_Z (2 ^ 53 - 1))];
      rewrite <- Zle_Qle; lia. }
  assert (HxF : x * F == inject_Z m) by (rewrite Hx, <- Qmult_assoc, HEF; ring).
  assert (Hx0 : 0 < x) by (rewrite Hx; nra).
  pose proof (scaled_close x D F (inject_Z m) HxF HF ltac:(lra) Hd) as Hs.
  assert (HD : 0 < D) by lra.
  assert (E971 : E <= pow2 971) by (apply pow2_le_mono; lia).
  assert (C1024 : pow2 1024 == pow2 971 * 9007199254740992) by (vm_compute; reflexivity).
  assert (E52 : pow2 (e + 52) == E * 4503599627370496) by (rewrite pow2_add; reflexivity).
  assert (E51 : pow2 (e + 51) == E * 2251799813685248) by (rewrite pow2_add; reflexivity).
  assert (E53 : pow2 (e + 53) == E * 9007199254740992) by (rewrite pow2_add; reflexivity).
  destruct (Qlt_le_dec D (pow2 (e + 52))) as [Hlow|Hhigh].
  - assert (HDF : D * F < 4503599627370496) by (rewrite E52 in Hlow; nra).
    assert (Hm52 : m = (2 ^ 52)%Z).
    { assert (inject_Z m < inject_Z (2 ^ 52 + 1)) by (change (inject_Z (2 ^ 52 + 1)) with 4503599627370497; lra).
      rewrite <- Zlt_Qlt in H. lia. }
    subst m. change (inject_Z (2 ^ 52)) with 4503599627370496 in *.
    assert (HL : log2_floor D = (e + 51)%Z).
    { apply log2_floor_unique. rewrite E51. replace (e + 51 + 1)%Z with (e + 52)%Z by lia. split; [|exact Hlow].
      rewrite Hx in Hd. nra. }
    destruct (Z.eq_dec e (-1074)) as [He0|He0].
    + exists (inject_Z (2 ^ 52) * pow2 e). split; [|rewrite Hx; reflexivity].
      apply round_pos_at; [exact HD | rewrite HL; lia | fold F; change (inject_Z (2 ^ 52)) with 4503599627370496; lra |].
      change (inject_Z (2 ^ 52)) with 4503599627370496. fold E. lra.
    + assert (F1 : pow2 (- (e - 1)) == F * 2) by (unfold F; change (pow2 (- e) * 2) with (pow2 (- e) * pow2 1); rewrite <- pow2_add; now replace (- e + 1)%Z with (- (e - 1))%Z by lia).
      assert (E1 : pow2 (e - 1) * 2 == E) by (unfold E; change (pow2 (e - 1) * 2) with (pow2 (e - 1) * pow2 1); rewrite <- pow2_add; now replace (e - 1 + 1)%Z with e by lia).
      exists (inject_Z (2 ^ 53) * pow2 (e - 1)). split.
      * apply round_pos_at; [exact HD | rewrite HL; lia | rewrite F1; change (inject_Z (2 ^ 53)) with 9007199254740992; lra |].
        change (inject_Z (2 ^ 53)) with 9007199254740992. pose proof (pow2_pos (e - 1)). lra.
      * rewrite Hx. change (inject_Z (2 ^ 53)) with 9007199254740992. lra.
  - assert (HL : log2_floor D = (e + 52)%Z).
    { apply log2_floor_unique. replace (e + 52 + 1)%Z with (e + 53)%Z by lia. split; [exact Hhigh|].
      rewrite E53. assert (x <= E * 9007199254740991) by (rewrite Hx; nra). lra. }
    exists (inject_Z m * pow2 e). split; [|rewrite Hx; reflexivity].
    apply round_pos_at; [exact HD | rewrite HL; lia | fold F; lra |]. fold E. nra.
Qed.

Lemma pick_denotes (x : Q) (p fl s : Z) : pick x p fl = Some s -> denotes x s p = true.
Proof.
  unfold pick. destruct (denotes x fl p) eqn:E1, (denotes x (fl + 1) p) eqn:E2; try discriminate;
    [repeat match goal with |- context [if ?b then _ else _] => destruct b end| |];
    intros H; injection H as <-; assumption.
Qed.

Lemma is_normal_pos (x : Q) : is_normal x -> 0 < x.
Proof.
  intros (m & e & Hm & He & Hx). rewrite Hx. pose proof (pow2_pos e).
  assert (0 < inject_Z m) by (change 0 with (inject_Z 0); rewrite <- Zlt_Qlt; lia). nra.
Qed.

(** At 17 digits the nearest decimal rounds back. *)
Lemma level17_denotes (x : Q) :
  is_normal x ->
  let e10 := log10_floor x in
  let t := x / pow10 (e10 - 16) in
  denotes x (round_half_even (Qnum (Qred t)) (Qden (Qred t))) (e10 - 16) = true.
Proof.
  intros Hn e10 t. pose proof (is_normal_pos x Hn) as Hx.
  pose proof (log10_floor_spec x Hx) as [H1 H2]. fold e10 in H1, H2.
  pose proof (round_half_even_Q (Qred t)) as Hr.
  set (s := round_half_even (Qnum (Qred t)) (Qden (Qred t))) in *. rewrite Qred_correct in Hr.
  set (P := pow10 (e10 - 16)). pose proof (pow10_pos (e10 - 16)) as HP. fold P in HP.
  assert (HtP : t * P == x) by (unfold t, P; field; apply Qnot_eq_sym, Qlt_not_eq, HP).
  assert (HPx : P * 10000000000000000 <= x).
  { unfold P. change 10000000000000000 with (pow10 16). rewrite <- pow10_add.
    now replace (e10 - 16 + 16)%Z with e10 by lia. }
  assert (Hd : - (x * (1 # 20000000000000000)) <= inject_Z s * P - x <= x * (1 # 20000000000000000)).
  { assert (inject_Z s * P - x == (inject_Z s - t) * P) by (rewrite <- HtP; ring).
    rewrite H. split; nra. }
  destruct Hn as (m & e & Hm & He & Hxm).
  destruct (round_near x (inject_Z s * P) m e Hm He Hxm Hd) as (v & Hv & Hvx).
  unfold denotes. fold P. rewrite round_gt0 by lra. rewrite Hv. cbn. now apply Qeq_bool_iff.
Qed.

Lemma search_denotes (x : Q) (fuel : nat) (k : Z) :
  is_normal x -> (Z.of_nat fuel + k = 17)%Z ->
  denotes x (fst (search fuel k (log10_floor x) x)) (snd (search fuel k (log10_floor x) x)) = true.
Proof.
  intros Hn. revert k. induction fuel as [|f IH]; intros k Hk.
  - cbn [search fst snd]. replace (log10_floor x - k + 1)%Z with (log10_floor x - 16)%Z by lia.
    apply level17_denotes, Hn.
  - cbn [search]. destruct (pick x _ _) as [s|] eqn:E.
    + exact (pick_denotes _ _ _ _ E).
    + apply IH. lia.
Qed.

Lemma round_half_even_nonneg (a : Z) (b : positive) : (0 <= a)%Z -> (0 <= round_half_even a b)%Z.
Proof.
  intros Ha. unfold round_half_even. pose proof (Z.div_pos a (Zpos b) Ha ltac:(lia)).
  destruct (Z.compare _ _); [destruct (Z.even _)|..]; lia.
Qed.

Lemma round_pos_nonneg (y v : Q) : 0 < y -> round_pos y = JFin v -> 0 <= v.
Proof.
  intros Hy H. unfold round_pos in H.
  set (e := Z.max _ _) in H. set (r := Qred (y * pow2 (- e))) in H.
  set (m := round_half_even (Qnum r) (Qden r)) in H.
  assert (Hm : (0 <= m)%Z).
  { apply round_half_even_nonneg.
    assert (Hr : 0 < r) by (unfold r; rewrite Qred_correct; pose proof (pow2_pos (- e)); nra).
    pose proof (Qnum_pos r Hr). lia. }
  destruct (Qle_bool _ _); [discriminate|]. injection H as <-. pose proof (pow2_pos e).
  apply Qmult_le_0_compat; [change 0 with (inject_Z 0); rewrite <- Zle_Qle; lia | lra].
Qed.

(** A decimal that denotes a positive value is positive. *)
Lemma denotes_pos (x : Q) (s p : Z) : 0 < x -> denotes x s p = true -> (0 < s)%Z.
Proof.
  intros Hx H. destruct (Z.lt_ge_cases 0 s) as [|Hs]; [assumption|]. exfalso. revert H. unfold denotes, round.
  pose proof (pow10_pos p).
  assert (Hq : inject_Z s * pow10 p <= 0)
    by (assert (inject_Z s <= 0) by (change 0 with (inject_Z 0); rewrite <- Zle_Qle; lia); nra).
  destruct (Qcompare_spec (inject_Z s * pow10 p) 0) as [E|E|E]; [| |lra].
  - cbn [jsnum_eqb]. intros Hb. apply Qeq_bool_iff in Hb. lra.
  - destruct (round_pos (- (inject_Z s * pow10 p))) as [v| | |] eqn:R; cbn [neg jsnum_eqb]; try discriminate.
    pose proof (round_pos_nonneg (- (inject_Z s * pow10 p)) v ltac:(lra) R). intros Hb. apply Qeq_bool_iff in Hb. lra.
Qed.

Lemma strip_zeros_value (f : nat) (s p : Z) :
  (0 < s)%Z ->
  inject_Z (fst (strip_zeros f s p)) * pow10 (snd (strip_zeros f s p)) == inject_Z s * pow10 p /\
  (0 < fst (strip_zeros f s p))%Z.
Proof.
  revert s p. induction f as [|f IH]; intros s p Hs; [split; [reflexivity | exact Hs]|].
  cbn [strip_zeros]. destruct ((s mod 10 =? 0) && (0 <? s))%Z eqn:E; [|split; [reflexivity | exact Hs]].
  apply andb_true_iff in E as [E1 _]. apply Z.eqb_eq in E1.
  pose proof (Z.div_mod s 10 ltac:(lia)) as Hd. rewrite E1, Z.add_0_r in Hd.
  destruct (IH (s / 10)%Z (p + 1)%Z ltac:(lia)) as [H1 H2]. split; [|exact H2].
  rewrite H1, pow10_add. rewrite Hd at 2. rewrite inject_Z_mult. change (pow10 1) with 10. ring.
Qed.

Lemma shortest_spec (x : Q) :
  is_normal x ->
  (0 < fst (shortest x))%Z /\
  jsnum_eqb (round (inject_Z (fst (shortest x)) * pow10 (snd (shortest x)))) (JFin x) = true.
Proof.
  intros Hn. pose proof (is_normal_pos x Hn) as Hx.
  pose proof (search_denotes x 16 1 Hn eq_refl) as Hd.
  unfold shortest. destruct (search 16 1 (log10_floor x) x) as [s p]. cbn [fst snd] in Hd.
  pose proof (denotes_pos x s p Hx Hd) as Hs.
  destruct (strip_zeros_value 17 s p Hs) as [Hv Hs']. split; [exact Hs'|].
  rewrite Hv. exact Hd.
Qed.


Lemma rhe_mono (t1 t2 : Q) :
  t1 <= t2 -> (round_half_even (Qnum (Qred t1)) (Qden (Qred t1)) <= round_half_even (Qnum (Qred t2)) (Qden (Qred t2)))%Z.
Proof.
  intros H. pose proof (round_half_even_Q (Qred t1)) as [A1 A2]. pose proof (round_half_even_Q (Qred t2)) as [B1 B2].
  set (m1 := round_half_even (Qnum (Qred t1)) (Qden (Qred t1))) in *.
  set (m2 := round_half_even (Qnum (Qred t2)) (Qden (Qred t2))) in *.
  rewrite Qred_correct in A1, A2, B1, B2.
  destruct (Z.le_gt_cases m1 m2) as [|Hgt]; [assumption|]. exfalso.
  assert (Hq : inject_Z m2 + 1 <= inject_Z m1)
    by (change 1 with (inject_Z 1); rewrite <- inject_Z_plus, <- Zle_Qle; lia).
  assert (Ht : t1 == t2) by lra.
  assert (m1 = m2) by (unfold m1, m2; now rewrite (Qred_complete t1 t2 Ht)). lia.
Qed.

(** Rounding is monotone: a smaller positive value rounds to a double no
    larger, and finite when the larger one is. *)
Lemma round_pos_mono (x y b : Q) :
  0 < x -> x <= y -> round_pos y = JFin b -> exists a, round_pos x = JFin a /\ a <= b.
Proof.
  intros Hx Hxy Hy. pose proof (log2_floor_spec x Hx) as [X1 X2]. pose proof (log2_floor_spec y ltac:(lra)) as [Y1 Y2].
  set (Lx := log2_floor x) in *. set (Ly := log2_floor y) in *.
  assert (HL : (Lx <= Ly)%Z).
  { destruct (Z.le_gt_cases Lx Ly) as [|Hg]; [assumption|]. pose proof (pow2_le_mono (Ly + 1) Lx ltac:(lia)). lra. }
  unfold round_pos in Hy |- *. fold Lx. fold Ly in Hy.
  set (ex := Z.max (Lx - 52) (-1074)). set (ey := Z.max (Ly - 52) (-1074)) in Hy.
  set (mx := round_half_even (Qnum (Qred (x * pow2 (- ex)))) (Qden (Qred (x * pow2 (- ex))))).
  set (my := round_half_even (Qnum (Qred (y * pow2 (- ey)))) (Qden (Qred (y * pow2 (- ey))))) in Hy.
  destruct (Qle_bool (pow2 1024) (inject_Z my * pow2 ey)) eqn:Ov; [discriminate|]. injection Hy as <-.
  apply Qle_bool_false in Ov.
  assert (Hab : inject_Z mx * pow2 ex <= inject_Z my * pow2 ey).
  { destruct (Z.eq_dec ex ey) as [E|E].
    - assert (Hm : (mx <= my)%Z)
        by (unfold mx, my; rewrite <- E; apply rhe_mono; pose proof (pow2_pos (- ex)); apply Qmult_le_compat_r; lra).
      rewrite <- E. pose proof (pow2_pos ex). apply Qmult_le_compat_r; [rewrite <- Zle_Qle; exact Hm | lra].
    - assert (Hey : ey = (Ly - 52)%Z) by (unfold ey, ex in *; lia).
      assert (Hex : (ex + 1 <= ey)%Z) by (unfold ey, ex in *; lia).
      pose proof (round_half_even_Q (Qred (y * pow2 (- ey)))) as [M1 _]. fold my in M1.
      pose proof (round_half_even_Q (Qred (x * pow2 (- ex)))) as [_ M2]. fold mx in M2.
      rewrite Qred_correct in M1, M2.
      assert (Sy : 4503599627370496 <= y * pow2 (- ey)).
      { assert (P : pow2 Ly * pow2 (- ey) == 4503599627370496)
          by (rewrite <- pow2_add; replace (Ly + - ey)%Z with 52%Z by lia; reflexivity).
        pose proof (pow2_pos (- ey)). rewrite <- P. apply Qmult_le_compat_r; lra. }
      assert (Sx : x * pow2 (- ex) < 9007199254740992).
      { assert (P : pow2 (Lx + 1) * pow2 (- ex) <= 9007199254740992).
        { rewrite <- pow2_add. change 9007199254740992 with (pow2 53). apply pow2_le_mono. unfold ex. lia. }
        pose proof (pow2_pos (- ex)). assert (x * pow2 (- ex) < pow2 (Lx + 1) * pow2 (- ex)) by (apply Qmult_lt_compat_r; lra). lra. }
      assert (Hmy : (2 ^ 52 <= my)%Z).
      { assert (inject_Z (2 ^ 52 - 1) < inject_Z my) by (change (inject_Z (2 ^ 52 - 1)) with 4503599627370495; lra).
        rewrite <- Zlt_Qlt in H. lia. }
      assert (Hmx : (mx <= 2 ^ 53)%Z).
      { assert (inject_Z mx < inject_Z (2 ^ 53 + 1)) by (change (inject_Z (2 ^ 53 + 1)) with 9007199254740993; lra).
        rewrite <- Zlt_Qlt in H. lia. }
      assert (A : inject_Z mx * pow2 ex <= pow2 (ex + 53)).
      { rewrite Z.add_comm, pow2_add. change (pow2 53) with (inject_Z (2 ^ 53)). pose proof (pow2_pos ex).
        apply Qmult_le_compat_r; [rewrite <- Zle_Qle; exact Hmx | lra]. }
      assert (B : pow2 (ey + 52) <= inject_Z my * pow2 ey).
      { rewrite Z.add_comm, pow2_add. change (pow2 52) with (inject_Z (2 ^ 52)). pose proof (pow2_pos ey).
        apply Qmult_le_compat_r; [rewrite <- Zle_Qle; exact Hmy | lra]. }
      pose proof (pow2_le_mono (ex + 53) (ey + 52) ltac:(lia)). lra. }
  replace (Qle_bool (pow2 1024) (inject_Z mx * pow2 ex)) with false by (symmetry; apply Qle_bool_false; lra).
  eexists. split; [reflexivity | exact Hab].
Qed.

(** A value between 0 and a double [c] rounds into [[0, c]]. *)
Lemma round_within (x c c' : Q) :
  0 <= x <= c -> round c = JFin c' -> c' == c -> exists a, round x = JFin a /\ 0 <= a <= c.
Proof.
  intros [H0 Hc] Rc Ec. destruct (Qeq_dec x 0) as [Z0|Z0].
  - exists 0. split; [|lra]. unfold round. now rewrite Z0.
  - assert (Hx : 0 < x) by (apply Qle_lt_or_eq in H0 as [|E]; [assumption | exfalso; apply Z0; now symmetry]).
    rewrite round_gt0 in Rc |- * by lra.
    destruct (round_pos_mono x c c' Hx Hc Rc) as (a & Ra & Ha).
    exists a. split; [exact Ra|]. split; [exact (round_pos_nonneg x a Hx Ra) | lra].
Qed.

Lemma is_normal_Z (z : Z) : (1 <= z < 2 ^ 53)%Z -> is_normal (inject_Z z).
Proof.
  intros Hz. pose proof (Z.log2_spec z ltac:(lia)) as [L1 L2]. set (L := Z.log2 z) in *.
  assert (HL : (0 <= L <= 52)%Z).
  { split; [apply Z.log2_nonneg|]. destruct (Z.le_gt_cases L 52) as [|Hg]; [assumption|].
    assert (2 ^ 53 <= 2 ^ L)%Z by (apply Z.pow_le_mono_r; lia). lia. }
  exists (z * 2 ^ (52 - L))%Z, (L - 52)%Z. split; [|split; [lia|]].
  - rewrite <- Z.add_1_r in L2. rewrite Z.pow_add_r in L2 by lia.
    assert (E52 : (2 ^ 52 = 2 ^ L * 2 ^ (52 - L))%Z) by (rewrite <- Z.pow_add_r by lia; f_equal; lia).
    assert (E53 : (2 ^ 53 = 2 ^ L * 2 ^ 1 * 2 ^ (52 - L))%Z) by (rewrite <- !Z.pow_add_r by lia; f_equal; lia).
    pose proof (Z.pow_pos_nonneg 2 (52 - L) ltac:(lia)). nia.
  - rewrite inject_Z_mult, <- pow2_of_Z by lia. rewrite <- Qmult_assoc, <- pow2_add.
    replace (52 - L + (L - 52))%Z with 0%Z by lia. change (pow2 0) with 1. ring.
Qed.

(** Normal doubles round to themselves. *)
Lemma round_normal_exact (x : Q) : is_normal x -> exists v, round x = JFin v /\ v == x.
Proof.
  intros Hn. pose proof (is_normal_pos x Hn) as Hx. rewrite round_gt0 by exact Hx.
  destruct Hn as (m & e & Hm & He & Hxm). apply (round_near x x m e Hm He Hxm).
  assert (0 <= x * (1 # 20000000000000000)) by (apply Qmult_le_0_compat; lra). lra.
Qed.

(** The digits [toString] prints of a positive value form a natural number. *)
Lemma pick_cases (x : Q) (p fl s : Z) : pick x p fl = Some s -> s = fl \/ s = (fl + 1)%Z.
Proof.
  unfold pick. destruct (denotes x fl p), (denotes x (fl + 1) p); try discriminate;
    [repeat match goal with |- context [if ?b then _ else _] => destruct b end| |];
    intros H; injection H as <-; tauto.
Qed.

Lemma search_nonneg (x : Q) (fuel : nat) (k e10 : Z) :
  0 < x -> (0 <= fst (search fuel k e10 x))%Z.
Proof.
  intros Hx. revert k. induction fuel as [|f IH]; intros k; cbn [search].
  - set (t := Qred (x / pow10 (e10 - k + 1))). cbn [fst]. apply round_half_even_nonneg.
    assert (0 < t) by (unfold t; rewrite Qred_correct; pose proof (pow10_pos (e10 - k + 1));
      apply Qlt_shift_div_l; lra).
    pose proof (Qnum_pos t H). lia.
  - set (t := x / pow10 (e10 - k + 1)).
    assert (Ht : (0 <= Qfloor t)%Z).
    { change 0%Z with (Qfloor 0). apply Qfloor_resp_le. unfold t.
      pose proof (pow10_pos (e10 - k + 1)). apply Qle_shift_div_l; lra. }
    destruct (pick x _ (Qfloor t)) as [s|] eqn:E; [|apply IH].
    cbn [fst]. destruct (pick_cases _ _ _ _ E); lia.
Qed.

Lemma shortest_nonneg (x : Q) : 0 < x -> (0 <= fst (shortest x))%Z.
Proof.
  intros Hx. unfold shortest. pose proof (search_nonneg x 16 1 (log10_floor x) Hx) as Hs.
  destruct (search 16 1 (log10_floor x) x) as [s p]. cbn [fst] in Hs.
  generalize 17%nat. intros f. revert s p Hs. induction f as [|f IH]; intros s p Hs; [exact Hs|].
  cbn [strip_zeros]. destruct ((s mod 10 =? 0) && (0 <? s))%Z eqn:E; [|exact Hs].
  apply IH. apply andb_true_iff in E as [_ E]. apply Z.ltb_lt in E. apply Z.div_pos; lia.
Qed.


(** A finite result of [round_pos] is a double: rounding it again gives
    the same value (normal results by [round_near], subnormal ones keep
    the quantum [2^-1074]). *)
Lemma round_pos_idem (x w : Q) :
  0 < x -> round_pos x = JFin w -> 0 < w -> exists w', round_pos w = JFin w' /\ w' == w.
Proof.
  intros Hx H Hw. pose proof (log2_floor_spec x Hx) as [X1 X2].
  unfold round_pos in H. set (L := log2_floor x) in *. set (e := Z.max (L - 52) (-1074)) in *.
  set (y := Qred (x * pow2 (- e))) in *. pose proof (round_half_even_Q y) as Hm.
  set (m := round_half_even (Qnum y) (Qden y)) in *.
  destruct (Qle_bool (pow2 1024) (inject_Z m * pow2 e)) eqn:Ov; [discriminate|]. injection H as <-.
  apply Qle_bool_false in Ov.
  assert (Hy : y == x * pow2 (- e)) by apply Qred_correct.
  pose proof (pow2_pos (- e)) as Pe'. pose proof (pow2_pos e) as Pe.
  assert (Yhi : y < 9007199254740992).
  { rewrite Hy. assert (P : pow2 (L + 1) * pow2 (- e) <= 9007199254740992).
    { rewrite <- pow2_add. change 9007199254740992 with (pow2 53). apply pow2_le_mono. unfold e. lia. }
    assert (x * pow2 (- e) < pow2 (L + 1) * pow2 (- e)) by (apply Qmult_lt_compat_r; lra). lra. }
  assert (Hm53 : (m <= 2 ^ 53)%Z).
  { assert (inject_Z m < inject_Z (2 ^ 53 + 1)) by (change (inject_Z (2 ^ 53 + 1)) with 9007199254740993; lra).
    rewrite <- Zlt_Qlt in H. lia. }
  assert (Hm0 : (0 < m)%Z).
  { assert (0 < inject_Z m) by (apply (Qmult_lt_r _ _ (pow2 e) Pe); lra). rewrite <- (Zlt_Qlt 0) in H. exact H. }
  assert (E971 : forall k, (2 ^ 52 <= k)%Z -> inject_Z k * pow2 e < pow2 1024 -> (e <= 971)%Z).
  { intros k Hk Hlt. destruct (Z.le_gt_cases e 971) as [|Hg]; [assumption|]. exfalso.
    assert (pow2 1024 <= pow2 (52 + e)) by (apply pow2_le_mono; lia).
    rewrite pow2_add in H. change (pow2 52) with (inject_Z (2 ^ 52)) in H.
    assert (inject_Z (2 ^ 52) <= inject_Z k) by (rewrite <- Zle_Qle; exact Hk). nra. }
  destruct (Z.lt_ge_cases m (2 ^ 52)) as [Hsub|Hnorm].
  - (* a subnormal result *)
    assert (He : e = (-1074)%Z).
    { destruct (Z.le_gt_cases (L - 52) (-1074)) as [|Hg]; [unfold e; lia|]. exfalso.
      assert (4503599627370496 <= y).
      { rewrite Hy. assert (P : pow2 L * pow2 (- e) == 4503599627370496)
          by (rewrite <- pow2_add; unfold e; rewrite Z.max_l by lia; replace (L + - (L - 52))%Z with 52%Z by lia; reflexivity).
        rewrite <- P. apply Qmult_le_compat_r; lra. }
      assert (inject_Z (2 ^ 52 - 1) < inject_Z m) by (change (inject_Z (2 ^ 52 - 1)) with 4503599627370495; lra).
      rewrite <- Zlt_Qlt in H0. lia. }
    rewrite He in *. exists (inject_Z m * pow2 (-1074)). split; [|reflexivity].
    assert (Hl : (log2_floor (inject_Z m * pow2 (-1074)) < -1022)%Z).
    { pose proof (log2_floor_spec _ Hw) as [W1 _]. apply pow2_lt_mono_inv.
      assert (inject_Z m < 4503599627370496) by (change 4503599627370496 with (inject_Z (2 ^ 52)); rewrite <- Zlt_Qlt; exact Hsub).
      assert (pow2 (-1022) == 4503599627370496 * pow2 (-1074)) by (vm_compute; reflexivity). nra. }
    apply round_pos_at; [exact Hw | lia | | exact Ov].
    assert (pow2 (-1074) * pow2 (- -1074) == 1) by (vm_compute; reflexivity).
    setoid_replace (inject_Z m * pow2 (-1074) * pow2 (- -1074)) with (inject_Z m) by (rewrite <- Qmult_assoc, H; ring).
    assert (E0 : inject_Z m - inject_Z m == 0) by ring. rewrite E0. split; reflexivity.
  - assert (Hn : is_normal (inject_Z m * pow2 e)).
    { destruct (Z.eq_dec m (2 ^ 53)) as [E|E].
      - exists (2 ^ 52)%Z, (e + 1)%Z. split; [lia|]. split; [split; [unfold e; lia|] | ].
        + assert (Hk : inject_Z (2 ^ 52) * pow2 (e + 1) < pow2 1024).
          { rewrite pow2_add. change (pow2 1) with 2. rewrite E in Ov.
            change (inject_Z (2 ^ 53)) with (inject_Z (2 ^ 52) * 2) in Ov. lra. }
          pose proof (E971 (2 ^ 52)%Z ltac:(lia)) as HE.
          destruct (Z.le_gt_cases (e + 1) 971) as [|Hg]; [assumption|]. exfalso.
          assert (pow2 1024 <= pow2 (52 + (e + 1))) by (apply pow2_le_mono; lia).
          rewrite pow2_add in H. change (pow2 52) with (inject_Z (2 ^ 52)) in H. pose proof (pow2_pos (e + 1)). lra.
        + rewrite E, pow2_add. change (inject_Z (2 ^ 53)) with (inject_Z (2 ^ 52) * 2). change (pow2 1) with 2. ring.
      - exists m, e. split; [lia|]. split; [split; [unfold e; lia | exact (E971 m Hnorm Ov)] | reflexivity]. }
    destruct (round_normal_exact _ Hn) as (w' & Hr & Hw'). rewrite round_gt0 in Hr by exact Hw.
    exists w'. split; [exact Hr | exact Hw'].
Qed.


(** A normal double [a] divided by [1 - 2^-53] lies beyond the midpoint
    between [a] and the next double, so it rounds above [a] (or
    overflows). *)
Lemma round_above (a : Q) :
  is_normal a ->
  round_pos (a / (1 - pow2 (-53))) = JPosInf \/ exists w, round_pos (a / (1 - pow2 (-53))) = JFin w /\ a < w.
Proof.
  intros Hn. pose proof Hn as (M & e & HM & He & Ha).
  change (pow2 (-53)) with (1 # 9007199254740992).
  pose proof (pow2_pos e) as Pe.
  assert (HMq : 4503599627370496 <= inject_Z M <= 9007199254740991).
  { split; [change 4503599627370496 with (inject_Z (2 ^ 52)) | change 9007199254740991 with (inject_Z (2 ^ 53 - 1))];
      rewrite <- Zle_Qle; lia. }
  set (D := a / (1 - (1 # 9007199254740992))).
  assert (HD : D == inject_Z M * pow2 e * (9007199254740992 # 9007199254740991)) by (unfold D; rewrite Ha; field).
  destruct (Z.eq_dec M (2 ^ 53 - 1)) as [EM|EM].
  - assert (HD2 : D == pow2 (e + 53)).
    { rewrite HD, EM, pow2_add. change (pow2 53) with 9007199254740992.
      change (inject_Z (2 ^ 53 - 1)) with 9007199254740991. field. }
    rewrite (round_pos_Qeq D (pow2 (e + 53)) HD2) by (rewrite HD; nra).
    destruct (Z.eq_dec e 971) as [E9|E9].
    + left. subst e. vm_compute. reflexivity.
    + right. assert (Hn2 : is_normal (pow2 (e + 53))).
      { exists (2 ^ 52)%Z, (e + 1)%Z. split; [lia|]. split; [lia|].
        replace (e + 53)%Z with (52 + (e + 1))%Z by lia. rewrite pow2_add. reflexivity. }
      destruct (round_normal_exact _ Hn2) as (w & Hr & Hw). rewrite round_gt0 in Hr by apply pow2_pos.
      exists w. split; [exact Hr|]. rewrite Hw, Ha, pow2_add. change (pow2 53) with 9007199254740992. nra.
  - right. exists (inject_Z (M + 1) * pow2 e). split.
    + assert (HM2 : inject_Z M <= 9007199254740990).
      { change 9007199254740990 with (inject_Z (2 ^ 53 - 2)). rewrite <- Zle_Qle. lia. }
      assert (E52 : pow2 (e + 52) == pow2 e * 4503599627370496) by (rewrite pow2_add; reflexivity).
      assert (E53 : pow2 (e + 52 + 1) == pow2 e * 9007199254740992) by (rewrite <- Z.add_assoc, pow2_add; reflexivity).
      assert (HL : log2_floor D = (e + 52)%Z).
      { apply log2_floor_unique. rewrite E52, E53, HD. split; nra. }
      assert (Hee : pow2 e * pow2 (- e) == 1) by (rewrite <- pow2_add; now replace (e + - e)%Z with 0%Z by lia).
      apply round_pos_at; [rewrite HD; nra | rewrite HL; lia | |].
      * rewrite inject_Z_plus. change (inject_Z 1) with 1.
        setoid_replace (D * pow2 (- e)) with (inject_Z M * (9007199254740992 # 9007199254740991))
          by (rewrite HD; transitivity (inject_Z M * (9007199254740992 # 9007199254740991) * (pow2 e * pow2 (- e)));
              [ring | rewrite Hee; ring]).
        split; nra.
      * assert (pow2 e <= pow2 971) by (apply pow2_le_mono; lia).
        assert (pow2 1024 == pow2 971 * 9007199254740992) by (vm_compute; reflexivity).
        rewrite inject_Z_plus. change (inject_Z 1) with 1. nra.
    + rewrite Ha, inject_Z_plus. change (inject_Z 1) with 1. nra.
Qed.


(** A normal double below [2^k] is at most [2^k - 2^(k-53)]. *)
Lemma normal_below_pow2 (d : Q) (k : Z) :
  is_normal d -> d < pow2 k -> d <= pow2 k - pow2 (k - 53).
Proof.
  intros (M & e & HM & He & Hd) Hk. pose proof (pow2_pos e) as Pe.
  assert (HM52 : inject_Z (2 ^ 52) <= inject_Z M) by (rewrite <- Zle_Qle; lia).
  destruct (Z.le_gt_cases (k - 53) e) as [Hle|Hgt].
  - assert (Hke : pow2 k == inject_Z (2 ^ (k - e)) * pow2 e).
    { assert (0 <= k - e)%Z by (destruct (Z.le_gt_cases 0 (k - e)) as [|Hn]; [assumption|];
        exfalso; assert (pow2 k <= pow2 (52 + e)) by (apply pow2_le_mono; lia);
        rewrite pow2_add in H; change (pow2 52) with (inject_Z (2 ^ 52)) in H; nra).
      rewrite <- pow2_of_Z by lia. rewrite <- pow2_add. now replace (k - e + e)%Z with k by lia. }
    assert (HMk : (M + 1 <= 2 ^ (k - e))%Z).
    { assert (inject_Z M < inject_Z (2 ^ (k - e))) by (apply (Qmult_lt_r _ _ (pow2 e) Pe); rewrite <- Hke, <- Hd; exact Hk).
      rewrite <- Zlt_Qlt in H. lia. }
    rewrite Zle_Qle, inject_Z_plus in HMk. change (inject_Z 1) with 1 in HMk.
    assert (pow2 (k - 53) <= pow2 e) by (apply pow2_le_mono; exact Hle). rewrite Hd, Hke. nra.
  - assert (Hkk : pow2 k == pow2 (k - 53) * 9007199254740992)
      by (rewrite <- (pow2_of_Z 53) by lia; rewrite <- pow2_add; now replace (k - 53 + 53)%Z with k by lia).
    assert (Hlt : inject_Z M < 9007199254740992) by (change 9007199254740992 with (inject_Z (2 ^ 53)); rewrite <- Zlt_Qlt; lia).
    assert (pow2 (e + 1) <= pow2 (k - 53)) by (apply pow2_le_mono; lia).
    rewrite pow2_add in H. change (pow2 1) with 2 in H. pose proof (pow2_pos (k - 53)).
    rewrite Hd, Hkk. nra.
Qed.

End Binary64Props.

(** ** Reading a printed number back *)

Module ToStringProps.
Import Binary64 Decimal Binary64Props.
Open Scope Q_scope.


Lemma all_digits_app (a b : string) : all_digits (a ++ b) = all_digits a && all_digits b.
Proof. induction a as [|c a IH]; cbn; [reflexivity | now rewrite IH, andb_assoc]. Qed.

Lemma dval_app (a b : string) : dval (a ++ b) = (dval a * 10 ^ Z.of_nat (String.length b) + dval b)%Z.
Proof.
  induction a as [|c a IH]; cbn [dval String.append]; [lia|].
  rewrite IH, str_length_app, Nat2Z.inj_add, Z.pow_add_r by lia. ring.
Qed.

Lemma digits_app (a b : string) (acc : Z) (n : nat) :
  all_digits a = true ->
  Decimal.digits (a ++ b) acc n =
  Decimal.digits b (acc * 10 ^ Z.of_nat (String.length a) + dval a) (n + String.length a).
Proof.
  revert acc n. induction a as [|c a IH]; intros acc n Ha; cbn [String.append].
  - cbn. now rewrite Z.mul_1_r, Z.add_0_r, Nat.add_0_r.
  - cbn [all_digits] in Ha. apply andb_true_iff in Ha as [Hc Ha].
    cbn [Decimal.digits]. rewrite Hc, IH by exact Ha. cbn [String.length dval].
    rewrite Nat2Z.inj_succ, Z.pow_succ_r by lia. f_equal; [ring | lia].
Qed.

Lemma digits_stop (b : string) (acc : Z) (n : nat) :
  match b with String c _ => Digits.is_digit c = false | EmptyString => True end ->
  Decimal.digits b acc n = (acc, n, b).
Proof. destruct b as [|c r]; [reflexivity|]. cbn. intros H. now rewrite H. Qed.

Lemma zeros_digits (n : nat) : all_digits (zeros n) = true /\ dval (zeros n) = 0%Z /\ String.length (zeros n) = n.
Proof. induction n as [|n IH]; [repeat split|]. cbn. destruct IH as (H1 & H2 & H3). rewrite H1, H2, H3. repeat split; lia. Qed.

Lemma dec_digits_dval (f : nat) (n : N) :
  (n < 10 ^ N.of_nat f)%N ->
  all_digits (Digits.dec_digits f n EmptyString) = true /\ dval (Digits.dec_digits f n EmptyString) = Z.of_N n.
Proof.
  revert n. induction f as [|f IH]; intros n Hn.
  { change (10 ^ N.of_nat 0)%N with 1%N in Hn. replace n with 0%N by lia. split; reflexivity. }
  assert (Hm : (n mod 10 < 10)%N) by (apply N.mod_lt; lia).
  destruct (DigitsProps.digit_char_spec _ Hm) as [Hdig Hval].
  cbn [Digits.dec_digits]. destruct (N.ltb_spec n 10).
  - cbn. rewrite Hdig, Hval, N.mod_small by lia. split; [reflexivity | lia].
  - rewrite DigitsProps.dec_digits_app.
    destruct (IH (n / 10)%N) as [H1 H2].
    { rewrite Nat2N.inj_succ, N.pow_succ_r' in Hn. apply N.Div0.div_lt_upper_bound. lia. }
    rewrite all_digits_app, dval_app, H1, H2. cbn. rewrite Hdig, Hval. split; [reflexivity|].
    pose proof (N.div_mod n 10 ltac:(lia)). lia.
Qed.

Lemma Z_to_dec_digits (z : Z) :
  (0 <= z)%Z ->
  all_digits (Digits.Z_to_dec z) = true /\ dval (Digits.Z_to_dec z) = z /\ (1 <= String.length (Digits.Z_to_dec z))%nat.
Proof.
  intros Hz. assert (E : Digits.Z_to_dec z = Digits.N_to_dec (Z.to_N z)) by (destruct z; [reflexivity..| lia]).
  rewrite E. unfold Digits.N_to_dec.
  destruct (dec_digits_dval _ (Z.to_N z) (DigitsProps.N_to_dec_fuel (Z.to_N z))) as [H1 H2].
  rewrite H1, H2, Z2N.id by exact Hz. split; [reflexivity | split; [reflexivity|]].
  destruct (DigitsProps.dec_digits_head (N.to_nat (N.size (Z.to_N z))) (Z.to_N z) EmptyString) as (d & r & Hd & _).
  rewrite Hd. cbn. lia.
Qed.

Lemma substring_full (s : string) : substring 0 (String.length s) s = s.
Proof. induction s as [|c s IH]; cbn; [reflexivity | now rewrite IH]. Qed.

Lemma substring_split (s : string) (n : nat) :
  (n <= String.length s)%nat ->
  substring 0 n s ++ substring n (String.length s - n) s = s /\ String.length (substring 0 n s) = n.
Proof.
  revert n. induction s as [|c s IH]; intros n Hn.
  - cbn in Hn. replace n with 0%nat by lia. split; reflexivity.
  - destruct n as [|n].
    + rewrite Nat.sub_0_r. split; [apply substring_full | reflexivity].
    + cbn in Hn. destruct (IH n ltac:(lia)) as [H1 H2]. cbn [substring String.length Nat.sub]. split.
      * cbn [String.append]. now rewrite H1.
      * cbn. now rewrite H2.
Qed.

Lemma digits_all (a : string) (acc : Z) (n : nat) :
  all_digits a = true ->
  Decimal.digits a acc n = ((acc * 10 ^ Z.of_nat (String.length a) + dval a)%Z, (n + String.length a)%nat, EmptyString).
Proof. intros Ha. rewrite <- (str_app_nil_r a) at 1. now rewrite digits_app. Qed.

(** The exponent part of the exponential forms. *)
Lemma exponent_exp (n : Z) :
  Decimal.exponent (String "e"%char ((if Z.leb 0 (n - 1) then "+" else "-") ++ Digits.Z_to_dec (Z.abs (n - 1)))) = Some (n - 1)%Z.
Proof.
  destruct (Z_to_dec_digits (Z.abs (n - 1)) ltac:(lia)) as (H1 & H2 & H3).
  destruct (Z.leb_spec 0 (n - 1)); cbn [String.append Decimal.exponent];
    rewrite digits_all by exact H1; rewrite H2; cbn [Nat.add];
    replace (Nat.ltb 0 _) with true by (symmetry; apply Nat.ltb_lt; lia); cbn; f_equal; lia.
Qed.

Lemma value_frac (a b r : string) (i : Z) :
  all_digits a = true -> all_digits b = true -> (1 <= String.length a)%nat -> (1 <= String.length b)%nat ->
  Decimal.exponent r = Some i ->
  match r with String c _ => Digits.is_digit c = false | EmptyString => True end ->
  Decimal.value (a ++ "." ++ b ++ r) =
    Some (inject_Z (dval a * 10 ^ Z.of_nat (String.length b) + dval b) * pow10 (i - Z.of_nat (String.length b))).
Proof.
  intros Ha Hb La Lb Hr Hs. unfold Decimal.value.
  rewrite digits_app by exact Ha. rewrite digits_stop by reflexivity. cbn [Nat.add].
  replace (Nat.eqb (String.length a) 0) with false by (symmetry; apply Nat.eqb_neq; lia).
  cbn [String.append]. rewrite digits_app by exact Hb. rewrite digits_stop by exact Hs. cbn [Nat.add].
  replace (Nat.eqb (String.length b) 0) with false by (symmetry; apply Nat.eqb_neq; lia).
  rewrite Hr. cbn [option_map]. do 3 f_equal; ring.
Qed.

Lemma pow10_nat (j : nat) : pow10 (Z.of_nat j) == inject_Z (10 ^ Z.of_nat j).
Proof. apply pow10_of_Z. lia. Qed.

(** Each form [format] prints reads back as [s * 10^(n-k)]. *)
Lemma format_value (ds : string) (n : Z) :
  all_digits ds = true -> (1 <= String.length ds)%nat ->
  exists D, Decimal.value (format ds n) = Some D /\
    D == inject_Z (dval ds) * pow10 (n - Z.of_nat (String.length ds)).
Proof.
  intros Hd Hk. unfold format. cbv zeta. set (k := Z.of_nat (String.length ds)).
  destruct ((k <=? n) && (n <=? 21))%Z eqn:B1.
  - apply andb_true_iff in B1 as [B1 _]. apply Z.leb_le in B1.
    destruct (zeros_digits (Z.to_nat (n - k))) as (Z1 & Z2 & Z3).
    eexists. split.
    + unfold Decimal.value. rewrite digits_all by (rewrite all_digits_app, Hd, Z1; reflexivity).
      replace (Nat.eqb _ 0) with false by (symmetry; apply Nat.eqb_neq; rewrite str_length_app; lia). reflexivity.
    + assert (Hv : (0 * 10 ^ Z.of_nat (String.length (ds ++ zeros (Z.to_nat (n - k)))) +
                     dval (ds ++ zeros (Z.to_nat (n - k))) = dval ds * 10 ^ (n - k))%Z)
        by (rewrite dval_app, Z2, Z3, Z2Nat.id by lia; ring).
      rewrite Hv, inject_Z_mult, <- pow10_of_Z by lia. change (pow10 0) with 1. ring.
  - destruct ((0 <? n) && (n <=? 21))%Z eqn:B2.
    + apply andb_true_iff in B2 as [B2 B2']. apply Z.ltb_lt in B2. apply Z.leb_le in B2'.
      assert (Hnk : (n < k)%Z).
      { destruct (Z.ltb_spec n k) as [|Hkn]; [assumption|]. apply Z.leb_le in Hkn.
        rewrite Hkn, (proj2 (Z.leb_le n 21) B2') in B1. discriminate. }
      destruct (substring_split ds (Z.to_nat n) ltac:(lia)) as [S1 S2].
      replace (String.length ds - Z.to_nat n)%nat with (Z.to_nat (k - n)) in S1 by lia.
      set (a := substring 0 (Z.to_nat n) ds) in *. set (b := substring (Z.to_nat n) (Z.to_nat (k - n)) ds) in *.
      assert (Lb : String.length b = Z.to_nat (k - n)) by (apply (f_equal String.length) in S1; rewrite str_length_app in S1; lia).
      rewrite <- S1, all_digits_app in Hd. apply andb_true_iff in Hd as [Ha Hb].
      eexists. split.
      * rewrite <- (str_app_nil_r b). apply value_frac; [exact Ha | exact Hb | lia | lia | reflexivity | exact I].
      * fold b. assert (Hds : dval ds = (dval a * 10 ^ Z.of_nat (String.length b) + dval b)%Z)
          by (rewrite <- S1; apply dval_app).
        rewrite Hds, Lb, Z2Nat.id by lia. now replace (0 - (k - n))%Z with (n - k)%Z by lia.
    + destruct ((-6 <? n) && (n <=? 0))%Z eqn:B3.
      * apply andb_true_iff in B3 as [B3 B3']. apply Z.ltb_lt in B3. apply Z.leb_le in B3'.
        destruct (zeros_digits (Z.to_nat (- n))) as (Z1 & Z2 & Z3).
        eexists. split.
        -- rewrite <- (str_app_nil_r (zeros (Z.to_nat (- n)) ++ ds)).
           exact (value_frac "0" (zeros (Z.to_nat (- n)) ++ ds) EmptyString 0 eq_refl
                    ltac:(rewrite all_digits_app, Z1, Hd; reflexivity) ltac:(cbn; lia)
                    ltac:(rewrite str_length_app; lia) eq_refl I).
        -- change (dval "0") with 0%Z. rewrite dval_app, Z2, str_length_app, Z3, Nat2Z.inj_add, Z2Nat.id by lia.
           fold k. replace (0 * 10 ^ (- n + k) + (0 * 10 ^ k + dval ds))%Z with (dval ds) by ring.
           now replace (0 - (- n + k))%Z with (n - k)%Z by lia.
      * destruct (k =? 1)%Z eqn:B4.
        -- apply Z.eqb_eq in B4. eexists. split.
           ++ unfold Decimal.value. rewrite digits_app by exact Hd. rewrite digits_stop by reflexivity. cbn [Nat.add].
              replace (Nat.eqb _ 0) with false by (symmetry; apply Nat.eqb_neq; lia).
              cbn [String.append]. rewrite exponent_exp. reflexivity.
           ++ fold k. rewrite B4. now replace (0 * 10 ^ k + dval ds)%Z with (dval ds) by ring.
        -- apply Z.eqb_neq in B4.
           destruct (substring_split ds 1 ltac:(lia)) as [S1 S2].
           replace (String.length ds - 1)%nat with (Z.to_nat (k - 1)) in S1 by lia.
           set (a := substring 0 1 ds) in *. set (b := substring 1 (Z.to_nat (k - 1)) ds) in *.
           assert (Lb : String.length b = Z.to_nat (k - 1)) by (apply (f_equal String.length) in S1; rewrite str_length_app in S1; lia).
           rewrite <- S1, all_digits_app in Hd. apply andb_true_iff in Hd as [Ha Hb].
           eexists. split.
           ++ apply value_frac; [exact Ha | exact Hb | lia | lia | apply exponent_exp | reflexivity].
           ++ fold a b. assert (Hds : dval ds = (dval a * 10 ^ Z.of_nat (String.length b) + dval b)%Z)
                by (rewrite <- S1; apply dval_app).
              rewrite Hds, Lb, Z2Nat.id by lia. now replace (n - 1 - (k - 1))%Z with (n - k)%Z by lia.
Qed.

(** [Number(String(x)) === x] for every normal double [x]: the text
    [toString] prints reads back as a decimal that rounds to [x]. *)
Theorem toString_roundtrip (x : Q) :
  is_normal x -> exists D, Decimal.value (toString (JFin x)) = Some D /\ jsnum_eqb (round D) (JFin x) = true.
Proof.
  intros Hn. pose proof (is_normal_pos x Hn) as Hx.
  destruct (shortest_spec x Hn) as [Hs Hd].
  unfold toString. rewrite (proj1 (Qgt_alt x 0) Hx). unfold toString_pos.
  destruct (shortest x) as [s p]. cbn [fst snd] in *.
  destruct (Z_to_dec_digits s ltac:(lia)) as (H1 & H2 & H3).
  destruct (format_value (Digits.Z_to_dec s) (p + Z.of_nat (String.length (Digits.Z_to_dec s))) H1 H3) as (D & HD & HDv).
  exists D. split; [exact HD|]. rewrite HDv, H2.
  now replace (p + Z.of_nat (String.length (Digits.Z_to_dec s)) - Z.of_nat (String.length (Digits.Z_to_dec s)))%Z with p by lia.
Qed.

(** Every positive finite double prints as a decimal numeral: the text
    [Decimal.value] reads, whatever the double (subnormals included). *)
Lemma toString_parses (x : Q) : 0 < x -> exists D, Decimal.value (toString (JFin x)) = Some D.
Proof.
  intros Hx. unfold toString. rewrite (proj1 (Qgt_alt x 0) Hx). unfold toString_pos.
  pose proof (shortest_nonneg x Hx) as Hs. destruct (shortest x) as [s p]. cbn [fst] in Hs.
  destruct (Z_to_dec_digits s Hs) as (H1 & _ & H3).
  destruct (format_value _ (p + Z.of_nat (String.length (Digits.Z_to_dec s))) H1 H3) as (D & HD & _).
  now exists D.
Qed.

(** The text of a positive double starts with a non-zero digit, or with
    ["0."] (the fractional form of a value below 1). *)
Lemma format_head (ds : string) (n : Z) (d : ascii) (rest : string) :
  ds = String d rest ->
  (exists t, format ds n = String d t) \/ (exists t, format ds n = String "0" (String "." t)).
Proof.
  intros ->. unfold format. cbv zeta.
  destruct ((Z.of_nat (String.length (String d rest)) <=? n) && (n <=? 21))%Z; [left; eexists; reflexivity|].
  destruct ((0 <? n) && (n <=? 21))%Z eqn:B2.
  - left. apply andb_true_iff in B2 as [B2 _]. apply Z.ltb_lt in B2.
    destruct (Z.to_nat n) as [|k] eqn:Ek; [lia|]. eexists. reflexivity.
  - destruct ((-6 <? n) && (n <=? 0))%Z; [right; eexists; reflexivity|].
    destruct (Z.of_nat (String.length (String d rest)) =? 1)%Z; left; eexists; reflexivity.
Qed.

Lemma toString_pos_head (x : Q) :
  is_normal x ->
  (exists d t, toString_pos x = String d t /\ Digits.is_digit d = true /\ d <> "0"%char) \/
  (exists t, toString_pos x = String "0" (String "." t)).
Proof.
  intros Hn. destruct (shortest_spec x Hn) as [Hs _]. unfold toString_pos.
  destruct (shortest x) as [s p]. cbn [fst] in Hs.
  assert (E : Digits.Z_to_dec s = Digits.N_to_dec (Z.to_N s)) by (destruct s; [reflexivity..| lia]).
  unfold Digits.N_to_dec in E.
  destruct (DigitsProps.dec_digits_lead _ (Z.to_N s) EmptyString ltac:(lia) (DigitsProps.N_to_dec_fuel (Z.to_N s)))
    as (d & rest & Hd & Hdig & Hd0).
  rewrite Hd in E. destruct (format_head _ (p + Z.of_nat (String.length (Digits.Z_to_dec s))) d rest E) as [(t & Ht)|(t & Ht)].
  - left. exists d, t. auto.
  - right. exists t. exact Ht.
Qed.

(** The text of any value [toString_pos] prints is not empty. *)
Lemma toString_pos_nonempty (x : Q) : exists d t, toString_pos x = String d t.
Proof.
  unfold toString_pos. destruct (shortest x) as [s p].
  assert (Hds : exists d rest, Digits.Z_to_dec s = String d rest).
  { destruct s as [|q|q]; [| |eexists _, _; reflexivity];
      match goal with |- exists _ _, Digits.Z_to_dec ?z = _ =>
        destruct (DigitsProps.dec_digits_head (N.to_nat (N.size (Z.to_N z))) (Z.to_N z) EmptyString) as (d & r & Hd & _)
      end; exists d, r; exact Hd. }
  destruct Hds as (d & rest & E).
  destruct (format_head _ (p + Z.of_nat (String.length (Digits.Z_to_dec s))) d rest E) as [(t & Ht)|(t & Ht)];
    rewrite Ht; eauto.
Qed.

End ToStringProps.
