(* ===== verification/Json.v ===== *)
(** * JSON text: [JSON.stringify] and [JSON.parse] (host library)

  The past-streams widget keeps its list in [localStorage] as JSON text
  ([JSON.stringify] on write, [JSON.parse] on read).  This file models
  the two library functions over JSON values: [json] with arrays as
  lists and objects as association lists in property order.

  Numbers are doubles ([jsnum]).  [JSON.parse] reads the number grammar
  of ECMA-404 ([-]? int frac? exp?, no leading zero) exactly and rounds
  the value to the nearest double with [Binary64.round] (a value beyond
  the largest double gives [Infinity]); the double is kept in lowest
  terms ([canon]), so equal doubles are equal values.  [JSON.stringify]
  prints a finite number with [Binary64.toString] and the others as
  [null].  Signed zeros are not distinguished ([-0] parses as [0]).

  Strings are byte strings: the generalized UTF-8 bytes of the string's
  UTF-16 code units.  A [\u] escape is decoded to the UTF-8 bytes of its
  code unit, a [\u] pair of a high and a low surrogate to the four bytes
  of the code point it encodes, and a lone surrogate to the three bytes
  of its value; other bytes stand for themselves.  [stringify] escapes
  as the ECMAScript [QuoteJSONString] does (a backslash before a quote
  or a backslash, [\b \t \n \f \r], other control characters as
  [\u00hh]) and writes the other bytes as they are (a lone surrogate,
  which ECMAScript 2019 prints as a [\u] escape, is written as its
  three bytes; both texts parse to the same string).

  The parser is a recursive descent with fuel; [JSON_parse] gives it
  twice the length of the text, plus two.  An object built by
  [JSON.parse] keeps the first position of a duplicated key and its last
  value, and puts array-index keys first in numeric order ([obj_set]).
  The theorem of this file is the round trip
  [JSON_parse (stringify v) = Some v] for well-formed values (no
  duplicated and no array-index keys, numbers zero or normal doubles in
  lowest terms). *)

From Stdlib Require Import QArith Qabs Lqa List String Ascii ZArith NArith Lia Bool.
From S2P Require Import Prelude Binary64.
Import ListNotations Digits DigitsProps.
Close Scope Q_scope.
Open Scope string_scope.

Declare Scope json_scope.
Local Notation "x <- c1 ;; c2" :=
  (match c1 with Some x => c2 | None => None end)
  (at level 60, c1 at next level, right associativity) : json_scope.
Local Notation "' pat <- c1 ;; c2" :=
  (match c1 with Some pat => c2 | None => None end)
  (at level 60, pat pattern, c1 at next level, right associativity) : json_scope.
Open Scope json_scope.

Module Json.

#[local] Set Warnings "-register-all".

Inductive json :=
| JNull
| JBool (b : bool)
| JNum (x : jsnum)
| JStr (s : string)
| JArr (l : list json)
| JObj (m : list (string * json)).

(** ** Characters *)

Definition quote : ascii := "034".
Definition backslash : ascii := "092".

Definition hex_digit (n : nat) : ascii :=
  match n%nat with
  | 10 => "a" | 11 => "b" | 12 => "c" | 13 => "d" | 14 => "e" | 15 => "f"
  | _ => ascii_of_nat (48 + n)
  end%char.

Definition hex_value (c : ascii) : option nat :=
  let n := nat_of_ascii c in
  if Nat.leb 48 n && Nat.leb n 57 then Some (n - 48)
  else if Nat.leb 97 n && Nat.leb n 102 then Some (n - 87)
  else if Nat.leb 65 n && Nat.leb n 70 then Some (n - 55)
  else None.

(** ** [JSON.stringify] *)

(** [QuoteJSONString], one code unit. *)
Definition escape_char (c : ascii) : string :=
  let n := nat_of_ascii c in
  if Ascii.eqb c quote then String backslash (String quote EmptyString)
  else if Ascii.eqb c backslash then String backslash (String backslash EmptyString)
  else if Nat.eqb n 8 then String backslash "b"
  else if Nat.eqb n 9 then String backslash "t"
  else if Nat.eqb n 10 then String backslash "n"
  else if Nat.eqb n 12 then String backslash "f"
  else if Nat.eqb n 13 then String backslash "r"
  else if Nat.ltb n 32 then
    String backslash ("u00" ++ String (hex_digit (n / 16)) (String (hex_digit (n mod 16)) EmptyString))
  else String c EmptyString.

Fixpoint escape (s : string) : string :=
  match s with
  | EmptyString => EmptyString
  | String c s' => escape_char c ++ escape s'
  end.

Definition quoted (s : string) : string := String quote (escape s ++ String quote EmptyString).

(** A number in [JSON.stringify]: [Number::toString] when finite. *)
Definition number_text (x : jsnum) : string :=
  match x with
  | JFin _ => Binary64.toString x
  | _ => "null"
  end.

Fixpoint stringify (v : json) : string :=
  match v with
  | JNull => "null"
  | JBool true => "true"
  | JBool false => "false"
  | JNum x => number_text x
  | JStr s => quoted s
  | JArr l =>
      let fix elems (l : list json) : string :=
        match l with
        | [] => EmptyString
        | [x] => stringify x
        | x :: r => stringify x ++ "," ++ elems r
        end in
      "[" ++ elems l ++ "]"
  | JObj m =>
      let fix members (m : list (string * json)) : string :=
        match m with
        | [] => EmptyString
        | [(k, x)] => quoted k ++ ":" ++ stringify x
        | (k, x) :: r => quoted k ++ ":" ++ stringify x ++ "," ++ members r
        end in
      "{" ++ members m ++ "}"
  end.

(** ** [JSON.parse] *)

Definition is_ws (c : ascii) : bool :=
  let n := nat_of_ascii c in
  Nat.eqb n 32 || Nat.eqb n 9 || Nat.eqb n 10 || Nat.eqb n 13.

Fixpoint skip_ws (s : string) : string :=
  match s with
  | String c r => if is_ws c then skip_ws r else s
  | EmptyString => EmptyString
  end.

Definition simple_escape (e : ascii) : option ascii :=
  if Ascii.eqb e quote then Some quote
  else if Ascii.eqb e backslash then Some backslash
  else if Ascii.eqb e "/" then Some "/"%char
  else if Ascii.eqb e "b" then Some (ascii_of_nat 8)
  else if Ascii.eqb e "f" then Some (ascii_of_nat 12)
  else if Ascii.eqb e "n" then Some (ascii_of_nat 10)
  else if Ascii.eqb e "r" then Some (ascii_of_nat 13)
  else if Ascii.eqb e "t" then Some (ascii_of_nat 9)
  else None.

(** The UTF-8 bytes of a code point; a surrogate code unit alone gets
    the three bytes of its value. *)
Definition utf8 (cp : N) : string :=
  let cont k := ascii_of_N (128 + (cp / k) mod 64) in
  if (cp <? 128)%N then String (ascii_of_N cp) EmptyString
  else if (cp <? 2048)%N then String (ascii_of_N (192 + cp / 64)) (String (cont 1%N) EmptyString)
  else if (cp <? 65536)%N then
    String (ascii_of_N (224 + cp / 4096)) (String (cont 64%N) (String (cont 1%N) EmptyString))
  else String (ascii_of_N (240 + cp / 262144)) (String (cont 4096%N) (String (cont 64%N) (String (cont 1%N) EmptyString))).

(** The code unit of four hex digits. *)
Definition hex4 (h1 h2 h3 h4 : ascii) : option N :=
  d1 <- hex_value h1 ;; d2 <- hex_value h2 ;; d3 <- hex_value h3 ;; d4 <- hex_value h4 ;;
  Some (N.of_nat d1 * 4096 + N.of_nat d2 * 256 + N.of_nat d3 * 16 + N.of_nat d4)%N.

Definition is_high (u : N) : bool := (55296 <=? u)%N && (u <? 56320)%N.
Definition is_low (u : N) : bool := (56320 <=? u)%N && (u <? 57344)%N.

(** The code point of a surrogate pair. *)
Definition pair_code (hi lo : N) : N := (65536 + (hi - 55296) * 1024 + (lo - 56320))%N.

(** The body of a string literal after its opening quote: the string and
    the text after the closing quote. *)
Fixpoint parse_str (s : string) : option (string * string) :=
  match s with
  | EmptyString => None
  | String c r =>
      if Ascii.eqb c quote then Some (EmptyString, r)
      else if Ascii.eqb c backslash then
        match r with
        | EmptyString => None
        | String e r' =>
            if Ascii.eqb e "u" then
              match r' with
              | String h1 (String h2 (String h3 (String h4 r''))) =>
                  u <- hex4 h1 h2 h3 h4 ;;
                  let single := '(t, rest) <- parse_str r'' ;; Some (utf8 u ++ t, rest) in
                  if is_high u then
                    match r'' with
                    | String b (String e2 (String l1 (String l2 (String l3 (String l4 r4))))) =>
                        if Ascii.eqb b backslash && Ascii.eqb e2 "u" then
                          match hex4 l1 l2 l3 l4 with
                          | Some lo =>
                              if is_low lo then '(t, rest) <- parse_str r4 ;; Some (utf8 (pair_code u lo) ++ t, rest)
                              else single
                          | None => single
                          end
                        else single
                    | _ => single
                    end
                  else single
              | _ => None
              end
            else
              ch <- simple_escape e ;;
              '(t, rest) <- parse_str r' ;; Some (String ch t, rest)
        end
      else if Nat.ltb (nat_of_ascii c) 32 then None
      else '(t, rest) <- parse_str r ;; Some (String c t, rest)
  end.

Fixpoint parse_digits (s : string) (acc : N) : N * string :=
  match s with
  | String c r => if is_digit c then parse_digits r (acc * 10 + digit_value c)%N else (acc, s)
  | EmptyString => (acc, EmptyString)
  end.

(** ** Numbers *)

(** [int = "0" / digit1-9 *DIGIT]: its value and the rest. *)
Definition lex_int (s : string) : option (Z * string) :=
  match s with
  | String c r =>
      if Ascii.eqb c "0" then Some (0%Z, r)
      else if is_digit c then let '(i, _, r') := Decimal.digits s 0 0 in Some (i, r')
      else None
  | EmptyString => None
  end.

(** [frac = "." 1*DIGIT]: the value and the number of its digits. *)
Definition lex_frac (s : string) : option (Z * nat * string) :=
  match s with
  | String c r =>
      if Ascii.eqb c "." then
        let '(f, n, r') := Decimal.digits r 0 0 in if Nat.eqb n 0 then None else Some (f, n, r')
      else Some (0%Z, O, s)
  | EmptyString => Some (0%Z, O, EmptyString)
  end.

(** [exp = ("e" / "E") ["-" / "+"] 1*DIGIT]. *)
Definition lex_exp (s : string) : option (Z * string) :=
  match s with
  | String c r =>
      if Ascii.eqb c "e" || Ascii.eqb c "E" then
        let '(neg, r1) := match r with
                          | String c' r' =>
                              if Ascii.eqb c' "-" then (true, r') else if Ascii.eqb c' "+" then (false, r') else (false, r)
                          | EmptyString => (false, r)
                          end in
        let '(e, n, r2) := Decimal.digits r1 0 0 in
        if Nat.eqb n 0 then None else Some ((if neg then - e else e)%Z, r2)
      else Some (0%Z, s)
  | EmptyString => Some (0%Z, EmptyString)
  end.

(** The exact value of an unsigned number [int frac? exp?]. *)
Definition lex_unsigned (s : string) : option (Q * string) :=
  '(i, r1) <- lex_int s ;;
  '(f, m, r2) <- lex_frac r1 ;;
  '(e, r3) <- lex_exp r2 ;;
  Some ((inject_Z (i * 10 ^ Z.of_nat m + f) * Binary64.pow10 (e - Z.of_nat m))%Q, r3).

(** A double in lowest terms. *)
Definition canon (x : jsnum) : jsnum :=
  match x with
  | JFin q => JFin (Qred q)
  | _ => x
  end.

(** A number: the double nearest to its exact value. *)
Definition parse_number (s : string) : option (json * string) :=
  let '(neg, s1) := match s with
                    | String c r => if Ascii.eqb c "-" then (true, r) else (false, s)
                    | EmptyString => (false, s)
                    end in
  '(v, r) <- lex_unsigned s1 ;;
  Some (JNum (canon (Binary64.round (if neg then (- v)%Q else v))), r).

(** The text after a literal's first character. *)
Fixpoint expect (lit s : string) : option string :=
  match lit, s with
  | EmptyString, _ => Some s
  | String a lit', String b s' => if Ascii.eqb a b then expect lit' s' else None
  | String _ _, EmptyString => None
  end.

(** A canonical array index: ["0"], or digits without a leading zero,
    below [2^32 - 1]. *)
Definition is_array_index (k : string) : bool :=
  match k with
  | EmptyString => false
  | String c r =>
      if Ascii.eqb c "0" then String.eqb r EmptyString
      else is_digit c &&
           (let '(n, rest) := parse_digits r (digit_value c) in
            String.eqb rest EmptyString && (n <? 4294967295)%N)
  end.

Definition index_value (k : string) : N := fst (parse_digits k 0).

(** [CreateDataProperty] on the object under construction: an existing
    key keeps its position, a new array index goes among the indices in
    numeric order, any other new key goes last. *)
Fixpoint insert_index (k : string) (v : json) (m : list (string * json)) : list (string * json) :=
  match m with
  | [] => [(k, v)]
  | (k', v') :: r =>
      if is_array_index k' && (index_value k' <? index_value k)%N
      then (k', v') :: insert_index k v r
      else (k, v) :: m
  end.

Definition obj_set (k : string) (v : json) (m : list (string * json)) : list (string * json) :=
  if existsb (fun kv => String.eqb (fst kv) k) m
  then map (fun kv => if String.eqb (fst kv) k then (k, v) else kv) m
  else if is_array_index k then insert_index k v m
  else m ++ [(k, v)].

Fixpoint parse_value (fuel : nat) (s : string) {struct fuel} : option (json * string) :=
  match fuel with
  | O => None
  | S f =>
      match skip_ws s with
      | EmptyString => None
      | String c r as s' =>
          if Ascii.eqb c "[" then
            match skip_ws r with
            | String c' r' => if Ascii.eqb c' "]" then Some (JArr [], r') else parse_elems f [] r
            | EmptyString => None
            end
          else if Ascii.eqb c "{" then
            match skip_ws r with
            | String c' r' => if Ascii.eqb c' "}" then Some (JObj [], r') else parse_members f [] r
            | EmptyString => None
            end
          else if Ascii.eqb c quote then '(t, r') <- parse_str r ;; Some (JStr t, r')
          else if Ascii.eqb c "n" then r' <- expect "ull" r ;; Some (JNull, r')
          else if Ascii.eqb c "t" then r' <- expect "rue" r ;; Some (JBool true, r')
          else if Ascii.eqb c "f" then r' <- expect "alse" r ;; Some (JBool false, r')
          else parse_number s'
      end
  end
with parse_elems (fuel : nat) (acc : list json) (s : string) {struct fuel} : option (json * string) :=
  match fuel with
  | O => None
  | S f =>
      '(v, r) <- parse_value f s ;;
      match skip_ws r with
      | String c r' =>
          if Ascii.eqb c "," then parse_elems f (acc ++ [v]) r'
          else if Ascii.eqb c "]" then Some (JArr (acc ++ [v]), r')
          else None
      | EmptyString => None
      end
  end
with parse_members (fuel : nat) (acc : list (string * json)) (s : string) {struct fuel}
  : option (json * string) :=
  match fuel with
  | O => None
  | S f =>
      match skip_ws s with
      | String c r =>
          if Ascii.eqb c quote then
            '(k, r1) <- parse_str r ;;
            match skip_ws r1 with
            | String c1 r2 =>
                if Ascii.eqb c1 ":" then
                  '(v, r3) <- parse_value f r2 ;;
                  let acc' := obj_set k v acc in
                  match skip_ws r3 with
                  | String c3 r4 =>
                      if Ascii.eqb c3 "," then parse_members f acc' r4
                      else if Ascii.eqb c3 "}" then Some (JObj acc', r4)
                      else None
                  | EmptyString => None
                  end
                else None
            | EmptyString => None
            end
          else None
      | EmptyString => None
      end
  end.

(** ** Well-formed values

    The values [JSON.parse] gives back unchanged: no key twice in an
    object and no array-index key (those [JSON.parse] reorders). *)
Fixpoint nodup_b (l : list string) : bool :=
  match l with
  | [] => true
  | k :: r => negb (existsb (String.eqb k) r) && nodup_b r
  end.

Definition keys_ok (ks : list string) : bool :=
  nodup_b ks && forallb (fun k => negb (is_array_index k)) ks.

(** A number [JSON.parse] gives back as it is: zero or a normal double
    below [2^1023], in lowest terms. *)
Definition Qred_b (q : Q) : bool := (Qnum (Qred q) =? Qnum q)%Z && (Qden (Qred q) =? Qden q)%positive.

Definition normal_b (y : Q) : bool :=
  Qle_bool (Binary64.pow2 (-1022)) y && Qltb y (Binary64.pow2 1023) &&
  Binary64.jsnum_eqb (Binary64.round y) (JFin y).

Definition num_ok (x : jsnum) : bool :=
  match x with
  | JFin q => Qred_b q && (Qeq_bool q 0 || normal_b (Qabs q))
  | _ => false
  end.

Fixpoint wf_b (v : json) : bool :=
  match v with
  | JNum x => num_ok x
  | JArr l => forallb wf_b l
  | JObj m => keys_ok (map fst m) && forallb (fun kv => wf_b (snd kv)) m
  | _ => true
  end.

(** [JSON.parse(text)]: [None] where it throws a [SyntaxError].  Every
    call of the parser consumes a character or is followed by one that
    does, so twice the length is enough fuel. *)
Definition JSON_parse (text : string) : option json :=
  '(v, r) <- parse_value (2 * String.length text + 2) text ;;
  match skip_ws r with
  | EmptyString => Some v
  | String _ _ => None
  end.

End Json.

Module JsonProps.
Import Json Binary64Props ToStringProps.
Close Scope Q_scope.

(** ** Numbers *)

(** What may follow a value inside the text [stringify] writes. *)
Definition is_delim (r : string) : bool :=
  match r with
  | EmptyString => true
  | String c _ => Ascii.eqb c "," || Ascii.eqb c "]" || Ascii.eqb c "}"
  end.

Lemma delim_head (c : ascii) (r : string) :
  is_delim (String c r) = true ->
  is_digit c = false /\ Ascii.eqb c "." = false /\ (Ascii.eqb c "e" || Ascii.eqb c "E") = false /\
  Ascii.eqb c "-" = false.
Proof. destruct c as [[] [] [] [] [] [] [] []]; cbn; intros H; try discriminate; auto. Qed.

Lemma digits_delim (t r : string) (acc : Z) (n : nat) :
  is_delim r = true ->
  Decimal.digits (t ++ r) acc n = let '(i, m, rest) := Decimal.digits t acc n in (i, m, (rest ++ r)%string).
Proof.
  revert acc n. induction t as [|c t IH]; intros acc n Hr.
  - cbn [String.append]. destruct r as [|c r]; [reflexivity|].
    destruct (delim_head c r Hr) as (Hd & _). cbn. now rewrite Hd.
  - cbn [String.append Decimal.digits]. destruct (is_digit c); [apply IH, Hr | reflexivity].
Qed.

Lemma frac_delim (r : string) : is_delim r = true -> lex_frac r = Some (0%Z, O, r).
Proof. destruct r as [|c r]; [reflexivity|]. intros Hr. destruct (delim_head c r Hr) as (_ & Hd & _). cbn. now rewrite Hd. Qed.

Lemma exp_delim (r : string) : is_delim r = true -> lex_exp r = Some (0%Z, r).
Proof. destruct r as [|c r]; [reflexivity|]. intros Hr. destruct (delim_head c r Hr) as (_ & _ & Hd & _). cbn. now rewrite Hd. Qed.

(** The exponent part [Decimal.value] accepts is a JSON exponent. *)
Lemma exp_lex (x r : string) (e : Z) :
  Decimal.exponent x = Some e -> is_delim r = true -> lex_exp (x ++ r) = Some (e, r).
Proof.
  intros Hx Hr. destruct x as [|c x'].
  - cbn in Hx. injection Hx as <-. exact (exp_delim r Hr).
  - assert (Hc : c = "e"%char) by (destruct c as [[] [] [] [] [] [] [] []]; first [reflexivity | discriminate Hx]).
    subst c. destruct x' as [|sg r0]; [discriminate|]. cbn [Decimal.exponent] in Hx.
    destruct (Decimal.digits r0 0 0) as [[e0 n] rest] eqn:Ed.
    destruct (Nat.ltb 0 n && String.eqb rest EmptyString)%bool eqn:Hn; [|discriminate].
    apply andb_true_iff in Hn as [Hn Hrest]. apply String.eqb_eq in Hrest. subst rest.
    apply Nat.ltb_lt in Hn.
    cbn [String.append lex_exp]. change (Ascii.eqb "e" "e" || Ascii.eqb "e" "E")%bool with true. cbv iota.
    destruct (Ascii.eqb_spec sg "+") as [->|H1]; [|destruct (Ascii.eqb_spec sg "-") as [->|H2]; [|discriminate]].
    + cbn. rewrite digits_delim, Ed by exact Hr. injection Hx as <-.
      replace (Nat.eqb n 0) with false by (symmetry; apply Nat.eqb_neq; lia). reflexivity.
    + cbn. rewrite digits_delim, Ed by exact Hr. injection Hx as <-.
      replace (Nat.eqb n 0) with false by (symmetry; apply Nat.eqb_neq; lia). reflexivity.
Qed.

(** The integer part of a number text has no leading zero. *)
Definition int_ok (t : string) : bool :=
  match t with
  | String c r =>
      if Ascii.eqb c "0" then match r with String c' _ => negb (is_digit c') | EmptyString => true end
      else is_digit c
  | EmptyString => false
  end.

Lemma lex_int_app (t r : string) (i : Z) (n : nat) (rest : string) :
  int_ok t = true -> is_delim r = true -> Decimal.digits t 0 0 = (i, n, rest) ->
  lex_int (t ++ r) = Some (i, (rest ++ r)%string).
Proof.
  intros Ht Hr Ed. destruct t as [|c t']; [discriminate|]. cbn [int_ok] in Ht.
  destruct (Ascii.eqb_spec c "0") as [->|Hc].
  - cbn [Decimal.digits] in Ed. change (is_digit "0") with true in Ed. cbv iota in Ed.
    destruct t' as [|c' t'].
    + cbn in Ed. injection Ed as <- <- <-. reflexivity.
    + apply negb_true_iff in Ht. cbn [Decimal.digits] in Ed. rewrite Ht in Ed. injection Ed as <- <- <-. reflexivity.
  - cbn [String.append lex_int]. replace (Ascii.eqb c "0") with false by (symmetry; apply Ascii.eqb_neq; exact Hc).
    rewrite Ht. change (String c (t' ++ r)) with (String c t' ++ r)%string. rewrite digits_delim, Ed by exact Hr.
    reflexivity.
Qed.

(** A numeral [Decimal.value] reads, with no leading zero, is a JSON
    number of the same value, whatever delimiter follows it. *)
Lemma value_lex (t r : string) (D : Q) :
  Decimal.value t = Some D -> int_ok t = true -> is_delim r = true ->
  exists D', lex_unsigned (t ++ r) = Some (D', r) /\ (D' == D)%Q.
Proof.
  intros H Ht Hr. unfold Decimal.value in H.
  destruct (Decimal.digits t 0 0) as [[i n] rest] eqn:Ed. destruct (Nat.eqb n 0); [discriminate|].
  unfold lex_unsigned. rewrite (lex_int_app t r i n rest Ht Hr Ed). cbv iota beta.
  destruct rest as [|c rest'].
  - cbn in H. injection H as <-. rewrite frac_delim, exp_delim by exact Hr. cbv iota beta.
    eexists. split; [reflexivity|]. cbn [Z.of_nat Z.sub]. now rewrite Z.mul_1_r, Z.add_0_r.
  - destruct (Ascii.eqb_spec c ".") as [->|Hc].
    + simpl in H. destruct (Decimal.digits rest' 0 0) as [[f m] r''] eqn:Ef. destruct (Nat.eqb m 0) eqn:Em; [discriminate|].
      destruct (Decimal.exponent r'') as [e|] eqn:Ee; [|discriminate]. cbn in H. injection H as <-.
      cbn [String.append lex_frac]. change (Ascii.eqb "." ".") with true. cbv iota.
      rewrite digits_delim, Ef by exact Hr. rewrite Em. cbv iota beta.
      rewrite (exp_lex r'' r e Ee Hr). eexists. split; reflexivity.
    + assert (H' : option_map (fun e => (inject_Z i * Binary64.pow10 e)%Q) (Decimal.exponent (String c rest')) = Some D)
        by (destruct c as [[] [] [] [] [] [] [] []]; try (exfalso; apply Hc; reflexivity); exact H).
      destruct (Decimal.exponent (String c rest')) as [e|] eqn:Ee; [|discriminate]. cbn in H'. injection H' as <-.
      cbn [String.append lex_frac]. replace (Ascii.eqb c ".") with false by (symmetry; apply Ascii.eqb_neq; exact Hc).
      change (String c (rest' ++ r)) with (String c rest' ++ r)%string. rewrite (exp_lex _ r e Ee Hr).
      eexists. split; [reflexivity|]. change (Z.of_nat O) with 0%Z.
      now rewrite Z.sub_0_r, Z.pow_0_r, Z.mul_1_r, Z.add_0_r.
Qed.

(** ** Strings *)

(** Each escaped code unit parses back to itself (checked for all 256). *)
Lemma escape_char_parse (c : ascii) (t : string) :
  parse_str (escape_char c ++ t) = ('(x, rest) <- parse_str t ;; Some (String c x, rest)).
Proof. destruct c as [[] [] [] [] [] [] [] []]; reflexivity. Qed.

Lemma escape_parse (s r : string) : parse_str (escape s ++ String quote r) = Some (s, r).
Proof.
  induction s as [|c s IH]; [reflexivity|].
  simpl. rewrite str_app_assoc, escape_char_parse, IH. reflexivity.
Qed.

(** ** Structure *)

Lemma json_ind' (P : json -> Prop) :
  P JNull -> (forall b, P (JBool b)) -> (forall z, P (JNum z)) -> (forall s, P (JStr s)) ->
  (forall l, Forall P l -> P (JArr l)) ->
  (forall m, Forall (fun kv => P (snd kv)) m -> P (JObj m)) ->
  forall v, P v.
Proof.
  intros Hn Hb Hz Hs Ha Ho. fix IH 1. intros [| | | |l|m].
  - exact Hn.
  - apply Hb.
  - apply Hz.
  - apply Hs.
  - apply Ha. induction l as [|x l IHl]; constructor; [apply IH | exact IHl].
  - apply Ho. induction m as [|[k x] m IHm]; constructor; [apply IH | exact IHm].
Qed.

Fixpoint elems_str (l : list json) : string :=
  match l with
  | [] => EmptyString
  | [x] => stringify x
  | x :: r => stringify x ++ "," ++ elems_str r
  end.

Fixpoint members_str (m : list (string * json)) : string :=
  match m with
  | [] => EmptyString
  | [(k, x)] => quoted k ++ ":" ++ stringify x
  | (k, x) :: r => quoted k ++ ":" ++ stringify x ++ "," ++ members_str r
  end.

Lemma stringify_arr (l : list json) : stringify (JArr l) = ("[" ++ elems_str l ++ "]")%string.
Proof. reflexivity. Qed.

Lemma stringify_obj (m : list (string * json)) : stringify (JObj m) = ("{" ++ members_str m ++ "}")%string.
Proof. reflexivity. Qed.

(** *** The numbers [stringify] writes *)

Lemma Qred_b_eq (q : Q) : Qred_b q = true -> Qred q = q.
Proof.
  unfold Qred_b. rewrite andb_true_iff, Z.eqb_eq, Pos.eqb_eq. intros [H1 H2].
  destruct (Qred q) as [a b], q as [c d]. cbn in *. congruence.
Qed.

Lemma is_normal_Qeq (v y : Q) : Binary64.is_normal v -> (v == y)%Q -> Binary64.is_normal y.
Proof.
  intros (m & e & H1 & H2 & H3) Hy. exists m, e. split; [exact H1|]. split; [exact H2|].
  rewrite <- Hy. exact H3.
Qed.

Lemma normal_b_spec (y : Q) : normal_b y = true -> Binary64.is_normal y.
Proof.
  unfold normal_b. rewrite !andb_true_iff. intros [[H1 H2] H3]. qbool.
  destruct (round_pos_normal y H1 H2) as (v & Hv & Hn & _).
  rewrite round_gt0, Hv in H3 by (pose proof (pow2_pos (-1022)); lra).
  cbn [Binary64.jsnum_eqb] in H3. qbool. exact (is_normal_Qeq v y Hn H3).
Qed.

(** A number [num_ok] accepts is in lowest terms, and zero or a normal
    double of either sign. *)
Lemma num_ok_cases (q : Q) :
  num_ok (JFin q) = true ->
  Qred q = q /\ ((q == 0)%Q \/ (0 < q /\ Binary64.is_normal q)%Q \/ (q < 0 /\ Binary64.is_normal (- q))%Q).
Proof.
  cbn [num_ok]. rewrite andb_true_iff. intros [H1 H2]. split; [now apply Qred_b_eq|].
  destruct (Qeq_bool q 0) eqn:E0; [left; now apply Qeq_bool_iff|]. right. cbn [orb] in H2.
  apply normal_b_spec in H2. qbool. destruct (Qlt_le_dec 0 q) as [Hq|Hq].
  - left. split; [exact Hq|]. apply (is_normal_Qeq _ _ H2). apply Qabs_pos. lra.
  - right. destruct (Qle_lt_or_eq q 0 Hq) as [Hlt|Heq]; [|contradiction].
    split; [exact Hlt|]. apply (is_normal_Qeq _ _ H2). apply Qabs_neg. lra.
Qed.

(** A double whose value reads back to a positive one is positive. *)
Lemma round_eqb_pos (D y : Q) : (0 < y)%Q -> Binary64.jsnum_eqb (Binary64.round D) (JFin y) = true -> (0 < D)%Q.
Proof.
  intros Hy H. unfold Binary64.round in H. destruct (D ?= 0)%Q eqn:E.
  - cbn [Binary64.jsnum_eqb] in H. qbool. lra.
  - apply Qlt_alt in E. destruct (Binary64.round_pos (- D)) as [v| | |] eqn:Ev; cbn in H; try discriminate.
    qbool. pose proof (round_pos_nonneg (- D) v ltac:(lra) Ev). lra.
  - now apply Qgt_alt in E.
Qed.

Lemma round_opp (D : Q) : (0 < D)%Q -> Binary64.round (- D) = Binary64.neg (Binary64.round_pos D).
Proof.
  intros HD. unfold Binary64.round. rewrite (proj1 (Qlt_alt (- D) 0) ltac:(lra)).
  f_equal. apply round_pos_Qeq; lra.
Qed.

(** A positive normal double prints as a text that starts with a digit
    and that [lex_unsigned] reads back to a value rounding to it. *)
Lemma pos_number_lex (y : Q) (r : string) :
  Binary64.is_normal y -> is_delim r = true ->
  exists d t D, Binary64.toString_pos y = String d t /\ is_digit d = true /\
    lex_unsigned (Binary64.toString_pos y ++ r) = Some (D, r) /\ (0 < D)%Q /\
    exists w, Binary64.round_pos D = JFin w /\ (w == y)%Q.
Proof.
  intros Hy Hr. pose proof (is_normal_pos y Hy) as Hy0.
  destruct (toString_roundtrip y Hy) as (D & HD & HR).
  unfold Binary64.toString in HD. rewrite (proj1 (Qgt_alt y 0) Hy0) in HD.
  assert (Hok : int_ok (Binary64.toString_pos y) = true /\
                exists d t, Binary64.toString_pos y = String d t /\ is_digit d = true).
  { destruct (toString_pos_head y Hy) as [(d & t & E & Hd & Hd0)|(t & E)]; rewrite E.
    - split; [|eauto]. cbn [int_ok]. replace (Ascii.eqb d "0") with false by (symmetry; apply Ascii.eqb_neq; exact Hd0).
      exact Hd.
    - split; [reflexivity|]. eexists _, _. split; reflexivity. }
  destruct Hok as [Hok (d & t & E & Hd)].
  destruct (value_lex _ r D HD Hok Hr) as (D' & HL & HD').
  pose proof (round_eqb_pos D y Hy0 HR) as HD0.
  exists d, t, D'. split; [exact E|]. split; [exact Hd|]. split; [exact HL|]. split; [lra|].
  rewrite (round_pos_Qeq D' D), <- (round_gt0 D HD0) by lra.
  destruct (Binary64.round D) as [w| | |]; cbn in HR; try discriminate.
  exists w. split; [reflexivity|]. now qbool.
Qed.

Lemma digit_not_minus (d : ascii) : is_digit d = true -> Ascii.eqb d "-" = false.
Proof. destruct d as [[] [] [] [] [] [] [] []]; intros H; first [reflexivity | discriminate H]. Qed.

(** The first character of a value's text. *)
Definition value_head (c : ascii) : bool :=
  is_digit c || Ascii.eqb c "-" || Ascii.eqb c quote || Ascii.eqb c "[" || Ascii.eqb c "{" ||
  Ascii.eqb c "n" || Ascii.eqb c "t" || Ascii.eqb c "f".

Lemma parse_value_number (f : nat) (c : ascii) (s : string) :
  (is_digit c || Ascii.eqb c "-") = true -> parse_value (S f) (String c s) = parse_number (String c s).
Proof. destruct c as [[] [] [] [] [] [] [] []]; simpl; intros H; try discriminate; reflexivity. Qed.

(** The round trip of a number: [JSON.parse] reads back the double
    [JSON.stringify] printed, whatever delimiter follows it. *)
Lemma number_RT (f : nat) (x : jsnum) (r : string) :
  num_ok x = true -> is_delim r = true -> parse_value (S f) (number_text x ++ r) = Some (JNum x, r).
Proof.
  intros Hx Hr. destruct x as [q| | |]; try discriminate.
  destruct (num_ok_cases q Hx) as (Hred & [Hq0 | [(Hq & Hn) | (Hq & Hn)]]);
    [|unfold number_text, Binary64.toString..].
  - assert (E : q = 0%Q) by (rewrite <- Hred; apply Qred_complete in Hq0; exact Hq0). subst q.
    change (number_text (JFin 0)) with "0"%string. cbn [String.append]. rewrite parse_value_number by reflexivity.
    unfold parse_number, lex_unsigned. cbn -[lex_frac lex_exp].
    rewrite frac_delim, exp_delim by exact Hr. reflexivity.
  - rewrite (proj1 (Qgt_alt q 0) Hq).
    destruct (pos_number_lex q r Hn Hr) as (d & t & D & Ht & Hd & HL & HD & w & Hw & Hwq).
    rewrite Ht. cbn [String.append]. rewrite parse_value_number by (rewrite Hd; reflexivity).
    unfold parse_number. rewrite (digit_not_minus d Hd).
    change (String d (t ++ r)) with (String d t ++ r)%string. rewrite <- Ht, HL.
    cbv iota beta. rewrite round_gt0, Hw by exact HD. cbn [canon].
    do 4 f_equal. rewrite <- Hred. now apply Qred_complete.
  - rewrite (proj1 (Qlt_alt q 0) Hq).
    destruct (pos_number_lex (- q) r Hn Hr) as (d & t & D & Ht & Hd & HL & HD & w & Hw & Hwq).
    cbn [String.append]. rewrite parse_value_number by reflexivity.
    unfold parse_number. change (Ascii.eqb "-" "-") with true. cbv iota beta. rewrite HL.
    cbv iota beta. rewrite round_opp, Hw by exact HD. cbn [canon Binary64.neg].
    do 4 f_equal. rewrite <- Hred. apply Qred_complete. lra.
Qed.

Lemma stringify_head (v : json) :
  wf_b v = true -> exists c rest, stringify v = String c rest /\ value_head c = true.
Proof.
  intros Hwf. destruct v as [| [] | x | s | l | m]; try (eexists _, _; split; reflexivity).
  destruct x as [q| | |]; try discriminate.
  destruct (num_ok_cases q Hwf) as (_ & [Hq0 | [(Hq & Hn) | (Hq & Hn)]]);
    cbn [stringify number_text]; unfold Binary64.toString.
  - rewrite (proj1 (Qeq_alt q 0) Hq0). eexists _, _. split; reflexivity.
  - rewrite (proj1 (Qgt_alt q 0) Hq).
    destruct (toString_pos_head q Hn) as [(d & t & E & Hd & _)|(t & E)]; rewrite E.
    + exists d, t. split; [reflexivity|]. unfold value_head. now rewrite Hd.
    + eexists _, _. split; reflexivity.
  - rewrite (proj1 (Qlt_alt q 0) Hq). eexists _, _. split; reflexivity.
Qed.

(** A value's first character is no white space and no closing bracket. *)
Lemma value_head_skip (c : ascii) (s : string) :
  value_head c = true ->
  skip_ws (String c s) = String c s /\ Ascii.eqb c "]" = false /\ Ascii.eqb c "}" = false.
Proof. destruct c as [[] [] [] [] [] [] [] []]; simpl; intros H; try discriminate; auto. Qed.

Lemma stringify_nonempty (v : json) : 1 <= String.length (stringify v).
Proof.
  destruct v as [| [] | [q| | |] | s | l | m]; cbn -[Binary64.toString_pos]; try lia.
  destruct (q ?= 0)%Q; cbn -[Binary64.toString_pos]; try lia.
  destruct (toString_pos_nonempty q) as (d & t & ->). cbn. lia.
Qed.

(** ** Arrays and objects *)

(** The round trip of one value, followed by any delimiter. *)
Definition RT (v : json) : Prop :=
  forall fuel r, String.length (stringify v) <= fuel -> is_delim r = true ->
  parse_value fuel (stringify v ++ r) = Some (v, r).

Lemma elems_str_cons2 (x y : json) (l : list json) :
  elems_str (x :: y :: l) = (stringify x ++ "," ++ elems_str (y :: l))%string.
Proof. reflexivity. Qed.

Lemma members_str_cons2 (k : string) (x : json) (kv : string * json) (m : list (string * json)) :
  members_str ((k, x) :: kv :: m) =
  (quoted k ++ ":" ++ stringify x ++ "," ++ members_str (kv :: m))%string.
Proof. destruct kv. reflexivity. Qed.

Lemma elems_parse (l : list json) :
  forall acc f r, l <> [] -> Forall RT l -> String.length (elems_str l) < f ->
  parse_elems f acc (elems_str l ++ String "]" r) = Some (JArr (acc ++ l), r).
Proof.
  induction l as [|x l IH]; intros acc f r Hne Hall Hf; [congruence|].
  inversion Hall as [|? ? Hx Hl]; subst. destruct f as [|f]; [lia|].
  destruct l as [|y l].
  - simpl. rewrite Hx by (simpl in Hf; lia || reflexivity). reflexivity.
  - rewrite elems_str_cons2 in *. remember (elems_str (y :: l)) as E eqn:HE.
    rewrite !str_length_app in Hf. simpl in Hf.
    rewrite !str_app_assoc. simpl. rewrite Hx by (lia || reflexivity). simpl.
    subst E. rewrite IH by (discriminate || assumption || lia). now rewrite <- app_assoc.
Qed.

Lemma obj_set_fresh (k : string) (v : json) (acc : list (string * json)) :
  existsb (fun kv => String.eqb (fst kv) k) acc = false -> is_array_index k = false ->
  obj_set k v acc = (acc ++ [(k, v)])%list.
Proof. intros H1 H2. unfold obj_set. now rewrite H1, H2. Qed.

Lemma keys_ok_cons (k : string) (ks : list string) :
  keys_ok (k :: ks) = true ->
  is_array_index k = false /\ existsb (String.eqb k) ks = false /\ keys_ok ks = true.
Proof.
  unfold keys_ok. simpl. rewrite !andb_true_iff, !negb_true_iff. tauto.
Qed.

(** No key of [m] is already in [acc]. *)
Definition fresh_keys (m acc : list (string * json)) : Prop :=
  forall kv, In kv m -> existsb (fun kv' => String.eqb (fst kv') (fst kv)) acc = false.

Lemma fresh_keys_step (k : string) (x : json) (m acc : list (string * json)) :
  fresh_keys ((k, x) :: m) acc -> existsb (String.eqb k) (map fst m) = false ->
  fresh_keys m (acc ++ [(k, x)])%list.
Proof.
  intros Hf Hk kv Hin. rewrite existsb_app, (Hf kv (or_intror Hin)). simpl.
  destruct (String.eqb_spec k (fst kv)) as [Heq|]; [|reflexivity].
  exfalso. subst k. assert (Hi : existsb (String.eqb (fst kv)) (map fst m) = true).
  { apply existsb_exists. exists (fst kv). split; [now apply in_map | apply String.eqb_refl]. }
  congruence.
Qed.

Lemma members_parse (m : list (string * json)) :
  forall acc f r, m <> [] -> Forall (fun kv => RT (snd kv)) m -> keys_ok (map fst m) = true ->
  fresh_keys m acc -> String.length (members_str m) < f ->
  parse_members f acc (members_str m ++ String "}" r) = Some (JObj (acc ++ m)%list, r).
Proof.
  induction m as [|[k x] m IH]; intros acc f r Hne Hall Hk Hfr Hf; [congruence|].
  inversion Hall as [|? ? Hx Hl]; subst. simpl in Hx. destruct f as [|f]; [lia|].
  destruct (keys_ok_cons _ _ Hk) as (Hidx & Hnin & Hk').
  assert (Hacc : existsb (fun kv => String.eqb (fst kv) k) acc = false) by exact (Hfr (k, x) (or_introl eq_refl)).
  destruct m as [|kv m].
  - cbn [members_str] in *. unfold quoted in *. rewrite !str_length_app in Hf. simpl in Hf.
    rewrite !str_app_assoc. simpl. rewrite !str_app_assoc. simpl. rewrite escape_parse. simpl.
    rewrite Hx by (lia || reflexivity). rewrite obj_set_fresh by assumption. reflexivity.
  - rewrite members_str_cons2 in *. remember (members_str (kv :: m)) as E eqn:HE.
    unfold quoted in *. rewrite !str_length_app in Hf. simpl in Hf.
    rewrite !str_app_assoc. simpl. rewrite !str_app_assoc. simpl. rewrite escape_parse. simpl.
    rewrite Hx by (lia || reflexivity). rewrite obj_set_fresh by assumption. simpl.
    subst E. rewrite IH by (discriminate || assumption || (apply fresh_keys_step; assumption) || lia).
    now rewrite <- app_assoc.
Qed.

Lemma elems_str_head (x : json) (l : list json) (c : ascii) (t : string) :
  stringify x = String c t -> exists t', elems_str (x :: l) = String c t'.
Proof.
  intros Hx. destruct l as [|y l]; [cbn [elems_str]; eauto|].
  rewrite elems_str_cons2, Hx. eexists. reflexivity.
Qed.

Lemma quoted_head (k : string) : exists t, quoted k = String quote t.
Proof. eexists. reflexivity. Qed.

Lemma members_str_head (k : string) (x : json) (m : list (string * json)) :
  exists t, members_str ((k, x) :: m) = String quote t.
Proof.
  destruct m as [|kv m]; [|rewrite members_str_cons2]; unfold quoted; eexists; reflexivity.
Qed.

Lemma parse_value_arr (f : nat) (s : string) :
  parse_value (S f) (String "[" s) =
  match skip_ws s with
  | String c' r' => if Ascii.eqb c' "]" then Some (JArr [], r') else parse_elems f [] s
  | EmptyString => None
  end.
Proof. reflexivity. Qed.

Lemma parse_value_obj (f : nat) (s : string) :
  parse_value (S f) (String "{" s) =
  match skip_ws s with
  | String c' r' => if Ascii.eqb c' "}" then Some (JObj [], r') else parse_members f [] s
  | EmptyString => None
  end.
Proof. reflexivity. Qed.

Lemma stringify_RT (v : json) : wf_b v = true -> RT v.
Proof.
  induction v as [| b | z | s | l IHl | m IHm] using json_ind'; intros Hwf fuel r Hf Hr;
    (destruct fuel as [|f];
     [match type of Hf with (String.length (stringify ?v) <= 0)%nat =>
        pose proof (stringify_nonempty v); lia end|]).
  - reflexivity.
  - destruct b; reflexivity.
  - exact (number_RT f z r Hwf Hr).
  - cbn [stringify quoted String.append]. rewrite str_app_assoc. simpl. now rewrite escape_parse.
  - destruct l as [|x l]; [reflexivity|].
    assert (Hall : Forall RT (x :: l)).
    { change (forallb wf_b (x :: l) = true) in Hwf. apply Forall_forall. intros y Hy. eapply Forall_forall in IHl; [|exact Hy].
      apply IHl. eapply forallb_forall in Hwf; [exact Hwf | exact Hy]. }
    rewrite stringify_arr in *. rewrite !str_length_app in Hf. cbn [String.length] in Hf.
    assert (Hx : wf_b x = true) by (cbn in Hwf; now apply andb_true_iff in Hwf as [? _]).
    destruct (stringify_head x Hx) as (c & t & Hc & Hh). destruct (elems_str_head x l c t Hc) as [t' Ht'].
    rewrite !str_app_assoc. cbn [String.append]. rewrite parse_value_arr.
    rewrite Ht'. cbn [String.append]. destruct (value_head_skip c (t' ++ String "]" r) Hh) as (-> & -> & _).
    change (String c (t' ++ String "]" r)) with (String c t' ++ String "]" r)%string. rewrite <- Ht'.
    apply elems_parse; [discriminate | exact Hall | lia].
  - destruct m as [|[k x] m]; [reflexivity|].
    change ((keys_ok (map fst ((k, x) :: m)) && forallb (fun kv => wf_b (snd kv)) ((k, x) :: m))%bool = true) in Hwf.
    apply andb_true_iff in Hwf as [Hk Hwf].
    assert (Hall : Forall (fun kv => RT (snd kv)) ((k, x) :: m)).
    { apply Forall_forall. intros kv Hkv. eapply Forall_forall in IHm; [|exact Hkv].
      apply IHm. eapply forallb_forall in Hwf; [exact Hwf | exact Hkv]. }
    rewrite stringify_obj in *. rewrite !str_length_app in Hf. cbn [String.length] in Hf.
    destruct (members_str_head k x m) as [t Ht].
    rewrite !str_app_assoc. cbn [String.append]. rewrite parse_value_obj.
    rewrite Ht. cbn [String.append].
    destruct (value_head_skip quote (t ++ String "}" r) eq_refl) as (-> & _ & ->).
    change (String quote (t ++ String "}" r)) with (String quote t ++ String "}" r)%string. rewrite <- Ht.
    apply members_parse; [discriminate | exact Hall | exact Hk | intros ? ?; reflexivity | lia].
Qed.

(** *** Integers as JSON numbers *)

Lemma Qred_inject_Z (n : Z) : Qred (inject_Z n) = inject_Z n.
Proof.
  unfold Qred, inject_Z. pose proof (Z.ggcd_gcd n 1) as G. pose proof (Z.ggcd_correct_divisors n 1) as D.
  destruct (Z.ggcd n 1) as [g [a b]]. cbn [fst snd] in *. rewrite Z.gcd_1_r in G. subst g.
  destruct D as [D1 D2]. rewrite Z.mul_1_l in D1, D2. now subst.
Qed.

(** An integer below [2^53] in magnitude is a normal double or zero:
    [JSON.stringify] prints it and [JSON.parse] reads it back. *)
Lemma num_ok_Z (n : Z) : (Z.abs n < 2 ^ 53)%Z -> num_ok (JFin (inject_Z n)) = true.
Proof.
  intros Hn. destruct (Z.eq_dec n 0) as [->|Hn0]; [reflexivity|].
  unfold num_ok, Qred_b. rewrite Qred_inject_Z, Z.eqb_refl, Pos.eqb_refl. cbn [andb].
  apply orb_true_intro. right.
  replace (Qabs (inject_Z n)) with (inject_Z (Z.abs n)) by reflexivity.
  assert (Hm : (1 <= Z.abs n < 2 ^ 53)%Z) by lia.
  destruct (round_normal_exact _ (is_normal_Z _ Hm)) as (v & Hv & Hvq).
  unfold normal_b. rewrite Hv. cbn [Binary64.jsnum_eqb].
  rewrite !andb_true_iff, Qle_bool_iff, Qltb_iff, Qeq_bool_iff. split; [split|exact Hvq].
  - pose proof (pow2_le_mono (-1022) 0 ltac:(lia)) as H. rewrite (pow2_of_Z 0) in H by lia.
    apply Qle_trans with (1 := H). rewrite <- Zle_Qle. cbn. lia.
  - pose proof (pow2_le_mono 53 1023 ltac:(lia)) as H. rewrite (pow2_of_Z 53) in H by lia.
    apply Qlt_le_trans with (2 := H). rewrite <- Zlt_Qlt. lia.
Qed.

(** The round trip of the host's JSON functions on well-formed values. *)
Lemma JSON_roundtrip (v : json) : wf_b v = true -> JSON_parse (stringify v) = Some v.
Proof.
  intros Hwf. unfold JSON_parse.
  pose proof (stringify_RT v Hwf (2 * String.length (stringify v) + 2) EmptyString ltac:(lia) eq_refl) as H.
  rewrite str_app_nil_r in H. now rewrite H.
Qed.

(** [\u] escapes of any code unit: a two-byte and a three-byte code
    point, a surrogate pair, and a lone high surrogate; and numbers with
    a fraction and an exponent, rounded to the nearest double. *)
Lemma unicode_escapes :
  JSON_parse (String quote ("\u00e9\u20AC\ud83d\ude00\ud800" ++ String quote EmptyString)) =
  Some (JStr (utf8 233 ++ utf8 8364 ++ utf8 128512 ++ utf8 55296)).
Proof. vm_compute. reflexivity. Qed.

Lemma fraction_numbers :
  JSON_parse "[1.5, -2.5E+2, 0.1, 1e400]" =
  Some (JArr [JNum (JFin (3 # 2)); JNum (JFin (-250)); JNum (JFin (3602879701896397 # 36028797018963968)); JNum JPosInf]).
Proof. vm_compute. reflexivity. Qed.

End JsonProps.
