(* ===== verification/Css.v ===== *)
(** * Inline style declarations, as the progress bar uses them

  The progress bar (script.js 206-223) is a [div] whose inline style is
  written once through [style.cssText] and then, on every scroll, through
  [style.width].  Module [Css] models the element's declaration block
  (CSSOM) as the list of its (property, value) pairs in order:
  - the [cssText] setter splits the text at [;], each part at its first
    [:], trims both sides of white space, drops a part without [:] or
    with an empty name, and lets a later declaration of a property
    replace an earlier one in place;
  - a property setter ([style.width = v]) replaces or appends the
    declaration when the CSS parser accepts [v], and does nothing when it
    rejects [v].
  The values the script gives [width] end in [%]: such a value is a
  [<percentage>] when the text before [%] is a non-negative numeral, read
  with [Binary64]'s [Decimal.value] (the numerals [Number::toString]
  prints).  So ["NaN%"], ["Infinity%"] and negative values are rejected.
  The [cssText] parser does not check values: the one literal the script
  writes has only valid ones.  [CssProps] gives the lookup/update lemmas
  and shows that every non-negative finite number printed with a [%] is
  accepted. *)

From Stdlib Require Import QArith Lqa List String Ascii Lia Bool.
From S2P Require Import Prelude Binary64.
Import ListNotations.
Local Open Scope string_scope.

Module Css.

(** A declaration block: (property, value) in order. *)
Definition block := list (string * string).

Definition is_space (a : ascii) : bool :=
  Ascii.eqb a " " || Ascii.eqb a (ascii_of_nat 10) || Ascii.eqb a (ascii_of_nat 9) ||
  Ascii.eqb a (ascii_of_nat 13) || Ascii.eqb a (ascii_of_nat 12).

Fixpoint trim_left (s : string) : string :=
  match s with
  | String a r => if is_space a then trim_left r else s
  | EmptyString => EmptyString
  end.

Fixpoint rev_onto (s acc : string) : string :=
  match s with
  | String a r => rev_onto r (String a acc)
  | EmptyString => acc
  end.

Definition rev (s : string) : string := rev_onto s EmptyString.

Definition trim (s : string) : string := rev (trim_left (rev (trim_left s))).

(** The parts of [s] between the separators [c]; [cur] is the part read
    so far, reversed. *)
Fixpoint chunks (c : ascii) (s cur : string) : list string :=
  match s with
  | EmptyString => [rev cur]
  | String a r => if Ascii.eqb a c then rev cur :: chunks c r EmptyString else chunks c r (String a cur)
  end.

(** The text before the first [c], and the text after it if there is one. *)
Fixpoint split_at (c : ascii) (s : string) : string * option string :=
  match s with
  | EmptyString => (EmptyString, None)
  | String a r =>
      if Ascii.eqb a c then (EmptyString, Some r)
      else let (h, t) := split_at c r in (String a h, t)
  end.

Definition get_property (p : string) (b : block) : option string :=
  option_map snd (find (fun d => String.eqb (fst d) p) b).

Definition set_property (p v : string) (b : block) : block :=
  if existsb (fun d => String.eqb (fst d) p) b
  then map (fun d => if String.eqb (fst d) p then (p, v) else d) b
  else (b ++ [(p, v)])%list.

(** One part of a [cssText]: [name: value]. *)
Definition declaration (s : string) : option (string * string) :=
  match split_at ":" s with
  | (n, Some v) => let n' := trim n in if String.eqb n' EmptyString then None else Some (n', trim v)
  | (_, None) => None
  end.

(** [style.cssText = s]: the block is replaced by the declarations of [s]. *)
Definition parse_cssText (s : string) : block :=
  fold_left (fun b part => match declaration part with
                           | Some (n, v) => set_property n v b
                           | None => b
                           end) (chunks ";" s EmptyString) [].

(** A non-negative [<percentage>] in the numerals [Number::toString] prints. *)
Definition percentage (v : string) : bool :=
  match String.length v with
  | O => false
  | S k => String.eqb (substring k 1 v) "%" &&
           match Decimal.value (substring 0 k v) with Some _ => true | None => false end
  end.

(** [style.width = v] for a value ending in [%]. *)
Definition set_width (v : string) (b : block) : block :=
  if percentage v then set_property "width" v b else b.

End Css.

Module CssProps.
Import Css.

Lemma get_map_other (p q v : string) (b : block) :
  p <> q -> get_property q (map (fun d => if String.eqb (fst d) p then (p, v) else d) b) = get_property q b.
Proof.
  intros Hpq. unfold get_property. induction b as [|[n w] b IH]; [reflexivity|]. simpl.
  destruct (String.eqb_spec n p) as [->|]; simpl.
  - now rewrite (proj2 (String.eqb_neq p q) Hpq).
  - destruct (n =? q); [reflexivity | exact IH].
Qed.

Lemma get_set_property (p q v : string) (b : block) :
  get_property q (set_property p v b) = if String.eqb p q then Some v else get_property q b.
Proof.
  destruct (String.eqb_spec p q) as [<-|Hpq].
  - unfold get_property, set_property.
    destruct (existsb (fun d => String.eqb (fst d) p) b) eqn:E; induction b as [|[n w] b IH]; simpl in *;
      try discriminate; try (now rewrite String.eqb_refl).
    + destruct (String.eqb_spec n p) as [|Hn]; simpl; [now rewrite String.eqb_refl|].
      rewrite (proj2 (String.eqb_neq n p) Hn). exact (IH E).
    + apply orb_false_iff in E as [E1 E2]. rewrite E1. exact (IH E2).
  - unfold set_property. destruct (existsb _ b); [now apply get_map_other|].
    unfold get_property. induction b as [|[n w] b IH]; simpl.
    + now rewrite (proj2 (String.eqb_neq p q) Hpq).
    + destruct (n =? q); [reflexivity | exact IH].
Qed.

Lemma substring_prefix (s t : string) : substring 0 (String.length s) (s ++ t) = s.
Proof. induction s as [|a s IH]; cbn; [now destruct t | now rewrite IH]. Qed.

Lemma substring_after (s t : string) (n : nat) : substring (String.length s) n (s ++ t) = substring 0 n t.
Proof. induction s as [|a s IH]; cbn; [reflexivity | exact IH]. Qed.

(** [v ++ "%"] is accepted exactly when [v] is a numeral. *)
Lemma percentage_app (s : string) :
  percentage (s ++ "%") = match Decimal.value s with Some _ => true | None => false end.
Proof.
  unfold percentage. rewrite str_length_app. cbn [String.length].
  rewrite PeanoNat.Nat.add_1_r, substring_prefix, substring_after. reflexivity.
Qed.

Lemma set_width_accept (v : string) (b : block) (q : string) :
  percentage v = true ->
  get_property q (set_width v b) = if String.eqb "width" q then Some v else get_property q b.
Proof. intros H. unfold set_width. rewrite H. apply get_set_property. Qed.

Lemma set_width_reject (v : string) (b : block) : percentage v = false -> set_width v b = b.
Proof. intros H. unfold set_width. now rewrite H. Qed.

(** Every non-negative finite number, printed, is a width percentage. *)
Lemma percentage_toString (q : Q) : 0 <= q -> percentage (Binary64.toString (JFin q) ++ "%") = true.
Proof.
  intros Hq. rewrite percentage_app. destruct (Qeq_dec q 0) as [E|E].
  - unfold Binary64.toString. rewrite (Qeq_alt q 0) in E. now rewrite E.
  - destruct (ToStringProps.toString_parses q) as [D ->]; [lra | reflexivity].
Qed.

Lemma percentage_NaN : percentage (Binary64.toString JNaN ++ "%") = false.
Proof. reflexivity. Qed.

Lemma percentage_Infinity : percentage (Binary64.toString JPosInf ++ "%") = false.
Proof. reflexivity. Qed.

End CssProps.
