(* ===== verification/Particles.v ===== *)
(** * The canvas particle system (script.js 376-461)

  Module [Canvas] models the block guarded by [if (canvas)]: the
  [Particle] class (constructor, [reset], [update], [draw]), the array
  of 60 particles, and [animateParticles], which clears the canvas,
  updates and draws every particle in order and asks for the next
  animation frame.  [Math.random] is the [Random] class of [Host];
  [Math.cos]/[Math.sin] are the fields of a [Trig] class (no theorem
  depends on their values).  The 2D context is a record of the drawing
  state the code touches ([fillStyle], [shadowBlur], [shadowColor]) and
  the list of circles painted since the last [clearRect]; a CSS color the
  code builds by string concatenation ([color + opacity + ')']) is kept
  as its parts. *)

From Stdlib Require Import QArith Qround Lqa List String Lia ZArith Bool.
From S2P Require Import Prelude Host.
Import ListNotations.

Class Trig := {
  Math_cos : Q -> Q;
  Math_sin : Q -> Q
}.

(** Truncated Taylor series, an executable stand-in for the witnesses. *)
#[export] Instance Trig_taylor : Trig := {
  Math_cos x := 1 - x * x / 2 + x * x * x * x / 24;
  Math_sin x := x - x * x * x / 6 + x * x * x * x * x / 120
}.

Module Canvas.

(** ** Data *)

Definition canvas_width : Q := 350.
Definition canvas_height : Q := 350.
Definition particleCount : nat := 60.
Definition centerX : Q := canvas_width / 2.
Definition centerY : Q := canvas_height / 2.
Definition radius : Q := 150.

Definition colors : list string :=
  [ "rgba(102, 126, 234, "; "rgba(118, 75, 162, "; "rgba(76, 81, 191, ";
    "rgba(50, 50, 80, "; "rgba(40, 40, 60, " ]%string.

(** The fields of a [Particle] object.  [color] is [undefined] ([None])
    when the palette index is out of range. *)
Record Particle := MkParticle {
  angle : Q;
  distance : Q;
  speed : Q;
  size : Q;
  opacity : Q;
  fadeSpeed : Q;
  color : option string
}.

(** A CSS color: [Rgba prefix alpha] is the string [prefix + alpha + ')']
    the code builds; [Keyword] is a literal color. *)
Inductive css_color :=
| Rgba (prefix : option string) (alpha : Q)
| Keyword (s : string).

(** A filled circle as painted by [ctx.fill()], with the shadow in force. *)
Record circle := Circle {
  cx : Q; cy : Q; cr : Q;
  c_fill : css_color;
  c_shadowBlur : Q;
  c_shadowColor : css_color
}.

Record context := Ctx {
  fillStyle : css_color;
  shadowBlur : Q;
  shadowColor : css_color;
  painted : list circle
}.

(** The defaults of a fresh 2D context. *)
Definition initial_context : context :=
  Ctx (Keyword "#000000") 0 (Keyword "rgba(0, 0, 0, 0)") [].

(** ** Operations *)

Section Ops.
Context {R : Type} `{Random R} `{Trig}.

(** [reset()]: five draws of [Math.random], in the order of the code. *)
Definition reset (g : R) : Particle * R :=
  let (r1, g1) := random g in
  let (r2, g2) := random g1 in
  let (r3, g3) := random g2 in
  let (r4, g4) := random g3 in
  let (r5, g5) := random g4 in
  (MkParticle (r1 * Math_PI * 2) (radius * (8 # 10)) ((3 # 10) + r2 * (5 # 10))
     (1 + r3 * 3) (8 # 10) ((5 # 1000) + r4 * (1 # 100))
     (js_index colors (Qfloor (r5 * inject_Z (Z.of_nat (List.length colors))))),
   g5).

(** [new Particle()]: [reset()], then a fresh angle and distance. *)
Definition new_Particle (g : R) : Particle * R :=
  let (p, g1) := reset g in
  let (r6, g2) := random g1 in
  let (r7, g3) := random g2 in
  (MkParticle (r6 * Math_PI * 2) (r7 * radius) (speed p) (size p) (opacity p)
     (fadeSpeed p) (color p), g3).

(** The two assignments at the start of [update()]. *)
Definition advance (p : Particle) : Particle :=
  MkParticle (angle p) (distance p + speed p) (speed p) (size p)
    (opacity p - fadeSpeed p) (fadeSpeed p) (color p).

(** The reset test of [update()]. *)
Definition expired (p : Particle) : bool :=
  Qle_bool (opacity p) 0 || Qltb (radius * 2) (distance p).

(** [update()]. *)
Definition update (p : Particle) (g : R) : Particle * R :=
  let p1 := advance p in
  if expired p1 then reset g else (p1, g).

(** [ctx.beginPath(); ctx.arc(x, y, r, 0, 2 PI); ctx.fill()]. *)
Definition fill_arc (x y r : Q) (c : context) : context :=
  Ctx (fillStyle c) (shadowBlur c) (shadowColor c)
    (painted c ++ [Circle x y r (fillStyle c) (shadowBlur c) (shadowColor c)]).

Definition set_fillStyle (f : css_color) (c : context) : context :=
  Ctx f (shadowBlur c) (shadowColor c) (painted c).

Definition set_shadow (blur : Q) (col : css_color) (c : context) : context :=
  Ctx (fillStyle c) blur col (painted c).

(** [draw()]: the circle is filled first; the glow is set afterwards. *)
Definition draw (p : Particle) (c : context) : context :=
  let x := centerX + Math_cos (angle p) * distance p in
  let y := centerY + Math_sin (angle p) * distance p in
  let c1 := fill_arc x y (size p) (set_fillStyle (Rgba (color p) (opacity p)) c) in
  set_shadow 10 (Rgba (color p) (1 # 2)) c1.

(** [ctx.clearRect(0, 0, canvas.width, canvas.height)]: the whole canvas. *)
Definition clearRect (c : context) : context :=
  Ctx (fillStyle c) (shadowBlur c) (shadowColor c) [].

(** [particles.forEach(p => { p.update(); p.draw(); })]. *)
Fixpoint update_draw_all (ps : list Particle) (g : R) (c : context)
  : list Particle * R * context :=
  match ps with
  | [] => ([], g, c)
  | p :: rest =>
      let (p', g1) := update p g in
      let '(rest', g2, c2) := update_draw_all rest g1 (draw p' c) in
      (p' :: rest', g2, c2)
  end.

(** The state the animation loop owns. *)
Record world := World {
  particles : list Particle;
  rng : R;
  ctx : context;
  frames : list unit    (** pending [requestAnimationFrame(animateParticles)] *)
}.

(** [animateParticles()]: one frame. *)
Definition animateParticles (w : world) : world :=
  let '(ps, g, c) := update_draw_all (particles w) (rng w) (clearRect (ctx w)) in
  World ps g c (frames w ++ [tt]).

(** [for (i < particleCount) particles.push(new Particle())]. *)
Fixpoint create_particles (n : nat) (g : R) : list Particle * R :=
  match n with
  | O => ([], g)
  | S k =>
      let (p, g1) := new_Particle g in
      let (ps, g2) := create_particles k g1 in
      (p :: ps, g2)
  end.

(** Script load: the canvas is sized, the particles created, and
    [animateParticles()] called once directly. *)
Definition init (g : R) : world :=
  let (ps, g1) := create_particles particleCount g in
  animateParticles (World ps g1 initial_context []).

(** A rendered frame runs the pending [animateParticles] callbacks. *)
Definition frame (w : world) : world :=
  let w0 := World (particles w) (rng w) (ctx w) [] in
  fold_left (fun acc _ => animateParticles acc) (frames w) w0.

Fixpoint run_frames (n : nat) (w : world) : world :=
  match n with
  | O => w
  | S k => run_frames k (frame w)
  end.

End Ops.

End Canvas.

(** ** Properties *)

Module CanvasProps.
Import Canvas.

Definition in_palette (c : option string) : Prop :=
  exists s, c = Some s /\ In s colors.

(** The particle invariant.  The last-but-two conjunct is the distance
    budget: [distance + speed * opacity / fadeSpeed <= 278], i.e. the
    distance the particle can still travel before it fades keeps it
    below 278, well inside [2 * radius = 300]. *)
Definition Inv (p : Particle) : Prop :=
  0 < opacity p /\ opacity p <= 8 # 10 /\
  3 # 10 <= speed p /\ speed p < 8 # 10 /\
  5 # 1000 <= fadeSpeed p /\ fadeSpeed p < 15 # 1000 /\
  0 <= distance p /\
  fadeSpeed p * distance p + speed p * opacity p <= 278 * fadeSpeed p /\
  1 <= size p /\ size p < 4 /\
  in_palette (color p).

Definition in_palette_b (c : option string) : bool :=
  match c with Some s => existsb (String.eqb s) colors | None => false end.

Definition inv_b (p : Particle) : bool :=
  Qltb 0 (opacity p) && Qle_bool (opacity p) (8 # 10) &&
  Qle_bool (3 # 10) (speed p) && Qltb (speed p) (8 # 10) &&
  Qle_bool (5 # 1000) (fadeSpeed p) && Qltb (fadeSpeed p) (15 # 1000) &&
  Qle_bool 0 (distance p) &&
  Qle_bool (fadeSpeed p * distance p + speed p * opacity p) (278 * fadeSpeed p) &&
  Qle_bool 1 (size p) && Qltb (size p) 4 &&
  in_palette_b (color p).

Lemma in_palette_b_spec (c : option string) : in_palette_b c = true <-> in_palette c.
Proof.
  unfold in_palette_b, in_palette. destruct c as [s|].
  - rewrite existsb_exists. split.
    + intros (x & Hx & Hs). apply String.eqb_eq in Hs. subst. eauto.
    + intros (x & [= <-] & Hx). exists s. split; [exact Hx | apply String.eqb_refl].
  - split; [discriminate | intros (x & [=] & _)].
Qed.

Lemma inv_b_sound (p : Particle) : inv_b p = true -> Inv p.
Proof.
  unfold inv_b, Inv. rewrite !andb_true_iff, in_palette_b_spec.
  intros ((((((((((H1 & H2) & H3) & H4) & H5) & H6) & H7) & H8) & H9) & H10) & H11).
  qbool. tauto.
Qed.

Section WithRandom.
Context {R : Type} `{Random R} `{Trig}.

Lemma update_fresh (p : Particle) (g : R) :
  expired (advance p) = false -> update p g = (advance p, g).
Proof. intros E. unfold update. now rewrite E. Qed.

Lemma update_expired (p : Particle) (g : R) :
  expired (advance p) = true -> update p g = reset g.
Proof. intros E. unfold update. now rewrite E. Qed.

Lemma reset_inv (g : R) : Inv (fst (reset g)).
Proof.
  unfold reset. draws. cbv beta iota.
  destruct (js_index_random colors r3 ltac:(discriminate) (proj1 Hr3) (proj2 Hr3)) as (c & Hc & Hin).
  rewrite Hc. unfold Inv; simpl. unfold radius.
  repeat split; try lra. exists c. auto.
Qed.

Lemma new_Particle_inv (g : R) : Inv (fst (new_Particle g)).
Proof.
  unfold new_Particle. pose proof (reset_inv g) as Hp.
  destruct (reset g) as [p g1]. simpl in Hp. draws. simpl.
  unfold Inv in *; simpl. unfold radius.
  destruct Hp as (Ho1 & Ho2 & Hs1 & Hs2 & Hf1 & Hf2 & _ & _ & Hz1 & Hz2 & Hc).
  assert (fadeSpeed p * (r0 * 150) <= fadeSpeed p * 150) by nra.
  repeat split; try lra; try nra; assumption.
Qed.

(** The distance budget bounds the distance. *)
Lemma inv_distance_lt (p : Particle) : Inv p -> distance p < 278.
Proof.
  unfold Inv. intros (Ho & _ & Hs & _ & Hf & _ & _ & Hb & _). nra.
Qed.

(** When [update] does not reset, the distance budget is unchanged. *)
Lemma advance_budget (p : Particle) :
  fadeSpeed (advance p) * distance (advance p) + speed (advance p) * opacity (advance p)
  == fadeSpeed p * distance p + speed p * opacity p.
Proof. simpl. ring. Qed.

Lemma update_inv (p : Particle) (g : R) : Inv p -> Inv (fst (update p g)).
Proof.
  intros Hp. unfold update. destruct (expired (advance p)) eqn:E; [apply reset_inv|].
  unfold expired in E. apply orb_false_iff in E as [E1 E2]. qbool.
  pose proof (advance_budget p) as Hb. unfold Inv in *. simpl in *.
  destruct Hp as (Ho1 & Ho2 & Hs1 & Hs2 & Hf1 & Hf2 & Hd & Hbud & Hz1 & Hz2 & Hc).
  repeat split; try lra; assumption.
Qed.

Lemma update_draw_all_inv (ps : list Particle) (g : R) (c : context) ps' g' c' :
  update_draw_all ps g c = (ps', g', c') ->
  Forall Inv ps -> Forall Inv ps' /\ List.length ps' = List.length ps.
Proof.
  revert g c ps' g' c'. induction ps as [|p ps IH]; simpl; intros g c ps' g' c' Heq Hall.
  - injection Heq as <- <- <-. auto.
  - inversion Hall as [|? ? Hp Hps]; subst.
    pose proof (update_inv p g Hp) as Hp'.
    destruct (update p g) as [p1 g1] eqn:Eu. simpl in Hp'.
    destruct (update_draw_all ps g1 (draw p1 c)) as [[rest g2] c2] eqn:Er.
    injection Heq as <- <- <-. destruct (IH _ _ _ _ _ Er Hps) as [Hr Hl].
    simpl. auto.
Qed.

Lemma animateParticles_inv (w : @world R) :
  Forall Inv (particles w) ->
  Forall Inv (particles (animateParticles w)) /\
  List.length (particles (animateParticles w)) = List.length (particles w) /\
  frames (animateParticles w) = frames w ++ [tt].
Proof.
  intros Hw. unfold animateParticles.
  destruct (update_draw_all _ _ _) as [[ps g] c] eqn:E.
  destruct (update_draw_all_inv _ _ _ _ _ _ E Hw). simpl. auto.
Qed.

Lemma create_particles_inv (n : nat) (g : R) :
  Forall Inv (fst (create_particles n g)) /\ List.length (fst (create_particles n g)) = n.
Proof.
  revert g. induction n as [|n IH]; intros g; simpl; [auto|].
  pose proof (new_Particle_inv g) as Hp. destruct (new_Particle g) as [p g1].
  specialize (IH g1). destruct (create_particles n g1) as [ps g2]. simpl in *.
  destruct IH. auto.
Qed.

(** The invariant of the whole animation: one pending frame callback,
    60 particles, each satisfying [Inv]. *)
Definition world_ok (w : @world R) : Prop :=
  frames w = [tt] /\ List.length (particles w) = particleCount /\ Forall Inv (particles w).

Lemma init_ok (g : R) : world_ok (init g).
Proof.
  unfold init. pose proof (create_particles_inv particleCount g) as [Hi Hl].
  destruct (create_particles particleCount g) as [ps g1]. simpl in *.
  destruct (animateParticles_inv (World ps g1 initial_context []) Hi) as (H1 & H2 & H3).
  unfold world_ok. simpl in *. rewrite H3, H2. auto.
Qed.

Lemma frame_ok (w : @world R) : world_ok w -> world_ok (frame w).
Proof.
  unfold world_ok, frame. intros (Hf & Hl & Hi). rewrite Hf. simpl.
  destruct (animateParticles_inv (World (particles w) (rng w) (ctx w) []) Hi) as (H1 & H2 & H3).
  simpl in *. rewrite H3, H2. auto.
Qed.

End WithRandom.

End CanvasProps.

Module CanvasClaims.
Import Canvas CanvasProps.

(** Number of calls of [update] until one takes the reset branch; on the
    other branch [update] is [advance] ([update_fresh]). *)
Fixpoint updates_until_reset (fuel : nat) (p : Particle) : option nat :=
  match fuel with
  | O => None
  | S k => if expired (advance p) then Some 1%nat
           else option_map S (updates_until_reset k (advance p))
  end.

(** The circles one frame paints, as the code orders the calls: each
    fill uses the shadow left by the previous particle's [draw]. *)
Definition glow (p : Particle) : css_color := Rgba (color p) (1 # 2).

Fixpoint painted_spec `{Trig} (blur : Q) (sh : css_color) (ps : list Particle) : list circle :=
  match ps with
  | [] => []
  | p :: rest =>
      Circle (centerX + Math_cos (angle p) * distance p)
             (centerY + Math_sin (angle p) * distance p)
             (size p) (Rgba (color p) (opacity p)) blur sh
      :: painted_spec 10 (glow p) rest
  end.

Section Claims.
Context {R : Type} `{Random R} `{Trig}.

Lemma run_frames_ok (n : nat) (w : @world R) : world_ok w -> world_ok (run_frames n w).
Proof. revert w. induction n as [|n IH]; intros w Hw; [exact Hw|]. apply IH, frame_ok, Hw. Qed.

Lemma inv_bounds (p : Particle) :
  Inv p -> 0 < opacity p <= 1 /\ 0 <= distance p <= radius * 2.
Proof.
  intros Hp. pose proof (inv_distance_lt p Hp). unfold Inv, radius in *. lra.
Qed.

Lemma updates_until_reset_S (k : nat) (p : Particle) :
  updates_until_reset (S k) p =
  if expired (advance p) then Some 1%nat else option_map S (updates_until_reset k (advance p)).
Proof. reflexivity. Qed.

Lemma reset_within (n : nat) (p : Particle) :
  0 < fadeSpeed p -> opacity p <= (inject_Z (Z.of_nat n) + 1) * fadeSpeed p ->
  exists k, (1 <= k <= S n)%nat /\ updates_until_reset (S n) p = Some k.
Proof.
  revert p. induction n as [|n IH]; intros p Hf Ho; rewrite updates_until_reset_S;
    destruct (expired (advance p)) eqn:E; try (exists 1%nat; split; [lia | reflexivity]);
    unfold expired in E; apply orb_false_iff in E as [E _]; qbool; simpl in E.
  - change (inject_Z (Z.of_nat 0)) with 0 in Ho. lra.
  - rewrite Nat2Z.inj_succ, <- Z.add_1_r, inject_Z_plus in Ho. change (inject_Z 1) with 1 in Ho.
    destruct (IH (advance p)) as (k & Hk & Hr); [simpl; lra | simpl; lra |].
    exists (S k). rewrite Hr. split; [lia | reflexivity].
Qed.

Lemma update_draw_all_painted (ps : list Particle) (g : R) (c : context) ps' g' c' :
  update_draw_all ps g c = (ps', g', c') ->
  painted c' = painted c ++ painted_spec (shadowBlur c) (shadowColor c) ps'.
Proof.
  revert g c ps' g' c'. induction ps as [|p ps IH]; simpl; intros g c ps' g' c' Heq.
  - injection Heq as <- <- <-. simpl. now rewrite app_nil_r.
  - destruct (update p g) as [p1 g1].
    destruct (update_draw_all ps g1 (draw p1 c)) as [[rest g2] c2] eqn:Er.
    injection Heq as <- <- <-. rewrite (IH _ _ _ _ _ Er). simpl.
    now rewrite <- app_assoc.
Qed.

Lemma painted_spec_nth (ps : list Particle) (i : nat) (p q : Particle) (b : Q) (s : css_color) :
  nth_error ps i = Some p -> nth_error ps (S i) = Some q ->
  nth_error (painted_spec b s ps) (S i) =
  Some (Circle (centerX + Math_cos (angle q) * distance q)
               (centerY + Math_sin (angle q) * distance q)
               (size q) (Rgba (color q) (opacity q)) 10 (glow p)).
Proof.
  revert i b s. induction ps as [|x ps IH]; intros i b s Hp Hq; [destruct i; discriminate|].
  destruct i as [|i].
  - simpl in *. injection Hp as <-. destruct ps as [|y ps]; [discriminate|].
    simpl in *. now injection Hq as <-.
  - simpl. apply IH; assumption.
Qed.

(** C1: From script load on, after any number of rendered frames the
    animation still has exactly one pending frame callback (the loop never
    stops), still holds 60 particles, and every particle satisfies the
    invariant [Inv]; in particular its opacity is in (0, 1] and its
    distance from the center in [0, 2 * radius]. *)
Theorem animation_invariant (g : R) (n : nat) :
  let w := run_frames n (init g) in
  frames w = [tt] /\ List.length (particles w) = particleCount /\
  Forall (fun p => Inv p /\ (0 < opacity p <= 1 /\ 0 <= distance p <= radius * 2))
         (particles w).
Proof.
  simpl. destruct (run_frames_ok n (init g) (init_ok g)) as (Hf & Hl & Hi).
  repeat split; try assumption.
  eapply Forall_impl; [|exact Hi]. intros p Hp. split; [exact Hp | apply inv_bounds, Hp].
Qed.

(** C2: For a particle satisfying the invariant, [update] resets it
    exactly when its opacity falls to 0 or below: the test
    [distance > radius * 2] of the code never decides (the distance stays
    below 278). *)
Theorem distance_guard_unreachable (p : Particle) (g : R) :
  Inv p ->
  update p g = if Qle_bool (opacity p - fadeSpeed p) 0 then reset g else (advance p, g).
Proof.
  intros Hp. unfold update, expired. simpl opacity.
  destruct (Qle_bool (opacity p - fadeSpeed p) 0) eqn:E; [reflexivity|]. qbool.
  replace (Qltb (radius * 2) (distance (advance p))) with false; [reflexivity|].
  symmetry. apply Qltb_false. unfold Inv, radius in *. simpl.
  destruct Hp as (Ho1 & Ho2 & Hs1 & Hs2 & Hf1 & Hf2 & Hd & Hb & _). nra.
Qed.

(** C3: A particle satisfying the invariant is reset by one of its next
    160 calls of [update]: [updates_until_reset] reaches the reset branch
    within that fuel. *)
Theorem reset_within_160 (p : Particle) :
  Inv p -> exists k, (1 <= k <= 160)%nat /\ updates_until_reset 160 p = Some k.
Proof.
  intros Hp. apply (reset_within 159 p).
  - unfold Inv in Hp. lra.
  - change (inject_Z (Z.of_nat 159) + 1) with (160 # 1). unfold Inv in Hp. lra.
Qed.

(** C4: Within a frame, the circle of particle [i+1] is painted with its
    own fill color but with the glow ([shadowBlur] 10, [shadowColor]) of
    particle [i]: [draw] sets the shadow after [fill], so each glow is
    applied to the next particle, not to its own. *)
Theorem glow_lags_one_particle (w : @world R) (i : nat) (p q : Particle) :
  nth_error (particles (animateParticles w)) i = Some p ->
  nth_error (particles (animateParticles w)) (S i) = Some q ->
  exists cq, nth_error (painted (ctx (animateParticles w))) (S i) = Some cq /\
    c_fill cq = Rgba (color q) (opacity q) /\ c_shadowBlur cq = 10 /\ c_shadowColor cq = glow p.
Proof.
  unfold animateParticles. destruct (update_draw_all _ _ _) as [[ps g] c] eqn:E.
  cbn [particles ctx]. intros Hp Hq. rewrite (update_draw_all_painted _ _ _ _ _ _ E).
  cbn [painted clearRect app].
  rewrite (painted_spec_nth _ _ _ _ _ _ Hp Hq). eexists. repeat split.
Qed.

End Claims.

End CanvasClaims.

Module CanvasWitnesses.
Import Canvas CanvasProps CanvasClaims.

Definition p_seed7 : Particle := fst (reset (Lcg 7)).

Lemma p_seed7_inv : inv_b p_seed7 = true.
Proof. vm_compute. reflexivity. Qed.

Lemma distance_guard_unreachable_witness :
  Inv p_seed7 /\
  update p_seed7 (Lcg 3) =
  (if Qle_bool (opacity p_seed7 - fadeSpeed p_seed7) 0 then reset (Lcg 3) else (advance p_seed7, Lcg 3)).
Proof.
  split; [apply inv_b_sound; vm_compute; reflexivity|].
  apply distance_guard_unreachable. apply inv_b_sound. vm_compute. reflexivity.
Defined.

Lemma reset_within_160_witness :
  Inv p_seed7 /\ exists k, (1 <= k <= 160)%nat /\ updates_until_reset 160 p_seed7 = Some k.
Proof.
  split; [apply inv_b_sound; vm_compute; reflexivity|].
  apply reset_within_160. apply inv_b_sound. vm_compute. reflexivity.
Defined.

Definition w_seed42 : world := animateParticles (init (Lcg 42)).

Definition particle_of (w : @world lcg) (i : nat) : Particle :=
  nth i (particles w) (MkParticle 0 0 0 0 0 0 None).

(** On a concrete frame, circle 2 carries the glow of particle 1, which
    differs from the glow of particle 2 it belongs to. *)
Lemma glow_lags_one_particle_witness :
  exists cq, nth_error (painted (ctx (animateParticles w_seed42))) 2 = Some cq /\
    c_shadowColor cq = glow (particle_of (animateParticles w_seed42) 1) /\
    c_shadowColor cq <> glow (particle_of (animateParticles w_seed42) 2).
Proof.
  destruct (glow_lags_one_particle w_seed42 1 (particle_of (animateParticles w_seed42) 1)
              (particle_of (animateParticles w_seed42) 2)) as (cq & H1 & _ & _ & H4);
    [vm_compute; reflexivity | vm_compute; reflexivity |].
  exists cq. split; [exact H1|]. split; [exact H4|]. rewrite H4. vm_compute. congruence.
Defined.

End CanvasWitnesses.
