(* ===== verification/Konami.v ===== *)
(** * The Konami code easter egg (script.js 346-371)

  Module [Konami] models the [keydown] listener: the global buffer
  [konamiCode] gets the key appended and is cut to its last 10 entries
  with [slice(-10)]; when [konamiCode.join(',')] equals
  [konamiPattern.join(',')], [document.body.style.animation] is set to
  the rainbow animation and a 5000 ms timeout clears it.  The timeout
  goes through the timer queue of [Host]; a key session is a list of
  time-stamped keys, timers due at or before a key's time firing before
  it.  [KonamiProps] shows that the buffer is the last 10 keys of the
  history, that for keys without commas the join test is list equality,
  and the facts about the timer queue behind the claims: timer ids stay
  distinct and below the next id ([unique_in], [ids_below]), and no
  [keydown] clears a pending timer ([keydown_keeps_timer]).
  [KonamiClaims] shows the join test is not list equality for keys that
  carry commas, and that a second trigger within 5000 ms does not
  extend the effect: the first trigger's timer ends it at its
  deadline. *)

From Stdlib Require Import List String Ascii Lia ZArith Bool.
From S2P Require Import Prelude Host Shared.
Import ListNotations.
Open Scope string_scope.

Module Konami.

Definition konamiPattern : list string :=
  ["ArrowUp"; "ArrowUp"; "ArrowDown"; "ArrowDown"; "ArrowLeft"; "ArrowRight";
   "ArrowLeft"; "ArrowRight"; "b"; "a"].

Definition rainbow : string := "rainbow 2s linear infinite".

(** The page state the listener touches: the buffer and the body's
    inline [animation] style (initially empty). *)
Record state := St { konamiCode : list string; body_animation : string }.

Definition initial : state := St [] EmptyString.

(** The callbacks this component gives to [setTimeout]. *)
Inductive task := ClearAnimation.

Section Shared.
(** [lift] turns the callback into one of the page's timer queue ([Page]). *)
Context {U : Type} (lift : task -> U).

Definition run_task_at (t : task) (st : state * timers U) : state * timers U :=
  let (s, c) := st in
  match t with
  | ClearAnimation => (St (konamiCode s) EmptyString, c)
  end.

(** The [keydown] listener. *)
Definition keydown_at (key : string) (st : state * timers U) : state * timers U :=
  let (s, c) := st in
  let code := js_slice_last 10 (konamiCode s ++ [key]) in
  if String.eqb (js_join "," code) (js_join "," konamiPattern) then
    let (_, c') := setTimeout (lift ClearAnimation) 5000 c in
    (St code rainbow, c')
  else (St code (body_animation s), c).

End Shared.

(** The component on a queue of its own callbacks. *)
Definition run_task := @run_task_at task.
Definition keydown := keydown_at (fun t : task => t).

(** Let the clock reach [t]; no task of this component schedules a timer,
    so one firing per pending timer is enough fuel. *)
Definition tick (t : Z) (st : state * timers task) : state * timers task :=
  advance_to run_task (S (List.length (queue (snd st)))) t st.

(** A session of key presses [(time, key)], in time order. *)
Fixpoint session (evs : list (Z * string)) (st : state * timers task) : state * timers task :=
  match evs with
  | [] => st
  | (t, k) :: rest => session rest (keydown k (tick t st))
  end.

End Konami.

(** ** Splitting at commas: the left inverse of [join(',')] *)

Module KonamiProps.
Import Konami.

Fixpoint has_comma (s : string) : bool :=
  match s with
  | EmptyString => false
  | String a s' => Ascii.eqb a "," || has_comma s'
  end.

Definition comma_free (s : string) : Prop := has_comma s = false.

Fixpoint split_comma (s : string) : list string :=
  match s with
  | EmptyString => [EmptyString]
  | String a s' =>
      if Ascii.eqb a "," then EmptyString :: split_comma s'
      else match split_comma s' with
           | [] => [String a EmptyString]
           | x :: r => String a x :: r
           end
  end.

Lemma split_comma_free (x : string) : comma_free x -> split_comma x = [x].
Proof.
  unfold comma_free. induction x as [|a x IH]; simpl; [reflexivity|].
  intros H. apply orb_false_iff in H as [Ha Hx]. rewrite Ha, (IH Hx). reflexivity.
Qed.

Lemma split_comma_app (x y : string) :
  comma_free x -> split_comma (x ++ String "," y) = x :: split_comma y.
Proof.
  unfold comma_free. induction x as [|a x IH]; simpl; [reflexivity|].
  intros H. apply orb_false_iff in H as [Ha Hx]. rewrite Ha, (IH Hx). reflexivity.
Qed.

Lemma split_join (l : list string) :
  l <> [] -> Forall comma_free l -> split_comma (js_join "," l) = l.
Proof.
  induction l as [|x [|y r] IH]; intros Hne Hall; [congruence| |].
  - inversion Hall; subst. simpl. now apply split_comma_free.
  - inversion Hall as [|? ? Hx Hr]; subst.
    change (js_join "," (x :: y :: r)) with (x ++ String "," (js_join "," (y :: r))).
    rewrite split_comma_app by exact Hx. rewrite IH; [reflexivity | discriminate | exact Hr].
Qed.

Lemma pattern_comma_free : Forall comma_free konamiPattern.
Proof. repeat constructor. Qed.

(** For buffers of comma-free keys, the join test is list equality. *)
Lemma join_pattern_iff (w : list string) :
  Forall comma_free w ->
  js_join "," w = js_join "," konamiPattern <-> w = konamiPattern.
Proof.
  intros Hw. split; [|intros ->; reflexivity].
  intros Hj. destruct w as [|x w]; [discriminate Hj|].
  rewrite <- (split_join (x :: w)), <- (split_join konamiPattern); try discriminate;
    try assumption; [now rewrite Hj | apply pattern_comma_free].
Qed.

(** ** Timers *)

Lemma advance_keeps_code (fuel : nat) (t : Z) (st : state * timers task) :
  konamiCode (fst (advance_to run_task fuel t st)) = konamiCode (fst st).
Proof.
  revert st. induction fuel as [|fuel IH]; intros [s c]; [reflexivity|]. simpl.
  destruct (earliest (queue c)) as [tm|]; [|reflexivity].
  destruct (t_due tm <=? t)%Z; [|reflexivity].
  rewrite IH. destruct (t_task tm). reflexivity.
Qed.

Lemma advance_keeps_cleared (fuel : nat) (t : Z) (st : state * timers task) :
  body_animation (fst st) = EmptyString -> body_animation (fst (advance_to run_task fuel t st)) = EmptyString.
Proof.
  revert st. induction fuel as [|fuel IH]; intros [s c] H; [exact H|]. simpl.
  destruct (earliest (queue c)) as [tm|]; [|exact H].
  destruct (t_due tm <=? t)%Z; [|exact H].
  apply IH. destruct (t_task tm). reflexivity.
Qed.

Lemma js_join_app (a b : list string) :
  a <> [] -> b <> [] -> js_join "," (app a b) = (js_join "," a ++ "," ++ js_join "," b)%string.
Proof.
  intros Ha Hb. induction a as [|x [|y a] IH]; [congruence| |].
  - cbn [app]. destruct b; [congruence|]. reflexivity.
  - change (js_join "," (app (x :: y :: a) b)) with (x ++ "," ++ js_join "," (app (y :: a) b))%string.
    rewrite IH by discriminate. change (js_join "," (x :: y :: a)) with (x ++ "," ++ js_join "," (y :: a))%string.
    now rewrite !str_app_assoc.
Qed.

(** [join(',')] of the joined groups is the join of their concatenation. *)
Lemma js_join_concat (groups : list (list string)) :
  Forall (fun g => g <> []) groups -> js_join "," (map (js_join ",") groups) = js_join "," (List.concat groups).
Proof.
  induction groups as [|g [|g' gs] IH]; intros Hne; [reflexivity| |].
  - cbn. now rewrite app_nil_r.
  - inversion Hne as [|? ? Hg Hr]; subst. inversion Hr as [|? ? Hg' _]; subst.
    change (js_join "," (map (js_join ",") (g :: g' :: gs)))
      with (js_join "," g ++ "," ++ js_join "," (map (js_join ",") (g' :: gs)))%string.
    rewrite IH by exact Hr. cbn [List.concat]. rewrite (js_join_app g); [reflexivity | exact Hg |].
    destruct g'; [congruence | discriminate].
Qed.

Lemma length_concat_ge (groups : list (list string)) :
  Forall (fun g => g <> []) groups -> (List.length groups <= List.length (List.concat groups))%nat.
Proof.
  induction 1 as [|g gs Hg _ IH]; [reflexivity|]. cbn [List.concat]. rewrite length_app.
  destruct g; [congruence|]. cbn. lia.
Qed.

Lemma length_concat_gt (groups : list (list string)) (g : list string) :
  Forall (fun g => g <> []) groups -> In g groups -> (2 <= List.length g)%nat ->
  (List.length groups < List.length (List.concat groups))%nat.
Proof.
  intros Hne. induction Hne as [|g' gs Hg' Hgs IH]; intros Hg H2; [destruct Hg|].
  cbn [List.concat]. rewrite length_app. destruct Hg as [<-|Hg].
  - pose proof (length_concat_ge gs Hgs). cbn. lia.
  - specialize (IH Hg H2). destruct g'; [congruence|]. cbn. lia.
Qed.

Lemma keydown_triggers (k : string) (s : state) (c : timers task) :
  js_join "," (js_slice_last 10 (konamiCode s ++ [k])) = js_join "," konamiPattern ->
  keydown k (s, c) = (St (js_slice_last 10 (konamiCode s ++ [k])) rainbow, snd (setTimeout ClearAnimation 5000 c)).
Proof. intros H. unfold keydown, keydown_at. rewrite H, String.eqb_refl. reflexivity. Qed.

Lemma keydown_code (k : string) (st : state * timers task) :
  konamiCode (fst (keydown k st)) = js_slice_last 10 (konamiCode (fst st) ++ [k]).
Proof.
  destruct st as [s c]. unfold keydown, keydown_at.
  destruct (String.eqb _ _); [destruct (setTimeout _ _ _)|]; reflexivity.
Qed.

(** [tm] is pending, its id is below [next_id] and no other pending timer
    has it. *)
Definition unique_in (tm : timer task) (c : timers task) : Prop :=
  In tm (queue c) /\ (t_id tm < next_id c)%nat /\ forall x, In x (queue c) -> t_id x = t_id tm -> x = tm.

Definition ids_below (c : timers task) : Prop := Forall (fun tm => (t_id tm < next_id c)%nat) (queue c).

Lemma run_task_timers (x : task) (s : state) (c : timers task) : snd (run_task x (s, c)) = c.
Proof. destruct x. reflexivity. Qed.

(** Letting the clock reach [t] keeps a pending timer due after [t]. *)
Lemma advance_keeps_timer (fuel : nat) (t : Z) (st : state * timers task) (tm : timer task) :
  unique_in tm (snd st) -> (t < t_due tm)%Z -> unique_in tm (snd (advance_to run_task fuel t st)).
Proof.
  revert st. induction fuel as [|fuel IH]; intros [s c] (Hin & Hid & Hu) Hd; [exact (conj Hin (conj Hid Hu))|].
  cbn [advance_to]. destruct (earliest (queue c)) as [tm'|] eqn:E; [|exact (conj Hin (conj Hid Hu))].
  destruct (Z.leb_spec (t_due tm') t) as [Hle|]; [|exact (conj Hin (conj Hid Hu))].
  apply IH; [|exact Hd]. rewrite run_task_timers. cbn [queue next_id].
  assert (Hne : t_id tm' <> t_id tm) by (intros Heq; pose proof (Hu tm' (earliest_in _ _ E) Heq); subst; lia).
  split; [|split; [exact Hid|]].
  - apply filter_In. split; [exact Hin|]. apply negb_true_iff, Nat.eqb_neq. congruence.
  - intros x Hx Heq. apply filter_In in Hx as [Hx _]. exact (Hu x Hx Heq).
Qed.

Lemma advance_ids_below (fuel : nat) (t : Z) (st : state * timers task) :
  ids_below (snd st) -> ids_below (snd (advance_to run_task fuel t st)).
Proof.
  revert st. induction fuel as [|fuel IH]; intros [s c] H; [exact H|].
  cbn [advance_to]. destruct (earliest (queue c)) as [tm'|]; [|exact H].
  destruct (t_due tm' <=? t)%Z; [|exact H].
  apply IH. rewrite run_task_timers. unfold ids_below in *. cbn [queue next_id].
  apply Forall_forall. intros x Hx. apply filter_In in Hx as [Hx _]. exact (proj1 (Forall_forall _ _) H x Hx).
Qed.

Lemma keydown_keeps_timer (k : string) (st : state * timers task) (tm : timer task) :
  unique_in tm (snd st) -> unique_in tm (snd (keydown k st)).
Proof.
  destruct st as [s c]. intros (Hin & Hid & Hu). unfold keydown, keydown_at.
  cbn [snd] in Hin, Hid, Hu. destruct (String.eqb _ _); [|exact (conj Hin (conj Hid Hu))].
  unfold unique_in. cbn [snd setTimeout queue next_id].
  split; [apply in_or_app; now left|]. split; [lia|].
  intros x Hx Heq. apply in_app_or in Hx as [Hx|[<-|[]]]; [exact (Hu x Hx Heq)|]. cbn in Heq. lia.
Qed.

(** After [tick t] the clock reads [t] when it read at most [t]. *)
Lemma tick_now (t : Z) (st : state * timers task) : (now (snd st) <= t)%Z -> now (snd (tick t st)) = t.
Proof.
  intros H. unfold tick.
  pose proof (advance_settles_nosched run_task t st (fun x s c => f_equal queue (run_task_timers x s c))) as [H1 _].
  pose proof (advance_now_le run_task (S (List.length (queue (snd st)))) t st
                (fun x s c => f_equal now (run_task_timers x s c)) H). lia.
Qed.

(** Once the clock reaches the due time of a pending timer, the body
    animation is empty. *)
Lemma tick_clears_due (st : state * timers task) (t : Z) (tm : timer task) :
  In tm (queue (snd st)) -> (t_due tm <= t)%Z -> body_animation (fst (tick t st)) = EmptyString.
Proof.
  destruct st as [s c]. simpl. intros Hin Hdue. unfold tick. simpl.
  destruct (earliest (queue c)) as [tm'|] eqn:E.
  - pose proof (earliest_min _ _ E tm Hin) as Hmin.
    destruct (Z.leb_spec (t_due tm') t); [|lia].
    apply advance_keeps_cleared. destruct (t_task tm'). reflexivity.
  - apply earliest_none in E. rewrite E in Hin. contradiction.
Qed.

Lemma session_keeps_timer (evs : list (Z * string)) (st : state * timers task) (tm : timer task) :
  unique_in tm (snd st) -> Forall (fun e => (fst e < t_due tm)%Z) evs -> unique_in tm (snd (session evs st)).
Proof.
  revert st. induction evs as [|[t k] evs IH]; intros st Hu Hall; [exact Hu|].
  inversion Hall as [|? ? Ht Hr]; subst. cbn [session]. apply IH; [|exact Hr].
  apply keydown_keeps_timer. unfold tick. apply advance_keeps_timer; [exact Hu | exact Ht].
Qed.

Lemma map_snd_combine {A B : Type} (l : list A) (m : list B) :
  List.length l = List.length m -> map snd (combine l m) = m.
Proof.
  revert m. induction l as [|x l IH]; intros [|y m] H; try discriminate; [reflexivity|].
  cbn. f_equal. apply IH. now injection H.
Qed.

Lemma session_snoc (evs : list (Z * string)) (t : Z) (k : string) (st : state * timers task) :
  session (evs ++ [(t, k)]) st = keydown k (tick t (session evs st)).
Proof. revert st. induction evs as [|[t' k'] evs IH]; intros st; [reflexivity|]. apply IH. Qed.

Lemma session_code (evs : list (Z * string)) (st : state * timers task) :
  (List.length (konamiCode (fst st)) <= 10)%nat ->
  konamiCode (fst (session evs st)) = js_slice_last 10 (konamiCode (fst st) ++ map snd evs).
Proof.
  revert st. induction evs as [|[t k] evs IH]; intros st Hl.
  - cbn. rewrite app_nil_r. symmetry. now apply js_slice_last_all.
  - cbn [session]. rewrite IH.
    + rewrite keydown_code. unfold tick. rewrite advance_keeps_code, js_slice_last_app, <- app_assoc. reflexivity.
    + rewrite keydown_code, js_slice_last_length. lia.
Qed.

End KonamiProps.

Module KonamiClaims.
Import Konami KonamiProps.

Lemma session_cons (t : Z) (k : string) (evs : list (Z * string)) (st : state * timers task) :
  session ((t, k) :: evs) st = session evs (keydown k (tick t st)).
Proof. reflexivity. Qed.

Lemma session_window_cons (evs : list (Z * string)) (e : Z * string) (st : state * timers task) :
  konamiCode (fst (session (e :: evs) st)) =
  js_slice_last 10 (konamiCode (fst st) ++ map snd (e :: evs)).
Proof.
  revert e st. induction evs as [|e' evs IH]; intros [t k] st; rewrite session_cons.
  - cbn [session]. rewrite keydown_code. unfold tick. now rewrite advance_keeps_code.
  - rewrite IH, keydown_code. unfold tick. rewrite advance_keeps_code.
    rewrite js_slice_last_app, <- app_assoc. reflexivity.
Qed.

(** C5: From the initial page, the buffer [konamiCode] after a session
    is the last 10 keys pressed: the append-then-[slice(-10)] update
    implements the rolling window of the key history. *)
Theorem session_window (evs : list (Z * string)) (c : timers task) :
  konamiCode (fst (session evs (initial, c))) = js_slice_last 10 (map snd evs).
Proof. destruct evs as [|e evs]; [reflexivity|]. apply session_window_cons. Qed.

(** C6: When the buffer and the new key contain no comma, [keydown]
    starts the rainbow effect and schedules its 5000 ms clear timer
    exactly when the last 10 keys equal the Konami pattern; otherwise it
    only updates the buffer. *)
Theorem keydown_spec (s : state) (c : timers task) (k : string) :
  Forall comma_free (konamiCode s ++ [k]) ->
  keydown k (s, c) =
  (let w := js_slice_last 10 (konamiCode s ++ [k]) in
   if list_eq_dec string_dec w konamiPattern
   then (St w rainbow, snd (setTimeout ClearAnimation 5000 c))
   else (St w (body_animation s), c)).
Proof.
  intros Hall. pose proof (join_pattern_iff _ (Forall_js_slice_last _ 10 _ Hall)) as Hiff.
  unfold keydown, keydown_at. cbv zeta.
  destruct (String.eqb_spec (js_join "," (js_slice_last 10 (konamiCode s ++ [k])))
                            (js_join "," konamiPattern)) as [Hj|Hj];
    destruct (list_eq_dec string_dec _ konamiPattern) as [Hw|Hw]; try tauto; reflexivity.
Qed.

(** C7: With keys that contain commas the join test is not list
    equality.  Cut the Konami pattern into consecutive non-empty groups
    and press one key per group, its text the group joined with commas
    (a synthetic event can carry any key string): from the initial page
    the last key starts the rainbow effect, although the buffer holds the
    joined keys, which is not the pattern as soon as one key carries a
    comma. *)
Theorem comma_key_false_positive (groups : list (list string)) (ts : list Z) (c : timers task) :
  List.concat groups = konamiPattern -> Forall (fun g => g <> []) groups -> List.length ts = List.length groups ->
  let st := fst (session (combine ts (map (js_join ",") groups)) (initial, c)) in
  body_animation st = rainbow /\ konamiCode st = map (js_join ",") groups /\
  ((exists g, In g groups /\ (2 <= List.length g)%nat) -> konamiCode st <> konamiPattern).
Proof.
  intros Hc Hne Hts. cbv zeta.
  set (keys := map (js_join ",") groups).
  assert (Hlen : (List.length keys <= 10)%nat)
    by (unfold keys; rewrite length_map; pose proof (length_concat_ge groups Hne) as H; rewrite Hc in H; exact H).
  assert (Hsnd : map snd (combine ts keys) = keys)
    by (apply map_snd_combine; unfold keys; rewrite length_map; lia).
  assert (Hcode : konamiCode (fst (session (combine ts keys) (initial, c))) = keys)
    by (rewrite session_code by (cbn; lia); cbn [fst konamiCode initial app]; rewrite Hsnd; now apply js_slice_last_all).
  assert (Hnil : combine ts keys <> []).
  { destruct groups as [|g gs]; [discriminate Hc|]. destruct ts; [discriminate Hts|]. discriminate. }
  split; [|split; [exact Hcode|]].
  - destruct (exists_last Hnil) as (evs & [t k] & He). rewrite He in Hsnd |- *.
    rewrite session_snoc, map_app in *. cbn [map snd] in Hsnd.
    destruct (tick t (session evs (initial, c))) as [s c'] eqn:Et.
    assert (Hs : js_slice_last 10 (konamiCode s ++ [k]) = keys).
    { replace (konamiCode s) with (konamiCode (fst (session evs (initial, c))))
        by (change s with (fst (s, c')); rewrite <- Et; unfold tick; now rewrite advance_keeps_code).
      rewrite session_code by (cbn; lia). cbn [fst konamiCode initial app].
      rewrite js_slice_last_app, Hsnd. now apply js_slice_last_all. }
    rewrite keydown_triggers; [reflexivity|]. rewrite Hs. unfold keys. rewrite js_join_concat, Hc by exact Hne. reflexivity.
  - intros (g & Hg & H2) Heq. rewrite Hcode in Heq.
    pose proof (length_concat_gt groups g Hne Hg H2) as Hl.
    rewrite Hc, <- Heq in Hl. unfold keys in Hl. rewrite length_map in Hl. lia.
Qed.

(** C8: A second trigger within 5000 ms does not extend the effect: if a
    key completes the pattern at time [t1], the effect is over at
    [t1 + 5000], whatever keys come before that time, including ones
    that complete the pattern again (their own timers are still pending
    then).  The first trigger's timer stays pending through any later
    [keydown]: nothing clears it, so it fires at its deadline. *)
Theorem retrigger_cut_short (s : state) (c : timers task) (t1 : Z) (k : string) (evs : list (Z * string)) :
  ids_below c -> (now c <= t1)%Z ->
  js_join "," (js_slice_last 10 (konamiCode s ++ [k])) = js_join "," konamiPattern ->
  Forall (fun e => (fst e < t1 + 5000)%Z) evs ->
  body_animation (fst (tick (t1 + 5000) (session evs (keydown k (tick t1 (s, c)))))) = EmptyString.
Proof.
  intros Hids Hnow Hj Hevs.
  pose proof (tick_now t1 (s, c) Hnow) as Hn. pose proof (advance_ids_below (S (List.length (queue c))) t1 (s, c) Hids) as Hb.
  change (advance_to run_task (S (List.length (queue c))) t1 (s, c)) with (tick t1 (s, c)) in Hb.
  destruct (tick t1 (s, c)) as [s1 c1] eqn:E1. cbn [snd] in Hn, Hb.
  replace (konamiCode s) with (konamiCode s1) in Hj
    by (change s1 with (fst (s1, c1)); rewrite <- E1; unfold tick; now rewrite advance_keeps_code).
  rewrite keydown_triggers by exact Hj.
  set (tm := Timer (next_id c1) (now c1 + Z.max 0 5000) ClearAnimation).
  assert (Hu : unique_in tm (snd (St (js_slice_last 10 (konamiCode s1 ++ [k])) rainbow, snd (setTimeout ClearAnimation 5000 c1)))).
  { unfold unique_in. cbn [snd setTimeout queue next_id].
    split; [apply in_or_app; right; now left|]. split; [cbn; lia|].
    intros x Hx Heq. apply in_app_or in Hx as [Hx|[<-|[]]]; [|reflexivity].
    pose proof (proj1 (Forall_forall _ _) Hb x Hx). unfold tm in Heq. cbn in Heq, H. lia. }
  apply (tick_clears_due _ _ tm); [|unfold tm; cbn; lia].
  apply session_keeps_timer; [exact Hu|].
  apply Forall_forall. intros e He. pose proof (proj1 (Forall_forall _ _) Hevs e He) as H. unfold tm. cbn in *. lia.
Qed.

End KonamiClaims.

Module KonamiWitnesses.
Import Konami KonamiProps KonamiClaims.

Definition twice : list (Z * string) :=
  combine (map Z.of_nat (seq 0 20)) (konamiPattern ++ konamiPattern).

Definition after_twice : state * timers task := session twice (initial, no_timers 0%Z).

Lemma keydown_spec_witness :
  Forall comma_free (konamiCode initial ++ ["ArrowUp"]) /\
  keydown "ArrowUp" (initial, no_timers 0%Z) =
  (let w := js_slice_last 10 (konamiCode initial ++ ["ArrowUp"]) in
   if list_eq_dec string_dec w konamiPattern
   then (St w rainbow, snd (setTimeout ClearAnimation 5000 (no_timers 0%Z)))
   else (St w (body_animation initial), no_timers 0%Z)).
Proof.
  split; [repeat constructor|]. apply keydown_spec. repeat constructor.
Defined.

(** The pattern typed at times 0 to 9 and again at 10 to 19: the first
    timer (due 5009) clears the effect though the second one, due 5019,
    is still pending. *)
Definition first_nine : state * timers task :=
  session (combine (map Z.of_nat (seq 0 9)) (firstn 9 konamiPattern)) (initial, no_timers 0%Z).

Definition again : list (Z * string) := combine (map Z.of_nat (seq 10 10)) konamiPattern.

Lemma retrigger_cut_short_witness :
  In (Timer 2 5019 ClearAnimation) (queue (snd (session again (keydown "a" (tick 9 first_nine))))) /\
  body_animation (fst (tick (9 + 5000) (session again (keydown "a" (tick 9 first_nine))))) = EmptyString.
Proof.
  split; [vm_compute; tauto|].
  apply (retrigger_cut_short (fst first_nine) (snd first_nine) 9 "a" again).
  - vm_compute. constructor.
  - vm_compute. discriminate.
  - vm_compute. reflexivity.
  - vm_compute. repeat constructor.
Defined.

(** The pattern as nine keys, the first ["ArrowUp,ArrowUp"]. *)
Definition comma_groups : list (list string) :=
  [["ArrowUp"; "ArrowUp"]; ["ArrowDown"]; ["ArrowDown"]; ["ArrowLeft"]; ["ArrowRight"];
   ["ArrowLeft"]; ["ArrowRight"]; ["b"]; ["a"]].

Lemma comma_key_false_positive_witness :
  let st := fst (session (combine (map Z.of_nat (seq 0 9)) (map (js_join ",") comma_groups)) (initial, no_timers 0%Z)) in
  body_animation st = rainbow /\ konamiCode st = map (js_join ",") comma_groups /\
  ((exists g, In g comma_groups /\ (2 <= List.length g)%nat) -> konamiCode st <> konamiPattern).
Proof.
  apply comma_key_false_positive; [reflexivity | repeat constructor; discriminate | reflexivity].
Defined.

End KonamiWitnesses.
