(* ===== verification/Scroll.v ===== *)
(** * Navigation, scroll listeners and the scroll throttle
    (script.js 1-32, 84-105, 203-223, 322-337)

  Module [Nav] models the state these handlers share with the page: the
  class lists of [.hamburger], [.nav-menu] and [.navbar] (each possibly
  absent, as the optional chaining of the code allows), the [.nav-link]
  elements with their [href], the [section[id]] elements with their
  layout, the progress bar's inline declarations ([Css.block]), the
  [ticking] flag and the pending animation-frame callbacks.  The scroll event runs the four [scroll]
  listeners in registration order (navbar state, [highlightNavLink],
  progress bar, [updateOnScroll]); a rendered frame runs the callback
  [updateOnScroll] requested.  [document.querySelector] with the
  attribute selector [.nav-link[href*="id"]] is modelled as the first
  link whose [href] contains [id]: an empty [id] matches nothing, and an
  [id] with a double quote, a backslash or a newline is treated as a
  selector syntax error (for a backslash the browser would instead decode
  a CSS escape; such ids are outside the theorems).  An exception thrown
  inside a listener stops that listener only. *)

From Stdlib Require Import QArith Qround Lqa List String Ascii Lia ZArith Bool.
From S2P Require Import Prelude Host Binary64 Css.
Import ListNotations.

Module Nav.

Record link := Link { href : string; link_classes : list string }.

(** A [section[id]] element: its [id] attribute and its layout. *)
Record section := Sec { sec_id : string; offsetTop : Q; offsetHeight : Q }.

(** What the browser reports when a handler reads the scroll position. *)
Record viewport := View { scrollY : Q; scrollHeight : Q; clientHeight : Q }.

(** The callback [updateOnScroll] passes to [requestAnimationFrame]. *)
Inductive raf_task := HighlightAndReset.

Record page := Page {
  hamburger : option (list string);
  navMenu : option (list string);
  navbar : option (list string);
  navLinks : list link;
  sections : list section;
  view : viewport;
  progressBar : Css.block;   (** the progress bar's inline style *)
  ticking : bool;
  raf : list raf_task
}.

(** ** [document.querySelector(`.nav-link[href*="${sectionId}"]`)] *)

Inductive query_result := QFound (j : nat) | QNone | QError.

Definition bad_selector_char (a : ascii) : bool :=
  Ascii.eqb a (ascii_of_nat 34) || Ascii.eqb a (ascii_of_nat 92) || Ascii.eqb a (ascii_of_nat 10).

Fixpoint has_bad_char (s : string) : bool :=
  match s with
  | EmptyString => false
  | String a s' => bad_selector_char a || has_bad_char s'
  end.

Definition contains_sub (sub s : string) : bool :=
  match String.index 0 sub s with Some _ => true | None => false end.

Fixpoint first_match (id : string) (ls : list link) (j : nat) : option nat :=
  match ls with
  | [] => None
  | l :: rest => if contains_sub id (href l) then Some j else first_match id rest (S j)
  end.

Definition query_link (id : string) (ls : list link) : query_result :=
  if has_bad_char id then QError
  else if String.eqb id EmptyString then QNone
  else match first_match id ls 0 with Some j => QFound j | None => QNone end.

(** [el?.classList.op('active')] on the [j]-th link. *)
Definition map_link_classes (f : list string -> list string) (j : nat) (ls : list link) : list link :=
  list_update j (fun l => Link (href l) (f (link_classes l))) ls.

(** ** [highlightNavLink] *)

Definition in_band (y : Q) (s : section) : bool :=
  let sectionTop := offsetTop s - 100 in
  Qltb sectionTop y && Qle_bool y (sectionTop + offsetHeight s).

(** The [forEach] over the sections; [false] when a selector threw, in
    which case the sections after it are not processed. *)
Fixpoint highlight_sections (y : Q) (ss : list section) (ls : list link) : list link * bool :=
  match ss with
  | [] => (ls, true)
  | s :: rest =>
      let op := if in_band y s then ClassList.add "active" else ClassList.remove "active" in
      match query_link (sec_id s) ls with
      | QError => (ls, false)
      | QNone => highlight_sections y rest ls
      | QFound j => highlight_sections y rest (map_link_classes op j ls)
      end
  end.

Definition highlightNavLink (p : page) : page * bool :=
  let (ls, ok) := highlight_sections (scrollY (view p)) (sections p) (navLinks p) in
  (Page (hamburger p) (navMenu p) (navbar p) ls (sections p) (view p)
        (progressBar p) (ticking p) (raf p), ok).

(** ** The other handlers *)

Definition map_opt (f : list string -> list string) (o : option (list string)) :=
  match o with Some c => Some (f c) | None => None end.

(** [hamburger?.addEventListener('click', ...)]: registered only when the
    hamburger exists. *)
Definition click_hamburger (p : page) : page :=
  match hamburger p with
  | None => p
  | Some h =>
      Page (Some (ClassList.toggle "active" h)) (map_opt (ClassList.toggle "active") (navMenu p))
           (navbar p) (navLinks p) (sections p) (view p) (progressBar p) (ticking p) (raf p)
  end.

(** A click on any [.nav-link]. *)
Definition click_link (p : page) : page :=
  Page (map_opt (ClassList.remove "active") (hamburger p))
       (map_opt (ClassList.remove "active") (navMenu p))
       (navbar p) (navLinks p) (sections p) (view p) (progressBar p) (ticking p) (raf p).

(** The navbar scroll listener (26-32). *)
Definition navbar_scroll (p : page) : page :=
  let op := if Qltb 100 (scrollY (view p)) then ClassList.add "scrolled"
            else ClassList.remove "scrolled" in
  Page (hamburger p) (navMenu p) (map_opt op (navbar p)) (navLinks p) (sections p) (view p)
       (progressBar p) (ticking p) (raf p).

(** [windowHeight = scrollHeight - clientHeight] and
    [scrolled = (window.scrollY / windowHeight) * 100], each operation a
    binary64 one. *)
Definition scrolled (v : viewport) : jsnum :=
  let windowHeight := Binary64.sub (JFin (scrollHeight v)) (JFin (clientHeight v)) in
  Binary64.mul (Binary64.div (JFin (scrollY v)) windowHeight) (JFin 100).

(** The progress bar's [style.cssText] (207-216). *)
Definition progressBar_cssText : string :=
"
    position: fixed;
    top: 0;
    left: 0;
    height: 3px;
    background: linear-gradient(135deg, #667eea 0%, #764ba2 100%);
    z-index: 10000;
    transition: width 0.1s ease;
    width: 0%;
".

(** [document.createElement('div')] with that inline style (206-216). *)
Definition create_progressBar : Css.block := Css.parse_cssText progressBar_cssText.

(** The progress bar listener (219-223): [style.width = `${scrolled}%`]. *)
Definition progress_scroll (p : page) : page :=
  Page (hamburger p) (navMenu p) (navbar p) (navLinks p) (sections p) (view p)
       (Css.set_width (Binary64.toString (scrolled (view p)) ++ "%")%string (progressBar p)) (ticking p) (raf p).

(** [updateOnScroll] (327-335). *)
Definition updateOnScroll (p : page) : page :=
  if ticking p then p
  else Page (hamburger p) (navMenu p) (navbar p) (navLinks p) (sections p) (view p)
            (progressBar p) true (raf p ++ [HighlightAndReset]).

(** A scroll to [v]: the listeners in registration order. *)
Definition scroll_event (v : viewport) (p : page) : page :=
  let p0 := Page (hamburger p) (navMenu p) (navbar p) (navLinks p) (sections p) v
                 (progressBar p) (ticking p) (raf p) in
  let p1 := navbar_scroll p0 in
  let p2 := fst (highlightNavLink p1) in
  let p3 := progress_scroll p2 in
  updateOnScroll p3.

(** The frame callback: [highlightNavLink(); ticking = false;] -- the
    reset is skipped when [highlightNavLink] throws. *)
Definition run_raf (t : raf_task) (p : page) : page :=
  match t with
  | HighlightAndReset =>
      let (p1, ok) := highlightNavLink p in
      if ok then
        Page (hamburger p1) (navMenu p1) (navbar p1) (navLinks p1) (sections p1) (view p1)
             (progressBar p1) false (raf p1)
      else p1
  end.

(** A rendered frame: the callbacks requested so far run in order. *)
Definition frame (p : page) : page :=
  let p0 := Page (hamburger p) (navMenu p) (navbar p) (navLinks p) (sections p) (view p)
                 (progressBar p) (ticking p) [] in
  fold_left (fun acc t => run_raf t acc) (raf p) p0.

Inductive event := Scroll (v : viewport) | Frame | ClickHamburger | ClickLink.

Definition step (e : event) (p : page) : page :=
  match e with
  | Scroll v => scroll_event v p
  | Frame => frame p
  | ClickHamburger => click_hamburger p
  | ClickLink => click_link p
  end.

(** The page as the script leaves it after loading. *)
Definition loaded (p : page) : Prop := ticking p = false /\ raf p = [].

Inductive reachable (p0 : page) : page -> Prop :=
| reach_init : reachable p0 p0
| reach_step e p : reachable p0 p -> reachable p0 (step e p).

End Nav.

Module NavProps.
Import Nav.

(** ** [highlightNavLink] only rewrites class lists *)

Lemma hrefs_map_link_classes (f : list string -> list string) (j : nat) (ls : list link) :
  map href (map_link_classes f j ls) = map href ls.
Proof.
  unfold map_link_classes. revert j. induction ls as [|l ls IH]; intros [|j]; simpl; auto.
  now rewrite IH.
Qed.

Lemma first_match_hrefs (id : string) (ls ls' : list link) (k : nat) :
  map href ls = map href ls' -> first_match id ls k = first_match id ls' k.
Proof.
  revert ls' k. induction ls as [|l ls IH]; intros [|l' ls'] k Heq; try discriminate; [reflexivity|].
  simpl in *. injection Heq as Hh Ht. rewrite Hh. now rewrite (IH ls' (S k) Ht).
Qed.

Lemma query_link_map (id : string) (f : list string -> list string) (j : nat) (ls : list link) :
  query_link id (map_link_classes f j ls) = query_link id ls.
Proof.
  unfold query_link. rewrite (first_match_hrefs id _ ls 0); [reflexivity|].
  apply hrefs_map_link_classes.
Qed.

Lemma nth_map_link_classes_eq (f : list string -> list string) (j : nat) (ls : list link) :
  nth_error (map_link_classes f j ls) j =
  option_map (fun l => Link (href l) (f (link_classes l))) (nth_error ls j).
Proof.
  unfold map_link_classes. revert j. induction ls as [|l ls IH]; intros [|j]; simpl; auto.
Qed.

Lemma nth_map_link_classes_ne (f : list string -> list string) (j j' : nat) (ls : list link) :
  j <> j' -> nth_error (map_link_classes f j ls) j' = nth_error ls j'.
Proof.
  unfold map_link_classes. revert j j'. induction ls as [|l ls IH]; intros [|j] [|j'] Hne;
    simpl; auto; try congruence.
Qed.

Lemma highlight_hrefs (y : Q) (ss : list section) (ls : list link) :
  map href (fst (highlight_sections y ss ls)) = map href ls.
Proof.
  revert ls. induction ss as [|s ss IH]; intros ls; simpl; [reflexivity|].
  destruct (query_link (sec_id s) ls); simpl; rewrite ?IH; auto.
  apply hrefs_map_link_classes.
Qed.

(** Sections that do not select link [j] leave it as it is. *)
Lemma highlight_untouched (y : Q) (ss : list section) (ls : list link) (j : nat) :
  (forall s, In s ss -> query_link (sec_id s) ls <> QFound j) ->
  nth_error (fst (highlight_sections y ss ls)) j = nth_error ls j.
Proof.
  revert ls. induction ss as [|s ss IH]; intros ls Hno; simpl; [reflexivity|].
  destruct (query_link (sec_id s) ls) as [j'| |] eqn:Eq; simpl; [| |reflexivity].
  - rewrite IH.
    + apply nth_map_link_classes_ne. intros ->. exact (Hno s (or_introl eq_refl) Eq).
    + intros s' Hs'. rewrite query_link_map. apply Hno. now right.
  - apply IH. intros s' Hs'. apply Hno. now right.
Qed.

Lemma highlight_ok (y : Q) (ss : list section) (ls : list link) :
  Forall (fun s => has_bad_char (sec_id s) = false) ss -> snd (highlight_sections y ss ls) = true.
Proof.
  revert ls. induction ss as [|s ss IH]; intros ls Hall; simpl; [reflexivity|].
  inversion Hall as [|? ? Hs Hss]; subst. unfold query_link at 1. rewrite Hs.
  destruct (String.eqb _ _); [auto|]. destruct (first_match _ _ _); auto.
Qed.

Lemma first_match_nth (id : string) (ls : list link) (k j : nat) :
  first_match id ls k = Some j -> (k <= j)%nat /\ exists l, nth_error ls (j - k) = Some l.
Proof.
  revert k. induction ls as [|l ls IH]; intros k; simpl; [discriminate|].
  destruct (contains_sub id (href l)).
  - intros [= <-]. split; [lia|]. rewrite Nat.sub_diag. simpl. eauto.
  - intros H. destruct (IH (S k) H) as [Hle [l' Hl']]. split; [lia|].
    replace (j - k)%nat with (S (j - S k)) by lia. simpl. eauto.
Qed.

Lemma first_match_hit (id : string) (ls : list link) (k j : nat) :
  first_match id ls k = Some j -> exists l, nth_error ls (j - k) = Some l /\ contains_sub id (href l) = true.
Proof.
  revert k. induction ls as [|l ls IH]; intros k; simpl; [discriminate|].
  destruct (contains_sub id (href l)) eqn:Ec.
  - intros [= <-]. rewrite Nat.sub_diag. exists l. split; [reflexivity | exact Ec].
  - intros H. destruct (first_match_nth _ _ _ _ H) as [Hle _]. destruct (IH (S k) H) as (l' & Hl' & Hc).
    exists l'. replace (j - k)%nat with (S (j - S k)) by lia. auto.
Qed.

(** The links before the one [first_match] returns do not contain [id]. *)
Lemma first_match_before (id : string) (ls : list link) (k j : nat) :
  first_match id ls k = Some j -> forall i l, (i < j - k)%nat -> nth_error ls i = Some l -> contains_sub id (href l) = false.
Proof.
  revert k. induction ls as [|l0 ls IH]; intros k; simpl; [discriminate|].
  destruct (contains_sub id (href l0)) eqn:Ec.
  - intros [= <-] i l Hi. lia.
  - intros H [|i] l Hi Hl; [now injection Hl as <-|].
    destruct (first_match_nth _ _ _ _ H) as [Hle _]. apply (IH (S k) H i l); [lia | exact Hl].
Qed.

Lemma query_found_nth (id : string) (ls : list link) (j : nat) :
  query_link id ls = QFound j -> exists l, nth_error ls j = Some l.
Proof.
  unfold query_link. destruct (has_bad_char id); [discriminate|].
  destruct (String.eqb id EmptyString); [discriminate|].
  destruct (first_match id ls 0) as [j'|] eqn:E; [|discriminate]. intros [= <-].
  destruct (first_match_nth _ _ _ _ E) as [_ Hl]. now rewrite Nat.sub_0_r in Hl.
Qed.

End NavProps.

Module NavClaims.
Import Nav NavProps.

Lemma highlightNavLink_fields (p : page) :
  let p' := fst (highlightNavLink p) in
  hamburger p' = hamburger p /\ navMenu p' = navMenu p /\ sections p' = sections p /\
  view p' = view p /\ ticking p' = ticking p /\ raf p' = raf p /\
  navLinks p' = fst (highlight_sections (scrollY (view p)) (sections p) (navLinks p)).
Proof.
  unfold highlightNavLink. destruct (highlight_sections _ _ _). simpl. tauto.
Qed.

Lemma highlightNavLink_ok (p : page) :
  snd (highlightNavLink p) = snd (highlight_sections (scrollY (view p)) (sections p) (navLinks p)).
Proof. unfold highlightNavLink. destruct (highlight_sections _ _ _). reflexivity. Qed.

(** What the three listeners before [updateOnScroll] leave unchanged. *)
Lemma scroll_event_fields (v : viewport) (p : page) :
  let p' := scroll_event v p in
  hamburger p' = hamburger p /\ navMenu p' = navMenu p /\ sections p' = sections p /\
  (if ticking p then ticking p' = true /\ raf p' = raf p
   else ticking p' = true /\ raf p' = raf p ++ [HighlightAndReset]) /\
  navLinks p' = fst (highlight_sections (scrollY v) (sections p) (navLinks p)).
Proof.
  unfold scroll_event. cbv zeta.
  destruct (highlightNavLink_fields (navbar_scroll (Page (hamburger p) (navMenu p) (navbar p)
    (navLinks p) (sections p) v (progressBar p) (ticking p) (raf p))))
    as (H1 & H2 & H3 & H4 & H5 & H6 & H7).
  simpl in *. unfold updateOnScroll, progress_scroll. simpl. rewrite H5.
  destruct (ticking p); simpl; rewrite ?H1, ?H2, ?H3, ?H6, ?H7, ?H4; tauto.
Qed.

Lemma run_raf_fields (t : raf_task) (p : page) :
  let p' := run_raf t p in
  hamburger p' = hamburger p /\ navMenu p' = navMenu p /\ sections p' = sections p /\
  raf p' = raf p /\
  ticking p' = (if snd (highlight_sections (scrollY (view p)) (sections p) (navLinks p))
                then false else ticking p).
Proof.
  destruct t. unfold run_raf. pose proof (highlightNavLink_fields p) as (H1 & H2 & H3 & _ & H5 & H6 & _).
  rewrite <- highlightNavLink_ok. destruct (highlightNavLink p) as [p1 ok]. simpl in *.
  destruct ok; simpl; auto.
Qed.

Lemma frame_menu (p : page) :
  hamburger (frame p) = hamburger p /\ navMenu (frame p) = navMenu p /\
  sections (frame p) = sections p.
Proof.
  unfold frame.
  assert (Hgen : forall ts acc, hamburger acc = hamburger p -> navMenu acc = navMenu p ->
     sections acc = sections p ->
     let r := fold_left (fun a t => run_raf t a) ts acc in
     hamburger r = hamburger p /\ navMenu r = navMenu p /\ sections r = sections p).
  { induction ts as [|t ts IH]; intros acc Ha Hb Hc; simpl; [auto|].
    destruct (run_raf_fields t acc) as (H1 & H2 & H3 & _). apply IH; congruence. }
  apply Hgen; reflexivity.
Qed.

Lemma frame_empty (p : page) :
  raf p = [] -> ticking (frame p) = ticking p /\ raf (frame p) = [].
Proof. intros H. unfold frame. rewrite H. simpl. auto. Qed.

Lemma frame_one (p : page) :
  raf p = [HighlightAndReset] ->
  raf (frame p) = [] /\
  ticking (frame p) =
    (if snd (highlight_sections (scrollY (view p)) (sections p) (navLinks p)) then false
     else ticking p).
Proof.
  intros H. unfold frame. rewrite H. cbn [fold_left].
  match goal with |- context [run_raf HighlightAndReset ?q] =>
    destruct (run_raf_fields HighlightAndReset q) as (_ & _ & _ & H4 & H5) end.
  rewrite H4, H5. simpl. auto.
Qed.

Lemma step_sections (e : event) (p : page) : sections (step e p) = sections p.
Proof.
  destruct e; simpl.
  - apply (scroll_event_fields v p).
  - apply frame_menu.
  - unfold click_hamburger. destruct (hamburger p); reflexivity.
  - reflexivity.
Qed.

Lemma reachable_sections (p0 p : page) : reachable p0 p -> sections p = sections p0.
Proof. induction 1; [reflexivity|]. now rewrite step_sections. Qed.

Definition plain_ids (ss : list section) : Prop :=
  Forall (fun s => has_bad_char (sec_id s) = false) ss.

Definition throttle_ok (p : page) : Prop :=
  raf p = [] \/ (raf p = [HighlightAndReset] /\ ticking p = true).

Lemma throttle_step (e : event) (p : page) :
  throttle_ok p ->
  (plain_ids (sections p) -> (ticking p = true <-> raf p = [HighlightAndReset])) ->
  throttle_ok (step e p) /\
  (plain_ids (sections p) -> (ticking (step e p) = true <-> raf (step e p) = [HighlightAndReset])).
Proof.
  unfold throttle_ok. intros H1 H2. destruct e; simpl.
  - destruct (scroll_event_fields v p) as (_ & _ & _ & Ht & _).
    destruct (ticking p) eqn:Et; destruct Ht as [-> ->].
    + split; [exact H1|]. intros Hp. specialize (H2 Hp). exact H2.
    + destruct H1 as [-> | [_ ?]]; [|discriminate]. simpl. tauto.
  - destruct H1 as [Hr | [Hr Ht]].
    + destruct (frame_empty p Hr) as [-> ->]. split; [auto|]. intros Hp. specialize (H2 Hp). rewrite Hr in H2.
      split; [intros E; apply H2 in E; discriminate | discriminate].
    + destruct (frame_one p Hr) as [-> ->]. split; [auto|]. intros Hp.
      rewrite highlight_ok by exact Hp. split; discriminate.
  - unfold click_hamburger. destruct (hamburger p); simpl; auto.
  - auto.
Qed.

(** C9: At most one frame callback of the throttle is ever pending: from
    the page as loaded, every reachable page has no pending callback, or
    exactly one with [ticking] set.  When no section id makes the
    selector throw, [ticking] is set exactly when that callback is
    pending (otherwise a throwing callback leaves [ticking] set with
    nothing pending, and the throttle never schedules again). *)
Theorem throttle_invariant (p0 p : page) :
  loaded p0 -> reachable p0 p ->
  throttle_ok p /\ (plain_ids (sections p0) -> (ticking p = true <-> raf p = [HighlightAndReset])).
Proof.
  intros [Ht Hr] Hreach. pose proof (reachable_sections _ _ Hreach) as Hs.
  rewrite <- Hs. clear Hs. induction Hreach as [|e p Hreach IH].
  - unfold throttle_ok. rewrite Ht, Hr. split; [auto | split; discriminate].
  - destruct IH as [H1 H2]. rewrite step_sections. apply throttle_step; assumption.
Qed.

Lemma contains_op (b : bool) (cs : list string) :
  ClassList.contains "active"
    ((if b then ClassList.add "active" else ClassList.remove "active") cs) = b.
Proof. destruct b; autorewrite with page; reflexivity. Qed.

Lemma nth_error_In_section (ss : list section) (s : section) :
  In s ss -> exists i, nth_error ss i = Some s.
Proof. intros H. apply In_nth_error, H. Qed.

(** C11: If section [i] of the page selects link [j], no other section
    selects that link, and no earlier section id makes the selector
    throw, then after [highlightNavLink] link [j] is active exactly when
    the scroll position is in section [i]'s band
    [(offsetTop - 100, offsetTop - 100 + offsetHeight]]. *)
Theorem highlight_selects_band (y : Q) (ss : list section) (ls : list link)
    (i j : nat) (s : section) :
  nth_error ss i = Some s -> query_link (sec_id s) ls = QFound j ->
  (forall i' s', i' <> i -> nth_error ss i' = Some s' -> query_link (sec_id s') ls <> QFound j) ->
  plain_ids (firstn i ss) ->
  exists l, nth_error (fst (highlight_sections y ss ls)) j = Some l /\
    ClassList.contains "active" (link_classes l) = in_band y s.
Proof.
  revert i ls. induction ss as [|s0 ss IH]; intros [|i] ls Hs Hq Hother Hplain;
    try discriminate; simpl in Hs.
  - injection Hs as ->. simpl. rewrite Hq.
    destruct (query_found_nth _ _ _ Hq) as [l Hl].
    rewrite highlight_untouched.
    + rewrite nth_map_link_classes_eq, Hl. eexists. split; [reflexivity|]. apply contains_op.
    + intros s' Hs'. rewrite query_link_map. destruct (In_nth_error _ _ Hs') as [k Hk].
      apply (Hother (S k)); [discriminate | exact Hk].
  - inversion Hplain as [|? ? Hs0 Hrest]; subst. simpl.
    destruct (query_link (sec_id s0) ls) as [j0| |] eqn:E0.
    + assert (j0 <> j) by (intros ->; exact (Hother 0%nat s0 ltac:(discriminate) eq_refl E0)).
      apply IH with (i := i); auto.
      * rewrite query_link_map. exact Hq.
      * intros i' s' Hne Hs'. rewrite query_link_map. apply (Hother (S i')); [congruence | exact Hs'].
    + apply IH with (i := i); auto.
      intros i' s' Hne Hs'. apply (Hother (S i')); [congruence | exact Hs'].
    + unfold query_link in E0. rewrite Hs0 in E0.
      destruct (String.eqb _ _); [discriminate|]. destruct (first_match _ _ _); discriminate.
Qed.

(** C12: The attribute selector [.nav-link[href*="id"]] picks the first
    link whose [href] contains the id, so a link that comes after another
    link containing every section id its own [href] contains is never
    selected: whatever the sections and the scroll position,
    [highlightNavLink] leaves it as it was.  With links [#about-me] then
    [#about], the link [#about] never becomes active, even while the
    [about] section is on screen. *)
Theorem substring_collision (y : Q) (ss : list section) (ls : list link) (j0 j1 : nat) (l0 l1 : link) :
  (j0 < j1)%nat -> nth_error ls j0 = Some l0 -> nth_error ls j1 = Some l1 ->
  (forall s, In s ss -> contains_sub (sec_id s) (href l1) = true -> contains_sub (sec_id s) (href l0) = true) ->
  nth_error (fst (highlight_sections y ss ls)) j1 = Some l1.
Proof.
  intros Hj H0 H1 Hsub. rewrite highlight_untouched; [exact H1|].
  intros s Hs Hq. unfold query_link in Hq.
  destruct (has_bad_char (sec_id s)); [discriminate|]. destruct (String.eqb _ _); [discriminate|].
  destruct (first_match (sec_id s) ls 0) as [j|] eqn:E; [injection Hq as ->|discriminate].
  destruct (first_match_hit _ _ _ _ E) as (l & Hl & Hc). rewrite Nat.sub_0_r, H1 in Hl. injection Hl as <-.
  pose proof (first_match_before _ _ _ _ E j0 l0 ltac:(lia) H0) as Hn.
  rewrite (Hsub s Hs Hc) in Hn. discriminate.
Qed.

(** [scrollY / (scrollHeight - clientHeight) * 100] in binary64: [NaN]
    on an unscrolled page no taller than the viewport, a percentage in
    [0, 100] on a scrollable page. *)
Lemma scrolled_cases (v : viewport) :
  (scrollHeight v == clientHeight v -> scrollY v == 0 -> scrolled v = JNaN) /\
  (forall h c : Z, scrollHeight v == inject_Z h -> clientHeight v == inject_Z c -> (0 <= c < h)%Z -> (h < 2 ^ 53)%Z ->
   0 <= scrollY v -> scrollY v <= scrollHeight v - clientHeight v ->
   exists q, scrolled v = JFin q /\ 0 <= q /\ q <= 100).
Proof.
  unfold scrolled, Binary64.sub, Binary64.add. cbn [Binary64.neg]. split.
  - intros H1 H2. unfold Binary64.round at 1.
    replace (scrollHeight v + - clientHeight v ?= 0) with Eq by (symmetry; apply Qeq_alt; lra).
    cbn [Binary64.div]. replace (Qeq_bool 0 0) with true by reflexivity.
    replace (Qeq_bool (scrollY v) 0) with true by (symmetry; apply Qeq_bool_iff; exact H2). reflexivity.
  - intros h c Hh Hc Hch Hh53 H2 H3.
    assert (Hw : scrollHeight v + - clientHeight v == inject_Z (h - c)) by (rewrite Hh, Hc; unfold Z.sub; rewrite inject_Z_plus, inject_Z_opp; ring).
    destruct (Binary64Props.round_normal_exact (inject_Z (h - c)) (Binary64Props.is_normal_Z (h - c) ltac:(lia)))
      as (w & Rw & Ew).
    rewrite (Binary64Props.round_Proper _ _ Hw), Rw. cbn [Binary64.div].
    assert (Hw0 : 0 < w) by (rewrite Ew; change 0 with (inject_Z 0); rewrite <- Zlt_Qlt; lia).
    replace (Qeq_bool w 0) with false by (symmetry; apply Qeq_bool_false; lra).
    destruct (Binary64Props.round_normal_exact 1 (Binary64Props.is_normal_Z 1 ltac:(lia))) as (one & R1 & E1).
    destruct (Binary64Props.round_within (scrollY v / w) 1 one) as (a & Ra & Ha); [|exact R1|exact E1|].
    { split; [apply Qle_shift_div_l; lra | apply Qle_shift_div_r; lra]. }
    rewrite Ra. cbn [Binary64.mul].
    destruct (Binary64Props.round_normal_exact 100 (Binary64Props.is_normal_Z 100 ltac:(lia))) as (hd & R100 & E100).
    destruct (Binary64Props.round_within (a * 100) 100 hd) as (q & Rq & Hq); [lra|exact R100|exact E100|].
    exists q. split; [exact Rq | lra].
Qed.

(** C13: The progress bar's width after a scroll.  On a page no taller
    than the viewport and not scrolled, [scrolled] is [NaN] and the text
    ["NaN%"] is rejected by the style, so the bar keeps the width it had.
    On a scrollable page whose scroll position lies in its range
    ([scrollHeight] and [clientHeight] integers, as the DOM gives them),
    [scrolled] is a binary64 percentage [q] in [0, 100] and the bar's
    [width] becomes [q] printed by [Number::toString] followed by [%]. *)
Theorem progress_bar_width (p : page) :
  let v := view p in
  (scrollHeight v == clientHeight v -> scrollY v == 0 ->
   scrolled v = JNaN /\ progressBar (progress_scroll p) = progressBar p) /\
  (forall h c : Z, scrollHeight v == inject_Z h -> clientHeight v == inject_Z c -> (0 <= c < h)%Z -> (h < 2 ^ 53)%Z ->
   0 <= scrollY v -> scrollY v <= scrollHeight v - clientHeight v ->
   exists q, scrolled v = JFin q /\ 0 <= q /\ q <= 100 /\
     Css.get_property "width" (progressBar (progress_scroll p)) = Some (Binary64.toString (JFin q) ++ "%")%string).
Proof.
  intros v. destruct (scrolled_cases v) as [H1 H2]. split.
  - intros E1 E2. pose proof (H1 E1 E2) as Hn. split; [exact Hn|].
    cbn [progressBar progress_scroll]. fold v. rewrite Hn. apply CssProps.set_width_reject, CssProps.percentage_NaN.
  - intros h c Hh Hc Hch Hh53 E1 E2. destruct (H2 h c Hh Hc Hch Hh53 E1 E2) as (q & Hq & Hq0 & Hq1).
    exists q. do 3 (split; [assumption|]). cbn [progressBar progress_scroll]. fold v. rewrite Hq.
    rewrite CssProps.set_width_accept by (now apply CssProps.percentage_toString). reflexivity.
Qed.

Definition menus_in_sync (p : page) : Prop :=
  exists h m, hamburger p = Some h /\ navMenu p = Some m /\
    ClassList.contains "active" h = ClassList.contains "active" m.

(** C14: When both the hamburger and the menu exist and agree on the
    [active] class, every reachable page keeps them in agreement: the
    toggle flips both and a link click clears both. *)
Theorem menu_in_sync (p0 p : page) :
  menus_in_sync p0 -> reachable p0 p -> menus_in_sync p.
Proof.
  intros H0 Hr. induction Hr as [|e p Hr IH]; [exact H0|].
  destruct IH as (h & m & Hh & Hm & Hc). destruct e; simpl.
  - destruct (scroll_event_fields v p) as (E1 & E2 & _). exists h, m. rewrite E1, E2. auto.
  - destruct (frame_menu p) as (E1 & E2 & _). exists h, m. rewrite E1, E2. auto.
  - unfold click_hamburger. rewrite Hh, Hm. simpl.
    exists (ClassList.toggle "active" h), (ClassList.toggle "active" m).
    rewrite !contains_toggle, Hc. auto.
  - unfold click_link. rewrite Hh, Hm. simpl.
    exists (ClassList.remove "active" h), (ClassList.remove "active" m).
    rewrite !contains_remove. auto.
Qed.

End NavClaims.

Module NavWitnesses.
Import Nav NavProps NavClaims.

Definition demo_page : page :=
  Page (Some []) (Some []) (Some []) [Link "#home" []; Link "#about" []]
       [Sec "home" 0 600; Sec "about" 600 800] (View 0 2000 800) create_progressBar false [].

(** The demo page at another scroll position. *)
Definition demo_at (v : viewport) : page :=
  Page (hamburger demo_page) (navMenu demo_page) (navbar demo_page) (navLinks demo_page)
       (sections demo_page) v (progressBar demo_page) false [].

Definition demo_after : page :=
  step Frame (step (Scroll (View 300 2000 800)) (step (Scroll (View 700 2000 800)) demo_page)).

Lemma throttle_invariant_witness :
  loaded demo_page /\
  throttle_ok demo_after /\
  (plain_ids (sections demo_page) -> (ticking demo_after = true <-> raf demo_after = [HighlightAndReset])).
Proof.
  assert (Hl : loaded demo_page) by (split; reflexivity).
  split; [exact Hl|].
  apply (throttle_invariant demo_page demo_after Hl).
  unfold demo_after. apply reach_step, reach_step, reach_step, reach_init.
Defined.

Lemma highlight_selects_band_witness :
  exists l, nth_error (fst (highlight_sections 700 (sections demo_page) (navLinks demo_page))) 1 = Some l /\
    ClassList.contains "active" (link_classes l) = in_band 700 (Sec "about" 600 800).
Proof.
  apply (highlight_selects_band 700 (sections demo_page) (navLinks demo_page) 1 1 (Sec "about" 600 800)).
  - reflexivity.
  - vm_compute. reflexivity.
  - intros [|[|i']] s' Hne Hs'; [|congruence|destruct i'; discriminate].
    simpl in Hs'. injection Hs' as <-. vm_compute. discriminate.
  - repeat constructor.
Defined.

Lemma progress_bar_width_witness :
  (scrolled (View 0 800 800) = JNaN /\
   progressBar (progress_scroll (demo_at (View 0 800 800))) = create_progressBar) /\
  (exists q, scrolled (View 300 2000 800) = JFin q /\ 0 <= q /\ q <= 100 /\
     Css.get_property "width" (progressBar (progress_scroll (demo_at (View 300 2000 800)))) =
       Some (Binary64.toString (JFin q) ++ "%")%string) /\
  Css.get_property "width" create_progressBar = Some "0%"%string /\
  Css.get_property "width" (progressBar (progress_scroll (demo_at (View 300 2000 800)))) = Some "25%"%string.
Proof.
  split; [|split; [|split; vm_compute; reflexivity]].
  - apply (proj1 (progress_bar_width (demo_at (View 0 800 800)))); simpl; lra.
  - apply (proj2 (progress_bar_width (demo_at (View 300 2000 800))) 2000%Z 800%Z); simpl; (reflexivity || lia || lra).
Defined.

Lemma substring_collision_witness :
  in_band 100 (Sec "about" 0 500) = true /\
  nth_error (fst (highlight_sections 100 [Sec "about" 0 500; Sec "about-me" 500 500]
                    [Link "#about-me" []; Link "#about" []])) 1 = Some (Link "#about" []).
Proof.
  split; [vm_compute; reflexivity|].
  apply (substring_collision 100 _ _ 0 1 (Link "#about-me" []) (Link "#about" [])); [lia | reflexivity | reflexivity |].
  intros s [<-|[<-|[]]]; vm_compute; congruence.
Defined.

Lemma menu_in_sync_witness : menus_in_sync (step ClickHamburger (step ClickLink demo_page)).
Proof.
  apply (menu_in_sync demo_page).
  - exists [], []. split; [reflexivity|]. split; reflexivity.
  - apply reach_step, reach_step, reach_init.
Defined.

End NavWitnesses.
