(* ===== verification/Widgets.v ===== *)
(** * The notify form and the stream embed fallback (script.js 463-488, 572-589)

  Module [Notify] models the [submit] listener of [.notify-form]: it reads
  [.email-input]'s value; when the value is non-empty it saves the
  button's text, shows ["Subscribed!"], stores the email in
  [localStorage] under ["streamNotificationEmail"], and schedules a
  2000 ms timeout that puts the saved text back and empties the input.
  [localStorage] is a [gmap string string]; a missing [.email-input] or
  [.notify-btn] (the code dereferences [querySelector]'s result without a
  check) makes the handler throw, which is the [false] flag of the
  results.  Module [Fallback] models the window [load] handler: when
  both [#twitchPlayer] and [#streamFallback] exist it schedules a 5000 ms
  timeout that hides the player and shows the fallback, and attaches a
  [load] listener to the player that cancels it.  Load events of the
  player that happen before the window's [load] event reach no listener.
  Both use the timer queue of [Host]; an event at time [t] runs after the
  timers due at or before [t]. *)

From Stdlib Require Import List String Lia ZArith Bool.
From stdpp Require Import base gmap strings.
From S2P Require Import Prelude Host.
Import ListNotations.
Open Scope string_scope.

Module Notify.

Definition storage_key : string := "streamNotificationEmail".
Definition subscribed_text : string := "Subscribed!".

(** [emailInput.value] and the button's [textContent]; [None] when the
    element is missing. *)
Record form := Form {
  emailInput : option string;
  notifyBtn : option string;
  storage : gmap string string
}.

Inductive task := RestoreButton (originalBtnText : string).

Section Shared.
(** [lift] turns the callback into one of the page's timer queue ([Page]). *)
Context {U : Type} (lift : task -> U).

(** The 2000 ms callback: restore the button text, clear the input. *)
Definition run_task_at (t : task) (st : form * timers U) : form * timers U :=
  let (f, c) := st in
  match t, notifyBtn f with
  | RestoreButton orig, Some _ =>
      (Form (option_map (fun _ => EmptyString) (emailInput f)) (Some orig) (storage f), c)
  | RestoreButton _, None => (f, c)
  end.

(** The [submit] listener; the flag is [false] when it throws. *)
Definition submit_at (st : form * timers U) : form * timers U * bool :=
  let (f, c) := st in
  match emailInput f with
  | None => (f, c, false)
  | Some email =>
      if js_truthy_string email then
        match notifyBtn f with
        | None => (f, c, false)
        | Some originalBtnText =>
            let f' := Form (Some email) (Some subscribed_text)
                           (<[storage_key := email]> (storage f)) in
            let (_, c') := setTimeout (lift (RestoreButton originalBtnText)) 2000 c in
            (f', c', true)
        end
      else (f, c, true)
  end.

End Shared.

(** The component on a queue of its own callbacks. *)
Definition run_task := @run_task_at task.
Definition submit := submit_at (fun t : task => t).

(** User input and form submissions, time-stamped. *)
Inductive event := TypeEmail (v : string) | Submit.

Definition tick (t : Z) (st : form * timers task) : form * timers task :=
  advance_to run_task (S (List.length (queue (snd st)))) t st.

Definition handle_at {U : Type} (lift : task -> U) (e : event) (st : form * timers U) : form * timers U :=
  match e with
  | TypeEmail v => (Form (option_map (fun _ => v) (emailInput (fst st))) (notifyBtn (fst st))
                         (storage (fst st)), snd st)
  | Submit => fst (submit_at lift st)
  end.

Definition handle := handle_at (fun t : task => t).

Fixpoint session (evs : list (Z * event)) (st : form * timers task) : form * timers task :=
  match evs with
  | [] => st
  | (t, e) :: rest => session rest (handle e (tick t st))
  end.

End Notify.

Module Fallback.

(** [style.display] of the two elements, and the player's load listener. *)
Record embed := Embed {
  player_display : string;
  fallback_display : string;
  load_listener : option nat   (** the [fallbackTimeout] id it clears *)
}.

Inductive task := ShowFallback.

Section Shared.
(** [lift] turns the callback into one of the page's timer queue ([Page]). *)
Context {U : Type} (lift : task -> U).

Definition run_task_at (t : task) (st : embed * timers U) : embed * timers U :=
  let (e, c) := st in
  match t with
  | ShowFallback => (Embed "none" "block" (load_listener e), c)
  end.

(** The window [load] handler, when both elements exist. *)
Definition window_load_at (st : embed * timers U) : embed * timers U :=
  let (e, c) := st in
  let (id, c') := setTimeout (lift ShowFallback) 5000 c in
  (Embed (player_display e) (fallback_display e) (Some id), c').

(** A [load] event of the player iframe. *)
Definition player_load_at (st : embed * timers U) : embed * timers U :=
  let (e, c) := st in
  match load_listener e with
  | Some id => (e, clearTimeout id c)
  | None => (e, c)
  end.

End Shared.

(** The component on a queue of its own callbacks. *)
Definition run_task := @run_task_at task.
Definition window_load := window_load_at (fun t : task => t).
Definition player_load := @player_load_at task.

Inductive event := WindowLoad | PlayerLoad.

Definition tick (t : Z) (st : embed * timers task) : embed * timers task :=
  advance_to run_task (S (List.length (queue (snd st)))) t st.

Definition handle (ev : event) (st : embed * timers task) : embed * timers task :=
  match ev with
  | WindowLoad => window_load st
  | PlayerLoad => player_load st
  end.

Fixpoint session (evs : list (Z * event)) (st : embed * timers task) : embed * timers task :=
  match evs with
  | [] => st
  | (t, ev) :: rest => session rest (handle ev (tick t st))
  end.

Definition initial : embed := Embed EmptyString EmptyString None.

End Fallback.

Module NotifyClaims.
Import Notify.

(** C15: With an email input holding [email] and a button showing [b],
    submitting never throws; an empty email leaves the page and the
    timers as they are; a non-empty one is stored under
    ["streamNotificationEmail"] (overwriting any previous value, every
    other key unchanged), the button shows ["Subscribed!"], and one
    2000 ms timer restoring [b] is scheduled. *)
Theorem submit_spec (f : form) (c : timers task) (email b : string) :
  emailInput f = Some email -> notifyBtn f = Some b ->
  let r := submit (f, c) in
  snd r = true /\
  (email = EmptyString -> fst r = (f, c)) /\
  (email <> EmptyString ->
     storage (fst (fst r)) = <[storage_key := email]> (storage f) /\
     notifyBtn (fst (fst r)) = Some subscribed_text /\
     queue (snd (fst r)) = (queue c ++ [Timer (next_id c) (now c + 2000) (RestoreButton b)])%list).
Proof.
  intros He Hb. simpl. rewrite He. unfold js_truthy_string.
  destruct (String.eqb_spec email EmptyString) as [->|Hne]; simpl.
  - split; [reflexivity|]. split; [reflexivity | congruence].
  - rewrite Hb. simpl. split; [reflexivity|]. split; [congruence|]. auto.
Qed.

#[local] Arguments js_truthy_string : simpl never.

(** C16: Two submissions less than 2000 ms apart leave the button
    showing ["Subscribed!"] for good: the second submission saves
    ["Subscribed!"] as the text to restore, and its timer fires after
    the first one has put the original text back. *)
Theorem double_submit_sticks (f : form) (email b : string) (t0 t1 t2 t : Z) :
  emailInput f = Some email -> email <> EmptyString -> notifyBtn f = Some b ->
  (t0 <= t1)%Z -> (t1 <= t2)%Z -> (t2 < t1 + 2000)%Z -> (t2 + 2000 <= t)%Z ->
  notifyBtn (fst (tick t (session [(t1, Submit); (t2, Submit)] (f, no_timers t0)))) =
  Some subscribed_text.
Proof.
  intros He Hne Hb H01 H12 H2 Ht. destruct f as [ei nb st]. simpl in He, Hb. subst.
  assert (Htr : js_truthy_string email = true)
    by (unfold js_truthy_string; apply negb_true_iff, String.eqb_neq, Hne).
  cbn. rewrite Htr. cbn. zcase. all: do 4 (cbn; rewrite ?Htr; zcase).
  all: reflexivity.
Qed.

End NotifyClaims.

Module FallbackClaims.
Import Fallback.

(** C17: After the window's [load] event at [t0] and one [load] event of
    the player at [t1 >= t0], once the clock has passed both [t0 + 5000]
    and [t1], the fallback is shown exactly when the player's load came
    at or after the 5000 ms deadline (at the deadline the timer runs
    first). *)
Theorem fallback_race (s t0 t1 t : Z) :
  (s <= t0)%Z -> (t0 <= t1)%Z -> (t0 + 5000 <= t)%Z -> (t1 <= t)%Z ->
  fallback_display (fst (tick t (session [(t0, WindowLoad); (t1, PlayerLoad)] (initial, no_timers s))))
    = "block" <-> (t0 + 5000 <= t1)%Z.
Proof.
  intros H0 H1 H2 H3. cbn. zcase. all: do 3 (cbn; zcase).
  all: split; intros; first [reflexivity | discriminate | lia].
Qed.

(** C18: A [load] event of the player that happens before the window's
    [load] event reaches no listener (the listener is attached inside the
    window's [load] handler), so the fallback replaces the player 5000 ms
    after the window's [load] although the player had loaded.  Browsers
    fire an iframe's [load] before the window's [load] for iframes in the
    initial markup. *)
Theorem early_player_load_missed (s t0 t1 t : Z) :
  (s <= t1)%Z -> (t1 <= t0)%Z -> (t0 + 5000 <= t)%Z ->
  let e := fst (tick t (session [(t1, PlayerLoad); (t0, WindowLoad)] (initial, no_timers s))) in
  player_display e = "none" /\ fallback_display e = "block".
Proof.
  intros H0 H1 H2. cbn. zcase. all: do 3 (cbn; zcase). all: split; reflexivity.
Qed.

End FallbackClaims.

Module NotifyWitnesses.
Import Notify NotifyClaims.

Definition demo_form : form := Form (Some "fan@example.org") (Some "Notify Me") ∅.

Definition clock0 : timers task := no_timers 0%Z.

Lemma submit_spec_witness :
  snd (submit (demo_form, no_timers 0%Z)) = true /\
  ("fan@example.org" = EmptyString -> fst (submit (demo_form, no_timers 0%Z)) = (demo_form, no_timers 0%Z)) /\
  ("fan@example.org" <> EmptyString ->
     storage (fst (fst (submit (demo_form, no_timers 0%Z)))) =
       <[storage_key := "fan@example.org"]> (storage demo_form) /\
     notifyBtn (fst (fst (submit (demo_form, no_timers 0%Z)))) = Some subscribed_text /\
     queue (snd (fst (submit (demo_form, no_timers 0%Z)))) =
       (queue clock0 ++ [Timer (next_id clock0) (now clock0 + 2000)
                                        (RestoreButton "Notify Me")])%list).
Proof. apply (submit_spec demo_form clock0 "fan@example.org" "Notify Me"); reflexivity. Defined.

Lemma double_submit_sticks_witness :
  notifyBtn (fst (tick 10000%Z (session [(100%Z, Submit); (600%Z, Submit)] (demo_form, no_timers 0%Z)))) =
  Some subscribed_text.
Proof.
  apply (double_submit_sticks demo_form "fan@example.org" "Notify Me" 0 100 600 10000);
    first [reflexivity | discriminate | lia].
Defined.

End NotifyWitnesses.

Module FallbackWitnesses.
Import Fallback FallbackClaims.

Definition clock0 : timers task := no_timers 0%Z.

Lemma fallback_race_witness :
  fallback_display (fst (tick 9000%Z (session [(1000%Z, WindowLoad); (3000%Z, PlayerLoad)]
                                          (initial, no_timers 0%Z)))) = "block"
  <-> (1000 + 5000 <= 3000)%Z.
Proof. apply (fallback_race 0 1000 3000 9000); lia. Defined.

Lemma early_player_load_missed_witness :
  let e := fst (tick 7000%Z (session [(500%Z, PlayerLoad); (1000%Z, WindowLoad)] (initial, no_timers 0%Z))) in
  player_display e = "none" /\ fallback_display e = "block".
Proof. apply (early_player_load_missed 0 1000 500 7000); lia. Defined.

End FallbackWitnesses.
