(* ===== verification/PastStreams.v ===== *)
(** * The past-streams panel and [saveStreamRecording] (script.js 490-570)

  Module [Streams] models the [click] listener of [#viewRecordings], which
  shows or hides [#pastStreamsSection] by its inline [style.display] and
  calls [loadPastStreams] on showing; [loadPastStreams], which renders
  the list stored under ["pastStreams"] in [localStorage] into
  [#pastStreamsGrid] unless the grid already has more than one element
  child; and [saveStreamRecording(title, duration)], which prepends a
  record to the stored list.  [localStorage] is a [gmap string string];
  the stored text goes through [Json.JSON_parse] and [Json.stringify].
  The grid is its list of element children.  A thrown [TypeError] or
  [SyntaxError] is the [false] flag of a result; the effects made before
  the throw stay, as they do in the browser.  [Date.now()] and
  [new Date().toLocaleDateString()] are arguments; [Date.now()] is an
  integer time value, at most [8.64e15] in magnitude (ECMA-262's time
  range), so it is a double [JSON.stringify] prints exactly.  The title
  and duration are JSON values (the spec says strings); numbers among
  them are doubles, printed by [Number::toString].  The closing
  [console.log] (line 569) writes to the console only and is not
  modelled. *)

From Stdlib Require Import QArith List String Ascii ZArith Lia Bool.
From stdpp Require Import base gmap strings.
From S2P Require Import Prelude Host Binary64 Json Widgets.
Import ListNotations Json.
Close Scope Q_scope.
Open Scope string_scope.

Module Streams.

Definition pastStreams_key : string := "pastStreams".

(** Element children of [#pastStreamsGrid]: what the page's markup put
    there, the "No stream recordings" placeholder, or a stream card with
    the three strings interpolated into its [innerHTML]. *)
Inductive node :=
| Markup (html : string)
| NoStreamsMessage
| StreamCard (title date duration : string).

(** [#pastStreamsSection]'s inline [display] ([None]: no such element),
    the button's text, [#pastStreamsGrid]'s children ([None]: no such
    element), and [localStorage]. *)
Record page := Page {
  section_display : option string;
  button_text : string;
  grid : option (list node);
  storage : gmap string string
}.

Definition with_grid (p : page) (g : list node) : page :=
  Page (section_display p) (button_text p) (Some g) (storage p).

(** [localStorage.getItem('pastStreams') || '[]']. *)
Definition stored_text (st : gmap string string) : string :=
  match st !! pastStreams_key with
  | Some s => if js_truthy_string s then s else "[]"
  | None => "[]"
  end.

(** [String(v)] as a template literal computes it. *)
Fixpoint js_to_string (v : json) : string :=
  match v with
  | JNull => "null"
  | JBool b => if b then "true" else "false"
  | JNum x => Binary64.toString x
  | JStr s => s
  | JArr l => js_join "," (map (fun x => match x with JNull => EmptyString | _ => js_to_string x end) l)
  | JObj _ => "[object Object]"
  end.

(** A property read on a parsed value; [None] is [undefined]. *)
Definition prop (v : json) (k : string) : option json :=
  match v with
  | JObj m => option_map snd (find (fun kv => String.eqb (fst kv) k) m)
  | _ => None
  end.

Definition interp (o : option json) : string :=
  match o with Some v => js_to_string v | None => "undefined" end.

Definition stream_card (stream : json) : node :=
  StreamCard (interp (prop stream "title")) (interp (prop stream "date"))
             (interp (prop stream "duration")).

(** The card of one stream; reading a property of [null] throws. *)
Definition card (stream : json) : option node :=
  match stream with
  | JNull => None
  | _ => Some (stream_card stream)
  end.

(** [pastStreams.forEach(stream => grid.appendChild(card))]: the cards
    appended before a throw stay. *)
Fixpoint render (l : list json) (acc : list node) : list node * bool :=
  match l with
  | [] => (acc, true)
  | s :: r => match card s with
              | Some n => render r (acc ++ [n])
              | None => (acc, false)
              end
  end.

(** [pastStreams.length === 0]; [None] when reading [length] throws. *)
Definition length_is_zero (v : json) : option bool :=
  match v with
  | JNull => None
  | JArr l => Some (Nat.eqb (List.length l) 0)
  | JStr s => Some (Nat.eqb (String.length s) 0)
  | JObj _ => Some (match prop v "length" with Some (JNum x) => Binary64.jsnum_eqb x (JFin 0) | _ => false end)
  | _ => Some false
  end.

Definition loadPastStreams (p : page) : page * bool :=
  match grid p with
  | None => (p, false)
  | Some children =>
      if Nat.ltb 1 (List.length children) then (p, true)
      else
        let p1 := with_grid p [] in
        match JSON_parse (stored_text (storage p)) with
        | None => (p1, false)
        | Some v =>
            match length_is_zero v with
            | None => (p1, false)
            | Some true => (with_grid p [NoStreamsMessage], true)
            | Some false =>
                match v with
                | JArr l => let '(ns, ok) := render l [] in (with_grid p ns, ok)
                | _ => (p1, false)
                end
            end
        end
  end.

(** The [click] listener of [#viewRecordings]. *)
Definition click (p : page) : page * bool :=
  match section_display p with
  | None => (p, false)
  | Some d =>
      if String.eqb d "none" then
        loadPastStreams (Page (Some "block") "Hide Past Streams" (grid p) (storage p))
      else (Page (Some "none") "View Past Streams" (grid p) (storage p), true)
  end.

(** The time range of ECMA-262: [Date.now()] is at most [8.64e15] in
    magnitude. *)
Definition time_value_ok (now : Z) : bool := (Z.abs now <=? 8640000000000000)%Z.

Definition newStream (title duration : json) (now : Z) (today : string) : json :=
  JObj [("id", JNum (JFin (inject_Z now))); ("title", title); ("date", JStr today); ("duration", duration)].

(** [saveStreamRecording(title, duration)] at time [now] on day [today];
    [unshift] exists on arrays only. *)
Definition saveStreamRecording (title duration : json) (now : Z) (today : string)
    (st : gmap string string) : gmap string string * bool :=
  match JSON_parse (stored_text st) with
  | Some (JArr l) =>
      (<[pastStreams_key := stringify (JArr (newStream title duration now today :: l))]> st, true)
  | _ => (st, false)
  end.

(** Clicks on the button and calls of [saveStreamRecording], in order. *)
Inductive event := Click | Save (title duration : json) (now : Z) (today : string).

Definition step (p : page) (e : event) : page :=
  match e with
  | Click => fst (click p)
  | Save t d n today =>
      Page (section_display p) (button_text p) (grid p) (fst (saveStreamRecording t d n today (storage p)))
  end.

Definition run (p : page) (evs : list event) : page := fold_left step evs p.

End Streams.

Module StreamsProps.
Import Streams JsonProps.

Lemma stringify_not_empty (v : json) : js_truthy_string (stringify v) = true.
Proof. pose proof (stringify_nonempty v) as H. destruct (stringify v); [cbn in H; lia | reflexivity]. Qed.

(** What [saveStreamRecording] writes is what the next read gets. *)
Lemma stored_text_insert (v : json) (st : gmap string string) :
  stored_text (<[pastStreams_key := stringify v]> st) = stringify v.
Proof. unfold stored_text. rewrite lookup_insert_eq. now rewrite stringify_not_empty. Qed.

Lemma stored_text_other (k s : string) (st : gmap string string) :
  k <> pastStreams_key -> stored_text (<[k := s]> st) = stored_text st.
Proof. intros Hk. unfold stored_text. now rewrite lookup_insert_ne by congruence. Qed.

Lemma wf_newStream (t d : json) (now : Z) (today : string) :
  time_value_ok now = true -> wf_b (newStream t d now today) = wf_b t && wf_b d.
Proof.
  intros Hn. apply Z.leb_le in Hn.
  assert (Hid : num_ok (JFin (inject_Z now)) = true) by (apply num_ok_Z; lia).
  unfold newStream. cbn [wf_b forallb map fst snd]. replace (keys_ok _) with true by reflexivity.
  rewrite Hid. now destruct (wf_b t), (wf_b d).
Qed.

Lemma render_ok (l : list json) (acc : list node) :
  Forall (fun s => s <> JNull) l -> render l acc = (acc ++ map stream_card l, true)%list.
Proof.
  revert acc. induction l as [|s l IH]; intros acc Hl; simpl; [now rewrite app_nil_r|].
  inversion Hl as [|? ? Hs Hl']; subst.
  destruct s; try congruence; cbn [card]; rewrite IH by exact Hl'; now rewrite <- app_assoc.
Qed.

Lemma render_stop (l1 l2 : list json) (acc : list node) :
  Forall (fun s => s <> JNull) l1 -> render (l1 ++ JNull :: l2) acc = (acc ++ map stream_card l1, false)%list.
Proof.
  revert acc. induction l1 as [|s l IH]; intros acc Hl; simpl; [now rewrite app_nil_r|].
  inversion Hl as [|? ? Hs Hl']; subst.
  destruct s; try congruence; cbn [card]; rewrite IH by exact Hl'; now rewrite <- app_assoc.
Qed.

(** Opening the panel when the grid has at most one child: it reads the
    stored text again. *)
Lemma click_open (p : page) (children : list node) :
  section_display p = Some "none" -> grid p = Some children -> (List.length children <= 1)%nat ->
  click p =
  let p0 := Page (Some "block") "Hide Past Streams" (Some []) (storage p) in
  match JSON_parse (stored_text (storage p)) with
  | None => (p0, false)
  | Some v =>
      match length_is_zero v with
      | None => (p0, false)
      | Some true => (with_grid p0 [NoStreamsMessage], true)
      | Some false =>
          match v with
          | JArr l => let '(ns, ok) := render l [] in (with_grid p0 ns, ok)
          | _ => (p0, false)
          end
      end
  end.
Proof.
  intros Hd Hg Hl. unfold click. rewrite Hd. simpl. unfold loadPastStreams. simpl. rewrite Hg.
  destruct (Nat.ltb_spec 1 (List.length children)); [lia|]. reflexivity.
Qed.

(** The notify form writes another key of [localStorage], on whatever
    timer queue it runs. *)
Lemma submit_at_stored_text {U} (lift : Notify.task -> U) (f : Notify.form) (c : timers U) :
  stored_text (Notify.storage (fst (fst (Notify.submit_at lift (f, c))))) = stored_text (Notify.storage f).
Proof.
  unfold Notify.submit_at. destruct (Notify.emailInput f) as [email|]; [|reflexivity].
  destruct (js_truthy_string email); [|reflexivity].
  destruct (Notify.notifyBtn f); [|reflexivity].
  cbn. apply stored_text_other. discriminate.
Qed.

Lemma submit_stored_text (f : Notify.form) (c : timers Notify.task) :
  stored_text (Notify.storage (fst (fst (Notify.submit (f, c))))) = stored_text (Notify.storage f).
Proof. apply submit_at_stored_text. Qed.

(** Showing or hiding the panel only reads [localStorage]. *)
Lemma click_storage (p : page) : storage (fst (click p)) = storage p.
Proof.
  unfold click. destruct (section_display p) as [d|]; [|reflexivity].
  destruct (String.eqb d "none"); [|reflexivity]. unfold loadPastStreams. cbn [grid storage].
  destruct (grid p) as [children|]; [|reflexivity]. destruct (Nat.ltb 1 (List.length children)); [reflexivity|].
  destruct (JSON_parse _) as [v|]; [|reflexivity].
  destruct (length_is_zero v) as [[]|]; [reflexivity| |reflexivity].
  destruct v; try reflexivity. now destruct (render _ _).
Qed.

End StreamsProps.

Module StreamsClaims.
Import Streams JsonProps StreamsProps.

(** A save call with JSON-safe arguments at a time of the ECMAScript
    range, and the record it writes. *)
Definition save_ok (e : event) : bool :=
  match e with Save t d n _ => time_value_ok n && wf_b t && wf_b d | Click => false end.

Definition saved (e : event) : list json :=
  match e with Save t d n today => [newStream t d n today] | Click => [] end.

Lemma save_step (p : page) (l : list json) (t d : json) (n : Z) (today : string) :
  JSON_parse (stored_text (storage p)) = Some (JArr l) -> wf_b (JArr l) = true ->
  time_value_ok n = true -> wf_b t = true -> wf_b d = true ->
  JSON_parse (stored_text (storage (step p (Save t d n today)))) = Some (JArr (newStream t d n today :: l)) /\
  wf_b (JArr (newStream t d n today :: l)) = true.
Proof.
  intros Hp Hl Hn Ht Hd. assert (Hw : wf_b (JArr (newStream t d n today :: l)) = true).
  { change (wf_b (newStream t d n today) && forallb wf_b l = true). now rewrite wf_newStream, Ht, Hd by exact Hn. }
  split; [|exact Hw]. cbn [step storage]. unfold saveStreamRecording. rewrite Hp.
  cbn [fst]. rewrite stored_text_insert. now apply JSON_roundtrip.
Qed.

(** C23: [saveStreamRecording] keeps the stored list newest first: from
    a stored list [l] of well-formed values, after any sequence of calls
    with JSON-safe titles and durations at times [Date.now()] of the
    ECMAScript range, the text under ["pastStreams"]
    parses to the new records, the last call's first, followed by [l]
    (the [JSON.parse]/[JSON.stringify] round trip of each call). *)
Theorem saves_newest_first (p : page) (l : list json) (evs : list event) :
  JSON_parse (stored_text (storage p)) = Some (JArr l) -> wf_b (JArr l) = true ->
  forallb save_ok evs = true ->
  JSON_parse (stored_text (storage (run p evs))) = Some (JArr (rev (flat_map saved evs) ++ l)).
Proof.
  revert p l. induction evs as [|e evs IH]; intros p l Hp Hl Hevs; [exact Hp|].
  simpl in Hevs. apply andb_true_iff in Hevs as [He Hevs].
  destruct e as [|t d n today]; [discriminate|]. apply andb_true_iff in He as [He Hd].
  apply andb_true_iff in He as [Hn Ht].
  destruct (save_step p l t d n today Hp Hl Hn Ht Hd) as [Hp' Hl'].
  change (run p (Save t d n today :: evs)) with (run (step p (Save t d n today)) evs).
  rewrite (IH _ _ Hp' Hl' Hevs). cbn [flat_map saved rev].
  rewrite rev_app_distr. simpl. now rewrite <- app_assoc.
Qed.

(** C24: Opening the panel when the grid has at most one element child
    renders the stored list again: the section is shown, the button
    reads ["Hide Past Streams"], and the grid holds one card per stored
    stream in stored order, or the placeholder alone for an empty list. *)
Theorem open_renders (p : page) (children : list node) (l : list json) :
  section_display p = Some "none" -> grid p = Some children -> (List.length children <= 1)%nat ->
  JSON_parse (stored_text (storage p)) = Some (JArr l) -> Forall (fun s => s <> JNull) l ->
  click p = (Page (Some "block") "Hide Past Streams"
               (Some (match l with [] => [NoStreamsMessage] | _ => map stream_card l end))
               (storage p), true).
Proof.
  intros Hd Hg Hc Hp Hl. rewrite (click_open p children Hd Hg Hc), Hp.
  destruct l as [|s l]; [reflexivity|]. cbn [length_is_zero List.length Nat.eqb].
  now rewrite render_ok.
Qed.

(** Closing the panel only hides it. *)
Lemma click_close (p : page) (d : string) :
  section_display p = Some d -> d <> "none" ->
  click p = (Page (Some "none") "View Past Streams" (grid p) (storage p), true).
Proof. intros Hd Hn. unfold click. rewrite Hd. now destruct (String.eqb_spec d "none"). Qed.

(** C25: With an empty stored list, opening, closing and opening the
    panel again leaves exactly one placeholder in the grid, after the
    first opening and after the second (the placeholder is the grid's
    only child, so the second opening renders it again in its place). *)
Theorem toggle_placeholder_once (p : page) (children : list node) :
  section_display p = Some "none" -> grid p = Some children -> (List.length children <= 1)%nat ->
  JSON_parse (stored_text (storage p)) = Some (JArr []) ->
  grid (run p [Click]) = Some [NoStreamsMessage] /\
  grid (run p [Click; Click; Click]) = Some [NoStreamsMessage] /\
  section_display (run p [Click; Click; Click]) = Some "block".
Proof.
  intros Hd Hg Hc Hp.
  pose proof (open_renders p children [] Hd Hg Hc Hp ltac:(constructor)) as H1.
  cbn [run fold_left step]. rewrite H1. cbn [fst].
  rewrite (click_close (Page (Some "block") "Hide Past Streams" (Some [NoStreamsMessage]) (storage p)) "block")
    by (reflexivity || discriminate). cbn [fst grid storage].
  rewrite (open_renders _ [NoStreamsMessage] []) by (reflexivity || exact Hp || constructor).
  repeat split.
Qed.

(** C26: Once the grid holds more than one card, the panel never renders
    again: hiding it, saving a new recording and showing it again leaves
    the grid as it was, although the stored list now starts with the new
    record (saved at a time of the ECMAScript range). *)
Theorem stale_panel (p : page) (children : list node) (l : list json) (t d : json) (n : Z) (today : string) :
  section_display p = Some "block" -> grid p = Some children -> (1 < List.length children)%nat ->
  JSON_parse (stored_text (storage p)) = Some (JArr l) -> wf_b (JArr l) = true ->
  time_value_ok n = true -> wf_b t = true -> wf_b d = true ->
  let p' := run p [Click; Save t d n today; Click] in
  section_display p' = Some "block" /\ grid p' = Some children /\
  JSON_parse (stored_text (storage p')) = Some (JArr (newStream t d n today :: l)).
Proof.
  intros Hd Hg Hc Hp Hl Hn Ht Hdu. cbv zeta.
  set (p1 := fst (click p)).
  assert (Hp1 : p1 = Page (Some "none") "View Past Streams" (grid p) (storage p))
    by (unfold p1; rewrite (click_close p "block"); [reflexivity | exact Hd | discriminate]).
  assert (Hs1 : JSON_parse (stored_text (storage p1)) = Some (JArr l)) by (rewrite Hp1; exact Hp).
  destruct (save_step p1 l t d n today Hs1 Hl Hn Ht Hdu) as [Hs2 _].
  change (run p [Click; Save t d n today; Click]) with (fst (click (step p1 (Save t d n today)))).
  revert Hs2. rewrite Hp1. cbn [step section_display grid storage button_text]. intros Hs2.
  unfold click. cbn [section_display String.eqb]. simpl. unfold loadPastStreams. cbn [grid].
  rewrite Hg. destruct (Nat.ltb_spec 1 (List.length children)); [|lia].
  split; [reflexivity|]. split; [reflexivity | exact Hs2].
Qed.

(** C27: Opening the panel on bad stored data throws after showing the
    panel: text that is no JSON leaves the grid empty, and a [null]
    entry stops the rendering after the cards of the entries before it. *)
Theorem load_errors (p : page) (children : list node) :
  section_display p = Some "none" -> grid p = Some children -> (List.length children <= 1)%nat ->
  (JSON_parse (stored_text (storage p)) = None ->
   click p = (Page (Some "block") "Hide Past Streams" (Some []) (storage p), false)) /\
  (forall l1 l2, JSON_parse (stored_text (storage p)) = Some (JArr (l1 ++ JNull :: l2)) ->
   Forall (fun s => s <> JNull) l1 ->
   click p = (Page (Some "block") "Hide Past Streams" (Some (map stream_card l1)) (storage p), false)).
Proof.
  intros Hd Hg Hc. rewrite (click_open p children Hd Hg Hc). split.
  - intros H. now rewrite H.
  - intros l1 l2 H Hl1. rewrite H. cbn [length_is_zero].
    rewrite length_app. simpl. rewrite Nat.add_comm. simpl.
    now rewrite render_stop.
Qed.

(** C28: [saveStreamRecording] saves nothing and throws when the stored
    text is not a JSON array: no JSON at all ([SyntaxError]) or another
    JSON value ([unshift] is not a function). *)
Theorem save_rejects (st : gmap string string) (t d : json) (n : Z) (today : string) :
  (forall l, JSON_parse (stored_text st) <> Some (JArr l)) ->
  saveStreamRecording t d n today st = (st, false).
Proof.
  intros H. unfold saveStreamRecording.
  destruct (JSON_parse (stored_text st)) as [[| | | | l |]|]; try reflexivity.
  exfalso. exact (H l eq_refl).
Qed.

(** C29: The notify form and the past-streams widget share
    [localStorage] without interfering: a submission of the form leaves
    the stored past-streams text as it was, and [saveStreamRecording]
    leaves the stored email as it was. *)
Theorem widgets_independent (f : Notify.form) (c : timers Notify.task) :
  stored_text (Notify.storage (fst (fst (Notify.submit (f, c))))) = stored_text (Notify.storage f) /\
  (forall t d n today st, fst (saveStreamRecording t d n today st) !! Notify.storage_key = st !! Notify.storage_key).
Proof.
  split; [apply submit_stored_text|].
  intros t d n today st. unfold saveStreamRecording.
  destruct (JSON_parse (stored_text st)) as [[| | | | l |]|]; try reflexivity.
  apply lookup_insert_ne. discriminate.
Qed.

(** The type of the stored list: the text under ["pastStreams"] (or
    ["[]"] when absent or empty) is a JSON array of JSON-safe values. *)
Definition streams_typed (st : gmap string string) : Prop :=
  exists l, JSON_parse (stored_text st) = Some (JArr l) /\ wf_b (JArr l) = true.

(** C40: The past-streams entry of [localStorage] keeps its type under
    every operation of the page that touches the store: it holds on the
    empty store; on a typed store [saveStreamRecording] with JSON-safe
    arguments, at a time of the ECMAScript range, does not throw and leaves the store typed; the notify
    form's submission and the panel's button keep it typed. *)
Theorem stored_streams_typed (st : gmap string string) :
  streams_typed ∅ /\
  (streams_typed st ->
   (forall t d n today, time_value_ok n = true -> wf_b t = true -> wf_b d = true ->
      snd (saveStreamRecording t d n today st) = true /\ streams_typed (fst (saveStreamRecording t d n today st))) /\
   (forall f c, Notify.storage f = st -> streams_typed (Notify.storage (fst (fst (Notify.submit (f, c)))))) /\
   (forall p, storage p = st -> streams_typed (storage (fst (click p))))).
Proof.
  split; [exists []; split; reflexivity|].
  intros (l & Hp & Hw). split; [|split].
  - intros t d n today Hn Ht Hd. unfold saveStreamRecording. rewrite Hp. split; [reflexivity|].
    assert (Hw' : wf_b (JArr (newStream t d n today :: l)) = true)
      by (change (wf_b (newStream t d n today) && forallb wf_b l = true); now rewrite wf_newStream, Ht, Hd by exact Hn).
    exists (newStream t d n today :: l). split; [|exact Hw'].
    cbn [fst]. rewrite stored_text_insert. now apply JSON_roundtrip.
  - intros f c <-. exists l. now rewrite submit_stored_text.
  - intros p <-. exists l. now rewrite click_storage.
Qed.

End StreamsClaims.

Module StreamsWitnesses.
Import Streams JsonProps StreamsProps StreamsClaims.

(** A page whose markup holds one placeholder, with empty storage. *)
Definition p0 : page := Page (Some "none") "View Past Streams" (Some [Markup "placeholder"]) ∅.

Definition two_saves : list event :=
  [Save (JStr "Speedrun") (JStr "1h") 1000 "11/9/2026"; Save (JStr "Chill") (JNum (JFin 90)) 2000 "11/10/2026"].

Definition p1 : page := run p0 two_saves.

Definition shown_twice : page :=
  Page (Some "block") "Hide Past Streams"
    (Some [StreamCard "Chill" "11/10/2026" "90"; StreamCard "Speedrun" "11/9/2026" "1h"]) (storage p1).

Definition bad_storage : gmap string string := <[pastStreams_key := "{oops"]> ∅.

Definition p_bad : page := Page (Some "none") "View Past Streams" (Some []) bad_storage.

Lemma saves_newest_first_witness :
  (JSON_parse (stored_text (storage p0)) = Some (JArr []) /\ wf_b (JArr []) = true /\
   forallb save_ok two_saves = true) /\
  JSON_parse (stored_text (storage (run p0 two_saves))) = Some (JArr (rev (flat_map saved two_saves) ++ [])).
Proof.
  split; [repeat split; vm_compute; reflexivity|].
  apply saves_newest_first; vm_compute; reflexivity.
Defined.

Lemma open_renders_witness :
  JSON_parse (stored_text (storage p1)) =
    Some (JArr [newStream (JStr "Chill") (JNum (JFin 90)) 2000 "11/10/2026";
                newStream (JStr "Speedrun") (JStr "1h") 1000 "11/9/2026"]) /\
  click p1 = (Page (Some "block") "Hide Past Streams"
                (Some (map stream_card [newStream (JStr "Chill") (JNum (JFin 90)) 2000 "11/10/2026";
                                        newStream (JStr "Speedrun") (JStr "1h") 1000 "11/9/2026"]))
                (storage p1), true).
Proof.
  split; [vm_compute; reflexivity|].
  apply (open_renders p1 [Markup "placeholder"]
           [newStream (JStr "Chill") (JNum (JFin 90)) 2000 "11/10/2026";
            newStream (JStr "Speedrun") (JStr "1h") 1000 "11/9/2026"]); try (vm_compute; reflexivity).
  repeat constructor; discriminate.
Defined.

Lemma toggle_placeholder_once_witness :
  grid (run p0 [Click]) = Some [NoStreamsMessage] /\
  grid (run p0 [Click; Click; Click]) = Some [NoStreamsMessage] /\
  section_display (run p0 [Click; Click; Click]) = Some "block".
Proof. apply (toggle_placeholder_once p0 [Markup "placeholder"]); vm_compute; reflexivity. Defined.

Lemma stale_panel_witness :
  let p' := run shown_twice [Click; Save (JStr "Third") (JStr "2h") 3000 "11/11/2026"; Click] in
  section_display p' = Some "block" /\
  grid p' = Some [StreamCard "Chill" "11/10/2026" "90"; StreamCard "Speedrun" "11/9/2026" "1h"] /\
  JSON_parse (stored_text (storage p')) =
    Some (JArr [newStream (JStr "Third") (JStr "2h") 3000 "11/11/2026";
                newStream (JStr "Chill") (JNum (JFin 90)) 2000 "11/10/2026";
                newStream (JStr "Speedrun") (JStr "1h") 1000 "11/9/2026"]).
Proof. apply stale_panel; vm_compute; reflexivity. Defined.

Lemma load_errors_witness :
  JSON_parse (stored_text (storage p_bad)) = None /\
  click p_bad = (Page (Some "block") "Hide Past Streams" (Some []) (storage p_bad), false).
Proof.
  split; [vm_compute; reflexivity|].
  apply (proj1 (load_errors p_bad [] eq_refl eq_refl ltac:(simpl; lia))). vm_compute. reflexivity.
Defined.

(** A stored duration with a fraction and an exponent is a double
    [JSON.parse] reads, and the card prints it back. *)
Definition qt : string := String quote EmptyString.

Definition fraction_storage : gmap string string :=
  <[pastStreams_key := "[{" ++ qt ++ "duration" ++ qt ++ ":1.5}, {" ++ qt ++ "duration" ++ qt ++ ":25e-1}]"]> ∅.

Lemma fraction_duration_renders :
  JSON_parse (stored_text fraction_storage) =
    Some (JArr [JObj [("duration", JNum (JFin (3 # 2)))]; JObj [("duration", JNum (JFin (5 # 2)))]]) /\
  click (Page (Some "none") "View Past Streams" (Some []) fraction_storage) =
    (Page (Some "block") "Hide Past Streams"
       (Some [StreamCard "undefined" "undefined" "1.5"; StreamCard "undefined" "undefined" "2.5"])
       fraction_storage, true).
Proof. split; vm_compute; reflexivity. Qed.

Lemma save_rejects_witness :
  (forall l, JSON_parse (stored_text bad_storage) <> Some (JArr l)) /\
  saveStreamRecording (JStr "Fourth") (JStr "1h") 4000 "11/12/2026" bad_storage = (bad_storage, false).
Proof.
  assert (H : forall l, JSON_parse (stored_text bad_storage) <> Some (JArr l))
    by (intros l; vm_compute; discriminate).
  split; [exact H | apply save_rejects, H].
Defined.

Lemma stored_streams_typed_witness :
  streams_typed ∅ /\ snd (saveStreamRecording (JStr "Speedrun") (JStr "1h") 1000 "11/9/2026" ∅) = true /\
  streams_typed (fst (saveStreamRecording (JStr "Speedrun") (JStr "1h") 1000 "11/9/2026" ∅)).
Proof.
  destruct (stored_streams_typed ∅) as [H0 H]. split; [exact H0|].
  apply (proj1 (H H0)); reflexivity.
Defined.

End StreamsWitnesses.
