(* ===== verification/Observe.v ===== *)
(** * Reveal-on-scroll and lazy images (script.js 37-58, 228-240)

  Module [Dom] is the store of the page's elements the effects restyle:
  a [gmap nat element] from an element's identity to its inline style
  and its [src] and [data-src] attributes.  The lists of
  [querySelectorAll] are lists of identities, so an element found by two
  selectors (a [.project-card] is revealed and tilted) is one entry of
  the store, as it is one object in the browser.

  An [IntersectionObserver] is the list of its observed targets; the
  browser delivers a batch of entries [(target, isIntersecting)], each
  for a target observed when the batch was taken ([batch_ok]).
  Module [Reveal] models [observer]: the setup loop hides the
  [.about-content, .project-card, .social-card, .skill-item] elements
  and observes them; its callback shows every intersecting target.
  Module [Lazy] models [imageObserver]: each intersecting image gets
  [src = dataset.src], loses [data-src] and is unobserved.  A batch may
  report one image more than once (an entry is queued at every crossing
  between two callback runs); [first_hits] counts the intersecting
  entries of the first batch that reports an image, and the refinement
  theorem of [Lazy] gives the [src] an image ends with in terms of it. *)

From Stdlib Require Import QArith List String ZArith Lia Bool.
From stdpp Require Import base gmap strings.
From S2P Require Import Prelude.
Import ListNotations.
Open Scope string_scope.

Module Dom.

(** [style.transform] as the code writes it: a literal, a tilt built
    from two angles, or a translation built from two numbers. *)
Inductive transform :=
| TStr (s : string)
| TTilt (rotateX rotateY : Q)
| TTranslate (moveX moveY : jsnum).

Record style := Style {
  opacity : string;
  transform_of : transform;
  transition : string;
  animationDelay : string
}.

Record element := El {
  el_style : style;
  src : option string;
  data_src : option string
}.

Abbreviation dom := (gmap nat element).

Definition set_style (f : style -> style) (e : element) : element :=
  El (f (el_style e)) (src e) (data_src e).

(** Apply [f] to the element [id]; the lists the code walks only hold
    elements of the page. *)
Definition update_el (id : nat) (f : element -> element) (d : dom) : dom :=
  match d !! id with
  | Some e => <[id := f e]> d
  | None => d
  end.

(** An intersection observer: its observed targets, in order. *)
Definition observer := list nat.

(** A batch of entries the browser may deliver: each target was
    observed when the batch was taken. *)
Definition batch_ok (obs : observer) (entries : list (nat * bool)) : bool :=
  forallb (fun en => existsb (Nat.eqb (fst en)) obs) entries.

End Dom.

Module Reveal.
Import Dom.

Definition hide (s : style) : style :=
  Style "0" (TStr "translateY(30px)") "all 0.6s ease" (animationDelay s).

Definition show (s : style) : style :=
  Style "1" (TStr "translateY(0)") (transition s) (animationDelay s).

(** [animatedElements.forEach(el => { ...; observer.observe(el); })]. *)
Definition setup (animatedElements : list nat) (d : dom) : dom * observer :=
  (fold_left (fun (d : dom) (id : nat) => update_el id (set_style hide) d) animatedElements d, animatedElements).

(** The observer's callback on one batch. *)
Definition callback (entries : list (nat * bool)) (d : dom) : dom :=
  fold_left (fun (d : dom) (en : nat * bool) => if snd en then update_el (fst en) (set_style show) d else d) entries d.

End Reveal.

Module Lazy.
Import Dom.

(** [img.src = img.dataset.src; img.removeAttribute('data-src')]; a
    missing [data-src] reads as [undefined], which [src] stores as the
    string ["undefined"]. *)
Definition load (e : element) : element :=
  El (el_style e) (Some (match data_src e with Some s => s | None => "undefined" end)) None.

Definition unobserve (id : nat) (obs : observer) : observer :=
  List.filter (fun x => negb (Nat.eqb x id)) obs.

(** [images = querySelectorAll('img[data-src]')], each observed. *)
Definition setup (images : list nat) (d : dom) : observer :=
  List.filter (fun id => match d !! id with Some e => bool_decide (data_src e <> None) | None => false end) images.

(** The callback on one batch: the entries were taken before it ran, so
    unobserving does not remove later entries of the same batch. *)
Definition callback (entries : list (nat * bool)) (st : dom * observer) : dom * observer :=
  fold_left (fun (st : dom * observer) (en : nat * bool) =>
      if snd en then (update_el (fst en) load (fst st), unobserve (fst en) (snd st)) else st)
    entries st.

(** Batches delivered one after another. *)
Definition run (batches : list (list (nat * bool))) (st : dom * observer) : dom * observer :=
  fold_left (fun st b => callback b st) batches st.

End Lazy.

Module ObserveProps.
Import Dom.

Lemma update_el_lookup (j : nat) (f : element -> element) (d : dom) (id : nat) :
  update_el j f d !! id = if Nat.eqb j id then option_map f (d !! id) else d !! id.
Proof.
  unfold update_el. destruct (Nat.eqb_spec j id) as [<-|Hne].
  - destruct (d !! j) eqn:E; [now rewrite lookup_insert_eq | now rewrite E].
  - destruct (d !! j); [now rewrite lookup_insert_ne | reflexivity].
Qed.

(** Entries of a batch that report [id] intersecting. *)
Definition hits (b : list (nat * bool)) (id : nat) : nat :=
  List.length (List.filter (fun en => Nat.eqb (fst en) id && snd en) b).

Lemma hits_cons (en : nat * bool) (b : list (nat * bool)) (id : nat) :
  hits (en :: b) id = ((if Nat.eqb (fst en) id && snd en then 1 else 0) + hits b id)%nat.
Proof. unfold hits. simpl. destruct (Nat.eqb (fst en) id && snd en); reflexivity. Qed.

(** An entry for a target that is not observed cannot be in the batch. *)
Lemma hits_unobserved (obs : observer) (b : list (nat * bool)) (id : nat) :
  batch_ok obs b = true -> ~ In id obs -> hits b id = 0%nat.
Proof.
  unfold batch_ok. induction b as [|[j x] b IH]; intros Hb Hin; [reflexivity|].
  simpl in Hb. apply andb_true_iff in Hb as [Hj Hb]. rewrite hits_cons, IH by assumption.
  simpl. destruct (Nat.eqb_spec j id) as [->|]; [|reflexivity].
  apply existsb_exists in Hj as (y & Hy & E). apply Nat.eqb_eq in E. subst. contradiction.
Qed.

Lemma iter_option_map_comm {A} (f : A -> A) (n : nat) (o : option A) :
  Nat.iter n (option_map f) (option_map f o) = option_map f (Nat.iter n (option_map f) o).
Proof. induction n as [|n IH]; simpl; [reflexivity | now rewrite IH]. Qed.

(** ** Reveal *)

Lemma show_idem (e : element) : set_style Reveal.show (set_style Reveal.show e) = set_style Reveal.show e.
Proof. reflexivity. Qed.

Lemma hide_idem (e : element) : set_style Reveal.hide (set_style Reveal.hide e) = set_style Reveal.hide e.
Proof. reflexivity. Qed.

(** Whether a batch reports [id] intersecting. *)
Definition reports (b : list (nat * bool)) (id : nat) : bool :=
  existsb (fun en => Nat.eqb (fst en) id && snd en) b.

Lemma reveal_callback_lookup (b : list (nat * bool)) (d : dom) (id : nat) :
  Reveal.callback b d !! id =
  if reports b id then option_map (set_style Reveal.show) (d !! id) else d !! id.
Proof.
  revert d. induction b as [|[j x] b IH]; intros d; [reflexivity|].
  unfold Reveal.callback. cbn [fold_left fst snd]. fold (Reveal.callback b).
  rewrite IH. unfold reports. cbn [existsb fst snd]. fold (reports b id).
  destruct x; cbn [andb]; [rewrite update_el_lookup|rewrite Bool.andb_false_r; reflexivity].
  destruct (Nat.eqb j id), (reports b id); cbn [orb]; try reflexivity.
  destruct (d !! id); [cbn; now rewrite show_idem | reflexivity].
Qed.

Lemma reveal_setup_lookup (animated : list nat) (d : dom) (id : nat) :
  fst (Reveal.setup animated d) !! id =
  if existsb (Nat.eqb id) animated then option_map (set_style Reveal.hide) (d !! id) else d !! id.
Proof.
  unfold Reveal.setup. cbn [fst]. revert d. induction animated as [|j l IH]; intros d; [reflexivity|].
  cbn [fold_left existsb]. rewrite IH, update_el_lookup, (Nat.eqb_sym j id).
  destruct (Nat.eqb id j), (existsb (Nat.eqb id) l); cbn [orb]; try reflexivity.
  destruct (d !! id); [cbn; now rewrite hide_idem | reflexivity].
Qed.

(** ** Lazy images *)

Lemma unobserve_hits (obs : observer) (j : nat) (b : list (nat * bool)) :
  List.filter (fun x => Nat.eqb (hits b x) 0) (Lazy.unobserve j obs) =
  List.filter (fun x => Nat.eqb (hits ((j, true) :: b) x) 0) obs.
Proof.
  induction obs as [|x obs IH]; [reflexivity|].
  unfold Lazy.unobserve. cbn [List.filter]. fold (Lazy.unobserve j obs).
  rewrite hits_cons. cbn [fst snd]. rewrite Bool.andb_true_r.
  destruct (Nat.eqb_spec x j) as [->|Hne].
  - rewrite Nat.eqb_refl. exact IH.
  - rewrite (proj2 (Nat.eqb_neq j x)) by congruence. cbn [negb Nat.add List.filter].
    destruct (Nat.eqb (hits b x) 0); now rewrite IH.
Qed.

Lemma lazy_callback_dom (b : list (nat * bool)) (st : dom * observer) (id : nat) :
  fst (Lazy.callback b st) !! id = Nat.iter (hits b id) (option_map Lazy.load) (fst st !! id).
Proof.
  revert st. induction b as [|[j x] b IH]; intros st; [reflexivity|].
  unfold Lazy.callback. cbn [fold_left fst snd]. fold (Lazy.callback b).
  rewrite IH, hits_cons. cbn [fst snd]. destruct x; [|rewrite Bool.andb_false_r; reflexivity].
  cbn [fst]. rewrite update_el_lookup, Bool.andb_true_r. destruct (Nat.eqb j id); [|reflexivity].
  apply iter_option_map_comm.
Qed.

Lemma lazy_callback_obs (b : list (nat * bool)) (st : dom * observer) :
  snd (Lazy.callback b st) = List.filter (fun x => Nat.eqb (hits b x) 0) (snd st).
Proof.
  revert st. induction b as [|[j x] b IH]; intros st.
  - destruct st as [d o]. cbn. induction o as [|y l IHl]; [reflexivity|]. cbn. f_equal. exact IHl.
  - unfold Lazy.callback. cbn [fold_left fst snd]. fold (Lazy.callback b). rewrite IH.
    destruct x; cbn [snd]; [apply unobserve_hits|].
    apply filter_ext. intros y. rewrite hits_cons. cbn [fst snd]. now rewrite Bool.andb_false_r.
Qed.

End ObserveProps.

Module ObserveClaims.
Import Dom ObserveProps.

(** The abstract state of an observer's history: the targets some batch
    reported intersecting. *)
Definition seen (batches : list (list (nat * bool))) (id : nat) : bool :=
  existsb (fun b => reports b id) batches.

Lemma reveal_batches_lookup (batches : list (list (nat * bool))) (d : dom) (id : nat) :
  fold_left (fun d b => Reveal.callback b d) batches d !! id =
  if seen batches id then option_map (set_style Reveal.show) (d !! id) else d !! id.
Proof.
  revert d. induction batches as [|b bs IH]; intros d; [reflexivity|].
  cbn [fold_left seen existsb]. fold (seen bs id). rewrite IH, reveal_callback_lookup.
  destruct (reports b id), (seen bs id); cbn [orb]; try reflexivity.
  destruct (d !! id); [cbn; now rewrite show_idem | reflexivity].
Qed.

(** C30: Reveal-on-scroll refines "shown iff ever seen": after the setup
    and any batches of entries, an element of [animatedElements] has the
    hidden style ([opacity 0], [translateY(30px)]) until a batch reports
    it intersecting, and the shown style ([opacity 1], [translateY(0)])
    from then on, whatever later batches say; no other element changes
    unless a batch reports it. *)
Theorem reveal_refines (animated : list nat) (d : dom) (batches : list (list (nat * bool))) (id : nat) :
  fold_left (fun d b => Reveal.callback b d) batches (fst (Reveal.setup animated d)) !! id =
  option_map (fun e =>
      let s := el_style e in
      let tr := if existsb (Nat.eqb id) animated then "all 0.6s ease" else transition s in
      if seen batches id then El (Style "1" (TStr "translateY(0)") tr (animationDelay s)) (src e) (data_src e)
      else if existsb (Nat.eqb id) animated
      then El (Style "0" (TStr "translateY(30px)") tr (animationDelay s)) (src e) (data_src e)
      else e) (d !! id).
Proof.
  rewrite reveal_batches_lookup, reveal_setup_lookup.
  destruct (d !! id) as [[[] ? ?]|], (existsb (Nat.eqb id) animated), (seen batches id); reflexivity.
Qed.

Lemma reports_hits (b : list (nat * bool)) (id : nat) : reports b id = negb (Nat.eqb (hits b id) 0).
Proof.
  induction b as [|en b IH]; [reflexivity|]. unfold reports in *. cbn [existsb].
  rewrite IH, hits_cons. destruct (Nat.eqb (fst en) id && snd en); reflexivity.
Qed.

(** The runs the browser can produce for [imageObserver]: each batch only
    reports targets observed when it was taken (a target may be reported
    more than once in a batch, see C32). *)
Fixpoint runs_ok (batches : list (list (nat * bool))) (obs : observer) : bool :=
  match batches with
  | [] => true
  | b :: r => batch_ok obs b && runs_ok r (List.filter (fun x => Nat.eqb (hits b x) 0) obs)
  end.

(** How many intersecting entries for [id] the first batch that reports
    it holds ([0]: no batch does). *)
Fixpoint first_hits (batches : list (list (nat * bool))) (id : nat) : nat :=
  match batches with
  | [] => O
  | b :: r => match hits b id with O => first_hits r id | n => n end
  end.

Lemma load_twice (n : nat) (o : option element) :
  Nat.iter (S (S n)) (option_map Lazy.load) o =
  option_map (fun e => El (el_style e) (Some "undefined") None) o.
Proof.
  induction n as [|n IH]; [destruct o; reflexivity|].
  rewrite Nat.iter_succ, IH. destruct o; reflexivity.
Qed.

Lemma seen_unobserved (bs : list (list (nat * bool))) (o : observer) (id : nat) :
  runs_ok bs o = true -> ~ In id o -> seen bs id = false.
Proof.
  revert o. induction bs as [|b bs IH]; intros o Hok Hin; [reflexivity|].
  cbn [runs_ok] in Hok. apply andb_true_iff in Hok as [Hb Hr].
  cbn [seen existsb]. fold (seen bs id).
  rewrite reports_hits, (hits_unobserved o b id Hb Hin). cbn [negb orb Nat.eqb].
  apply (IH _ Hr). intros Hf. apply filter_In in Hf as [Hf _]. contradiction.
Qed.

Lemma first_hits_unobserved (bs : list (list (nat * bool))) (o : observer) (id : nat) :
  runs_ok bs o = true -> ~ In id o -> first_hits bs id = O.
Proof.
  revert o. induction bs as [|b bs IH]; intros o Hok Hin; [reflexivity|].
  cbn [runs_ok] in Hok. apply andb_true_iff in Hok as [Hb Hr].
  cbn [first_hits]. rewrite (hits_unobserved o b id Hb Hin).
  apply (IH _ Hr). intros Hf. apply filter_In in Hf as [Hf _]. contradiction.
Qed.

(** The image after a run: [load] as many times as the first batch that
    reports it has intersecting entries. *)
Lemma lazy_run_iter (bs : list (list (nat * bool))) (d : dom) (o : observer) (id : nat) :
  runs_ok bs o = true ->
  fst (Lazy.run bs (d, o)) !! id = Nat.iter (first_hits bs id) (option_map Lazy.load) (d !! id) /\
  (In id (snd (Lazy.run bs (d, o))) <-> In id o /\ seen bs id = false).
Proof.
  revert d o. induction bs as [|b bs IH]; intros d o Hok; [cbn; split; [reflexivity | tauto]|].
  cbn [runs_ok] in Hok. apply andb_true_iff in Hok as [Hb Hr].
  change (Lazy.run (b :: bs) (d, o)) with (Lazy.run bs (Lazy.callback b (d, o))).
  destruct (Lazy.callback b (d, o)) as [d1 o1] eqn:E.
  assert (Hd1 : d1 !! id = Nat.iter (hits b id) (option_map Lazy.load) (d !! id))
    by (change d1 with (fst (d1, o1)); rewrite <- E; apply lazy_callback_dom).
  assert (Ho1 : o1 = List.filter (fun x => Nat.eqb (hits b x) 0) o)
    by (change o1 with (snd (d1, o1)); rewrite <- E; apply lazy_callback_obs).
  subst o1. destruct (IH d1 _ Hr) as [IHd IHo].
  cbn [seen existsb first_hits]. fold (seen bs id). rewrite reports_hits. rewrite IHd, IHo, Hd1, filter_In.
  destruct (in_dec Nat.eq_dec id o) as [Hin|Hin].
  - destruct (hits b id) as [|k] eqn:Hh; [cbn; split; [reflexivity | tauto]|].
    rewrite (first_hits_unobserved bs _ id Hr) by (rewrite filter_In, Hh; intros [_ ?]; discriminate).
    rewrite (seen_unobserved bs _ id Hr) by (rewrite filter_In, Hh; intros [_ ?]; discriminate).
    cbn. split; [reflexivity | intuition discriminate].
  - rewrite (hits_unobserved o b id Hb Hin).
    rewrite (seen_unobserved bs _ id Hr) by (rewrite filter_In; tauto).
    cbn. split; [reflexivity | tauto].
Qed.

Lemma first_hits_seen (bs : list (list (nat * bool))) (id : nat) :
  first_hits bs id = O <-> seen bs id = false.
Proof.
  induction bs as [|b bs IH]; [tauto|]. cbn [first_hits seen existsb]. fold (seen bs id).
  rewrite reports_hits. destruct (hits b id); cbn; [exact IH | split; discriminate].
Qed.

(** C31: Lazy loading in every run the browser can produce (each batch
    reports only images observed when it was taken): an image no batch
    reported intersecting is unchanged and still observed; an image some
    batch reported is unobserved, loses [data-src], and gets [src] set to
    its original [data-src] when the first batch reporting it held one
    intersecting entry for it, and to the string ["undefined"] when that
    batch held two or more. *)
Theorem lazy_refines (bs : list (list (nat * bool))) (d : dom) (o : observer) (id : nat) :
  runs_ok bs o = true ->
  fst (Lazy.run bs (d, o)) !! id =
    (if seen bs id then
       option_map (fun e => El (el_style e)
         (Some (if Nat.eqb (first_hits bs id) 1 then match data_src e with Some s => s | None => "undefined" end
                else "undefined")) None) (d !! id)
     else d !! id) /\
  (In id (snd (Lazy.run bs (d, o))) <-> In id o /\ seen bs id = false).
Proof.
  intros Hok. destruct (lazy_run_iter bs d o id Hok) as [Hd Ho]. split; [|exact Ho].
  rewrite Hd. destruct (seen bs id) eqn:Es.
  - destruct (first_hits bs id) as [|[|k]] eqn:Ef.
    + apply first_hits_seen in Ef. congruence.
    + destruct (d !! id); reflexivity.
    + rewrite load_twice. reflexivity.
  - apply first_hits_seen in Es. now rewrite Es.
Qed.

(** C32: Two entries reporting the same image intersecting in one batch
    (the browser queues an entry at every crossing between two callback
    runs) break the image: the second one finds [data-src] removed and
    sets [src] to the string ["undefined"]. *)
Theorem lazy_duplicate_entry (d : dom) (o : observer) (id : nat) (e : element) (s : string) :
  d !! id = Some e -> data_src e = Some s ->
  fst (Lazy.callback [(id, true); (id, true)] (d, o)) !! id = Some (El (el_style e) (Some "undefined") None).
Proof.
  intros He Hs. rewrite lazy_callback_dom. unfold hits. cbn [List.filter fst snd].
  rewrite Nat.eqb_refl. cbn. now rewrite He.
Qed.

End ObserveClaims.

Module ObserveWitnesses.
Import Dom ObserveProps ObserveClaims.

Definition plain : style := Style EmptyString (TStr EmptyString) EmptyString EmptyString.

(** Two images with [data-src], observed in document order. *)
Definition imgs : dom :=
  <[1 := El plain None (Some "a.png")]> (<[2 := El plain None (Some "b.png")]> ∅).

(** Image 1 is reported once, image 2 twice in the second batch. *)
Definition two_batches : list (list (nat * bool)) := [[(1, true); (2, false)]; [(2, true); (2, true)]].

Lemma lazy_refines_witness :
  runs_ok two_batches [1; 2] = true /\
  fst (Lazy.run two_batches (imgs, [1; 2])) !! 2 =
    (if seen two_batches 2 then
       option_map (fun e => El (el_style e)
         (Some (if Nat.eqb (first_hits two_batches 2) 1 then match data_src e with Some s => s | None => "undefined" end
                else "undefined")) None) (imgs !! 2)
     else imgs !! 2) /\
  (In 2 (snd (Lazy.run two_batches (imgs, [1; 2]))) <-> In 2 [1; 2] /\ seen two_batches 2 = false).
Proof.
  assert (H : runs_ok two_batches [1; 2] = true) by (vm_compute; reflexivity).
  split; [exact H | apply lazy_refines, H].
Defined.

Lemma lazy_duplicate_entry_witness :
  imgs !! 1 = Some (El plain None (Some "a.png")) /\
  fst (Lazy.callback [(1, true); (1, true)] (imgs, [1; 2])) !! 1 = Some (El plain (Some "undefined") None).
Proof.
  assert (H : imgs !! 1 = Some (El plain None (Some "a.png"))) by (vm_compute; reflexivity).
  split; [exact H | apply (lazy_duplicate_entry imgs [1; 2] 1 _ "a.png" H); reflexivity].
Defined.

End ObserveWitnesses.
