(* ===== verification/Stagger.v ===== *)
(** * The project-card stagger (script.js 63-66)

  Module [Stagger] models
  [projectCards.forEach((card, index) => card.style.animationDelay = `${index * 0.1}s`)]
  on the element store of [Observe.Dom]: [index * 0.1] is the binary64
  product of the index and the double nearest to [0.1], and the template
  literal prints it with [Number::toString] ([Binary64]).  [StaggerClaims]
  shows every card gets the delay of its own index, within a relative
  [2^-52] of [index / 10], and that the printed text reads back as that
  double ([Binary64]'s [toString_roundtrip]); the text is not [index / 10] itself
  (["0.30000000000000004s"] for the fourth card). *)

From Stdlib Require Import QArith Qround Lqa List String ZArith Lia Bool.
From stdpp Require Import base gmap strings.
From S2P Require Import Prelude Observe Binary64.
Import ListNotations Dom Binary64.
Open Scope string_scope.

Module Stagger.

(** The literal [0.1]. *)
Definition tenth : jsnum := round (1 # 10).

(** [`${index * 0.1}s`]. *)
Definition delay (index : nat) : string :=
  toString (mul (JFin (inject_Z (Z.of_nat index))) tenth) ++ "s".

Definition set_delay (t : string) (s : style) : style :=
  Style (opacity s) (transform_of s) (transition s) t.

(** [forEach] from position [index] on. *)
Fixpoint forEach_from (index : nat) (cards : list nat) (d : dom) : dom :=
  match cards with
  | [] => d
  | card :: rest => forEach_from (S index) rest (update_el card (set_style (set_delay (delay index))) d)
  end.

Definition stagger (projectCards : list nat) (d : dom) : dom := forEach_from 0 projectCards d.

End Stagger.

Module StaggerProps.
Import Stagger ObserveProps Binary64Props.

(** A card met again later would take the later index; the cards of
    [querySelectorAll] are distinct. *)
Lemma forEach_from_notin (cards : list nat) (k id : nat) (d : dom) :
  ~ In id cards -> forEach_from k cards d !! id = d !! id.
Proof.
  revert k d. induction cards as [|c cards IH]; intros k d Hn; [reflexivity|]. cbn [forEach_from].
  rewrite IH by (intros H; apply Hn; now right). rewrite update_el_lookup.
  destruct (Nat.eqb_spec c id) as [->|]; [exfalso; apply Hn; now left | reflexivity].
Qed.

Lemma forEach_from_lookup (cards : list nat) (k i id : nat) (d : dom) :
  List.NoDup cards -> nth_error cards i = Some id ->
  forEach_from k cards d !! id = option_map (set_style (set_delay (delay (k + i)))) (d !! id).
Proof.
  revert k i d. induction cards as [|c cards IH]; intros k i d Hnd Hi; [now destruct i|].
  inversion Hnd as [|? ? Hc Hnd']; subst. cbn [forEach_from].
  destruct i as [|i]; cbn [nth_error] in Hi.
  - injection Hi as <-. rewrite forEach_from_notin by exact Hc.
    now rewrite update_el_lookup, Nat.eqb_refl, Nat.add_0_r.
  - rewrite (IH (S k) i) by assumption. rewrite update_el_lookup.
    destruct (Nat.eqb_spec c id) as [->|]; [exfalso; apply Hc; eapply nth_error_In; eauto|].
    now replace (S k + i)%nat with (k + S i)%nat by lia.
Qed.

(** The literal [0.1] is the double [3602879701896397 / 2^55], within
    [2^-54] of [1/10] relatively. *)
Lemma tenth_value : tenth = JFin (7205759403792794 # 72057594037927936).
Proof. vm_compute. reflexivity. Qed.

(** The product of a card index and [0.1], within a relative [2^-52]
    of [index / 10]. *)
Lemma delay_value (i : nat) :
  (Z.of_nat i < 2 ^ 53)%Z ->
  exists q, mul (JFin (inject_Z (Z.of_nat i))) tenth = JFin q /\ (q = 0 \/ is_normal q) /\
    - (inject_Z (Z.of_nat i) / 10 * pow2 (-52)) <= q - inject_Z (Z.of_nat i) / 10 <=
    inject_Z (Z.of_nat i) / 10 * pow2 (-52).
Proof.
  intros Hi. rewrite tenth_value. cbn [mul].
  set (I := inject_Z (Z.of_nat i)).
  assert (HI : 0 <= I) by (unfold I; change 0 with (inject_Z 0); rewrite <- Zle_Qle; lia).
  assert (HIm : I < 9007199254740992) by (unfold I; change 9007199254740992 with (inject_Z (2 ^ 53)); rewrite <- Zlt_Qlt; exact Hi).
  change (pow2 (-52)) with (1 # 4503599627370496).
  destruct (Qeq_dec I 0) as [H0|H0].
  - exists 0. split; [|split; [now left | rewrite H0; unfold Qdiv; simpl; lra]].
    unfold round. rewrite H0. reflexivity.
  - assert (H1 : 1 <= I).
    { unfold I in *. change 1 with (inject_Z 1). rewrite <- Zle_Qle. destruct i; [exfalso; apply H0; reflexivity | lia]. }
    rewrite round_gt0 by lra.
    destruct (round_pos_normal (I * (7205759403792794 # 72057594037927936))) as (v & Hv & Hn & Hb).
    + change (pow2 (-1022)) with (1 # Z.to_pos (2 ^ 1022)).
      assert (1 # Z.to_pos (2 ^ 1022) <= 1 # 10) by (vm_compute; discriminate). lra.
    + change (pow2 1023) with (inject_Z (2 ^ 1023)).
      assert (9007199254740992 <= inject_Z (2 ^ 1023)) by (vm_compute; discriminate). lra.
    + exists v. split; [exact Hv|]. split; [now right|]. change (pow2 (-53)) with (1 # 9007199254740992) in Hb.
      unfold Qdiv. change (/ 10) with (1 # 10). split; lra.
Qed.

(** Zero and the normal doubles print to a text that reads back. *)
Lemma reads_back (q : Q) :
  q = 0 \/ is_normal q -> exists D, Decimal.value (toString (JFin q)) = Some D /\ jsnum_eqb (round D) (JFin q) = true.
Proof. intros [->|Hn]; [eexists; split; reflexivity | apply ToStringProps.toString_roundtrip, Hn]. Qed.

End StaggerProps.

Module StaggerClaims.
Import Stagger StaggerProps Binary64Props ObserveProps.

(** C39: The stagger gives every project card the delay of its own
    index [i]: [toString(q) + "s"] where [q] is the double [i * 0.1]
    computes, within a relative [2^-52] of [i / 10] (for any index below
    [2^53]), and the printed number reads back as [q]
    ([Number(String(q)) === q]).  The text is the double's, not
    [i / 10]'s: the fourth card gets ["0.30000000000000004s"]. *)
Theorem stagger_delays (cards : list nat) (d : dom) (i id : nat) (e : element) :
  List.NoDup cards -> nth_error cards i = Some id -> d !! id = Some e -> (Z.of_nat i < 2 ^ 53)%Z ->
  exists q,
    stagger cards d !! id = Some (set_style (set_delay (toString (JFin q) ++ "s")) e) /\
    mul (JFin (inject_Z (Z.of_nat i))) tenth = JFin q /\
    - (inject_Z (Z.of_nat i) / 10 * pow2 (-52)) <= q - inject_Z (Z.of_nat i) / 10 <=
      inject_Z (Z.of_nat i) / 10 * pow2 (-52) /\
    (exists D, Decimal.value (toString (JFin q)) = Some D /\ jsnum_eqb (round D) (JFin q) = true).
Proof.
  intros Hnd Hi Hd Hlt. destruct (delay_value i Hlt) as (q & Hq & Hn & Hb).
  exists q. split; [|split; [exact Hq | split; [exact Hb|]]].
  - unfold stagger. rewrite (forEach_from_lookup cards 0 i id d Hnd Hi), Hd.
    cbn [option_map Nat.add]. unfold delay. now rewrite Hq.
  - exact (reads_back q Hn).
Qed.

End StaggerClaims.

Module StaggerWitnesses.
Import Stagger StaggerClaims.
Open Scope Q_scope.

Definition blank : element := El (Style "" (TStr "") "" "") None None.

Definition cards4 : list nat := [10; 11; 12; 13]%nat.

Definition d4 : dom := <[10%nat := blank]> (<[11%nat := blank]> (<[12%nat := blank]> (<[13%nat := blank]> ∅))).

Lemma stagger_delays_witness :
  (List.NoDup cards4 /\ nth_error cards4 3 = Some 13%nat /\ d4 !! 13%nat = Some blank /\ (Z.of_nat 3 < 2 ^ 53)%Z) /\
  (exists q,
    stagger cards4 d4 !! 13%nat = Some (set_style (set_delay (toString (JFin q) ++ "s")) blank) /\
    mul (JFin (inject_Z (Z.of_nat 3))) tenth = JFin q /\
    - (inject_Z (Z.of_nat 3) / 10 * pow2 (-52)) <= q - inject_Z (Z.of_nat 3) / 10 <=
      inject_Z (Z.of_nat 3) / 10 * pow2 (-52) /\
    (exists D, Decimal.value (toString (JFin q)) = Some D /\ jsnum_eqb (round D) (JFin q) = true)) /\
  option_map (fun e => animationDelay (el_style e)) (stagger cards4 d4 !! 13%nat) = Some "0.30000000000000004s".
Proof.
  assert (Hnd : List.NoDup cards4) by (repeat constructor; cbn; intuition discriminate).
  split; [split; [exact Hnd | split; [reflexivity | split; [reflexivity | lia]]]|]. split; [|vm_compute; reflexivity].
  apply (stagger_delays cards4 d4 3 13 blank); [exact Hnd | reflexivity | reflexivity | lia].
Defined.

End StaggerWitnesses.
