(* ===== verification/Pointer.v ===== *)
(** * Pointer effects (script.js 71-82, 152-201, 245-250)

  Module [Parallax] models the window [mousemove] listener that moves
  [.planet-system] by [(e.clientX / innerWidth - 0.5) * 20] pixels
  (and the same vertically), with the IEEE results of a zero
  [innerWidth].  Module [Glow] models the [.cursor-glow] element: shown
  and listening only when [innerWidth > 968] at script load, it follows
  the pointer with its 300px box centred on it.  Module [Tilt] models the
  [mousemove] and [mouseleave] listeners of each [.project-card] and the
  [mouseenter] listener of each [.social-card], on the element store of
  [Observe.Dom]: a card that is revealed and tilted is one element, so
  the three listeners and the reveal observer write the same
  [style.transform]. *)

From Stdlib Require Import QArith Lqa List String ZArith Lia Bool.
From stdpp Require Import base gmap strings.
From S2P Require Import Prelude Observe.
Import ListNotations Dom.
Open Scope string_scope.
Open Scope Q_scope.

Module Parallax.

(** [(e.clientX / window.innerWidth - 0.5) * 20]. *)
Definition move (client inner : Q) : jsnum :=
  js_mul (js_add (js_div client inner) (JFin (- (1 # 2)))) 20.

Definition transform_at (clientX clientY innerWidth innerHeight : Q) : transform :=
  TTranslate (move clientX innerWidth) (move clientY innerHeight).

(** The listener; [planet] is [.planet-system], [None] when absent. *)
Definition mousemove (planet : option nat) (clientX clientY innerWidth innerHeight : Q) (d : dom) : dom :=
  match planet with
  | None => d
  | Some id =>
      update_el id (set_style (fun s =>
        Style (opacity s) (transform_at clientX clientY innerWidth innerHeight)
              (transition s) (animationDelay s))) d
  end.

End Parallax.

Module Glow.

(** [.cursor-glow]'s [display], [left] and [top] ([None]: not set), and
    whether the [mousemove] listener was attached. *)
Record glow := Glow { display : string; left : option Q; top : option Q; listening : bool }.

(** Script load: the element is created hidden, shown with its listener
    only on a window wider than 968px. *)
Definition load (innerWidth : Q) : glow :=
  if Qltb 968 innerWidth then Glow "block" None None true else Glow "none" None None false.

Definition mousemove (clientX clientY : Q) (g : glow) : glow :=
  if listening g then Glow (display g) (Some (clientX - 150)) (Some (clientY - 150)) true else g.

Definition run (g : glow) (moves : list (Q * Q)) : glow :=
  fold_left (fun g m => mousemove (fst m) (snd m) g) moves g.

End Glow.

Module Tilt.

(** [card.getBoundingClientRect()]. *)
Record rect := Rect { r_left : Q; r_top : Q; r_width : Q; r_height : Q }.

(** [rotateX = (y - centerY) / 10], [rotateY = (centerX - x) / 10] with
    [x, y] relative to the card. *)
Definition angles (r : rect) (clientX clientY : Q) : Q * Q :=
  let x := clientX - r_left r in
  let y := clientY - r_top r in
  ((y - r_height r / 2) / 10, (r_width r / 2 - x) / 10).

Definition set_transform (t : transform) (s : style) : style :=
  Style (opacity s) t (transition s) (animationDelay s).

Definition leave_transform : transform :=
  TStr "perspective(1000px) rotateX(0) rotateY(0) translateY(0)".

Definition hover_transition : string := "all 0.4s cubic-bezier(0.175, 0.885, 0.32, 1.275)".

(** [card]'s [mousemove] listener. *)
Definition mousemove (card : nat) (r : rect) (clientX clientY : Q) (d : dom) : dom :=
  let (rx, ry) := angles r clientX clientY in
  update_el card (set_style (set_transform (TTilt rx ry))) d.

(** [card]'s [mouseleave] listener. *)
Definition mouseleave (card : nat) (d : dom) : dom :=
  update_el card (set_style (set_transform leave_transform)) d.

(** A [.social-card]'s [mouseenter] listener. *)
Definition mouseenter (card : nat) (d : dom) : dom :=
  update_el card (set_style (fun s => Style (opacity s) (transform_of s) hover_transition (animationDelay s))) d.

(** What can happen to one card: pointer events and observer entries. *)
Inductive card_event :=
| Move (r : rect) (clientX clientY : Q)
| Leave
| Enter
| Entry (isIntersecting : bool).

Definition card_step (card : nat) (d : dom) (ev : card_event) : dom :=
  match ev with
  | Move r x y => mousemove card r x y d
  | Leave => mouseleave card d
  | Enter => mouseenter card d
  | Entry b => Reveal.callback [(card, b)] d
  end.

Definition card_run (card : nat) (d : dom) (evs : list card_event) : dom :=
  fold_left (card_step card) evs d.

End Tilt.

Module PointerClaims.

(** C33: The parallax offset stays within 10px: with [innerWidth > 0]
    and the pointer in the window ([0 <= clientX <= innerWidth]),
    [moveX] is a finite number in [-10, 10]; with [innerWidth = 0] it is
    [Infinity] (or [NaN] at [clientX = 0]) and the CSS [translate] the
    code builds is invalid. *)
Theorem parallax_bounds (c w : Q) :
  0 <= c ->
  (0 < w -> c <= w -> exists q, Parallax.move c w = JFin q /\ -10 <= q <= 10) /\
  Parallax.move c 0 = (if Qeq_bool c 0 then JNaN else JPosInf).
Proof.
  intros Hc. split.
  - intros Hw Hcw. unfold Parallax.move, js_div.
    destruct (Qeq_bool w 0) eqn:E; qbool; [lra|]. cbn [js_add js_mul].
    eexists. split; [reflexivity|].
    assert (Hr : c / w * w == c) by (field; lra).
    assert (H0 : 0 <= c / w) by (apply Qle_shift_div_l; lra).
    assert (H1 : c / w <= 1) by (apply Qle_shift_div_r; lra).
    lra.
  - unfold Parallax.move, js_div. change (Qeq_bool 0 0) with true. cbv iota.
    destruct (Qeq_bool c 0) eqn:E; [reflexivity|]. qbool.
    replace (Qltb 0 c) with true by (symmetry; apply Qltb_iff; lra). reflexivity.
Qed.

Lemma glow_run_listening (g : Glow.glow) (ms : list (Q * Q)) (x y : Q) :
  Glow.listening g = true ->
  Glow.run g (ms ++ [(x, y)]) = Glow.Glow (Glow.display g) (Some (x - 150)) (Some (y - 150)) true.
Proof.
  revert g. induction ms as [|m ms IH]; intros g Hl.
  - unfold Glow.run. simpl. unfold Glow.mousemove. now rewrite Hl.
  - unfold Glow.run in *. simpl. rewrite IH; unfold Glow.mousemove; rewrite Hl; reflexivity.
Qed.

Lemma glow_run_idle (g : Glow.glow) (ms : list (Q * Q)) :
  Glow.listening g = false -> Glow.run g ms = g.
Proof.
  revert g. induction ms as [|m ms IH]; intros g Hl; [reflexivity|].
  unfold Glow.run in *. simpl. unfold Glow.mousemove at 2. rewrite Hl. now apply IH.
Qed.

(** C34: The cursor glow follows the pointer only on a window wider
    than 968px at load: there it is shown and, after any pointer moves,
    its 300px box is centred on the last pointer position; on a narrower
    window it stays hidden and never moves, even if the window is later
    widened (the test runs once, at load). *)
Theorem glow_follows (innerWidth : Q) (ms : list (Q * Q)) (x y : Q) :
  (968 < innerWidth ->
   Glow.run (Glow.load innerWidth) (ms ++ [(x, y)]) = Glow.Glow "block" (Some (x - 150)) (Some (y - 150)) true) /\
  (innerWidth <= 968 -> Glow.run (Glow.load innerWidth) ms = Glow.Glow "none" None None false).
Proof.
  unfold Glow.load. split; intros H.
  - replace (Qltb 968 innerWidth) with true by (symmetry; apply Qltb_iff, H).
    now apply glow_run_listening.
  - replace (Qltb 968 innerWidth) with false by (symmetry; apply Qltb_false, H).
    now apply glow_run_idle.
Qed.

(** C35: The tilt of a card is bounded by its size: with the pointer over
    the card's box, [|rotateX| <= height / 20] and [|rotateY| <= width / 20]
    degrees, and the card is flat at its centre. *)
Theorem tilt_bounds (r : Tilt.rect) (x y : Q) :
  Tilt.r_left r <= x <= Tilt.r_left r + Tilt.r_width r ->
  Tilt.r_top r <= y <= Tilt.r_top r + Tilt.r_height r ->
  let (rx, ry) := Tilt.angles r x y in
  - (Tilt.r_height r / 20) <= rx <= Tilt.r_height r / 20 /\
  - (Tilt.r_width r / 20) <= ry <= Tilt.r_width r / 20 /\
  (x == Tilt.r_left r + Tilt.r_width r / 2 -> y == Tilt.r_top r + Tilt.r_height r / 2 -> rx == 0 /\ ry == 0).
Proof.
  intros Hx Hy. unfold Tilt.angles. destruct r as [l t w h]. cbn in *. unfold Qdiv.
  change (/ 10) with (1 # 10). change (/ 20) with (1 # 20). change (/ 2) with (1 # 2).
  repeat (split || intros); lra.
Qed.

(** ** One card under all its listeners *)

(** The effect of one event on the card's style. *)
Definition style_step (s : style) (ev : Tilt.card_event) : style :=
  match ev with
  | Tilt.Move r x y => let (rx, ry) := Tilt.angles r x y in Tilt.set_transform (TTilt rx ry) s
  | Tilt.Leave => Tilt.set_transform Tilt.leave_transform s
  | Tilt.Enter => Style (opacity s) (transform_of s) Tilt.hover_transition (animationDelay s)
  | Tilt.Entry b => if b then Reveal.show s else s
  end.

Lemma card_run_lookup (card : nat) (d : dom) (evs : list Tilt.card_event) (id : nat) :
  Tilt.card_run card d evs !! id =
  if Nat.eqb card id then option_map (set_style (fun s => fold_left style_step evs s)) (d !! id) else d !! id.
Proof.
  revert d. induction evs as [|ev evs IH]; intros d.
  - unfold Tilt.card_run. cbn [fold_left].
    destruct (Nat.eqb card id); [destruct (d !! id) as [[]|]|]; reflexivity.
  - unfold Tilt.card_run in *. cbn [fold_left]. rewrite IH.
    assert (Hs : Tilt.card_step card d ev !! id =
                 if Nat.eqb card id then option_map (set_style (fun s => style_step s ev)) (d !! id) else d !! id).
    { destruct ev as [r x y| | |b]; cbn [Tilt.card_step style_step].
      - unfold Tilt.mousemove. destruct (Tilt.angles r x y). apply ObserveProps.update_el_lookup.
      - apply ObserveProps.update_el_lookup.
      - apply ObserveProps.update_el_lookup.
      - rewrite ObserveProps.reveal_callback_lookup. unfold ObserveProps.reports. cbn.
        rewrite Bool.orb_false_r. destruct (Nat.eqb card id), b; cbn;
          try (destruct (d !! id) as [[]|]; reflexivity); reflexivity. }
    rewrite Hs. destruct (Nat.eqb card id); [|reflexivity].
    destruct (d !! id) as [[]|]; reflexivity.
Qed.

(** The transform written by an event, if it writes one. *)
Definition writes (ev : Tilt.card_event) : option transform :=
  match ev with
  | Tilt.Move r x y => let (rx, ry) := Tilt.angles r x y in Some (TTilt rx ry)
  | Tilt.Leave => Some Tilt.leave_transform
  | Tilt.Entry true => Some (TStr "translateY(0)")
  | _ => None
  end.

Definition last_write (evs : list Tilt.card_event) : option transform :=
  fold_left (fun acc ev => match writes ev with Some t => Some t | None => acc end) evs None.

Definition is_hit (ev : Tilt.card_event) : bool := match ev with Tilt.Entry true => true | _ => false end.
Definition is_enter (ev : Tilt.card_event) : bool := match ev with Tilt.Enter => true | _ => false end.

Lemma style_summary (evs : list Tilt.card_event) (s : style) :
  fold_left style_step evs s =
  Style (if existsb is_hit evs then "1" else opacity s)
        (match last_write evs with Some t => t | None => transform_of s end)
        (if existsb is_enter evs then Tilt.hover_transition else transition s)
        (animationDelay s).
Proof.
  induction evs as [|ev evs IH] using rev_ind; [destruct s; reflexivity|].
  rewrite fold_left_app, IH. unfold last_write. rewrite fold_left_app. fold (last_write evs).
  rewrite !existsb_app. cbn [fold_left].
  destruct ev as [r x y| | |[]]; cbn [style_step writes is_hit is_enter existsb orb];
    try (destruct (Tilt.angles r x y)); rewrite ?Bool.orb_false_r, ?Bool.orb_true_r; reflexivity.
Qed.

(** C36: A project card's style is the composition of its four writers on
    the one element: after any events, its opacity is ["1"] iff an
    observer entry reported it intersecting, its transform is the one
    written by the last tilt move, [mouseleave] or intersecting entry
    (a reveal while hovered drops the tilt; a later move drops the
    reveal's [translateY(0)]), its transition is the social hover's once
    the pointer entered it, and its [src] attributes are untouched. *)
Theorem card_style (card : nat) (d : dom) (evs : list Tilt.card_event) (e : element) :
  d !! card = Some e ->
  Tilt.card_run card d evs !! card =
  Some (El (Style (if existsb is_hit evs then "1" else opacity (el_style e))
                  (match last_write evs with Some t => t | None => transform_of (el_style e) end)
                  (if existsb is_enter evs then Tilt.hover_transition else transition (el_style e))
                  (animationDelay (el_style e)))
           (src e) (data_src e)).
Proof.
  intros He. rewrite card_run_lookup, Nat.eqb_refl, He. destruct e as [s sr ds].
  unfold option_map, set_style. do 2 f_equal. apply style_summary.
Qed.

End PointerClaims.

Module PointerWitnesses.
Import PointerClaims.

Lemma parallax_bounds_witness :
  0 <= 300 /\
  (0 < 1200 -> 300 <= 1200 -> exists q, Parallax.move 300 1200 = JFin q /\ -10 <= q <= 10) /\
  Parallax.move 300 0 = (if Qeq_bool 300 0 then JNaN else JPosInf).
Proof. split; [lra | apply parallax_bounds; lra]. Defined.

Lemma glow_follows_witness :
  (968 < 1280 ->
   Glow.run (Glow.load 1280) ([(10, 20)] ++ [(400, 300)]) = Glow.Glow "block" (Some (400 - 150)) (Some (300 - 150)) true) /\
  (1280 <= 968 -> Glow.run (Glow.load 1280) [(10, 20)] = Glow.Glow "none" None None false).
Proof. split; [apply glow_follows | intros H; lra]. Defined.

Definition card_box : Tilt.rect := Tilt.Rect 100 200 300 400.

Lemma tilt_bounds_witness :
  (100 <= 250 <= 100 + 300 /\ 200 <= 400 <= 200 + 400) /\
  let (rx, ry) := Tilt.angles card_box 250 400 in
  - (Tilt.r_height card_box / 20) <= rx <= Tilt.r_height card_box / 20 /\
  - (Tilt.r_width card_box / 20) <= ry <= Tilt.r_width card_box / 20 /\
  (250 == Tilt.r_left card_box + Tilt.r_width card_box / 2 ->
   400 == Tilt.r_top card_box + Tilt.r_height card_box / 2 -> rx == 0 /\ ry == 0).
Proof.
  split; [repeat split; lra|].
  apply (tilt_bounds card_box 250 400); cbn; split; lra.
Defined.

Definition shown_card : element :=
  El (Style "0" (TStr "translateY(30px)") "all 0.6s ease" EmptyString) None None.

Definition one_card : dom := <[7%nat := shown_card]> ∅.

(** Hovered, then revealed: the reveal's [translateY(0)] replaces the tilt. *)
Lemma card_style_witness :
  one_card !! 7%nat = Some shown_card /\
  Tilt.card_run 7 one_card [Tilt.Move card_box 120 210; Tilt.Entry true] !! 7%nat =
  Some (El (Style "1" (TStr "translateY(0)") "all 0.6s ease" EmptyString) None None).
Proof.
  assert (H : one_card !! 7%nat = Some shown_card) by reflexivity.
  split; [exact H | rewrite (card_style 7 one_card _ shown_card H); reflexivity].
Defined.

End PointerWitnesses.
