(* ===== verification/Decor.v ===== *)
(** * Decorative DOM: [createStars] and the floating particles (script.js 139-150, 273-320)

  Module [Stars] models [createStars(containerId, count, size)] (defined
  but not called by the page): for [i] from 0 while [i < count] it draws
  two coordinates [Math.floor(Math.random() * 2000)] and appends
  ["x px y px #fff"], followed by [", "] unless [i] is the last index,
  and stores the string in the container's [style.boxShadow].  The
  counter is an integer here ([count] as [Z]).  [StarsProps] shows the
  loop computes the [", "]-join of the stars of [count] draws.

  Module [Floaters] models the script-load code around [createParticles]:
  the [@keyframes float-particle] rule draws one horizontal drift, then,
  on a window wider than 968px, [createParticles] creates 20 [div]s with
  six draws each (width, height, alpha, left, top, duration, in the
  order of the template).  All draws come from the one [Math.random]
  stream of [Host], so the canvas particles created later in the script
  start from the generator these calls leave. *)

From Stdlib Require Import QArith Qround Lqa List String ZArith Lia Bool.
From S2P Require Import Prelude Host Binary64.
Import ListNotations.
Open Scope string_scope.

Module Stars.

Definition star_text (x y : Z) : string := Digits.Z_to_dec x ++ "px " ++ Digits.Z_to_dec y ++ "px #fff".

(** [Math.floor(Math.random() * 2000)]. *)
Definition coord (r : Q) : Z := Qfloor (r * inject_Z 2000).

Section Loop.
Context {R : Type} `{Random R}.

(** The [for] loop; [fuel] is the number of iterations left. *)
Fixpoint stars_loop (fuel : nat) (i count : Z) (g : R) (boxShadow : string) : string * R :=
  match fuel with
  | O => (boxShadow, g)
  | S f =>
      if Z.ltb i count then
        let (r1, g1) := random g in
        let (r2, g2) := random g1 in
        stars_loop f (i + 1) count g2
          (boxShadow ++ star_text (coord r1) (coord r2) ++
           (if Z.ltb i (count - 1) then ", " else EmptyString))
      else (boxShadow, g)
  end.

(** [createStars]: [container] is the container's [style.boxShadow]
    ([None]: no element with that id, and nothing is drawn). *)
Definition createStars (container : option string) (count : Z) (g : R) : option string * R :=
  match container with
  | None => (None, g)
  | Some _ => let (s, g') := stars_loop (Z.to_nat count) 0 count g EmptyString in (Some s, g')
  end.

(** The reference: [n] stars drawn one after the other. *)
Fixpoint draw_coords (n : nat) (g : R) : list (Z * Z) * R :=
  match n with
  | O => ([], g)
  | S k =>
      let (r1, g1) := random g in
      let (r2, g2) := random g1 in
      let (rest, g3) := draw_coords k g2 in
      ((coord r1, coord r2) :: rest, g3)
  end.

End Loop.

End Stars.

Module Floaters.

(** A floating particle's inline style, as the numbers the template
    interpolates. *)
Record floater := Floater { width : Q; height : Q; alpha : Q; left : Q; top : Q; duration : Q }.

Section Load.
Context {R : Type} `{Random R}.

Definition new_floater (g : R) : floater * R :=
  let (r1, g1) := random g in
  let (r2, g2) := random g1 in
  let (r3, g3) := random g2 in
  let (r4, g4) := random g3 in
  let (r5, g5) := random g4 in
  let (r6, g6) := random g5 in
  (Floater (r1 * 4 + 1) (r2 * 4 + 1) (r3 * (1 # 2) + (3 # 10)) (r4 * 100) (r5 * 100) (r6 * 10 + 10), g6).

Fixpoint create_loop (n : nat) (g : R) : list floater * R :=
  match n with
  | O => ([], g)
  | S k => let (p, g1) := new_floater g in let (ps, g2) := create_loop k g1 in (p :: ps, g2)
  end.

(** [createParticles()]: [particleCount = 20]. *)
Definition createParticles (g : R) : list floater * R := create_loop 20 g.

(** Script load: the keyframes' drift [Math.random() * 100 - 50], then
    [createParticles()] on a window wider than 968px. *)
Definition load (innerWidth : Q) (g : R) : Q * list floater * R :=
  let (r, g1) := random g in
  if Qltb 968 innerWidth then let (ps, g2) := createParticles g1 in (r * 100 - 50, ps, g2)
  else (r * 100 - 50, [], g1).

End Load.

End Floaters.

Module DecorClaims.
Import Stars Floaters.

Section WithRandom.
Context {R : Type} `{Random R}.

Definition stars_of (cs : list (Z * Z)) : list string := map (fun c => star_text (fst c) (snd c)) cs.

Lemma stars_loop_join (k : nat) :
  forall (i count : Z) (g : R) (acc : string), count = (i + Z.of_nat k)%Z ->
  stars_loop k i count g acc = ((acc ++ js_join ", " (stars_of (fst (draw_coords k g))))%string, snd (draw_coords k g)).
Proof.
  induction k as [|k IH]; intros i count g acc Hc.
  - cbn. now rewrite str_app_nil_r.
  - cbn [stars_loop draw_coords]. replace (Z.ltb i count) with true by (symmetry; apply Z.ltb_lt; lia).
    destruct (random g) as [r1 g1]. destruct (random g1) as [r2 g2].
    rewrite (IH (i + 1)%Z count g2) by lia.
    destruct (draw_coords k g2) as [rest g3] eqn:E. cbn [fst snd stars_of map].
    destruct k as [|k].
    + cbn in E. injection E as <- <-. replace (Z.ltb i (count - 1)) with false by (symmetry; apply Z.ltb_ge; lia).
      cbn. now rewrite !str_app_nil_r.
    + replace (Z.ltb i (count - 1)) with true by (symmetry; apply Z.ltb_lt; lia).
      cbn in E. destruct (random g2), (random _), (draw_coords k _). injection E as <- <-.
      cbn [map js_join]. now rewrite !str_app_assoc.
Qed.

Lemma draw_coords_range (n : nat) (g : R) :
  Forall (fun c => (0 <= fst c < 2000)%Z /\ (0 <= snd c < 2000)%Z) (fst (draw_coords n g)).
Proof.
  revert g. induction n as [|n IH]; intros g; [constructor|]. cbn [draw_coords].
  pose proof (random_range g) as [H1 H2]. destruct (random g) as [r1 g1].
  pose proof (random_range g1) as [H3 H4]. destruct (random g1) as [r2 g2].
  specialize (IH g2). destruct (draw_coords n g2). cbn in *.
  constructor; [|exact IH]. unfold coord. split; apply floor_scaled_range; auto; lia.
Qed.

(** C37: [createStars] on an existing container computes the [", "]-join
    of [count] stars, each ["x px y px #fff"] with coordinates drawn in
    [0, 1999] two by two from [Math.random]: the loop's conditional
    separator is the reference join (no separator after the last star,
    an empty string for [count <= 0]).  Its [size] argument is unused. *)
Theorem createStars_join (container : string) (count : Z) (g : R) :
  createStars (Some container) count g =
    (Some (js_join ", " (stars_of (fst (draw_coords (Z.to_nat count) g)))), snd (draw_coords (Z.to_nat count) g)) /\
  Forall (fun c => (0 <= fst c < 2000)%Z /\ (0 <= snd c < 2000)%Z) (fst (draw_coords (Z.to_nat count) g)).
Proof.
  split; [|apply draw_coords_range]. unfold createStars.
  destruct (Z_le_gt_dec count 0) as [Hn|Hp].
  - replace (Z.to_nat count) with 0%nat by lia. reflexivity.
  - rewrite (stars_loop_join (Z.to_nat count) 0 count g EmptyString) by lia. reflexivity.
Qed.

Definition floater_ok (p : floater) : Prop :=
  1 <= width p < 5 /\ 1 <= height p < 5 /\ 3 # 10 <= alpha p < 4 # 5 /\
  0 <= left p < 100 /\ 0 <= top p < 100 /\ 10 <= duration p < 20.

Lemma new_floater_ok (g : R) : floater_ok (fst (new_floater g)).
Proof. unfold new_floater. draws. unfold floater_ok. cbn. repeat split; lra. Qed.

Lemma create_loop_ok (n : nat) (g : R) :
  List.length (fst (create_loop n g)) = n /\ Forall floater_ok (fst (create_loop n g)).
Proof.
  revert g. induction n as [|n IH]; intros g; [split; [reflexivity | constructor]|].
  cbn [create_loop]. pose proof (new_floater_ok g) as Hp. destruct (new_floater g) as [p g1].
  specialize (IH g1). destruct (create_loop n g1) as [ps g2]. cbn in *.
  destruct IH as [Hl Hf]. split; [now rewrite Hl | constructor; assumption].
Qed.

(** C38: At script load the keyframes' drift is in [-50, 50) pixels; on a
    window wider than 968px exactly 20 floating particles are created,
    each 1 to 5 pixels wide and high, with alpha in [0.3, 0.8), position
    in [0, 100)% and a 10 to 20 second animation; on a narrower window
    none is created and only the drift's draw is taken from
    [Math.random]. *)
Theorem floaters_bounds (innerWidth : Q) (g : R) :
  let '(drift, ps, g') := Floaters.load innerWidth g in
  -50 <= drift < 50 /\
  (968 < innerWidth -> List.length ps = 20%nat /\ Forall floater_ok ps) /\
  (innerWidth <= 968 -> ps = [] /\ g' = snd (random g)).
Proof.
  unfold Floaters.load. pose proof (random_range g) as [H0 H1]. destruct (random g) as [r g1].
  cbn [fst snd] in *. destruct (Qltb 968 innerWidth) eqn:E; qbool.
  - pose proof (create_loop_ok 20 g1) as Hc. unfold createParticles.
    destruct (create_loop 20 g1) as [ps g2]. cbn in Hc.
    split; [lra|]. split; [intros _; exact Hc | intros; lra].
  - split; [lra|]. split; [intros; lra | intros _; split; reflexivity].
Qed.

End WithRandom.

End DecorClaims.
