(* ===== verification/Effects.v ===== *)
(** * Typing effect and number counter (script.js 107-134, 252-268)

  Module [Typing] models [typeWriter] and the window [load] handler that
  starts it 1500 ms after load with speed 80: the closure [type] appends
  [text.charAt(i)] to the element, increments [i] and schedules itself
  again after [speed] ms while [i < text.length].  A DOM string is the
  list of its code units (here [ascii]).  The timer chain runs on the
  queue of [Host]; [TypingProps] shows that, from any prefix of [k]
  characters with its [type] timer pending, the chain ends with the
  whole text shown and no timer pending, and so that the effect started
  on load terminates.

  Module [Counter] models [animateCounter] (defined but not called by the
  page): a 16 ms interval adds [target / (duration / 16)] to [start] and
  stops once [start >= target].  The increment and the sums are doubles:
  [Binary64.div] and [Binary64.add] round each operation.  [CounterProps]
  bounds the [k]-th sum between [k i (1 - k u)] and [k i (1 + 2 k u)]
  ([fsum_bounds], [u = 2^-53], [i] the increment), and shows that the
  counter stops after [N] ticks, [N] within one of [ceil(duration / 16)],
  for [target] in [[2^-900, 2^900]] and [duration] in [[1, 2^24]] ms; that
  it never stops for a negative normal target with a normal duration
  under 16 ms (every sum stays below the target); and that it never
  stops for [target = duration = 0], where the increment is NaN. *)

From Stdlib Require Import QArith Qround Lqa List String Ascii Lia ZArith Bool.
From S2P Require Import Prelude Host Binary64.
Import ListNotations.

Module Typing.

(** The element's [textContent] and the closure's counter [i]. *)
Record typer := Typer { textContent : list ascii; i : nat }.

(** The callbacks: [type] of a running [typeWriter] (with its text and
    speed), and the delayed start of the load handler. *)
Inductive task :=
| TypeNext (text : list ascii) (speed : Z)
| StartTyping (originalText : list ascii).

Section Shared.
(** The browser has one timer queue for the whole page; [lift] turns this
    component's callbacks into the callbacks of that queue ([Page]). *)
Context {U : Type} (lift : task -> U).

(** One call of [type()]. *)
Definition type_step_at (text : list ascii) (speed : Z) (st : typer * timers U)
  : typer * timers U :=
  let (s, c) := st in
  match nth_error text (i s) with
  | Some ch =>
      let s' := Typer (textContent s ++ [ch]) (S (i s)) in
      (s', snd (setTimeout (lift (TypeNext text speed)) speed c))
  | None => (s, c)
  end.

(** [typeWriter(element, text, speed)]: reset, then [type()]. *)
Definition typeWriter_at (text : list ascii) (speed : Z) (st : typer * timers U)
  : typer * timers U :=
  type_step_at text speed (Typer [] 0, snd st).

Definition run_task_at (t : task) (st : typer * timers U) : typer * timers U :=
  match t with
  | TypeNext text speed => type_step_at text speed st
  | StartTyping text => typeWriter_at text 80 st
  end.

(** The window [load] handler, when [.hero-subtitle] exists. *)
Definition window_load_at (st : typer * timers U) : typer * timers U :=
  let (s, c) := st in
  (s, snd (setTimeout (lift (StartTyping (textContent s))) 1500 c)).

End Shared.

(** The component on a queue of its own callbacks. *)
Definition type_step := type_step_at (fun t : task => t).
Definition typeWriter := typeWriter_at (fun t : task => t).
Definition run_task := run_task_at (fun t : task => t).
Definition window_load := window_load_at (fun t : task => t).

Definition tick (fuel : nat) (t : Z) (st : typer * timers task) : typer * timers task :=
  advance_to run_task fuel t st.

End Typing.

Module Counter.

(** The closure's [start] and the element's [textContent] ([None]: the
    text it had before), and whether the interval is still installed. *)
Record counter := Counter { start : jsnum; shown : option jsnum; active : bool }.

(** [const increment = target / (duration / 16)]: two binary64 divisions. *)
Definition increment (target duration : Q) : jsnum :=
  Binary64.div (JFin target) (Binary64.div (JFin duration) (JFin 16)).

(** One run of the interval callback: [start += increment] is a binary64
    addition, the comparison and [Math.floor] are exact on doubles; a
    cleared interval runs no more. *)
Definition interval_cb (target : Q) (inc : jsnum) (s : counter) : counter :=
  if active s then
    let start' := Binary64.add (start s) inc in
    if js_ge start' target then Counter start' (Some (JFin target)) false
    else Counter start' (Some (js_floor start')) true
  else s.

(** [n] periods of 16 ms of the interval. *)
Fixpoint run (target : Q) (inc : jsnum) (n : nat) (s : counter) : counter :=
  match n with
  | O => s
  | S n => run target inc n (interval_cb target inc s)
  end.

(** The state [n * 16] ms after [animateCounter(element, target, duration)]. *)
Definition animateCounter (target duration : Q) (n : nat) : counter :=
  run target (increment target duration) n (Counter (JFin 0) None true).

End Counter.

Module TypingProps.
Import Typing.

Lemma firstn_snoc {A} (l : list A) (k : nat) (x : A) :
  nth_error l k = Some x -> firstn k l ++ [x] = firstn (S k) l.
Proof.
  revert k. induction l as [|y l IH]; intros [|k] H; simpl in *; try discriminate.
  - now injection H as ->.
  - now rewrite (IH k H).
Qed.

(** The running timer chain: with [n] characters left, a pending [type]
    due at [due] and enough fuel and time, the chain shows the whole text
    and leaves no timer. *)
Lemma type_chain (text : list ascii) (n : nat) :
  forall (k fuel : nat) (id : nat) (c : timers task) (due T : Z),
  (k + n = List.length text)%nat -> (n < fuel)%nat ->
  queue c = [Timer id due (TypeNext text 80)] -> (due + 80 * Z.of_nat n <= T)%Z ->
  let r := tick fuel T (Typer (firstn k text) k, c) in
  fst r = Typer text (List.length text) /\ queue (snd r) = [].
Proof.
  induction n as [|n IH]; intros k [|fuel] id c due T Hk Hf Hq HT; try lia;
    unfold tick; simpl advance_to; rewrite Hq; simpl; rewrite Nat.eqb_refl; simpl; zcase.
  - rewrite Nat.add_0_r in Hk. subst k.
    replace (nth_error text (List.length text)) with (@None ascii)
      by (symmetry; apply nth_error_None; lia).
    rewrite firstn_all. destruct fuel; simpl; auto.
  - destruct (nth_error text k) as [ch|] eqn:E; [|apply nth_error_None in E; lia].
    rewrite (firstn_snoc _ _ _ E). simpl.
    apply (IH (S k) fuel (next_id c) _ (due + Z.max 0 80)%Z);
      [lia | lia | reflexivity | rewrite Nat2Z.inj_succ in HT; lia].
Qed.

(** C19: Started by the window [load] handler, the typing effect
    terminates: by [1500 + 80 * length] ms after load the element shows
    the whole original text and no timer of the effect is pending (the
    chain makes [length + 1] calls of [type] after the start). *)
Theorem typing_completes (orig : list ascii) (i0 : nat) (t0 : Z) (nid : nat) :
  let r := tick (List.length orig + 2) (t0 + 1500 + 80 * Z.of_nat (List.length orig))
                (window_load (Typer orig i0, Timers t0 nid [])) in
  fst r = Typer orig (List.length orig) /\ queue (snd r) = [].
Proof.
  cbv zeta. unfold tick, window_load, window_load_at.
  replace (List.length orig + 2)%nat with (S (S (List.length orig))) by lia.
  remember (t0 + 1500 + 80 * Z.of_nat (List.length orig))%Z as T eqn:HT.
  rewrite (advance_fire run_task _ _ _ _ (Timer nid (t0 + Z.max 0 1500) (StartTyping orig)));
    [| reflexivity | cbn; lia].
  cbn [queue t_id t_task t_due filter next_id]. rewrite ?Nat.eqb_refl.
  cbn [negb run_task run_task_at typeWriter_at type_step_at]. rewrite ?Nat.eqb_refl. cbn [negb].
  destruct orig as [|ch rest].
  - simpl. rewrite Nat.eqb_refl. simpl. auto.
  - cbn [nth_error textContent i setTimeout snd fst app next_id now queue].
    apply (type_chain (ch :: rest) (List.length rest) 1 (S (S (List.length rest))) (S nid) _
             (t0 + Z.max 0 1500 + Z.max 0 80)%Z);
      [simpl; lia | lia | cbn; rewrite Nat.eqb_refl; reflexivity | cbn [List.length] in HT; lia].
Qed.

End TypingProps.

Module CounterProps.
Import Counter Binary64 Binary64Props.
Open Scope Q_scope.

Lemma run_S_end (target : Q) (inc : jsnum) (n : nat) (s : counter) :
  run target inc (S n) s = interval_cb target inc (run target inc n s).
Proof. revert s. induction n as [|n IH]; intros s; [reflexivity|]. apply IH. Qed.

Definition counter0 : counter := Counter (JFin 0) None true.

(** The value of [start] after [k] runs of the callback, while it runs:
    the binary64 sums [((0 + inc) + inc) + ...]. *)
Fixpoint fsum (inc : jsnum) (k : nat) : jsnum :=
  match k with
  | O => JFin 0
  | S k => Binary64.add (fsum inc k) inc
  end.

Section Runs.
Variables (target : Q) (inc : jsnum).

(** While no partial sum reaches [target], the interval keeps running. *)
Lemma run_prefix (k : nat) :
  (forall j, (1 <= j <= k)%nat -> js_ge (fsum inc j) target = false) ->
  start (run target inc k counter0) = fsum inc k /\ active (run target inc k counter0) = true.
Proof.
  induction k as [|k IH]; intros H; [split; reflexivity|].
  destruct IH as [Hs Ha]; [intros j Hj; apply H; lia|].
  rewrite run_S_end. destruct (run target inc k counter0) as [st sh ac]. cbn in Hs, Ha. subst st ac.
  unfold interval_cb. cbn [active start]. change (Binary64.add (fsum inc k) inc) with (fsum inc (S k)).
  rewrite (H (S k) ltac:(lia)). split; reflexivity.
Qed.

(** The first partial sum that reaches [target] clears the interval. *)
Lemma run_hit (k : nat) :
  (forall j, (1 <= j <= k)%nat -> js_ge (fsum inc j) target = false) -> js_ge (fsum inc (S k)) target = true ->
  active (run target inc (S k) counter0) = false /\ shown (run target inc (S k) counter0) = Some (JFin target).
Proof.
  intros H Hk. destruct (run_prefix k H) as [Hs Ha]. rewrite run_S_end.
  destruct (run target inc k counter0) as [st sh ac]. cbn in Hs, Ha. subst st ac.
  unfold interval_cb. cbn [active start]. change (Binary64.add (fsum inc k) inc) with (fsum inc (S k)).
  rewrite Hk. split; reflexivity.
Qed.

End Runs.

(** The least [N] with [P N], below any [K] with [P K]. *)
Lemma first_true (P : nat -> bool) (K : nat) :
  P K = true -> exists N, (N <= K)%nat /\ P N = true /\ forall j, (j < N)%nat -> P j = false.
Proof.
  induction K as [K IH] using lt_wf_ind. intros HK.
  destruct (existsb P (seq 0 K)) eqn:E.
  - apply existsb_exists in E as (j & Hj & Pj). apply in_seq in Hj.
    destruct (IH j ltac:(lia) Pj) as (N & HN & PN & Hb). exists N. split; [lia | auto].
  - exists K. split; [lia|]. split; [exact HK|]. intros j Hj.
    destruct (P j) eqn:Pj; [|reflexivity]. exfalso.
    assert (existsb P (seq 0 K) = true) by (apply existsb_exists; exists j; split; [apply in_seq; lia | exact Pj]).
    congruence.
Qed.

(** ** Rounding on the normal range, relatively *)

(** The unit roundoff [2^-53]. *)
Local Abbreviation u := (1 # 9007199254740992).

Lemma round_rel (x : Q) :
  pow2 (-1022) <= x -> x < pow2 1023 -> exists v, round x = JFin v /\ x * (1 - u) <= v <= x * (1 + u).
Proof.
  intros H1 H2. assert (Hx : 0 < x) by (pose proof (pow2_pos (-1022)); lra).
  destruct (round_pos_normal x H1 H2) as (v & Hv & _ & Hb). exists v. rewrite round_gt0 by exact Hx.
  split; [exact Hv|]. change (pow2 (-53)) with u in Hb. split; lra.
Qed.

Lemma add_fin (a b : Q) : Binary64.add (JFin a) (JFin b) = round (a + b).
Proof. reflexivity. Qed.

Lemma div_fin (a b : Q) : ~ b == 0 -> Binary64.div (JFin a) (JFin b) = round (a / b).
Proof. intros H. cbn [Binary64.div]. destruct (Qeq_bool b 0) eqn:E; [apply Qeq_bool_iff in E; contradiction | reflexivity]. Qed.

(** The sums of a positive normal increment [i] stay within a relative
    [k * 2^-53] below and [2 * k * 2^-53] above [k * i], as long as they
    stay in the normal range. *)
Lemma fsum_bounds (i : Q) (K : nat) :
  pow2 (-1022) <= i -> inject_Z (Z.of_nat K) * u <= 1 # 2 -> inject_Z (Z.of_nat K) * i * 2 < pow2 1023 ->
  forall k, (k <= K)%nat -> exists s, fsum (JFin i) k = JFin s /\
    inject_Z (Z.of_nat k) * i * (1 - inject_Z (Z.of_nat k) * u) <= s <= inject_Z (Z.of_nat k) * i * (1 + 2 * inject_Z (Z.of_nat k) * u).
Proof.
  intros Hi HK HKi. pose proof (pow2_pos (-1022)) as P0.
  induction k as [|k IH]; intros Hk.
  - exists 0. split; [reflexivity|]. change (inject_Z (Z.of_nat 0)) with 0. lra.
  - destruct (IH ltac:(lia)) as (s & Hs & Hlo & Hhi). cbn [fsum]. rewrite Hs, add_fin.
    set (kq := inject_Z (Z.of_nat k)) in *.
    assert (Hk0 : 0 <= kq) by apply inject_Z_of_nat_nonneg.
    assert (HkK : kq + 1 <= inject_Z (Z.of_nat K)) by (unfold kq; rewrite <- inject_Z_of_nat_S, <- Zle_Qle; lia).
    assert (Hu0 : 0 < u) by reflexivity.
    assert (Hku : (kq + 1) * u <= 1 # 2) by nra.
    assert (Hs0 : 0 <= s) by nra.
    assert (Hup : s + i <= (kq + 1) * i * 2) by nra.
    assert (HKi' : (kq + 1) * i * 2 < pow2 1023) by nra.
    destruct (round_rel (s + i)) as (v & Hv & Hv1 & Hv2); [lra | lra |].
    exists v. split; [exact Hv|]. rewrite inject_Z_of_nat_S. fold kq. split.
    + assert (A : (kq * i * (1 - kq * u) + i) * (1 - u) <= (s + i) * (1 - u)) by (apply Qmult_le_compat_r; lra).
      assert (B : (kq * i * (1 - kq * u) + i) * (1 - u) == (kq + 1) * i * (1 - (kq + 1) * u) + i * kq * u * (1 + kq * u))
        by ring.
      assert (C : 0 <= i * kq * u * (1 + kq * u)) by (repeat apply Qmult_le_0_compat; lra). lra.
    + assert (A : (s + i) * (1 + u) <= (kq * i * (1 + 2 * kq * u) + i) * (1 + u)) by (apply Qmult_le_compat_r; lra).
      assert (B : (kq + 1) * i * (1 + 2 * (kq + 1) * u) ==
                  (kq * i * (1 + 2 * kq * u) + i) * (1 + u) + i * u * (2 * kq + 1 + 2 * (kq * ((1 # 2) - kq * u)))) by ring.
      assert (D : 0 <= kq * ((1 # 2) - kq * u)) by (apply Qmult_le_0_compat; lra).
      assert (C : 0 <= i * u * (2 * kq + 1 + 2 * (kq * ((1 # 2) - kq * u)))) by (repeat apply Qmult_le_0_compat; lra). lra.
Qed.


(** ** The stopping period *)

Section Stop.
Variables (t m i : Q).
Hypothesis Ht : pow2 (-900) <= t <= pow2 900.
Hypothesis Hm : 1 # 16 <= m <= 1048576.
Hypothesis Hlo : t * (1 - u) <= i * m * (1 + u).
Hypothesis Hhi : i * m * (1 - u) <= t * (1 + u).

Lemma stop_t_pos : 0 < t.
Proof. pose proof (pow2_pos (-900)). lra. Qed.

Lemma stop_i_pos : 0 < i.
Proof.
  pose proof stop_t_pos. destruct (Qlt_le_dec 0 i) as [|Hn]; [assumption|].
  assert (i * m <= 0) by (setoid_replace (i * m) with (- ((- i) * m)) by ring; assert (0 <= - i * m) by (apply Qmult_le_0_compat; lra); lra).
  assert (i * m * (1 + u) <= 0) by (setoid_replace (i * m * (1 + u)) with (- ((- (i * m)) * (1 + u))) by ring;
    assert (0 <= - (i * m) * (1 + u)) by (apply Qmult_le_0_compat; lra); lra).
  lra.
Qed.

Lemma stop_im : i * m <= 2 * t.
Proof.
  pose proof stop_t_pos as T0. assert (H : i * m * (1 - u) <= 2 * t * (1 - u)) by lra.
  apply Qmult_le_r in H; [exact H | reflexivity].
Qed.

(** The sums before [ceil(m) - 1] stay below [target]. *)
Lemma stop_below (jq : Q) : 0 <= jq -> jq < m - 1 -> jq * i * (1 + 2 * jq * u) < t.
Proof.
  intros H0 H1. pose proof stop_i_pos as Hi. pose proof stop_t_pos as Ht0.
  assert (A : jq * i * (1 + 2 * jq * u) <= (m - 1) * i * (1 + 2 * m * u)).
  { apply Qmult_le_compat_nonneg; split.
    - apply Qmult_le_0_compat; lra.
    - apply Qmult_le_compat_r; lra.
    - lra.
    - lra. }
  set (c := (m - 1) * (1 + 2 * m * u)).
  assert (Hc : 0 < c) by (unfold c; apply Qmult_lt_0_compat; lra).
  assert (P : c * (1 + u) < m * (1 - u)).
  { unfold c. assert (0 <= (1048576 - m) * m) by (apply Qmult_le_0_compat; lra). nra. }
  assert (B1 : c * (i * m * (1 - u)) <= c * (t * (1 + u))) by (apply Qmult_le_l; assumption).
  assert (B2 : t * (c * (1 + u)) < t * (m * (1 - u))) by (apply Qmult_lt_l; assumption).
  assert (B : (m - 1) * i * (1 + 2 * m * u) * (m * (1 - u)) < t * (m * (1 - u))).
  { setoid_replace ((m - 1) * i * (1 + 2 * m * u) * (m * (1 - u))) with (c * (i * m * (1 - u))) by (unfold c; ring).
    setoid_replace (c * (t * (1 + u))) with (t * (c * (1 + u))) in B1 by ring. lra. }
  apply Qmult_lt_r in B; [lra | apply Qmult_lt_0_compat; lra].
Qed.

(** The sum of [ceil(m) + 1] terms reaches [target]. *)
Lemma stop_reach (kq : Q) : m + 1 <= kq <= m + 2 -> t <= kq * i * (1 - kq * u).
Proof.
  intros [H1 H2]. pose proof stop_i_pos as Hi. pose proof stop_t_pos as Ht0.
  assert (A : (m + 1) * i * (1 - (m + 2) * u) <= kq * i * (1 - kq * u)).
  { apply Qmult_le_compat_nonneg; split.
    - apply Qmult_le_0_compat; lra.
    - apply Qmult_le_compat_r; lra.
    - lra.
    - lra. }
  set (c := (m + 1) * (1 - (m + 2) * u)).
  assert (Hc : 0 < c) by (unfold c; apply Qmult_lt_0_compat; lra).
  assert (P : m * (1 + u) <= c * (1 - u)).
  { unfold c. assert (0 <= (1048576 - m) * m) by (apply Qmult_le_0_compat; lra). nra. }
  assert (B1 : c * (t * (1 - u)) <= c * (i * m * (1 + u))) by (apply Qmult_le_l; assumption).
  assert (B2 : t * (m * (1 + u)) <= t * (c * (1 - u))) by (apply Qmult_le_l; assumption).
  assert (B : t * (m * (1 + u)) <= (m + 1) * i * (1 - (m + 2) * u) * (m * (1 + u))).
  { setoid_replace ((m + 1) * i * (1 - (m + 2) * u) * (m * (1 + u))) with (c * (i * m * (1 + u))) by (unfold c; ring).
    setoid_replace (t * (c * (1 - u))) with (c * (t * (1 - u))) in B2 by ring. lra. }
  apply Qmult_le_r in B; [lra | apply Qmult_lt_0_compat; lra].
Qed.

(** The number of periods and the sums stay in the normal range. *)
Lemma stop_fuel (kq : Q) : 0 <= kq <= m + 2 -> kq * u <= 1 # 2 /\ kq * i * 2 < pow2 1023.
Proof.
  intros [H0 H1]. pose proof stop_i_pos as Hi. pose proof stop_im as Him. split; [lra|].
  assert (A : kq * i <= (33 * m) * i) by (apply Qmult_le_compat_r; lra).
  assert (C : 132 * pow2 900 < pow2 1023) by (vm_compute; reflexivity).
  lra.
Qed.

End Stop.

Lemma increment_bounds (t d : Q) :
  pow2 (-900) <= t <= pow2 900 -> 1 <= d <= pow2 24 ->
  exists i, increment t d = JFin i /\ pow2 (-1022) <= i /\
    t * (1 - u) <= i * (d / 16) * (1 + u) /\ i * (d / 16) * (1 - u) <= t * (1 + u).
Proof.
  intros Ht Hd. set (m := d / 16).
  assert (Em : m == d * (1 # 16)) by reflexivity.
  assert (E24 : pow2 24 == 16777216) by reflexivity.
  assert (Hm : 1 # 16 <= m <= 1048576) by (rewrite Em; lra).
  pose proof (pow2_pos (-1022)) as P0. pose proof (pow2_pos (-900)) as P9.
  assert (F1 : pow2 (-1022) <= 1 # 16) by (vm_compute; discriminate).
  assert (F2 : 1048576 < pow2 1023) by (vm_compute; reflexivity).
  assert (F3 : 2 * pow2 (-1022) * 2097152 <= pow2 (-900)) by (vm_compute; discriminate).
  assert (F4 : pow2 900 < pow2 1023 * (1 # 32)) by (vm_compute; reflexivity).
  unfold increment. rewrite div_fin by discriminate. fold m.
  destruct (round_rel m) as (m' & Hm' & Hm1 & Hm2); [lra | lra |]. rewrite Hm'.
  assert (Hm'0 : 1 # 32 <= m') by lra. assert (Hm'1 : m' <= 2097152) by lra.
  rewrite div_fin by (intros E; lra).
  assert (Htm : (t / m') * m' == t) by (field; intros E; lra).
  assert (L1 : 2 * pow2 (-1022) <= t / m').
  { apply Qle_shift_div_l; [lra|].
    assert (2 * pow2 (-1022) * m' <= 2 * pow2 (-1022) * 2097152) by (apply Qmult_le_l; lra). lra. }
  assert (L2 : t / m' < pow2 1023).
  { apply Qlt_shift_div_r; [lra|].
    assert (pow2 1023 * (1 # 32) <= pow2 1023 * m') by (apply Qmult_le_l; [apply pow2_pos | lra]). lra. }
  destruct (round_rel (t / m')) as (i & Hi & Hi1 & Hi2); [lra | exact L2 |].
  exists i. split; [exact Hi|]. fold m.
  assert (Hi0 : pow2 (-1022) <= i) by lra.
  assert (Him1 : t * (1 - u) <= i * m') by (rewrite <- Htm; setoid_replace (t / m' * m' * (1 - u)) with (t / m' * (1 - u) * m') by ring;
                                            apply Qmult_le_compat_r; lra).
  assert (Him2 : i * m' <= t * (1 + u)) by (rewrite <- Htm; setoid_replace (t / m' * m' * (1 + u)) with (t / m' * (1 + u) * m') by ring;
                                            apply Qmult_le_compat_r; lra).
  assert (A1 : i * m' <= i * (m * (1 + u))) by (apply Qmult_le_l; lra).
  assert (A2 : i * (m * (1 - u)) <= i * m') by (apply Qmult_le_l; lra).
  split; [exact Hi0|]. split; [setoid_replace (i * m * (1 + u)) with (i * (m * (1 + u))) by ring; lra|].
  setoid_replace (i * m * (1 - u)) with (i * (m * (1 - u))) by ring; lra.
Qed.

(** C20: With a positive [target] and [duration] in the ranges the page
    can use ([target] between [2^-900] and [2^900], [duration] between
    1 ms and [2^24] ms), [animateCounter] terminates: the binary64 sums
    reach [target] after [N] periods with [N] within one of
    [ceil(duration / 16)]; the interval runs for the [N - 1] periods
    before, and the [N]-th one shows [target] and clears the interval.
    (The exact count moves with the rounding: 126 periods for
    [animateCounter(el, 100, 2000)], where [2000 / 16 = 125].) *)
Theorem counter_stops (target duration : Q) :
  pow2 (-900) <= target <= pow2 900 -> 1 <= duration <= pow2 24 ->
  let N0 := Z.to_nat (Qceiling (duration / 16)) in
  exists N, (N0 - 1 <= N <= N0 + 1)%nat /\
    (forall k, (k < N)%nat -> active (animateCounter target duration k) = true) /\
    active (animateCounter target duration N) = false /\
    shown (animateCounter target duration N) = Some (JFin target).
Proof.
  intros Ht Hd N0. destruct (increment_bounds target duration Ht Hd) as (i & Hinc & Hi & Hlo & Hhi).
  set (m := duration / 16) in *.
  assert (Hm : 1 # 16 <= m <= 1048576).
  { assert (Em : m == duration * (1 # 16)) by reflexivity. assert (pow2 24 == 16777216) by reflexivity. rewrite Em. lra. }
  pose proof (Qle_ceiling m) as C1. pose proof (Qceiling_lt m) as C2.
  unfold Z.sub in C2. rewrite inject_Z_plus, inject_Z_opp in C2. change (inject_Z 1) with 1 in C2.
  assert (HN0 : inject_Z (Z.of_nat N0) == inject_Z (Qceiling m)).
  { unfold N0. rewrite Z2Nat.id; [reflexivity|]. assert (0 < inject_Z (Qceiling m)) by lra.
    rewrite <- (Zlt_Qlt 0) in H. lia. }
  set (P := fun j => js_ge (fsum (JFin i) j) target).
  assert (Hfuel := stop_fuel target m i Ht Hm Hlo Hhi (inject_Z (Z.of_nat (S N0)))).
  rewrite inject_Z_of_nat_S, HN0 in Hfuel. destruct Hfuel as [F1 F2]; [lra|].
  rewrite <- HN0, <- inject_Z_of_nat_S in F1, F2.
  pose proof (fsum_bounds i (S N0) Hi F1 F2) as Hs.
  assert (HK : P (S N0) = true).
  { destruct (Hs (S N0) (le_n _)) as (s & Es & Hs1 & _). unfold P. rewrite Es. cbn. apply Qle_bool_iff.
    eapply Qle_trans; [|exact Hs1]. apply (stop_reach target m i); try assumption.
    rewrite inject_Z_of_nat_S, HN0. lra. }
  destruct (first_true P (S N0) HK) as (N & HNK & HPN & Hbefore).
  assert (HN1 : (N0 - 1 <= N)%nat).
  { destruct (Nat.le_gt_cases (N0 - 1) N) as [|Hlt]; [assumption|]. exfalso.
    destruct N as [|N'].
    - unfold P in HPN. cbn in HPN. apply Qle_bool_iff in HPN. pose proof (pow2_pos (-900)). lra.
    - destruct (Hs (S N') ltac:(lia)) as (s & Es & _ & Hs2). unfold P in HPN. rewrite Es in HPN. cbn in HPN.
      apply Qle_bool_iff in HPN.
      assert (Hj : inject_Z (Z.of_nat (S N')) < m - 1).
      { assert (inject_Z (Z.of_nat (S N') + 2) <= inject_Z (Z.of_nat N0)) by (rewrite <- Zle_Qle; lia).
        rewrite inject_Z_plus in H. rewrite HN0 in H. change (inject_Z 2) with 2 in H. lra. }
      assert (Hb := stop_below target m i). specialize (Hb Ht Hm Hlo Hhi _ (inject_Z_of_nat_nonneg _) Hj). lra. }
  destruct N as [|k]; [unfold P in HPN; cbn in HPN; apply Qle_bool_iff in HPN; pose proof (pow2_pos (-900)); lra|].
  exists (S k). split; [lia|].
  unfold animateCounter. rewrite Hinc. fold counter0.
  assert (Hpre : forall j, (1 <= j <= k)%nat -> js_ge (fsum (JFin i) j) target = false) by (intros j Hj; apply Hbefore; lia).
  split; [|exact (run_hit target (JFin i) k Hpre HPN)].
  intros k' Hk'. apply (run_prefix target (JFin i) k'). intros j Hj. apply Hpre. lia.
Qed.


(** ** A negative target and a duration under 16 ms *)

Lemma round_pos_cases (x : Q) : round_pos x = JPosInf \/ exists v, round_pos x = JFin v.
Proof. unfold round_pos. destruct (Qle_bool _ _); [left; reflexivity | right; eexists; reflexivity]. Qed.

Lemma round_neg (x : Q) : x < 0 -> round x = neg (round_pos (- x)).
Proof. intros H. unfold round. now rewrite (proj1 (Qlt_alt x 0) H). Qed.

(** A double below [t < 0]: [-Infinity], or the negation of a finite
    result of [round_pos] larger than [-t]. *)
Definition below (t : Q) (v : jsnum) : Prop :=
  v = JNegInf \/ exists x w, 0 < x /\ round_pos x = JFin w /\ - t < w /\ v = JFin (- w).

Lemma below_ge (t : Q) (v : jsnum) : below t v -> js_ge v t = false.
Proof.
  intros [->|(x & w & _ & _ & Hw & ->)]; [reflexivity|]. cbn. apply Qle_bool_false. lra.
Qed.

(** Rounding is monotone: what [X] rounds above [b], or overflows, so
    does any [y >= X]. *)
Lemma round_pos_above (b X y : Q) :
  0 < X -> X <= y -> (round_pos X = JPosInf \/ exists w, round_pos X = JFin w /\ b < w) ->
  round_pos y = JPosInf \/ exists r, round_pos y = JFin r /\ b < r.
Proof.
  intros HX Hy HXb. destruct (round_pos_cases y) as [E|(r & E)]; [now left|right].
  exists r. split; [exact E|]. destruct (round_pos_mono X y r HX Hy E) as (a0 & Ha0 & Hle).
  destruct HXb as [E'|(w & E' & Hw)]; rewrite E' in Ha0; [discriminate|]. injection Ha0 as <-. lra.
Qed.

(** A value at least a double [w > -t] rounds above [-t], or overflows. *)
Lemma round_pos_grow (t x w y : Q) :
  t < 0 -> 0 < x -> round_pos x = JFin w -> - t < w -> w <= y ->
  round_pos y = JPosInf \/ exists r, round_pos y = JFin r /\ - t < r.
Proof.
  intros Ht0 Hx Hw Ht Hy. destruct (round_pos_idem x w Hx Hw ltac:(lra)) as (w' & Hw' & Ew).
  apply (round_pos_above (- t) w y); [lra | exact Hy|]. right. exists w'. split; [exact Hw' | lra].
Qed.

Lemma below_neg (t y : Q) : 0 < y -> (round_pos y = JPosInf \/ exists r, round_pos y = JFin r /\ - t < r) ->
  below t (neg (round_pos y)).
Proof.
  intros Hy [E|(r & E & Hr)]; rewrite E; [now left|right]. exists y, r. auto.
Qed.

Lemma add_below (t : Q) (a b : jsnum) : t < 0 -> below t a -> below t b -> below t (Binary64.add a b).
Proof.
  intros Ht [->|(x1 & w1 & Hx1 & Hr1 & Hw1 & ->)] [->|(x2 & w2 & Hx2 & Hr2 & Hw2 & ->)];
    try (left; reflexivity).
  rewrite add_fin, round_neg by lra. apply below_neg; [lra|].
  apply (round_pos_grow t x1 w1); [exact Ht | exact Hx1 | exact Hr1 | exact Hw1 | lra].
Qed.

Lemma add_zero_below (t : Q) (b : jsnum) : t < 0 -> below t b -> below t (Binary64.add (JFin 0) b).
Proof.
  intros Ht [->|(x & w & Hx & Hr & Hw & ->)]; [now left|].
  rewrite add_fin, round_neg by lra. apply below_neg; [lra|].
  apply (round_pos_grow t x w); [exact Ht | exact Hx | exact Hr | exact Hw | lra].
Qed.

Lemma fsum_below (t : Q) (inc : jsnum) (k : nat) : t < 0 -> below t inc -> below t (fsum inc (S k)).
Proof.
  intros Ht Hi. induction k as [|k IH]; [exact (add_zero_below t inc Ht Hi)|].
  exact (add_below t _ _ Ht IH Hi).
Qed.

(** With a normal [duration < 16], [duration / 16] rounds to at most
    [1 - 2^-53], and [target / (duration / 16)] rounds below [target]. *)
Lemma increment_below (t d : Q) :
  t < 0 -> is_normal (- t) -> is_normal d -> d < 16 -> below t (increment t d).
Proof.
  intros Ht Hnt Hnd Hd16. pose proof (is_normal_pos d Hnd) as Hd0.
  assert (Hd : d <= 16 - pow2 (-49)) by (apply (normal_below_pow2 d 4 Hnd); exact Hd16).
  change (pow2 (-49)) with (1 # 562949953421312) in Hd.
  assert (Hc : is_normal (1 - u)) by (exists (2 ^ 53 - 1)%Z, (-53)%Z; split; [lia | split; [lia | reflexivity]]).
  destruct (round_normal_exact _ Hc) as (c' & Hrc & Ec).
  unfold increment. rewrite div_fin by discriminate.
  destruct (round_within (d / 16) (1 - u) c') as (a & Ha & Ha0 & Ha1); [|exact Hrc | exact Ec|].
  { assert (E : d / 16 == d * (1 # 16)) by reflexivity. rewrite E. lra. }
  rewrite Ha. cbn [Binary64.div].
  destruct (Qeq_bool a 0) eqn:Ea.
  - replace (Qeq_bool t 0) with false by (symmetry; apply Qeq_bool_false; lra).
    replace (Qltb 0 t) with false by (symmetry; apply Qltb_false; lra). now left.
  - apply Qeq_bool_false in Ea. assert (Ha' : 0 < a) by (apply Qle_lt_or_eq in Ha0 as [|E]; [assumption | exfalso; apply Ea; now symmetry]).
    rewrite round_neg by (apply Qlt_shift_div_r; lra). apply below_neg; [setoid_replace (- (t / a)) with ((- t) / a) by (field; lra); apply Qlt_shift_div_l; lra|].
    apply (round_pos_above (- t) ((- t) / (1 - u))); [apply Qlt_shift_div_l; lra | | exact (round_above (- t) Hnt)].
    setoid_replace (- (t / a)) with ((- t) / a) by (field; lra).
    apply Qle_shift_div_l; [exact Ha'|].
    assert (P : 0 < (- t) / (1 - u)) by (apply Qlt_shift_div_l; lra).
    assert (((- t) / (1 - u)) * a <= ((- t) / (1 - u)) * (1 - u)) by (apply Qmult_le_l; lra).
    setoid_replace ((- t) / (1 - u) * (1 - u)) with (- t) in H by (field; lra). exact H.
Qed.

(** C21: With a negative [target] and a [duration] under 16 ms (both
    normal doubles, as the numbers of the page are) the increment
    overshoots below [target] on the first period, every binary64 sum
    stays below [target] (or reaches [-Infinity]), and [start >= target]
    never holds: the interval runs forever. *)
Theorem counter_never_stops (target duration : Q) :
  target < 0 -> is_normal (- target) -> is_normal duration -> duration < 16 ->
  forall n, active (animateCounter target duration n) = true.
Proof.
  intros Ht Hnt Hnd Hd n. unfold animateCounter. fold counter0.
  pose proof (increment_below target duration Ht Hnt Hnd Hd) as Hi.
  apply (run_prefix target _ n). intros j Hj. destruct j as [|j]; [lia|].
  apply below_ge, fsum_below; assumption.
Qed.

(** C22: [animateCounter(element, 0, 0)] never stops and shows [NaN]:
    the increment is [0 / (0 / 16) = 0 / 0], [NaN >= 0] is false, so the
    interval is never cleared. *)
Theorem counter_nan_forever (n : nat) :
  active (animateCounter 0 0 n) = true /\ shown (animateCounter 0 0 (S n)) = Some JNaN.
Proof.
  unfold animateCounter. change (increment 0 0) with JNaN.
  assert (Hs : forall m, run 0 JNaN (S m) counter0 = Counter JNaN (Some JNaN) true).
  { induction m as [|m IH]; [reflexivity|]. rewrite run_S_end, IH. reflexivity. }
  split; [destruct n; [reflexivity|]|]; rewrite Hs; reflexivity.
Qed.

End CounterProps.

Module CounterWitnesses.
Import Counter CounterProps Binary64 Binary64Props.

(** [animateCounter(el, 100)]: the sums reach 100 on the 126th period,
    one more than [2000 / 16 = 125], as in a browser. *)
Lemma counter_stops_witness :
  ((pow2 (-900) <= 100 <= pow2 900) /\ 1 <= 2000 <= pow2 24) /\
  (exists N, (Z.to_nat (Qceiling (2000 / 16)) - 1 <= N <= Z.to_nat (Qceiling (2000 / 16)) + 1)%nat /\
    (forall k, (k < N)%nat -> active (animateCounter 100 2000 k) = true) /\
    active (animateCounter 100 2000 N) = false /\
    shown (animateCounter 100 2000 N) = Some (JFin 100)) /\
  active (animateCounter 100 2000 125) = true /\ active (animateCounter 100 2000 126) = false.
Proof.
  assert (H1 : pow2 (-900) <= 100 <= pow2 900) by (split; vm_compute; discriminate).
  assert (H2 : 1 <= 2000 <= pow2 24) by (split; vm_compute; discriminate).
  split; [split; assumption|]. split; [apply (counter_stops 100 2000 H1 H2)|].
  split; vm_compute; reflexivity.
Defined.

Lemma counter_never_stops_witness :
  ((-5) < 0 /\ is_normal (- (-5)) /\ is_normal 10 /\ 10 < 16) /\
  forall n, active (animateCounter (-5) 10 n) = true.
Proof.
  assert (H5 : is_normal (- (-5))) by exact (is_normal_Z 5 ltac:(lia)).
  assert (H10 : is_normal 10) by exact (is_normal_Z 10 ltac:(lia)).
  split; [repeat split; try assumption; reflexivity|].
  apply counter_never_stops; [reflexivity | exact H5 | exact H10 | reflexivity].
Defined.

End CounterWitnesses.
