(* ===== verification/Page.v ===== *)
(** * The page as one program: the script's top level and the shared timer queue

  Module [Page] puts the components that set timers together on the
  browser's one timer queue, with what the script's top level does to
  the document:
  - [task]: the callbacks of the queue, tagged with the component that
    scheduled them (typing effect, embed fallback, Konami code, notify
    form); each component's handlers are its [_at] definitions applied
    to the tag ([Typing.type_step_at TypingT] and so on);
  - [page]: the nodes the script appends to [document.head] and
    [document.body] (script.js 166, 217, 312, 371), the body's class list,
    the console, and the state of each timer-using component;
  - [script_dom]: the appends and the two [console.log] calls of the top
    level, in source order (166, 217, 312, 371, 373-374);
  - [window_load]: the three [load] listeners in registration order:
    the typing effect (126), the removal of [preload] (342-344), the
    embed fallback (573);
  - [handle] and [session]: page events at increasing times, the clock
    let run to each event's time first.
  [PageProps] proves, with [Shared]'s simulation, that each component
  inside the page computes what its own model computes from its own
  events: the page refines the product of its components.  The strings
  hold the UTF-8 bytes of the source's text. *)

From Stdlib Require Import QArith List String Ascii Lia ZArith Bool.
From stdpp Require Import base gmap strings.
From S2P Require Import Prelude Host Shared Konami Widgets Effects.
Import ListNotations.
Open Scope string_scope.

Module Page.

(** The callbacks on the page's timer queue. *)
Inductive task :=
| TypingT (t : Typing.task)
| FallbackT (t : Fallback.task)
| KonamiT (t : Konami.task)
| NotifyT (t : Notify.task).

(** The nodes the script's top level appends. *)
Inductive node :=
| CursorGlow                           (** [div.cursor-glow] (155-166), state in [Pointer.Glow] *)
| ProgressBar                          (** the progress bar (206-217), style in [Scroll.Nav] *)
| FloatStyle (drift : Q)               (** [@keyframes float-particle] (296-312), [Decor.Floaters] *)
| RainbowStyle (textContent : string). (** [@keyframes rainbow] (364-371) *)

Record page := Page {
  head : list node;             (** appended to [document.head] *)
  body : list node;             (** appended to [document.body] *)
  body_classes : list string;   (** [document.body.classList] *)
  console : list (string * string);
  subtitle : Typing.typer;
  embed : Fallback.embed;
  konami : Konami.state;
  form : Notify.form
}.

(** [rainbowStyle.textContent] (365-370). *)
Definition rainbowStyle_text : string :=
"
    @keyframes rainbow {
        0% { filter: hue-rotate(0deg); }
        100% { filter: hue-rotate(360deg); }
    }
".

(** The two [console.log] calls (373-374): format string and CSS. *)
Definition banner : list (string * string) :=
  [("%c🚀 Welcome to FRICTIONisSICK! 🚀", "font-size: 20px; font-weight: bold; color: #667eea;");
   ("%cTip: Try the Konami Code for a surprise! ↑↑↓↓←→←→BA", "font-size: 14px; color: #764ba2;")].

(** The document effects of the top level, in source order; [drift] is
    the [Math.random() * 100 - 50] of the float-particle keyframes. *)
Definition script_dom (drift : Q) (p : page) : page :=
  let body1 := (body p ++ [CursorGlow])%list in
  let body2 := (body1 ++ [ProgressBar])%list in
  let head1 := (head p ++ [FloatStyle drift])%list in
  let head2 := (head1 ++ [RainbowStyle rainbowStyle_text])%list in
  Page head2 body2 (body_classes p) (console p ++ banner)%list
       (subtitle p) (embed p) (konami p) (form p).

Definition set_subtitle (s : Typing.typer) (p : page) : page :=
  Page (head p) (body p) (body_classes p) (console p) s (embed p) (konami p) (form p).
Definition set_embed (e : Fallback.embed) (p : page) : page :=
  Page (head p) (body p) (body_classes p) (console p) (subtitle p) e (konami p) (form p).
Definition set_konami (k : Konami.state) (p : page) : page :=
  Page (head p) (body p) (body_classes p) (console p) (subtitle p) (embed p) k (form p).
Definition set_form (f : Notify.form) (p : page) : page :=
  Page (head p) (body p) (body_classes p) (console p) (subtitle p) (embed p) (konami p) f.

(** A component's handler, run on its part of the page and the page's queue. *)
Definition on_subtitle (h : Typing.typer * timers task -> Typing.typer * timers task)
  (st : page * timers task) : page * timers task :=
  let (s, c) := h (subtitle (fst st), snd st) in (set_subtitle s (fst st), c).
Definition on_embed (h : Fallback.embed * timers task -> Fallback.embed * timers task)
  (st : page * timers task) : page * timers task :=
  let (e, c) := h (embed (fst st), snd st) in (set_embed e (fst st), c).
Definition on_konami (h : Konami.state * timers task -> Konami.state * timers task)
  (st : page * timers task) : page * timers task :=
  let (k, c) := h (konami (fst st), snd st) in (set_konami k (fst st), c).
Definition on_form (h : Notify.form * timers task -> Notify.form * timers task)
  (st : page * timers task) : page * timers task :=
  let (f, c) := h (form (fst st), snd st) in (set_form f (fst st), c).

(** A callback of the page's queue. *)
Definition run_task (u : task) (st : page * timers task) : page * timers task :=
  match u with
  | TypingT t => on_subtitle (Typing.run_task_at TypingT t) st
  | FallbackT t => on_embed (Fallback.run_task_at t) st
  | KonamiT t => on_konami (Konami.run_task_at t) st
  | NotifyT t => on_form (Notify.run_task_at t) st
  end.

(** The [load] listener of 342-344. *)
Definition remove_preload (p : page) : page :=
  Page (head p) (body p) (ClassList.remove "preload" (body_classes p)) (console p)
       (subtitle p) (embed p) (konami p) (form p).

(** The window's [load] event: its listeners in registration order. *)
Definition window_load (st : page * timers task) : page * timers task :=
  let st1 := on_subtitle (Typing.window_load_at TypingT) st in
  let st2 := (remove_preload (fst st1), snd st1) in
  on_embed (Fallback.window_load_at FallbackT) st2.

Inductive event :=
| WindowLoad
| PlayerLoad
| KeyDown (key : string)
| FormInput (e : Notify.event).

Definition handle (e : event) (st : page * timers task) : page * timers task :=
  match e with
  | WindowLoad => window_load st
  | PlayerLoad => on_embed (@Fallback.player_load_at task) st
  | KeyDown k => on_konami (Konami.keydown_at KonamiT k) st
  | FormInput e => on_form (Notify.handle_at NotifyT e) st
  end.

Definition tick (fuel : nat) (t : Z) (st : page * timers task) : page * timers task :=
  advance_to run_task fuel t st.

(** Events [(time, event)]: the clock reaches the time, then the event's
    listeners run. *)
Fixpoint session (fuel : nat) (evs : list (Z * event)) (st : page * timers task) : page * timers task :=
  match evs with
  | [] => st
  | (t, e) :: rest => session fuel rest (handle e (tick fuel t st))
  end.

End Page.

Module PageProps.
Import Page.

(** Which component scheduled a callback. *)
Definition is_typing (u : task) : bool := match u with TypingT _ => true | _ => false end.
Definition is_fallback (u : task) : bool := match u with FallbackT _ => true | _ => false end.
Definition is_konami (u : task) : bool := match u with KonamiT _ => true | _ => false end.
Definition is_notify (u : task) : bool := match u with NotifyT _ => true | _ => false end.

(** A step's effect on a queue: nothing, or one [setTimeout] of one of
    the component's callbacks, with a positive delay when [later]. *)
Definition sets {T U : Type} (later : bool) (lift : T -> U) (C C' : timers U) : Prop :=
  C' = C \/ exists x d, (later = true -> 0 < d)%Z /\ C' = snd (setTimeout (lift x) d C).

(** A step that leaves the clock and sets at most one timer. *)
Definition frame {T S U : Type} (later : bool) (lift : T -> U) (h : S * timers U -> S * timers U) : Prop :=
  forall s C, sets later lift C (snd (h (s, C))) /\ now (snd (h (s, C))) = now C.

Lemma related_sets_other {T T' U : Type} (later : bool) (lift : T -> U) (mine : U -> bool) (lift' : T' -> U)
    (rho : nat -> nat) (c : timers T) (C C' : timers U) :
  related lift mine rho c C -> (forall x, mine (lift' x) = false) -> sets later lift' C C' -> related lift mine rho c C'.
Proof.
  intros Hr Hm [->|(x & d & _ & ->)]; [exact Hr|]. now apply related_set_other.
Qed.

(** Setting timers at [t] for later keeps a queue settled at [t]. *)
Lemma settled_sets {T U : Type} (lift : T -> U) (t : Z) (C C' : timers U) :
  settled t C -> now C = t -> sets true lift C C' -> settled t C'.
Proof.
  intros [H1 H2] Hn [->|(x & d & Hd & ->)]; [split; assumption|]. specialize (Hd eq_refl). split; [exact H1|].
  intros tm Hin. apply in_app_or in Hin as [Hin|[<-|[]]]; [now apply H2|]. cbn. lia.
Qed.

Lemma frame_set {T S U : Type} (later : bool) (lift : T -> U) (x : T) (d : Z) (s' : S) :
  (later = true -> 0 < d)%Z -> frame later lift (fun st => (s', snd (setTimeout (lift x) d (snd st)))).
Proof. intros Hd s C. split; [right; eauto | reflexivity]. Qed.

Lemma frame_id {T S U : Type} (later : bool) (lift : T -> U) (f : S -> S) :
  frame later lift (fun st => (f (fst st), snd st)).
Proof. intros s C. split; [now left | reflexivity]. Qed.

Lemma typing_step_frame {U : Type} (lift : Typing.task -> U) (text : list ascii) (speed : Z) :
  frame false lift (Typing.type_step_at lift text speed).
Proof.
  intros s C. unfold Typing.type_step_at. destruct (nth_error _ _);
    [exact (frame_set false lift _ speed _ ltac:(discriminate) s C) | exact (frame_id false lift (fun x => x) s C)].
Qed.

Lemma typing_run_frame {U : Type} (lift : Typing.task -> U) (t : Typing.task) : frame false lift (Typing.run_task_at lift t).
Proof. destruct t; intros s C; apply typing_step_frame. Qed.

Lemma typing_load_frame {U : Type} (lift : Typing.task -> U) : frame true lift (Typing.window_load_at lift).
Proof. intros s C. exact (frame_set true lift _ 1500 s ltac:(lia) s C). Qed.

Lemma keydown_frame {U : Type} (lift : Konami.task -> U) (k : string) : frame true lift (Konami.keydown_at lift k).
Proof.
  intros s C. unfold Konami.keydown_at. destruct (String.eqb _ _);
    [exact (frame_set true lift _ 5000 _ ltac:(lia) s C) | exact (frame_id true lift (fun s => Konami.St (js_slice_last 10 (Konami.konamiCode s ++ [k])) (Konami.body_animation s)) s C)].
Qed.

Lemma notify_handle_frame {U : Type} (lift : Notify.task -> U) (e : Notify.event) : frame true lift (Notify.handle_at lift e).
Proof.
  intros s C. destruct e as [v|]; [exact (frame_id true lift (fun f => Notify.Form (option_map (fun _ => v) (Notify.emailInput f)) (Notify.notifyBtn f) (Notify.storage f)) s C)|].
  unfold Notify.handle_at, Notify.submit_at. cbn [fst snd].
  destruct (Notify.emailInput s) as [email|]; [|exact (frame_id true lift (fun x => x) s C)].
  destruct (js_truthy_string email); [|exact (frame_id true lift (fun x => x) s C)].
  destruct (Notify.notifyBtn s) as [b|]; [|exact (frame_id true lift (fun x => x) s C)].
  exact (frame_set true lift (Notify.RestoreButton b) 2000 _ ltac:(lia) s C).
Qed.

(** The callbacks of the Konami code, the form and the fallback only
    change their component's state. *)
Lemma konami_run_frame {U : Type} (lift : Konami.task -> U) (t : Konami.task) : frame false lift (@Konami.run_task_at U t).
Proof. destruct t. intros s C. exact (frame_id false lift (fun s => Konami.St (Konami.konamiCode s) EmptyString) s C). Qed.

Lemma notify_run_frame {U : Type} (lift : Notify.task -> U) (t : Notify.task) : frame false lift (@Notify.run_task_at U t).
Proof.
  destruct t as [orig]. intros s C. unfold Notify.run_task_at. destruct (Notify.notifyBtn s);
    [exact (frame_id false lift (fun f => Notify.Form (option_map (fun _ => EmptyString) (Notify.emailInput f)) (Some orig) (Notify.storage f)) s C)
    | exact (frame_id false lift (fun x => x) s C)].
Qed.

Lemma fallback_run_frame {U : Type} (lift : Fallback.task -> U) (t : Fallback.task) : frame false lift (@Fallback.run_task_at U t).
Proof. destruct t. intros s C. exact (frame_id false lift (fun e => Fallback.Embed "none" "block" (Fallback.load_listener e)) s C). Qed.

(** ** Each handler on its own queue and on the page's *)

(** The handler on the component's own queue and on the page's: the
    state it computes does not depend on the ids it gets. *)
Definition same_handler {T S U : Type} (lift : T -> U) (mine : U -> bool)
    (h1 : S * timers T -> S * timers T) (hP : S * timers U -> S * timers U) : Prop :=
  forall rho s c C, related lift mine rho c C -> now c = now C ->
  exists rho', related lift mine rho' (snd (h1 (s, c))) (snd (hP (s, C))) /\ fst (h1 (s, c)) = fst (hP (s, C)).

Lemma same_setTimeout {T S U : Type} (lift : T -> U) (mine : U -> bool) (Hm : forall t, mine (lift t) = true)
    (x : T) (d : Z) (s' : S) :
  same_handler lift mine (fun st => (s', snd (setTimeout x d (snd st)))) (fun st => (s', snd (setTimeout (lift x) d (snd st)))).
Proof.
  intros rho s c C Hr Hn. destruct (related_setTimeout lift mine Hm rho c C x d Hr Hn) as [H1 _].
  eexists. split; [exact H1 | reflexivity].
Qed.

Lemma same_id {T S U : Type} (lift : T -> U) (mine : U -> bool) (f : S -> S) :
  same_handler lift mine (fun st => (f (fst st), snd st)) (fun st => (f (fst st), snd st)).
Proof. intros rho s c C Hr Hn. exists rho. split; [exact Hr | reflexivity]. Qed.

Lemma typing_mine (t : Typing.task) : is_typing (TypingT t) = true.
Proof. reflexivity. Qed.
Lemma konami_mine (t : Konami.task) : is_konami (KonamiT t) = true.
Proof. reflexivity. Qed.
Lemma notify_mine (t : Notify.task) : is_notify (NotifyT t) = true.
Proof. reflexivity. Qed.
Lemma fallback_mine (t : Fallback.task) : is_fallback (FallbackT t) = true.
Proof. reflexivity. Qed.

Lemma type_step_same (text : list ascii) (speed : Z) :
  same_handler TypingT is_typing (Typing.type_step_at (fun t => t) text speed) (Typing.type_step_at TypingT text speed).
Proof.
  intros rho s c C Hr Hn. unfold Typing.type_step_at.
  destruct (nth_error text (Typing.i s)) as [ch|]; [|exact (same_id _ _ (fun x => x) rho s c C Hr Hn)].
  exact (same_setTimeout TypingT is_typing typing_mine _ speed _ rho s c C Hr Hn).
Qed.

Lemma typing_run_same (t : Typing.task) :
  same_handler TypingT is_typing (Typing.run_task_at (fun t => t) t) (Typing.run_task_at TypingT t).
Proof.
  intros rho s c C Hr Hn. destruct t as [text speed | text]; [exact (type_step_same text speed rho s c C Hr Hn)|].
  exact (type_step_same text 80 rho _ c C Hr Hn).
Qed.

Lemma typing_load_same :
  same_handler TypingT is_typing (Typing.window_load_at (fun t => t)) (Typing.window_load_at TypingT).
Proof.
  intros rho s c C Hr Hn. exact (same_setTimeout TypingT is_typing typing_mine _ 1500 s rho s c C Hr Hn).
Qed.

Lemma keydown_same (k : string) :
  same_handler KonamiT is_konami (Konami.keydown_at (fun t => t) k) (Konami.keydown_at KonamiT k).
Proof.
  intros rho s c C Hr Hn. unfold Konami.keydown_at.
  destruct (String.eqb _ _).
  - exact (same_setTimeout KonamiT is_konami konami_mine _ 5000 _ rho s c C Hr Hn).
  - exact (same_id _ _ (fun s => Konami.St (js_slice_last 10 (Konami.konamiCode s ++ [k])) (Konami.body_animation s)) rho s c C Hr Hn).
Qed.

Lemma notify_handle_same (e : Notify.event) :
  same_handler NotifyT is_notify (Notify.handle_at (fun t => t) e) (Notify.handle_at NotifyT e).
Proof.
  intros rho s c C Hr Hn. destruct e as [v|].
  - exact (same_id _ _ (fun f => Notify.Form (option_map (fun _ => v) (Notify.emailInput f)) (Notify.notifyBtn f) (Notify.storage f)) rho s c C Hr Hn).
  - unfold Notify.handle_at, Notify.submit_at. cbn [fst snd].
    destruct (Notify.emailInput s) as [email|]; [|exact (same_id _ _ (fun x => x) rho s c C Hr Hn)].
    destruct (js_truthy_string email); [|exact (same_id _ _ (fun x => x) rho s c C Hr Hn)].
    destruct (Notify.notifyBtn s) as [b|]; [|exact (same_id _ _ (fun x => x) rho s c C Hr Hn)].
    exact (same_setTimeout NotifyT is_notify notify_mine (Notify.RestoreButton b) 2000 _ rho s c C Hr Hn).
Qed.

Lemma konami_run_same (t : Konami.task) :
  same_handler KonamiT is_konami (@Konami.run_task_at Konami.task t) (@Konami.run_task_at task t).
Proof. destruct t. exact (same_id _ _ (fun s => Konami.St (Konami.konamiCode s) EmptyString)). Qed.

Lemma notify_run_same (t : Notify.task) :
  same_handler NotifyT is_notify (@Notify.run_task_at Notify.task t) (@Notify.run_task_at task t).
Proof.
  intros rho s c C Hr Hn. destruct t as [orig]. unfold Notify.run_task_at.
  destruct (Notify.notifyBtn s); [|exact (same_id _ _ (fun x => x) rho s c C Hr Hn)].
  exact (same_id _ _ (fun f => Notify.Form (option_map (fun _ => EmptyString) (Notify.emailInput f)) (Some orig) (Notify.storage f)) rho s c C Hr Hn).
Qed.

(** ** The page's steps, seen from one component *)

Lemma on_subtitle_eq (h : Typing.typer * timers task -> Typing.typer * timers task) (p : page) (C : timers task) :
  on_subtitle h (p, C) = (set_subtitle (fst (h (subtitle p, C))) p, snd (h (subtitle p, C))).
Proof. unfold on_subtitle. cbn [fst snd]. now destruct (h _). Qed.
Lemma on_embed_eq (h : Fallback.embed * timers task -> Fallback.embed * timers task) (p : page) (C : timers task) :
  on_embed h (p, C) = (set_embed (fst (h (embed p, C))) p, snd (h (embed p, C))).
Proof. unfold on_embed. cbn [fst snd]. now destruct (h _). Qed.
Lemma on_konami_eq (h : Konami.state * timers task -> Konami.state * timers task) (p : page) (C : timers task) :
  on_konami h (p, C) = (set_konami (fst (h (konami p, C))) p, snd (h (konami p, C))).
Proof. unfold on_konami. cbn [fst snd]. now destruct (h _). Qed.
Lemma on_form_eq (h : Notify.form * timers task -> Notify.form * timers task) (p : page) (C : timers task) :
  on_form h (p, C) = (set_form (fst (h (form p, C))) p, snd (h (form p, C))).
Proof. unfold on_form. cbn [fst snd]. now destruct (h _). Qed.

(** A step of another component that sets at most one of its timers. *)
Lemma agree_other {T Sc T' : Type} (lift : T -> task) (mine : task -> bool)
    (sim : (nat -> nat) -> Sc * timers T -> page -> Prop) (lift' : T' -> task) (later : bool)
    (rho : nat -> nat) (st : Sc * timers T) (p p' : page) (C C' : timers task) :
  agree lift mine sim rho st (p, C) -> sim rho st p' -> sets later lift' C C' ->
  (forall x, mine (lift' x) = false) -> agree lift mine sim rho st (p', C').
Proof. intros [_ Hr] Hs HC Hm. split; [exact Hs | exact (related_sets_other later lift mine lift' rho _ C C' Hr Hm HC)]. Qed.

(** A step of the component itself. *)
Lemma agree_own {T Sc : Type} (lift : T -> task) (mine : task -> bool)
    (sim : (nat -> nat) -> Sc * timers T -> page -> Prop)
    (h1 : Sc * timers T -> Sc * timers T) (hP : Sc * timers task -> Sc * timers task)
    (rho : nat -> nat) (s : Sc) (c : timers T) (p : page) (C : timers task) (p' : page) :
  same_handler lift mine h1 hP -> related lift mine rho c C -> now c = now C ->
  (forall rho', sim rho' (h1 (s, c)) p' \/ fst (h1 (s, c)) <> fst (hP (s, C))) ->
  exists rho', agree lift mine sim rho' (h1 (s, c)) (p', snd (hP (s, C))).
Proof.
  intros Hh Hr Hn Hs. destruct (Hh rho s c C Hr Hn) as (rho' & H1 & H2).
  exists rho'. destruct (Hs rho') as [H|H]; [split; [exact H | exact H1] | contradiction].
Qed.

(** *** The Konami code *)

Definition simK (rho : nat -> nat) (st : Konami.state * timers Konami.task) (p : page) : Prop :=
  konami p = fst st.

Lemma konami_run_mine (t : Konami.task) (rho : nat -> nat) (st : Konami.state * timers Konami.task) (pst : page * timers task) :
  agree KonamiT is_konami simK rho st pst -> now (snd st) = now (snd pst) ->
  exists rho', agree KonamiT is_konami simK rho' (Konami.run_task t st) (run_task (KonamiT t) pst).
Proof.
  destruct st as [s c], pst as [p C]. intros [Hs Hr] Hn. cbn [run_task]. rewrite on_konami_eq.
  unfold simK in Hs. cbn [fst] in Hs. rewrite Hs.
  destruct (konami_run_same t rho s c C Hr Hn) as (rho' & H1 & H2). exists rho'. split; [exact (eq_sym H2) | exact H1].
Qed.

Lemma simK_next (rho : nat -> nat) (s : Konami.state) (c c' : timers Konami.task) (p : page) :
  next_id c' = next_id c -> simK rho (s, c) p -> simK rho (s, c') p.
Proof. intros _ H. exact H. Qed.

(** A callback of another component, for a component whose view of the
    page is [sim] (which reads its own part of the page only). *)
Ltac run_other_tac Ha :=
  lazymatch goal with
  | |- agree _ _ _ _ _ (run_task (TypingT ?t) (?p, ?C)) =>
      cbn [run_task]; rewrite on_subtitle_eq;
      exact (agree_other _ _ _ TypingT false _ _ p _ C _ Ha (proj1 Ha)
               (proj1 (typing_run_frame TypingT t (subtitle p) C)) (fun _ => eq_refl))
  | |- agree _ _ _ _ _ (run_task (FallbackT ?t) (?p, ?C)) =>
      cbn [run_task]; rewrite on_embed_eq;
      exact (agree_other _ _ _ FallbackT false _ _ p _ C _ Ha (proj1 Ha)
               (proj1 (fallback_run_frame FallbackT t (embed p) C)) (fun _ => eq_refl))
  | |- agree _ _ _ _ _ (run_task (KonamiT ?t) (?p, ?C)) =>
      cbn [run_task]; rewrite on_konami_eq;
      exact (agree_other _ _ _ KonamiT false _ _ p _ C _ Ha (proj1 Ha)
               (proj1 (konami_run_frame KonamiT t (konami p) C)) (fun _ => eq_refl))
  | |- agree _ _ _ _ _ (run_task (NotifyT ?t) (?p, ?C)) =>
      cbn [run_task]; rewrite on_form_eq;
      exact (agree_other _ _ _ NotifyT false _ _ p _ C _ Ha (proj1 Ha)
               (proj1 (notify_run_frame NotifyT t (form p) C)) (fun _ => eq_refl))
  end.

Lemma konami_run_other (u : task) (rho : nat -> nat) (st : Konami.state * timers Konami.task) (pst : page * timers task) :
  is_konami u = false -> agree KonamiT is_konami simK rho st pst -> agree KonamiT is_konami simK rho st (run_task u pst).
Proof. destruct pst as [p C]. intros Hu Ha. destruct u; [run_other_tac Ha | run_other_tac Ha | discriminate | run_other_tac Ha]. Qed.

(** ** What each page event does to the queue *)

Lemma fallback_load_frame {U : Type} (lift : Fallback.task -> U) : frame true lift (Fallback.window_load_at lift).
Proof. intros s C. split; [right; exists Fallback.ShowFallback, 5000%Z; split; [lia | reflexivity] | reflexivity]. Qed.

(** The fallback's listener clears the fallback's own timer. *)
Definition listener_own (pst : page * timers task) : Prop :=
  forall id, Fallback.load_listener (embed (fst pst)) = Some id ->
  forall tm, In tm (queue (snd pst)) -> is_fallback (t_task tm) = false -> t_id tm <> id.

Lemma handle_queue (e : event) (p : page) (C : timers task) :
  let C' := snd (handle e (p, C)) in
  now C' = now C /\
  match e with
  | WindowLoad => exists C1, sets true TypingT C C1 /\ sets true FallbackT C1 C'
  | PlayerLoad => C' = C \/ exists id, Fallback.load_listener (embed p) = Some id /\ C' = clearTimeout id C
  | KeyDown _ => sets true KonamiT C C'
  | FormInput _ => sets true NotifyT C C'
  end.
Proof.
  destruct e as [| |k|e]; cbn [handle].
  - unfold window_load. rewrite on_subtitle_eq. cbn [fst snd]. rewrite on_embed_eq. cbn [fst snd].
    destruct (typing_load_frame TypingT (subtitle p) C) as [H1 N1].
    destruct (fallback_load_frame FallbackT (embed (remove_preload (set_subtitle (fst (Typing.window_load_at TypingT (subtitle p, C))) p)))
                (snd (Typing.window_load_at TypingT (subtitle p, C)))) as [H2 N2].
    split; [congruence | eauto].
  - rewrite on_embed_eq. unfold Fallback.player_load_at. cbn [fst snd].
    destruct (Fallback.load_listener (embed p)) as [id|]; split; eauto.
  - rewrite on_konami_eq. exact (conj (proj2 (keydown_frame KonamiT k _ C)) (proj1 (keydown_frame KonamiT k _ C))).
  - rewrite on_form_eq. exact (conj (proj2 (notify_handle_frame NotifyT e _ C)) (proj1 (notify_handle_frame NotifyT e _ C))).
Qed.

(** An event whose listeners belong to other components keeps a
    component's timers, given it keeps the component's view of the page. *)
Lemma handle_other {T Sc : Type} (lift : T -> task) (mine : task -> bool)
    (sim : (nat -> nat) -> Sc * timers T -> page -> Prop)
    (rho : nat -> nat) (st : Sc * timers T) (e : event) (p : page) (C : timers task) :
  agree lift mine sim rho st (p, C) -> sim rho st (fst (handle e (p, C))) -> listener_own (p, C) ->
  match e with
  | WindowLoad => (forall x, mine (TypingT x) = false) /\ (forall x, mine (FallbackT x) = false)
  | PlayerLoad => forall x, mine (FallbackT x) = false
  | KeyDown _ => forall x, mine (KonamiT x) = false
  | FormInput _ => forall x, mine (NotifyT x) = false
  end ->
  agree lift mine sim rho st (handle e (p, C)).
Proof.
  intros Ha Hs Hl Hm. destruct (handle_queue e p C) as [_ Hq]. destruct (handle e (p, C)) as [p' C'].
  split; [exact Hs|]. destruct Ha as [_ Hr]. cbn [snd] in *.
  destruct e as [| |k|e].
  - destruct Hm as [Hm1 Hm2]. destruct Hq as (C1 & H1 & H2).
    exact (related_sets_other _ _ _ _ _ _ _ _ (related_sets_other _ _ _ _ _ _ _ _ Hr Hm1 H1) Hm2 H2).
  - destruct Hq as [->|(id & Hid & ->)]; [exact Hr|]. apply related_clear_other; [exact Hr|].
    intros tm Hin Htm. apply (Hl id Hid tm Hin). unfold mine_tm in Htm.
    destruct (t_task tm); [reflexivity | now rewrite Hm in Htm | reflexivity | reflexivity].
  - exact (related_sets_other _ _ _ _ _ _ _ _ Hr Hm Hq).
  - exact (related_sets_other _ _ _ _ _ _ _ _ Hr Hm Hq).
Qed.

(** What each event does to each part of the page. *)
Lemma handle_konami (e : event) (p : page) (C : timers task) :
  konami (fst (handle e (p, C))) =
  match e with KeyDown k => fst (Konami.keydown_at KonamiT k (konami p, C)) | _ => konami p end.
Proof.
  destruct e; cbn [handle]; unfold window_load;
    rewrite ?on_subtitle_eq, ?on_embed_eq, ?on_konami_eq, ?on_form_eq; reflexivity.
Qed.

Lemma handle_form (e : event) (p : page) (C : timers task) :
  form (fst (handle e (p, C))) =
  match e with FormInput e0 => fst (Notify.handle_at NotifyT e0 (form p, C)) | _ => form p end.
Proof.
  destruct e; cbn [handle]; unfold window_load;
    rewrite ?on_subtitle_eq, ?on_embed_eq, ?on_konami_eq, ?on_form_eq; reflexivity.
Qed.

(** The typing effect's [load] listener schedules the start and changes
    nothing else. *)
Lemma handle_subtitle (e : event) (p : page) (C : timers task) :
  subtitle (fst (handle e (p, C))) = subtitle p.
Proof.
  destruct e; cbn [handle]; unfold window_load;
    rewrite ?on_subtitle_eq, ?on_embed_eq, ?on_konami_eq, ?on_form_eq; reflexivity.
Qed.

(** The page's callbacks keep its clock. *)
Lemma run_task_now (u : task) (p : page) (C : timers task) : now (snd (run_task u (p, C))) = now C.
Proof.
  destruct u as [t|t|t|t]; cbn [run_task];
    [rewrite on_subtitle_eq; apply (typing_run_frame TypingT t)
    | rewrite on_embed_eq; apply (fallback_run_frame FallbackT t)
    | rewrite on_konami_eq; apply (konami_run_frame KonamiT t)
    | rewrite on_form_eq; apply (notify_run_frame NotifyT t)].
Qed.

(** A clock behind [t] that settles at [t] shows [t]. *)
Lemma settled_now_eq {St T : Type} (run : T -> St * timers T -> St * timers T) (f : nat) (t : Z) (st : St * timers T) :
  (forall x s c, now (snd (run x (s, c))) = now c) -> (now (snd st) <= t)%Z ->
  settled t (snd (advance_to run f t st)) -> now (snd (advance_to run f t st)) = t.
Proof. intros Hr Hn [Hs _]. pose proof (advance_now_le run f t st Hr Hn). lia. Qed.

Lemma konami_queue (x : Konami.task) (s : Konami.state) (c : timers Konami.task) :
  queue (snd (Konami.run_task x (s, c))) = queue c /\ now (snd (Konami.run_task x (s, c))) = now c.
Proof. destruct x. split; reflexivity. Qed.

(** One page event, seen from the Konami code: a key press is the
    component's own [keydown] after its own timers up to that time; any
    other event leaves it where the clock has brought it. *)
Lemma konami_step (F : nat) (t t2 : Z) (e : event) (rho : nat -> nat)
    (SK : Konami.state * timers Konami.task) (pst : page * timers task) :
  inv KonamiT is_konami Konami.run_task simK rho t SK pst -> (t <= t2)%Z -> (now (snd SK) <= t)%Z ->
  (now (snd pst) <= t2)%Z -> settled t2 (snd (tick F t2 pst)) -> listener_own (tick F t2 pst) ->
  let SK' := match e with KeyDown k => Konami.keydown k (Konami.tick t2 SK) | _ => SK end in
  exists rho', inv KonamiT is_konami Konami.run_task simK rho' t2 SK' (handle e (tick F t2 pst)) /\
    (now (snd SK') <= t2)%Z.
Proof.
  intros Hi Ht HnS HnP HF Hl. cbv zeta. unfold tick in *.
  destruct (inv_tick KonamiT is_konami Konami.run_task run_task simK simK_next
              konami_run_mine konami_run_other rho t t2 F SK pst Hi Ht HF) as [rho1 Hi1].
  pose proof (settled_now_eq run_task F t2 pst (fun x s c => run_task_now x s c) HnP HF) as HnP1.
  destruct (advance_to run_task F t2 pst) as [p1 C1]. cbn [snd] in HnP1.
  destruct e as [| |k|e0]; cbv iota;
    try (exists rho1; destruct Hi1 as (f & Ha & Hs); split; [exists f; split; [|exact Hs]|lia];
         apply handle_other; [exact Ha | unfold simK; rewrite handle_konami; exact (proj1 Ha) | exact Hl | repeat split; intros; reflexivity]).
  assert (HX : settled t2 (snd (Konami.tick t2 SK))) by (apply advance_settles_nosched; intros; apply konami_queue).
  pose proof (inv_agree KonamiT is_konami Konami.run_task simK rho1 t2 _ SK (p1, C1) Hi1 HX) as HaX.
  assert (HnX : now (snd (Konami.tick t2 SK)) = t2)
    by (apply (settled_now_eq Konami.run_task); [intros; apply konami_queue | lia | exact HX]).
  change (advance_to Konami.run_task _ t2 SK) with (Konami.tick t2 SK) in HaX.
  destruct (Konami.tick t2 SK) as [s c]. destruct HaX as [Hs Hr]. cbn [handle]. rewrite on_konami_eq.
  unfold simK in Hs. cbn [fst snd] in Hs, Hr, HnX, HX. rewrite Hs.
  destruct (keydown_same k rho1 s c C1 Hr (eq_trans HnX (eq_sym HnP1))) as (rho2 & H1 & H2).
  destruct (keydown_frame (fun x => x) k s c) as [HS HN].
  exists rho2. split; [exists 0%nat; split; [split; [exact (eq_sym H2) | exact H1]|] | cbn [snd]; unfold Konami.keydown; lia].
  exact (settled_sets (fun x => x) t2 c _ HX HnX HS).
Qed.

(** *** The notify form *)

Definition simN (rho : nat -> nat) (st : Notify.form * timers Notify.task) (p : page) : Prop :=
  form p = fst st.

Lemma notify_run_mine (t : Notify.task) (rho : nat -> nat) (st : Notify.form * timers Notify.task) (pst : page * timers task) :
  agree NotifyT is_notify simN rho st pst -> now (snd st) = now (snd pst) ->
  exists rho', agree NotifyT is_notify simN rho' (Notify.run_task t st) (run_task (NotifyT t) pst).
Proof.
  destruct st as [s c], pst as [p C]. intros [Hs Hr] Hn. cbn [run_task]. rewrite on_form_eq.
  unfold simN in Hs. cbn [fst] in Hs. rewrite Hs.
  destruct (notify_run_same t rho s c C Hr Hn) as (rho' & H1 & H2). exists rho'. split; [exact (eq_sym H2) | exact H1].
Qed.

Lemma simN_next (rho : nat -> nat) (s : Notify.form) (c c' : timers Notify.task) (p : page) :
  next_id c' = next_id c -> simN rho (s, c) p -> simN rho (s, c') p.
Proof. intros _ H. exact H. Qed.

Lemma notify_run_other (u : task) (rho : nat -> nat) (st : Notify.form * timers Notify.task) (pst : page * timers task) :
  is_notify u = false -> agree NotifyT is_notify simN rho st pst -> agree NotifyT is_notify simN rho st (run_task u pst).
Proof. destruct pst as [p C]. intros Hu Ha. destruct u; [run_other_tac Ha | run_other_tac Ha | run_other_tac Ha | discriminate]. Qed.

Lemma notify_queue (x : Notify.task) (s : Notify.form) (c : timers Notify.task) :
  queue (snd (Notify.run_task x (s, c))) = queue c /\ now (snd (Notify.run_task x (s, c))) = now c.
Proof. destruct x as [o]. unfold Notify.run_task, Notify.run_task_at. destruct (Notify.notifyBtn s); split; reflexivity. Qed.

(** One page event, seen from the notify form. *)
Lemma notify_step (F : nat) (t t2 : Z) (e : event) (rho : nat -> nat)
    (SN : Notify.form * timers Notify.task) (pst : page * timers task) :
  inv NotifyT is_notify Notify.run_task simN rho t SN pst -> (t <= t2)%Z -> (now (snd SN) <= t)%Z ->
  (now (snd pst) <= t2)%Z -> settled t2 (snd (tick F t2 pst)) -> listener_own (tick F t2 pst) ->
  let SN' := match e with FormInput e0 => Notify.handle e0 (Notify.tick t2 SN) | _ => SN end in
  exists rho', inv NotifyT is_notify Notify.run_task simN rho' t2 SN' (handle e (tick F t2 pst)) /\
    (now (snd SN') <= t2)%Z.
Proof.
  intros Hi Ht HnS HnP HF Hl. cbv zeta. unfold tick in *.
  destruct (inv_tick NotifyT is_notify Notify.run_task run_task simN simN_next
              notify_run_mine notify_run_other rho t t2 F SN pst Hi Ht HF) as [rho1 Hi1].
  pose proof (settled_now_eq run_task F t2 pst (fun x s c => run_task_now x s c) HnP HF) as HnP1.
  destruct (advance_to run_task F t2 pst) as [p1 C1]. cbn [snd] in HnP1.
  destruct e as [| |k|e0]; cbv iota;
    try (exists rho1; destruct Hi1 as (f & Ha & Hs); split; [exists f; split; [|exact Hs]|lia];
         apply handle_other; [exact Ha | unfold simN; rewrite handle_form; exact (proj1 Ha) | exact Hl | repeat split; intros; reflexivity]).
  assert (HX : settled t2 (snd (Notify.tick t2 SN))) by (apply advance_settles_nosched; intros; apply notify_queue).
  pose proof (inv_agree NotifyT is_notify Notify.run_task simN rho1 t2 _ SN (p1, C1) Hi1 HX) as HaX.
  assert (HnX : now (snd (Notify.tick t2 SN)) = t2)
    by (apply (settled_now_eq Notify.run_task); [intros; apply notify_queue | lia | exact HX]).
  change (advance_to Notify.run_task _ t2 SN) with (Notify.tick t2 SN) in HaX.
  destruct (Notify.tick t2 SN) as [s c]. destruct HaX as [Hs Hr]. cbn [handle]. rewrite on_form_eq.
  unfold simN in Hs. cbn [fst snd] in Hs, Hr, HnX, HX. rewrite Hs.
  destruct (notify_handle_same e0 rho1 s c C1 Hr (eq_trans HnX (eq_sym HnP1))) as (rho2 & H1 & H2).
  destruct (notify_handle_frame (fun x => x) e0 s c) as [HS HN].
  exists rho2. split; [exists 0%nat; split; [split; [exact (eq_sym H2) | exact H1]|] | cbn [snd]; unfold Notify.handle; lia].
  exact (settled_sets (fun x => x) t2 c _ HX HnX HS).
Qed.

(** *** The typing effect *)

Definition simT (rho : nat -> nat) (st : Typing.typer * timers Typing.task) (p : page) : Prop :=
  subtitle p = fst st.

Lemma simT_next (rho : nat -> nat) (s : Typing.typer) (c c' : timers Typing.task) (p : page) :
  next_id c' = next_id c -> simT rho (s, c) p -> simT rho (s, c') p.
Proof. intros _ H. exact H. Qed.

Lemma typing_run_mine (t : Typing.task) (rho : nat -> nat) (st : Typing.typer * timers Typing.task) (pst : page * timers task) :
  agree TypingT is_typing simT rho st pst -> now (snd st) = now (snd pst) ->
  exists rho', agree TypingT is_typing simT rho' (Typing.run_task t st) (run_task (TypingT t) pst).
Proof.
  destruct st as [s c], pst as [p C]. intros [Hs Hr] Hn. cbn [run_task]. rewrite on_subtitle_eq.
  unfold simT in Hs. cbn [fst] in Hs. rewrite Hs.
  destruct (typing_run_same t rho s c C Hr Hn) as (rho' & H1 & H2). exists rho'. split; [exact (eq_sym H2) | exact H1].
Qed.

Lemma typing_run_other (u : task) (rho : nat -> nat) (st : Typing.typer * timers Typing.task) (pst : page * timers task) :
  is_typing u = false -> agree TypingT is_typing simT rho st pst -> agree TypingT is_typing simT rho st (run_task u pst).
Proof. destruct pst as [p C]. intros Hu Ha. destruct u; [discriminate | run_other_tac Ha | run_other_tac Ha | run_other_tac Ha]. Qed.

Lemma typing_now (x : Typing.task) (s : Typing.typer) (c : timers Typing.task) :
  now (snd (Typing.run_task x (s, c))) = now c.
Proof. exact (proj2 (typing_run_frame (fun x => x) x s c)). Qed.

(** One page event, seen from the typing effect: its clock runs with the
    page's, and the window's [load] runs its listener first. *)
Lemma typing_step (F : nat) (t t2 : Z) (e : event) (rho : nat -> nat)
    (ST : Typing.typer * timers Typing.task) (pst : page * timers task) :
  agree TypingT is_typing simT rho ST pst -> (now (snd ST) <= t)%Z -> (t <= t2)%Z ->
  (now (snd pst) <= t2)%Z -> settled t2 (snd (tick F t2 pst)) -> listener_own (tick F t2 pst) ->
  let X := Typing.tick (S F) t2 ST in
  let ST' := match e with WindowLoad => Typing.window_load X | _ => X end in
  exists rho', agree TypingT is_typing simT rho' ST' (handle e (tick F t2 pst)) /\
    settled t2 (snd ST') /\ now (snd ST') = t2.
Proof.
  intros Ha HnS Ht HnP HF Hl. cbv zeta. unfold tick in *.
  destruct (advance_sim TypingT is_typing Typing.run_task run_task simT simT_next typing_run_mine
              typing_run_other F t2 rho ST pst Ha HF) as (rho1 & Ha1 & HX).
  pose proof (settled_now_eq run_task F t2 pst (fun x s c => run_task_now x s c) HnP HF) as HnP1.
  assert (HnX : now (snd (advance_to Typing.run_task (S F) t2 ST)) = t2)
    by (apply (settled_now_eq Typing.run_task); [exact typing_now | lia | exact HX]).
  change (advance_to Typing.run_task (S F) t2 ST) with (Typing.tick (S F) t2 ST) in *.
  destruct (advance_to run_task F t2 pst) as [p1 C1]. cbn [snd] in HnP1.
  destruct e as [| |k|e0]; cbv iota;
    try (exists rho1; split; [|split; assumption];
         apply handle_other; [exact Ha1 | unfold simT; rewrite handle_subtitle; exact (proj1 Ha1) | exact Hl
                             | repeat split; intros; reflexivity]).
  destruct (Typing.tick (S F) t2 ST) as [s c]. destruct Ha1 as [Hs Hr]. unfold simT in Hs. cbn [fst snd] in *.
  destruct (typing_load_same rho1 s c C1 Hr (eq_trans HnX (eq_sym HnP1))) as (rho2 & H1 & H2).
  destruct (typing_load_frame (fun x => x) s c) as [HS HN].
  exists rho2. split; [split|split; [exact (settled_sets (fun x => x) t2 c _ HX HnX HS) | cbn; lia]].
  - unfold simT. rewrite handle_subtitle. exact Hs.
  - cbn [handle]. unfold window_load. rewrite on_subtitle_eq. cbn [fst snd]. rewrite on_embed_eq. cbn [snd].
    rewrite Hs. apply (related_sets_other true TypingT is_typing FallbackT rho2 _ _ _ H1 (fun _ => eq_refl)).
    apply fallback_load_frame.
Qed.

(** *** The embed fallback *)

(** The page holds the fallback's displays, and its listener's id is the
    renamed one of an id the component has issued. *)
Definition simF (rho : nat -> nat) (st : Fallback.embed * timers Fallback.task) (p : page) : Prop :=
  Fallback.player_display (embed p) = Fallback.player_display (fst st) /\
  Fallback.fallback_display (embed p) = Fallback.fallback_display (fst st) /\
  Fallback.load_listener (embed p) = option_map rho (Fallback.load_listener (fst st)) /\
  (forall id, Fallback.load_listener (fst st) = Some id -> (id < next_id (snd st))%nat).

Lemma simF_next (rho : nat -> nat) (s : Fallback.embed) (c c' : timers Fallback.task) (p : page) :
  next_id c' = next_id c -> simF rho (s, c) p -> simF rho (s, c') p.
Proof. intros E (H1 & H2 & H3 & H4). repeat split; auto. cbn [snd]. rewrite E. exact H4. Qed.

Lemma fallback_run_mine (t : Fallback.task) (rho : nat -> nat) (st : Fallback.embed * timers Fallback.task) (pst : page * timers task) :
  agree FallbackT is_fallback simF rho st pst -> now (snd st) = now (snd pst) ->
  exists rho', agree FallbackT is_fallback simF rho' (Fallback.run_task t st) (run_task (FallbackT t) pst).
Proof.
  destruct st as [s c], pst as [p C]. intros [(H1 & H2 & H3 & H4) Hr] _. exists rho. destruct t.
  cbn [run_task]. rewrite on_embed_eq. split; [|exact Hr]. cbn. repeat split; auto.
Qed.

Lemma fallback_run_other (u : task) (rho : nat -> nat) (st : Fallback.embed * timers Fallback.task) (pst : page * timers task) :
  is_fallback u = false -> agree FallbackT is_fallback simF rho st pst -> agree FallbackT is_fallback simF rho st (run_task u pst).
Proof. destruct pst as [p C]. intros Hu Ha. destruct u; [run_other_tac Ha | discriminate | run_other_tac Ha | run_other_tac Ha]. Qed.

Lemma fallback_queue (x : Fallback.task) (s : Fallback.embed) (c : timers Fallback.task) :
  queue (snd (Fallback.run_task x (s, c))) = queue c /\ now (snd (Fallback.run_task x (s, c))) = now c.
Proof. destruct x. split; reflexivity. Qed.

(** The fallback's view of the page gives [listener_own]. *)
Lemma agree_listener_own (rho : nat -> nat) (st : Fallback.embed * timers Fallback.task) (pst : page * timers task) :
  agree FallbackT is_fallback simF rho st pst -> listener_own pst.
Proof.
  intros [(_ & _ & Hl & Hlt) Hr] id Hid tm Hin Hm. rewrite Hid in Hl.
  destruct (Fallback.load_listener (fst st)) as [a|]; [|discriminate]. injection Hl as ->.
  apply (rel_others _ _ _ _ _ Hr tm a Hin); [exact Hm | exact (Hlt a eq_refl)].
Qed.

Lemma inv_listener_own (rho : nat -> nat) (t : Z) (st : Fallback.embed * timers Fallback.task) (pst : page * timers task) :
  inv FallbackT is_fallback Fallback.run_task simF rho t st pst -> listener_own pst.
Proof. intros (f & Ha & _). exact (agree_listener_own _ _ _ Ha). Qed.

Lemma handle_embed_other (e : event) (p : page) (C : timers task) :
  (e <> WindowLoad /\ e <> PlayerLoad) -> embed (fst (handle e (p, C))) = embed p.
Proof. intros [H1 H2]. destruct e; try congruence; cbn [handle]; rewrite ?on_konami_eq, ?on_form_eq; reflexivity. Qed.

(** The window's [load] event, seen from the fallback: the typing
    effect's listener first, then the fallback's own. *)
Lemma fallback_load_own (rho : nat -> nat) (s : Fallback.embed) (c : timers Fallback.task) (p : page) (C : timers task) :
  agree FallbackT is_fallback simF rho (s, c) (p, C) -> now c = now C ->
  exists rho', agree FallbackT is_fallback simF rho' (Fallback.window_load (s, c)) (handle WindowLoad (p, C)).
Proof.
  intros [(H1 & H2 & H3 & H4) Hr] Hn. cbn [handle]. unfold window_load. rewrite on_subtitle_eq. cbn [fst snd].
  rewrite on_embed_eq. cbn [embed remove_preload set_subtitle].
  destruct (typing_load_frame TypingT (subtitle p) C) as [HS HN].
  set (C' := snd (Typing.window_load_at TypingT (subtitle p, C))) in *.
  pose proof (related_sets_other true FallbackT is_fallback TypingT rho c C C' Hr (fun _ => eq_refl) HS) as Hr'.
  destruct (related_setTimeout FallbackT is_fallback fallback_mine rho c C' Fallback.ShowFallback 5000 Hr' ltac:(congruence))
    as [Hr'' _].
  exists (extend rho (next_id c) (next_id C')). split; [|exact Hr''].
  cbn. repeat split; auto.
  - cbn. unfold extend. now rewrite Nat.eqb_refl.
  - cbn. intros id [= <-]. lia.
Qed.

(** The player's [load] event: the fallback's listener clears its timer. *)
Lemma fallback_player_own (rho : nat -> nat) (s : Fallback.embed) (c : timers Fallback.task) (p : page) (C : timers task) :
  agree FallbackT is_fallback simF rho (s, c) (p, C) ->
  agree FallbackT is_fallback simF rho (Fallback.player_load (s, c)) (handle PlayerLoad (p, C)).
Proof.
  intros [(H1 & H2 & H3 & H4) Hr]. cbn [handle]. rewrite on_embed_eq.
  unfold Fallback.player_load, Fallback.player_load_at. cbn [fst snd] in *. rewrite H3.
  destruct (Fallback.load_listener s) as [a|] eqn:Ea; cbn [option_map] in *.
  - split; [repeat split; cbn; rewrite ?Ea; auto | apply related_clearTimeout; [exact Hr | exact (H4 a eq_refl)]].
  - split; [repeat split; cbn; rewrite ?Ea; auto | exact Hr].
Qed.

(** One page event, seen from the fallback. *)
Lemma fallback_step (F : nat) (t t2 : Z) (e : event) (rho : nat -> nat)
    (SF : Fallback.embed * timers Fallback.task) (pst : page * timers task) :
  inv FallbackT is_fallback Fallback.run_task simF rho t SF pst -> (t <= t2)%Z -> (now (snd SF) <= t)%Z ->
  (now (snd pst) <= t2)%Z -> settled t2 (snd (tick F t2 pst)) ->
  let SF' := match e with
             | WindowLoad => Fallback.window_load (Fallback.tick t2 SF)
             | PlayerLoad => Fallback.player_load (Fallback.tick t2 SF)
             | _ => SF end in
  exists rho', inv FallbackT is_fallback Fallback.run_task simF rho' t2 SF' (handle e (tick F t2 pst)) /\
    (now (snd SF') <= t2)%Z.
Proof.
  intros Hi Ht HnS HnP HF. cbv zeta. unfold tick in *.
  destruct (inv_tick FallbackT is_fallback Fallback.run_task run_task simF simF_next
              fallback_run_mine fallback_run_other rho t t2 F SF pst Hi Ht HF) as [rho1 Hi1].
  pose proof (settled_now_eq run_task F t2 pst (fun x s c => run_task_now x s c) HnP HF) as HnP1.
  destruct (advance_to run_task F t2 pst) as [p1 C1]. cbn [snd] in HnP1.
  pose proof (inv_listener_own _ _ _ _ Hi1) as Hl.
  assert (HX : settled t2 (snd (Fallback.tick t2 SF))) by (apply advance_settles_nosched; intros; apply fallback_queue).
  pose proof (inv_agree FallbackT is_fallback Fallback.run_task simF rho1 t2 _ SF (p1, C1) Hi1 HX) as HaX.
  assert (HnX : now (snd (Fallback.tick t2 SF)) = t2)
    by (apply (settled_now_eq Fallback.run_task); [intros; apply fallback_queue | lia | exact HX]).
  change (advance_to Fallback.run_task _ t2 SF) with (Fallback.tick t2 SF) in HaX.
  destruct e as [| |k|e0]; cbv iota.
  3, 4: exists rho1; destruct Hi1 as (f & Ha & Hs); (split; [exists f; split; [|exact Hs]|lia]);
        apply handle_other; [exact Ha | | exact Hl | intros; reflexivity];
        destruct (proj1 Ha) as (E1 & E2 & E3 & E4); unfold simF; rewrite handle_embed_other by (split; discriminate);
        auto.
  all: destruct (Fallback.tick t2 SF) as [s c]; cbn [snd] in HX, HnX.
  - destruct (fallback_load_own rho1 s c p1 C1 HaX ltac:(congruence)) as [rho2 Ha2].
    destruct (fallback_load_frame (fun x => x) s c) as [HS HN].
    exists rho2. split; [exists 0%nat; split; [exact Ha2 | exact (settled_sets (fun x => x) t2 c _ HX HnX HS)] | cbn; lia].
  - exists rho1. split; [exists 0%nat; split; [exact (fallback_player_own rho1 s c p1 C1 HaX)|] | ].
    + unfold Fallback.player_load, Fallback.player_load_at. destruct (Fallback.load_listener s); [|exact HX].
      destruct HX as [HX1 HX2]. split; [exact HX1|]. intros tm Hin. apply filter_In in Hin as [Hin _]. now apply HX2.
    + unfold Fallback.player_load, Fallback.player_load_at. destruct (Fallback.load_listener s); cbn; lia.
Qed.

(** ** The page refines its components *)

(** Each component's own events among the page's. *)
Fixpoint keys (evs : list (Z * event)) : list (Z * string) :=
  match evs with
  | [] => []
  | (t, KeyDown k) :: rest => (t, k) :: keys rest
  | _ :: rest => keys rest
  end.

Fixpoint form_events (evs : list (Z * event)) : list (Z * Notify.event) :=
  match evs with
  | [] => []
  | (t, FormInput e) :: rest => (t, e) :: form_events rest
  | _ :: rest => form_events rest
  end.

Fixpoint embed_events (evs : list (Z * event)) : list (Z * Fallback.event) :=
  match evs with
  | [] => []
  | (t, WindowLoad) :: rest => (t, Fallback.WindowLoad) :: embed_events rest
  | (t, PlayerLoad) :: rest => (t, Fallback.PlayerLoad) :: embed_events rest
  | _ :: rest => embed_events rest
  end.

(** The typing effect alone, its clock let run to each event's time. *)
Fixpoint typing_alone (fuel : nat) (evs : list (Z * event)) (st : Typing.typer * timers Typing.task)
  : Typing.typer * timers Typing.task :=
  match evs with
  | [] => st
  | (t, e) :: rest =>
      let st1 := Typing.tick fuel t st in
      typing_alone fuel rest (match e with WindowLoad => Typing.window_load st1 | _ => st1 end)
  end.

(** Event times from [t] on, in order, up to [T]. *)
Fixpoint ordered (t : Z) (evs : list (Z * event)) (T : Z) : Prop :=
  match evs with
  | [] => (t <= T)%Z
  | (t2, _) :: rest => (t <= t2)%Z /\ ordered t2 rest T
  end.

(** With [fuel] firings the page's timers settle at every event and at [T]. *)
Fixpoint settles (fuel : nat) (evs : list (Z * event)) (T : Z) (st : page * timers task) : bool :=
  match evs with
  | [] => settled_b T (snd (tick fuel T st))
  | (t, e) :: rest => settled_b t (snd (tick fuel t st)) && settles fuel rest T (handle e (tick fuel t st))
  end.

(** What the page shows of each component. *)
Definition views (F : nat) (T : Z) (r : page) (SK : Konami.state * timers Konami.task)
    (SN : Notify.form * timers Notify.task) (SF : Fallback.embed * timers Fallback.task)
    (ST : Typing.typer * timers Typing.task) : Prop :=
  konami r = fst (Konami.tick T SK) /\ form r = fst (Notify.tick T SN) /\
  Fallback.player_display (embed r) = Fallback.player_display (fst (Fallback.tick T SF)) /\
  Fallback.fallback_display (embed r) = Fallback.fallback_display (fst (Fallback.tick T SF)) /\
  subtitle r = fst (Typing.tick (S F) T ST).

(** At the end: every component's clock let run to [T]. *)
Lemma views_end (F : nat) (t T : Z) (pst : page * timers task) rhoK rhoN rhoF rhoT SK SN SF ST :
  inv KonamiT is_konami Konami.run_task simK rhoK t SK pst ->
  inv NotifyT is_notify Notify.run_task simN rhoN t SN pst ->
  inv FallbackT is_fallback Fallback.run_task simF rhoF t SF pst ->
  agree TypingT is_typing simT rhoT ST pst -> (t <= T)%Z -> settled T (snd (tick F T pst)) ->
  views F T (fst (tick F T pst)) SK SN SF ST.
Proof.
  intros HK HN HF HT Ht HS. unfold tick in *.
  destruct (inv_tick _ _ _ _ _ simK_next konami_run_mine konami_run_other _ _ _ _ _ _ HK Ht HS) as [rK HK'].
  destruct (inv_tick _ _ _ _ _ simN_next notify_run_mine notify_run_other _ _ _ _ _ _ HN Ht HS) as [rN HN'].
  destruct (inv_tick _ _ _ _ _ simF_next fallback_run_mine fallback_run_other _ _ _ _ _ _ HF Ht HS) as [rF HF'].
  destruct (advance_sim _ _ _ _ _ simT_next typing_run_mine typing_run_other F T _ _ _ HT HS) as (rT & HT' & _).
  pose proof (inv_agree _ _ _ _ _ _ _ _ _ HK' (advance_settles_nosched _ T SK (fun x s c => proj1 (konami_queue x s c)))) as [EK _].
  pose proof (inv_agree _ _ _ _ _ _ _ _ _ HN' (advance_settles_nosched _ T SN (fun x s c => proj1 (notify_queue x s c)))) as [EN _].
  pose proof (inv_agree _ _ _ _ _ _ _ _ _ HF' (advance_settles_nosched _ T SF (fun x s c => proj1 (fallback_queue x s c)))) as [(E1 & E2 & _) _].
  destruct HT' as [ET _]. repeat split; assumption.
Qed.

(** The page's queue after an event's listeners shows the event's time. *)
Lemma handle_now (F : nat) (t t2 : Z) (e : event) (pst : page * timers task) :
  (now (snd pst) <= t2)%Z -> settled t2 (snd (tick F t2 pst)) -> (now (snd (handle e (tick F t2 pst))) <= t2)%Z.
Proof.
  intros Hn HS. unfold tick in *.
  pose proof (settled_now_eq run_task F t2 pst (fun x s c => run_task_now x s c) Hn HS) as E.
  destruct (advance_to run_task F t2 pst) as [p1 C1]. destruct (handle_queue e p1 C1) as [H _]. cbn in *. lia.
Qed.

(** The components through a session: by induction on the events, each
    step given by the component's step lemma. *)
Lemma session_views (F : nat) (evs : list (Z * event)) :
  forall t T pst rhoK rhoN rhoF rhoT SK SN SF ST,
  inv KonamiT is_konami Konami.run_task simK rhoK t SK pst ->
  inv NotifyT is_notify Notify.run_task simN rhoN t SN pst ->
  inv FallbackT is_fallback Fallback.run_task simF rhoF t SF pst ->
  agree TypingT is_typing simT rhoT ST pst ->
  (now (snd SK) <= t)%Z -> (now (snd SN) <= t)%Z -> (now (snd SF) <= t)%Z -> (now (snd ST) <= t)%Z ->
  (now (snd pst) <= t)%Z -> ordered t evs T -> settles F evs T pst = true ->
  views F T (fst (tick F T (session F evs pst))) (Konami.session (keys evs) SK)
    (Notify.session (form_events evs) SN) (Fallback.session (embed_events evs) SF) (typing_alone (S F) evs ST).
Proof.
  induction evs as [|[t2 e] rest IH];
    intros t T pst rhoK rhoN rhoF rhoT SK SN SF ST HK HN HF HT HnK HnN HnF HnT HnP Hord Hs;
    cbn [ordered settles session] in *.
  - exact (views_end F t T pst _ _ _ _ SK SN SF ST HK HN HF HT Hord (settled_b_true _ _ Hs)).
  - destruct Hord as [Ht Hord]. apply andb_true_iff in Hs as [Hs1 Hs2]. apply settled_b_true in Hs1.
    assert (HnP2 : (now (snd pst) <= t2)%Z) by lia.
    assert (Hl : listener_own (tick F t2 pst)).
    { destruct (inv_tick _ _ _ _ _ simF_next fallback_run_mine fallback_run_other _ _ _ _ _ _ HF Ht Hs1) as [r Hr].
      exact (inv_listener_own _ _ _ _ Hr). }
    destruct (konami_step F t t2 e rhoK SK pst HK Ht HnK HnP2 Hs1 Hl) as (rK & HK' & HnK').
    destruct (notify_step F t t2 e rhoN SN pst HN Ht HnN HnP2 Hs1 Hl) as (rN & HN' & HnN').
    destruct (fallback_step F t t2 e rhoF SF pst HF Ht HnF HnP2 Hs1) as (rF & HF' & HnF').
    destruct (typing_step F t t2 e rhoT ST pst HT HnT Ht HnP2 Hs1 Hl) as (rT & HT' & _ & HnT').
    replace (Konami.session (keys ((t2, e) :: rest)) SK)
      with (Konami.session (keys rest) (match e with KeyDown k => Konami.keydown k (Konami.tick t2 SK) | _ => SK end))
      by (destruct e; reflexivity).
    replace (Notify.session (form_events ((t2, e) :: rest)) SN)
      with (Notify.session (form_events rest) (match e with FormInput e0 => Notify.handle e0 (Notify.tick t2 SN) | _ => SN end))
      by (destruct e; reflexivity).
    replace (Fallback.session (embed_events ((t2, e) :: rest)) SF)
      with (Fallback.session (embed_events rest)
              (match e with
               | WindowLoad => Fallback.window_load (Fallback.tick t2 SF)
               | PlayerLoad => Fallback.player_load (Fallback.tick t2 SF)
               | _ => SF end))
      by (destruct e; reflexivity).
    cbn [typing_alone].
    exact (IH t2 T _ rK rN rF rT _ _ _ _ HK' HN' HF' HT' HnK' HnN' HnF' ltac:(lia)
              (handle_now F t t2 e pst HnP2 Hs1) Hord Hs2).
Qed.

End PageProps.

Module PageClaims.
Import Page PageProps.

(** The window's [load] event removes [preload] from the body's classes. *)
Lemma load_removes_preload (st : page * timers task) :
  ClassList.contains "preload" (body_classes (fst (handle WindowLoad st))) = false.
Proof.
  destruct st as [p C]. cbn [handle]. unfold window_load. rewrite on_subtitle_eq. cbn [fst snd].
  rewrite on_embed_eq. cbn [fst body_classes set_embed remove_preload set_subtitle]. apply contains_remove.
Qed.

(** C10: The page refines its components.  On the page the typing
    effect, the embed fallback, the Konami code and the notify form share
    the browser's one timer queue (one id counter, one firing order), and
    the window's [load] event runs the typing, [preload] and fallback
    listeners in registration order.  For any events at ordered times from
    a page with an empty queue and no player listener yet, with enough
    firings per tick for the page's timers to settle, at time [T] each
    component shows exactly what its own model computes from its own
    events: the Konami state and the form are those of [Konami.session]
    and [Notify.session], the player and fallback displays those of
    [Fallback.session], and the subtitle that of the typing effect run
    alone.  So the fallback's [clearTimeout] hits only its own timer and
    no component's timers disturb another's. *)
Theorem page_refines (F : nat) (t0 T : Z) (evs : list (Z * event)) (p0 : page) :
  Fallback.load_listener (embed p0) = None -> ordered t0 evs T -> settles F evs T (p0, no_timers t0) = true ->
  let r := fst (tick F T (session F evs (p0, no_timers t0))) in
  konami r = fst (Konami.tick T (Konami.session (keys evs) (konami p0, no_timers t0))) /\
  form r = fst (Notify.tick T (Notify.session (form_events evs) (form p0, no_timers t0))) /\
  Fallback.player_display (embed r) =
    Fallback.player_display (fst (Fallback.tick T (Fallback.session (embed_events evs) (embed p0, no_timers t0)))) /\
  Fallback.fallback_display (embed r) =
    Fallback.fallback_display (fst (Fallback.tick T (Fallback.session (embed_events evs) (embed p0, no_timers t0)))) /\
  subtitle r = fst (Typing.tick (S F) T (typing_alone (S F) evs (subtitle p0, no_timers t0))).
Proof.
  intros Hl Hord Hs. cbv zeta.
  apply (session_views F evs t0 T _ (fun x => x) (fun x => x) (fun x => x) (fun x => x)); cbn; try lia;
    try exact Hord; try exact Hs;
    try (exists 0%nat; split; [split; [reflexivity | apply related_empty] | apply settled_empty]).
  - exists 0%nat. split; [split; [|apply related_empty] | apply settled_empty].
    unfold simF. cbn [advance_to fst snd]. rewrite Hl. cbn. repeat split. discriminate.
  - split; [reflexivity | apply related_empty].
Qed.

End PageClaims.

Module PageWitnesses.
Import Page PageProps PageClaims.

Definition demo_page : page :=
  Page [] [] ["preload"] [] (Typing.Typer (list_ascii_of_string "Live") 0)
       (Fallback.Embed "block" "none" None) Konami.initial
       (Notify.Form (Some "fan@example.org") (Some "Notify Me") ∅).

(** Load at 0, a key at 100, a submission at 200, the player's load at
    6000 (after the fallback fired at 5000), observed at 10000. *)
Definition demo_events : list (Z * event) :=
  [(0, WindowLoad); (100, KeyDown "a"); (200, FormInput Notify.Submit); (6000, PlayerLoad)]%Z.

Lemma page_refines_witness :
  (Fallback.load_listener (embed demo_page) = None /\ ordered 0 demo_events 10000 /\
   settles 20 demo_events 10000 (demo_page, no_timers 0) = true) /\
  (let r := fst (tick 20 10000 (session 20 demo_events (demo_page, no_timers 0))) in
   konami r = fst (Konami.tick 10000 (Konami.session (keys demo_events) (konami demo_page, no_timers 0))) /\
   form r = fst (Notify.tick 10000 (Notify.session (form_events demo_events) (form demo_page, no_timers 0))) /\
   Fallback.player_display (embed r) =
     Fallback.player_display (fst (Fallback.tick 10000 (Fallback.session (embed_events demo_events) (embed demo_page, no_timers 0)))) /\
   Fallback.fallback_display (embed r) =
     Fallback.fallback_display (fst (Fallback.tick 10000 (Fallback.session (embed_events demo_events) (embed demo_page, no_timers 0)))) /\
   subtitle r = fst (Typing.tick 21 10000 (typing_alone 21 demo_events (subtitle demo_page, no_timers 0)))) /\
  Fallback.fallback_display (embed (fst (tick 20 10000 (session 20 demo_events (demo_page, no_timers 0))))) = "block".
Proof.
  assert (H : Fallback.load_listener (embed demo_page) = None /\ ordered 0 demo_events 10000 /\
              settles 20 demo_events 10000 (demo_page, no_timers 0) = true)
    by (split; [reflexivity | split; [cbn; lia | vm_compute; reflexivity]]).
  split; [exact H | split; [apply (page_refines 20 0 10000 demo_events demo_page); apply H | vm_compute; reflexivity]].
Defined.

End PageWitnesses.
